(* ===== verification/_CoqProject ===== *)
-Q . S2P
Prelude.v
GoStr.v
Aes.v
Md5.v
Codec.v
Json.v
RawJson.v
Degrade.v
Semaphore.v
Hub.v
HubSpec.v
Sql.v
Time.v
Env.v
Db.v
Metrics.v
Observe.v
RateLimit.v
Auth.v
Cache.v
Registry.v
Scheduler.v
Models.v
Match.v
Builders.v
WsText.v
WsChat.v
Svc.v
Logic.v
Calls.v
Answers.v
Transport.v
Gateway.v
Front.v
System.v
Main.v
