(* ===== verification/Prelude.v ===== *)
(** * apipro: a verification development

    apipro is the back end of a live-sports site, written in Go.  Two processes
    share the code under src/.

    The API gateway (src/cmd/api) speaks HTTP to the public.  Clients of the
    encrypted routes send a JSON envelope, AES-encrypted and framed; the
    middleware of src/pkg/codec decrypts it, runs the route's handler and
    encrypts the answer.  JSONP routes serve the display pages and leave a
    snapshot of each on disk.  Both kinds of handler forward to one RPC method
    of the second process.

    The RPC server (src/cmd/rpc) implements that method, [Call]: it dispatches
    on a method name to login, registration, sessions, SMS codes and the
    display pages, over MySQL or SQLite (src/common/model, src/common/db),
    Redis (sessions, counters, locks, cache) and the in-process cache of
    src/common/cache.  A state machine of degrade modes (src/common/degrade)
    closes classes of methods while the services it depends on fail, a
    semaphore bounds the database calls, refresh jobs keep the cache warm, and
    src/pkg/wschat is the chat server of the live rooms.

    ** How the model is built

    Pure code is a function.  Code with effects is a program tree ([prog],
    in Env.v): it asks the world for one effect at a time -- a Redis command,
    the clock, random bytes, a statement, an access to a lock-protected state
    of the process -- and goes on with the answer; [go] starts a goroutine.
    The world is a parameter with the laws of [Laws]: a Redis that is up does
    what its commands document, one that fails answers an error and has done
    the command or not, the clock does not run backwards, and the process's own
    memory (degrade manager, counters, hub, semaphore) steps as its file says.
    Theorems about a handler speak of [run p w = (answer, w')] in any lawful
    world ([run] finishes a goroutine where it is started; [detach] leaves it
    behind, for the theorem about the cache's write-back), or of every interleaving ([sched], and the step relations of
    Degrade.v, Semaphore.v and Scheduler.v) where concurrency matters.  [MiniWorld] is a
    concrete lawful world: the witnesses compute in it.

    Go integers are [Z], wrapped where the source can overflow; strings are
    lists of bytes; a returned error is a value of [error]; maps are gmaps, and
    where the source ranges over one the order is the world's choice ([pick]).

    ** The files, and the code they model

    Shared ground.
    - Prelude.v: errors, the state monad, machine integers, list and byte
      lemmas, tactics.
    - GoStr.v: the Go string functions in use (utf8, strings, strconv, hex,
      base64).  Json.v, RawJson.v: encoding/json down to the bytes.  Time.v:
      civil dates.  Sql.v: what Scan does to driver values.
    - Env.v: programs, worlds, laws, interleaving; Answers.v: the judgement
      [post] for what a program can return in any world.

    Components.
    - Aes.v, Codec.v: src/pkg/codec/codec.go (padding, ECB, frames).
      Md5.v: the digest used by passwords.
    - Degrade.v: src/common/degrade/degrade.go.
    - Semaphore.v, Db.v: src/common/db/semaphore.go and db.go.
    - Observe.v, Metrics.v: src/common/observability (request ids, middlewares;
      metric groups).
    - RateLimit.v: src/common/ratelimit (the per-IP window, the rule engine and
      both middlewares).
    - Auth.v: [Pwd] and [Session] are src/common/auth, [Sms] is
      src/cmd/rpc/internal/svc/sms_store.go.
    - Cache.v: [Legacy], [Fallback], [Multi] are cache.go, fallback.go and
      manager.go of src/common/cache; Scheduler.v is cache.go's refresh
      scheduler, Registry.v the breakers, counters and metric groups made on
      first use.
    - Models.v, Match.v: src/common/model, one Module per table.
    - Builders.v, Svc.v: builders.go and serviceContext.go of
      src/cmd/rpc/internal/svc.
    - Logic.v: src/cmd/rpc/internal/logic/call.go, every method; Calls.v holds
      its theorems.
    - Hub.v, WsText.v, WsChat.v: src/pkg/wschat (shared state, text and frames,
      handlers and pumps); HubSpec.v is the hub's specification.
    - Transport.v: src/pkg/codec/middleware.go.  Gateway.v: the handlers,
      routes and wiring of src/cmd/api; Front.v holds the theorems about both.
    - Main.v: the two main functions (src/cmd/api/apipro.go,
      src/cmd/rpc/apipro.go), statement by statement, and what the gateway
      makes of a request.
    - System.v: no code of its own; theorems about the RPC handlers, the chat
      and the database rows together.

    ** What the theorems show

    - End to end: a call through the encrypted route reaches the RPC service
      with the client's parameter, and its answer comes back unchanged
      ([rpc_over_transport]); a body that does not decrypt reaches no handler.
      Padding, encryption, frames and envelopes round trip, and the set of
      accepted frames is exact.  Every request with a route passes the global
      limiter before its handler runs, and a refused one changes nothing else
      ([gateway_answers]).
    - Across the processes: the token of a successful login binds a chat
      connection to the user whose password was checked and opens the user
      page until the half hour is over ([login_opens_doors]); a logout takes it
      from both ([logout_closes_doors]); who registers can log in, the row
      being read back through the columns it was bound to
      ([registered_logs_in]).
    - Accounts: a login that succeeds has checked the row it answers with; ten
      wrong logins lock the phone out, whatever happens between them and after; refreshing replaces both tokens and revoking
      is final; an SMS code and a captcha are good once, and a number is sent
      one code per minute.
    - Resources: every call gives back the database tokens it takes; a request
      gives back its concurrency slots, others taking theirs meanwhile, unless
      the counter expires under it ([release_after_expiry]); the semaphore's counters are what the goroutines hold and
      no waiter is forgotten; the degrade manager's notifications end and wait for
      no consumer; metric groups are registered once; a name has one
      breaker and a family one counter, which loses no addition, however the
      calls interleave.
    - Cache: what a read returns came from its loader, from the loader of the
      call whose flight it joined, or from a cache level that held it; once the
      write-back of a load has finished, reads find it until it expires;
      invalidation removes exactly the family and counts what it removed; a
      refresh job runs at most once per period, and once at the start, never
      two runs at a time; the
      scheduler is up as long as the server answers.
    - Chat: the hub refines a specification of rooms and bounded queues, its
      invariant holds after any accesses, a comment is posted only past every
      check, and each refusal says which one failed, and the history replays what was persisted.
    - Service: every answer of [Call] has one of twelve codes, carries a result
      exactly on success and echoes the request's number and session; with the
      write level closed nothing is registered; uids follow their counter,
      which is above every stored uid unless it was found behind.
    - Opening the database runs the schema's statements in order and stops at
      the first that fails; a MySQL that does not answer the ping is handed out
      all the same.
    - Some theorems and examples show behaviour that departs from the
      comments: races in the SMS check and in the limiter's Acquire, watchers
      of the degrade mode left with a stale mode, poisoned cache entries, a
      stale session that closes registration, an unreadable warmed catalogue,
      limits that a space before the phone evades, a refresh that opens a new
      window of thirty days, a counter of uids behind the users table, a CORS preflight that no
      route answers; docs/API.md lists the endpoints of another program.

    ** Bounds and fuel

    Recursion that is not structural takes fuel computed from its input, and a
    lemma says it is enough: [chunks] the length of the string (each rune takes
    a byte at least; [chunks_concat], [chunks_fuel_enough]), [json_parse] twice
    the length and one, [digits_fuel] the number of bits.  The 8 MiB body
    limit, the 200-byte quote of a statement, the eight queued modes of a
    watcher and the capacity of a client's queue are the source's.

    ** What is not modelled

    - The services (MySQL, SQLite, Redis, the CDN, the circuit breaker, the
      Prometheus client, freecache): parameters, with laws.
    - go-zero's router (a parameter of Main.v that hands a request only to a
      route of its method), HTTP server and RPC transport; reading configuration
      and flags; the generated protobuf code; log output.
    - The inside of singleflight (golang.org/x/sync): whether a call leads or
      gets the result of one that leads is an answer of the world
      ([FlightAsk]), and that such a result is a loader's is a hypothesis where
      it is used ([flights]).  The values of the latencies the cache manager
      observes.
    - Panics, but for registration and [MustNew]; memory and goroutine
      exhaustion; the nesting limit of encoding/json. *)

From stdpp Require Export base gmap strings list sets.
From Stdlib Require Export ZArith Lia.
From Stdlib Require Export Strings.Ascii Strings.Byte.

#[global] Open Scope string_scope.
#[global] Open Scope Z_scope.
#[global] Open Scope list_scope.
Declare Scope go_scope.
Delimit Scope go_scope with go.

(** ** Errors and fallible results

    A Go [error] is a sentinel, a message, or an error wrapped by
    [fmt.Errorf("prefix: %w", err)], with or without text after the verb;
    [errors.Is] looks through wrappers. *)
Inductive error : Type :=
| ErrCanceled                    (* context.Canceled *)
| ErrDeadlineExceeded            (* context.DeadlineExceeded *)
| ErrRedisNil                    (* redis.Nil *)
| ErrServiceUnavailable          (* breaker.ErrServiceUnavailable *)
| ErrSentinel (name : string) (text : string)   (* errors.New at package level *)
| ErrMsg (text : string)         (* any other error value *)
| ErrWrap (prefix : string) (inner : error)
| ErrAround (prefix : string) (inner : error) (suffix : string).

#[global] Instance error_eq_dec : EqDecision error.
Proof. solve_decision. Defined.

(** [err.Error()]. *)
Fixpoint Error (e : error) : string :=
  match e with
  | ErrCanceled => "context canceled"
  | ErrDeadlineExceeded => "context deadline exceeded"
  | ErrRedisNil => "redis: nil"
  | ErrServiceUnavailable => "circuit breaker is open"
  | ErrSentinel _ t => t
  | ErrMsg t => t
  | ErrWrap p i => p +:+ Error i
  | ErrAround p i t => p +:+ Error i +:+ t
  end.

(** [errors.Is(err, target)]. *)
Fixpoint errors_Is (e target : error) : bool :=
  bool_decide (e = target) ||
  match e with ErrWrap _ i | ErrAround _ i _ => errors_Is i target | _ => false end.

Inductive res (A : Type) : Type :=
| Ok (a : A)
| Err (e : error).
Arguments Ok {A} a.
Arguments Err {A} e.

Definition is_ok {A} (r : res A) : bool :=
  match r with Ok _ => true | Err _ => false end.

#[global] Instance res_ret : MRet res := fun A a => Ok a.
#[global] Instance res_bind : MBind res :=
  fun A B k m => match m with Ok a => k a | Err e => Err e end.

(** ** The state monad the stateful code is written in

    A computation reads and rewrites the state [S] and returns a value; Go's
    [(value, error)] results are values of type [res]. *)
Record St (S A : Type) : Type := MkSt { runSt : S -> A * S }.
Arguments MkSt {S A} _.
Arguments runSt {S A} _ _.

#[global] Instance St_ret S : MRet (St S) := fun A a => MkSt (fun s => (a, s)).
#[global] Instance St_bind S : MBind (St S) :=
  fun A B k m => MkSt (fun s => let '(a, s') := runSt m s in runSt (k a) s').

Definition get {S} : St S S := MkSt (fun s => (s, s)).
Definition put {S} (s : S) : St S unit := MkSt (fun _ => (tt, s)).
Definition modify {S} (f : S -> S) : St S unit := MkSt (fun s => (tt, f s)).
Definition gets {S A} (f : S -> A) : St S A := MkSt (fun s => (f s, s)).

(** Value and final state of a run. *)
Definition evalSt {S A} (m : St S A) (s : S) : A := (runSt m s).1.
Definition execSt {S A} (m : St S A) (s : S) : S := (runSt m s).2.

Lemma runSt_ret {S A} (a : A) (s : S) : runSt (mret a) s = (a, s).
Proof. reflexivity. Qed.

Lemma runSt_bind {S A B} (m : St S A) (k : A -> St S B) s :
  runSt (m ≫= k) s = runSt (k (runSt m s).1) (runSt m s).2.
Proof. unfold mbind, St_bind; simpl. by destruct (runSt m s). Qed.

Lemma runSt_eval_exec {S A} (m : St S A) s : runSt m s = (evalSt m s, execSt m s).
Proof. unfold evalSt, execSt. by destruct (runSt m s). Qed.

(** Run [m] on the part of the state that [get_]/[set_] focus on. *)
Definition zoom {S T A} (get_ : S -> T) (set_ : T -> S -> S) (m : St T A) : St S A :=
  MkSt (fun s => let '(a, t) := runSt m (get_ s) in (a, set_ t s)).

(** ** Machine integers

    Go's fixed-width integers are [Z] values kept in range by an explicit
    wrap-around at each conversion or overflowing operation. *)
Definition wrapu (w z : Z) : Z := z mod 2 ^ w.
Definition wraps (w z : Z) : Z := (z + 2 ^ (w - 1)) mod 2 ^ w - 2 ^ (w - 1).

Abbreviation uint16 := (wrapu 16).
Abbreviation uint32 := (wrapu 32).
Abbreviation int32 := (wraps 32).
Abbreviation int64 := (wraps 64).

Lemma wrapu_id w z : 0 <= z < 2 ^ w -> wrapu w z = z.
Proof. apply Z.mod_small. Qed.

Lemma wraps_id w z : 0 < w -> - 2 ^ (w - 1) <= z < 2 ^ (w - 1) -> wraps w z = z.
Proof.
  intros Hw Hz. unfold wraps.
  assert (2 ^ w = 2 * 2 ^ (w - 1)) as E.
  { rewrite <- Z.pow_succ_r by lia. f_equal; lia. }
  rewrite Z.mod_small; lia.
Qed.

Lemma wrapu_range w z : 0 <= w -> 0 <= wrapu w z < 2 ^ w.
Proof. intros. apply Z.mod_pos_bound, Z.pow_pos_nonneg; lia. Qed.

Lemma wraps_range w z : 0 < w -> - 2 ^ (w - 1) <= wraps w z < 2 ^ (w - 1).
Proof.
  intros Hw. unfold wraps.
  assert (2 ^ w = 2 * 2 ^ (w - 1)) as E.
  { rewrite <- Z.pow_succ_r by lia. f_equal; lia. }
  pose proof (Z.mod_pos_bound (z + 2 ^ (w - 1)) (2 ^ w)
                (Z.pow_pos_nonneg 2 w ltac:(lia) ltac:(lia))). lia.
Qed.

(** Adding at width [w] commutes with wrapping. *)
Lemma wraps_add w a b : 0 < w -> wraps w (wraps w a + b) = wraps w (a + b).
Proof.
  intros Hw. unfold wraps. f_equal.
  replace ((a + 2 ^ (w - 1)) mod 2 ^ w - 2 ^ (w - 1) + b + 2 ^ (w - 1))
    with ((a + 2 ^ (w - 1)) mod 2 ^ w + b) by lia.
  rewrite Z.add_mod_idemp_l; [f_equal; lia|]. apply Z.pow_nonzero; lia.
Qed.

(** [time.Duration] constants, in nanoseconds. *)
Definition Second : Z := 1000000000.
Definition Minute : Z := 60 * Second.
Definition Hour : Z := 60 * Minute.
(** [int(d.Seconds())] for a non-negative duration. *)
Definition Seconds (d : Z) : Z := d / Second.

(** ** Proof automation *)
Create HintDb apipro discriminated.

(** Split on the tests and matches of a goal or of the context. *)
Ltac break_if :=
  match goal with
  | |- context [if ?b then _ else _] => destruct b eqn:?
  | H : context [if ?b then _ else _] |- _ => destruct b eqn:?
  end.
Ltac break_match_goal :=
  match goal with
  | |- context [match ?x with _ => _ end] => destruct x eqn:?
  end.
Ltac break_match_hyp :=
  match goal with
  | H : context [match ?x with _ => _ end] |- _ => destruct x eqn:?
  end.
Ltac break_match := first [break_match_goal | break_match_hyp].

(** Turn boolean tests of the code into propositions. *)
Ltac bool_to_prop :=
  repeat match goal with
  | H : (_ && _)%bool = true |- _ => apply andb_prop in H as [? ?]
  | H : (_ || _)%bool = false |- _ => apply orb_false_elim in H as [? ?]
  | H : negb _ = true |- _ => apply negb_true_iff in H
  | H : negb _ = false |- _ => apply negb_false_iff in H
  | H : bool_decide _ = true |- _ => apply bool_decide_eq_true_1 in H
  | H : bool_decide _ = false |- _ => apply bool_decide_eq_false_1 in H
  | H : (_ =? _) = true |- _ => apply Z.eqb_eq in H
  | H : (_ =? _) = false |- _ => apply Z.eqb_neq in H
  | H : (_ <? _) = true |- _ => apply Z.ltb_lt in H
  | H : (_ <? _) = false |- _ => apply Z.ltb_ge in H
  | H : (_ <=? _) = true |- _ => apply Z.leb_le in H
  | H : (_ <=? _) = false |- _ => apply Z.leb_gt in H
  | H : (_ >? _) = true |- _ => apply Z.gtb_gt in H
  | H : String.eqb _ _ = true |- _ => apply String.eqb_eq in H
  | H : String.eqb _ _ = false |- _ => apply String.eqb_neq in H
  end.

(** Refute impossible boolean tests. *)
Ltac bool_absurd :=
  exfalso;
  repeat match goal with
  | H : (_ || _)%bool = true |- _ => apply orb_prop in H as [H|H]
  | H : (_ && _)%bool = false |- _ => apply andb_false_iff in H as [H|H]
  end; bool_to_prop; solve [lia | congruence].

(** Step a monadic program one bind at a time. *)
Ltac run_st := repeat (rewrite runSt_bind; simpl).

(** ** Shared list lemmas *)

(** Longest prefix satisfying [p], and what is left. *)
Fixpoint takeWhile {A} (p : A -> bool) (l : list A) : list A :=
  match l with
  | [] => []
  | x :: l => if p x then x :: takeWhile p l else []
  end.

Fixpoint dropWhile {A} (p : A -> bool) (l : list A) : list A :=
  match l with
  | [] => []
  | x :: l' => if p x then dropWhile p l' else l
  end.

Lemma takeWhile_dropWhile {A} (p : A -> bool) l : takeWhile p l ++ dropWhile p l = l.
Proof. induction l as [|x l IH]; simpl; [done|]. destruct (p x); simpl; by rewrite ?IH. Qed.

Lemma dropWhile_suffix {A} (p : A -> bool) l : dropWhile p l `suffix_of` l.
Proof. exists (takeWhile p l). by rewrite takeWhile_dropWhile. Qed.

Lemma dropWhile_head {A} (p : A -> bool) l x l' : dropWhile p l = x :: l' -> p x = false.
Proof.
  induction l as [|y l IH]; simpl; [done|].
  destruct (p y) eqn:E; [done|]. by intros [= <- <-].
Qed.

Lemma take_app_length' {A} (l k : list A) n : n = length l -> take n (l ++ k) = l.
Proof. intros ->. by rewrite take_app_length. Qed.

Lemma drop_app_length' {A} (l k : list A) n : n = length l -> drop n (l ++ k) = k.
Proof. intros ->. by rewrite drop_app_length. Qed.

Lemma forallb_True {A} (f : A -> bool) l : forallb f l = true <-> Forall (fun x => f x = true) l.
Proof. rewrite forallb_forall, Forall_forall. setoid_rewrite list_elem_of_In. done. Qed.

(** ** Sums over the entries of a list *)
Definition sumZ {A} (f : A -> Z) (l : list A) : Z := foldr (fun x a => f x + a) 0 l.

Lemma sumZ_app {A} (f : A -> Z) l k : sumZ f (l ++ k) = sumZ f l + sumZ f k.
Proof. induction l; simpl; lia. Qed.

Lemma sumZ_insert {A} (f : A -> Z) l i x y :
  l !! i = Some x -> sumZ f (<[i := y]> l) = sumZ f l - f x + f y.
Proof.
  revert i. induction l as [|z l IH]; intros [|i]; simpl; intros H; simplify_eq; [lia|].
  rewrite IH by done. lia.
Qed.

Lemma sumZ_le {A} (f g : A -> Z) l : (forall x, f x <= g x) -> sumZ f l <= sumZ g l.
Proof. intros H. induction l as [|x l IH]; simpl; [lia|]. specialize (H x). lia. Qed.

Lemma sumZ_nonneg {A} (f : A -> Z) l : (forall x, 0 <= f x) -> 0 <= sumZ f l.
Proof. intros H. induction l as [|x l IH]; simpl; [lia|]. specialize (H x). lia. Qed.

(** ** Invariants of step relations *)
Lemma rtc_invariant {A} (R : relation A) (I : A -> Prop) x y :
  (forall a b, R a b -> I a -> I b) -> rtc R x y -> I x -> I y.
Proof. intros Hs. induction 1; eauto. Qed.

(** ** Bytes *)
Abbreviation byte := Byte.byte.
Abbreviation bytes := (list Byte.byte).

Definition Z_of_byte (b : byte) : Z := Z.of_N (Byte.to_N b).
(** Go's [byte(z)]: the low eight bits. *)
Definition byte_of_Z (z : Z) : byte :=
  match Byte.of_N (Z.to_N (z mod 256)) with Some b => b | None => Byte.x00 end.

#[global] Instance byte_eq_dec : EqDecision byte := Byte.byte_eq_dec.

Lemma Z_of_byte_range b : 0 <= Z_of_byte b < 256.
Proof. unfold Z_of_byte. pose proof (Byte.to_N_bounded b). lia. Qed.

Lemma byte_of_Z_of_byte b : byte_of_Z (Z_of_byte b) = b.
Proof.
  unfold byte_of_Z. rewrite Z.mod_small by apply Z_of_byte_range.
  unfold Z_of_byte. by rewrite N2Z.id, Byte.of_to_N.
Qed.

Lemma Z_of_byte_of_Z z : Z_of_byte (byte_of_Z z) = z mod 256.
Proof.
  unfold byte_of_Z, Z_of_byte.
  pose proof (Z.mod_pos_bound z 256 ltac:(lia)) as Hb.
  destruct (Byte.of_N _) eqn:E.
  - apply Byte.to_of_N in E. rewrite E, Z2N.id; lia.
  - apply Byte.of_N_None_iff in E. lia.
Qed.

Lemma Z_of_byte_inj b c : Z_of_byte b = Z_of_byte c -> b = c.
Proof. intros H. rewrite <- (byte_of_Z_of_byte b), <- (byte_of_Z_of_byte c). by rewrite H. Qed.

(** All 256 bytes, for exhaustive checks by computation. *)
Definition all_bytes : bytes := map (fun n => byte_of_Z (Z.of_nat n)) (seq 0 256).

Lemma all_bytes_complete b : In b all_bytes.
Proof.
  unfold all_bytes. apply in_map_iff. exists (Z.to_nat (Z_of_byte b)).
  pose proof (Z_of_byte_range b). split.
  - rewrite Z2Nat.id by lia. apply byte_of_Z_of_byte.
  - apply in_seq. lia.
Qed.

Lemma byte_forall (p : byte -> bool) : forallb p all_bytes = true -> forall b, p b = true.
Proof. intros H b. by eapply forallb_forall in H; [|apply all_bytes_complete]. Qed.

Lemma byte_forall2 (p : byte -> byte -> bool) :
  forallb (fun a => forallb (p a) all_bytes) all_bytes = true -> forall a b, p a b = true.
Proof.
  intros H a. apply byte_forall.
  by eapply forallb_forall in H; [|apply (all_bytes_complete a)].
Qed.

(** Equality of functions of one or two bytes, by exhaustive evaluation. *)
Lemma byte_fun_eq (f g : byte -> byte) :
  forallb (fun a => Byte.eqb (f a) (g a)) all_bytes = true -> forall a, f a = g a.
Proof.
  intros H a. pose proof (byte_forall (fun a => Byte.eqb (f a) (g a)) H a) as E.
  by apply Byte.byte_dec_bl in E.
Qed.

Lemma byte_fun_eq2 (f g : byte -> byte -> byte) :
  forallb (fun a => forallb (fun b => Byte.eqb (f a b) (g a b)) all_bytes) all_bytes = true ->
  forall a b, f a b = g a b.
Proof.
  intros H a b. pose proof (byte_forall2 (fun a b => Byte.eqb (f a b) (g a b)) H a b) as E.
  by apply Byte.byte_dec_bl in E.
Qed.

(** Go's [[]byte(s)] and [string(b)]. *)
Definition bytes_of (s : string) : bytes := String.list_byte_of_string s.
Definition string_of (b : bytes) : string := String.string_of_list_byte b.

Lemma string_of_bytes_of s : string_of (bytes_of s) = s.
Proof. apply String.string_of_list_byte_of_string. Qed.
Lemma bytes_of_string_of b : bytes_of (string_of b) = b.
Proof. apply String.list_byte_of_string_of_list_byte. Qed.

Lemma bytes_of_inj s t : bytes_of s = bytes_of t -> s = t.
Proof. intros H. by rewrite <- (string_of_bytes_of s), H, string_of_bytes_of. Qed.

(** A decidable fact about the numbers below a bound, by looking at each. *)
Lemma upto_forall (p : Z -> bool) n : forallb (fun i => p (Z.of_nat i)) (seq 0 n) = true ->
  forall z, 0 <= z < Z.of_nat n -> p z = true.
Proof.
  rewrite forallb_forall. intros Hp z Hz. specialize (Hp (Z.to_nat z)).
  rewrite Z2Nat.id in Hp by lia. apply Hp, in_seq. lia.
Qed.
