(* ===== verification/GoStr.v ===== *)
(** * Go strings

    Go strings are byte sequences; the source uses [strings], [strconv],
    [unicode/utf8], [encoding/hex] and [encoding/base64] on them.  This file
    gives those standard-library functions executable definitions over
    [string] (a list of bytes) and the lemmas the components share.  Runes
    are code points of type [Z]; [chunks] is what a [for range] loop sees:
    each decoded rune with the bytes it was decoded from. *)

From S2P Require Import Prelude.

(** ** UTF-8 *)
Definition RuneError : Z := 65533.

Definition in_range (lo hi : Z) (b : byte) : bool :=
  (lo <=? Z_of_byte b) && (Z_of_byte b <=? hi).

(** The range the second byte of a sequence must lie in, by its first byte
    (the [acceptRanges] table of unicode/utf8), with the sequence's length. *)
Definition first_info (b0 : byte) : option (nat * Z * Z) :=
  let z := Z_of_byte b0 in
  if in_range 0xC2 0xDF b0 then Some (2%nat, 0x80, 0xBF)
  else if z =? 0xE0 then Some (3%nat, 0xA0, 0xBF)
  else if in_range 0xE1 0xEC b0 then Some (3%nat, 0x80, 0xBF)
  else if z =? 0xED then Some (3%nat, 0x80, 0x9F)
  else if in_range 0xEE 0xEF b0 then Some (3%nat, 0x80, 0xBF)
  else if z =? 0xF0 then Some (4%nat, 0x90, 0xBF)
  else if in_range 0xF1 0xF3 b0 then Some (4%nat, 0x80, 0xBF)
  else if z =? 0xF4 then Some (4%nat, 0x80, 0x8F)
  else None.

Definition cont (b : byte) : bool := in_range 0x80 0xBF b.
Definition low6 (b : byte) : Z := Z.land (Z_of_byte b) 0x3F.

(** [utf8.DecodeRune]: the rune and its width; invalid input has width 1. *)
Definition decodeRune (s : bytes) : option (Z * nat) :=
  match s with
  | [] => None
  | b0 :: rest =>
    if Z_of_byte b0 <? 0x80 then Some (Z_of_byte b0, 1%nat)
    else match first_info b0, rest with
    | Some (2%nat, lo, hi), b1 :: _ =>
        if in_range lo hi b1
        then Some (Z.lor (Z.shiftl (Z.land (Z_of_byte b0) 0x1F) 6) (low6 b1), 2%nat)
        else Some (RuneError, 1%nat)
    | Some (3%nat, lo, hi), b1 :: b2 :: _ =>
        if in_range lo hi b1 && cont b2
        then Some (Z.lor (Z.lor (Z.shiftl (Z.land (Z_of_byte b0) 0x0F) 12)
                                (Z.shiftl (low6 b1) 6)) (low6 b2), 3%nat)
        else Some (RuneError, 1%nat)
    | Some (4%nat, lo, hi), b1 :: b2 :: b3 :: _ =>
        if in_range lo hi b1 && cont b2 && cont b3
        then Some (Z.lor (Z.lor (Z.lor (Z.shiftl (Z.land (Z_of_byte b0) 0x07) 18)
                                       (Z.shiftl (low6 b1) 12))
                                (Z.shiftl (low6 b2) 6)) (low6 b3), 4%nat)
        else Some (RuneError, 1%nat)
    | _, _ => Some (RuneError, 1%nat)
    end
  end.

(** Decode a whole byte string; [fuel] is its length. *)
Fixpoint chunks_fuel (fuel : nat) (s : bytes) : list (Z * bytes) :=
  match fuel with
  | O => []
  | S f =>
    match decodeRune s with
    | None => []
    | Some (r, n) => (r, take n s) :: chunks_fuel f (drop n s)
    end
  end.
Definition chunks (s : bytes) : list (Z * bytes) := chunks_fuel (length s) s.

(** The runes of a [for _, r := range s] loop. *)
Definition runes (s : string) : list Z := map fst (chunks (bytes_of s)).
Definition RuneCountInString (s : string) : Z := Z.of_nat (length (runes s)).

(** [utf8.AppendRune]: surrogates and out-of-range code points become U+FFFD. *)
Definition encodeRune (r : Z) : bytes :=
  let r := if (r <? 0) || (0x10FFFF <? r) || ((0xD800 <=? r) && (r <=? 0xDFFF))
           then RuneError else r in
  let c x := byte_of_Z (Z.lor 0x80 (Z.land x 0x3F)) in
  if r <? 0x80 then [byte_of_Z r]
  else if r <? 0x800 then [byte_of_Z (Z.lor 0xC0 (Z.shiftr r 6)); c r]
  else if r <? 0x10000 then
    [byte_of_Z (Z.lor 0xE0 (Z.shiftr r 12)); c (Z.shiftr r 6); c r]
  else [byte_of_Z (Z.lor 0xF0 (Z.shiftr r 18)); c (Z.shiftr r 12);
        c (Z.shiftr r 6); c r].

Lemma decodeRune_width s r n :
  decodeRune s = Some (r, n) -> (1 <= n <= 4)%nat /\ (n <= length s)%nat.
Proof.
  unfold decodeRune. intros H.
  repeat (first [discriminate H | break_match_hyp]); simplify_eq; simpl; lia.
Qed.

Lemma decodeRune_nonempty b s : exists r n, decodeRune (b :: s) = Some (r, n).
Proof. unfold decodeRune. repeat break_match_goal; eauto. Qed.

Lemma chunks_fuel_concat fuel s :
  (length s <= fuel)%nat -> concat (map snd (chunks_fuel fuel s)) = s.
Proof.
  revert s. induction fuel as [|f IH]; intros s Hf; simpl.
  { by destruct s; simpl in Hf; [|lia]. }
  destruct (decodeRune s) as [[r n]|] eqn:E; simpl.
  - apply decodeRune_width in E. rewrite IH; [apply take_drop|].
    rewrite length_drop. lia.
  - destruct s as [|b s]; [done|].
    destruct (decodeRune_nonempty b s) as (r & n & E'). congruence.
Qed.

(** A [range] loop sees every byte of the string exactly once. *)
Lemma chunks_concat s : concat (map snd (chunks s)) = s.
Proof. by apply chunks_fuel_concat. Qed.

(** ** Trimming *)

(** [unicode.IsSpace]. *)
Definition IsSpace (r : Z) : bool :=
  ((9 <=? r) && (r <=? 13)) || (r =? 32) || (r =? 0x85) || (r =? 0xA0) ||
  (r =? 0x1680) || ((0x2000 <=? r) && (r <=? 0x200a)) || (r =? 0x2028) ||
  (r =? 0x2029) || (r =? 0x202f) || (r =? 0x205f) || (r =? 0x3000).

Definition trim_left_chunks (f : Z -> bool) (l : list (Z * bytes)) :=
  dropWhile (fun c => f c.1) l.
Definition trim_right_chunks (f : Z -> bool) (l : list (Z * bytes)) :=
  rev (dropWhile (fun c => f c.1) (rev l)).

(** [strings.TrimSpace]: drop the leading and trailing white-space runes. *)
Definition TrimSpace (s : string) : string :=
  string_of (concat (map snd
    (trim_right_chunks IsSpace (trim_left_chunks IsSpace (chunks (bytes_of s)))))).

(** Decoding does not look past a rune. *)
Lemma decodeRune_prefix a b r n :
  decodeRune (a ++ b) = Some (r, n) -> (n <= length a)%nat -> decodeRune a = Some (r, n).
Proof.
  intros H Hn. destruct a as [|a0 a]; [apply decodeRune_width in H; cbn in Hn; lia|].
  unfold decodeRune in *. cbn [app] in H. destruct (Z_of_byte a0 <? 0x80); [exact H|].
  destruct (first_info a0) as [[[w lo] hi]|]; [|destruct (a ++ b), a; exact H].
  destruct a as [|a1 [|a2 [|a3 a]]]; cbn [app length] in *;
    destruct b as [|b1 [|b2 [|b3 b]]]; cbn [app] in H;
    repeat (first [exact H | case_match]); simplify_eq; try lia; congruence.
Qed.

(** Fuel beyond the length changes nothing. *)
Lemma chunks_fuel_enough f g s : (length s <= f)%nat -> (length s <= g)%nat -> chunks_fuel f s = chunks_fuel g s.
Proof.
  revert g s. induction f as [|f IH]; intros [|g] s Hf Hg; try (destruct s; [done|cbn in *; lia]).
  cbn [chunks_fuel]. destruct (decodeRune s) as [[r n]|] eqn:E; [|done].
  apply decodeRune_width in E. f_equal. apply IH; rewrite length_drop; lia.
Qed.

Lemma chunks_cons s r n : decodeRune s = Some (r, n) -> chunks s = (r, take n s) :: chunks (drop n s).
Proof.
  intros E. unfold chunks. destruct s as [|b s]; [discriminate E|]. cbn [chunks_fuel length]. rewrite E.
  apply decodeRune_width in E. f_equal. apply chunks_fuel_enough; rewrite length_drop; cbn in *; lia.
Qed.

(** The runes of a run of whole runes. *)
Lemma chunks_head s c l : chunks s = c :: l ->
  exists n, decodeRune s = Some (c.1, n) /\ c.2 = take n s /\ l = chunks (drop n s).
Proof.
  intros H. destruct s as [|b s]; [discriminate H|]. destruct (decodeRune_nonempty b s) as (r & n & E).
  rewrite (chunks_cons _ _ _ E) in H. injection H as <- <-. by exists n.
Qed.

Lemma chunks_suffix l1 : forall s l2, chunks s = l1 ++ l2 -> chunks (concat (map snd l2)) = l2.
Proof.
  induction l1 as [|c l1 IH]; cbn [app]; intros s l2 H.
  - rewrite <- H. by rewrite chunks_concat.
  - apply chunks_head in H as (n & _ & _ & H). by apply (IH (drop n s)).
Qed.

Lemma chunks_prefix l1 : forall s l2, chunks s = l1 ++ l2 -> chunks (concat (map snd l1)) = l1.
Proof.
  induction l1 as [|[r b] l1 IH]; cbn [app]; intros s l2 H; [done|].
  pose proof (chunks_concat s) as Hs. apply chunks_head in H as (n & E & Hb & H). cbn [fst snd] in *.
  pose proof (decodeRune_width _ _ _ E) as [Hn Hl].
  assert (chunks (concat (map snd l1)) = l1) as IHl by (apply (IH (drop n s) l2); congruence).
  cbn [map snd concat].
  assert (s = b ++ concat (map snd l1) ++ concat (map snd l2)) as Es.
  { rewrite <- concat_app, <- map_app, H, chunks_concat, Hb. by rewrite take_drop. }
  assert (length b = n) as Lb by (rewrite Hb, length_take; lia).
  assert (decodeRune (b ++ concat (map snd l1)) = Some (r, n)) as E1.
  { eapply decodeRune_prefix; [rewrite <- app_assoc, <- Es; exact E|]. rewrite length_app. lia. }
  rewrite (chunks_cons _ _ _ E1), <- Lb, take_app_length, drop_app_length. congruence.
Qed.

Lemma dropWhile_last {A} (p : A -> bool) l x : p x = false -> dropWhile p (l ++ [x]) = dropWhile p l ++ [x].
Proof. intros Hx. induction l as [|y l IH]; cbn; [by rewrite Hx|]. by destruct (p y). Qed.

Lemma dropWhile_same {A} (p : A -> bool) l : (forall x l', l = x :: l' -> p x = false) -> dropWhile p l = l.
Proof. intros H. destruct l as [|x l]; [done|]. cbn. by rewrite (H x l). Qed.

Lemma trim_left_twice f l : trim_left_chunks f (trim_right_chunks f (trim_left_chunks f l)) =
  trim_right_chunks f (trim_left_chunks f l).
Proof.
  unfold trim_left_chunks, trim_right_chunks.
  destruct (dropWhile (fun c => f c.1) l) as [|x l'] eqn:E; [done|]. pose proof (dropWhile_head _ _ _ _ E) as Hx.
  cbn [rev]. rewrite dropWhile_last by exact Hx. rewrite rev_app_distr. cbn. by rewrite Hx.
Qed.

Lemma trim_right_twice f l : trim_right_chunks f (trim_right_chunks f l) = trim_right_chunks f l.
Proof.
  unfold trim_right_chunks. rewrite rev_involutive. f_equal. apply dropWhile_same. intros x l' E.
  by apply dropWhile_head in E.
Qed.

Lemma trim_decompose f l : exists pre post, l = pre ++ trim_right_chunks f (trim_left_chunks f l) ++ post.
Proof.
  unfold trim_left_chunks, trim_right_chunks. destruct (dropWhile_suffix (fun c => f c.1) l) as [pre E].
  destruct (dropWhile_suffix (fun c => f c.1) (rev (dropWhile (fun c => f c.1) l))) as [post E2].
  exists pre, (rev post). rewrite E at 1. f_equal. rewrite <- rev_app_distr, <- E2. by rewrite rev_involutive.
Qed.

(** Trimming is idempotent: no byte left over decodes differently. *)
Lemma TrimSpace_twice s : TrimSpace (TrimSpace s) = TrimSpace s.
Proof.
  unfold TrimSpace. rewrite bytes_of_string_of.
  destruct (trim_decompose IsSpace (chunks (bytes_of s))) as (pre & post & E).
  set (mid := trim_right_chunks _ _) in *.
  assert (chunks (concat (map snd (mid ++ post))) = mid ++ post) as E2 by (eapply chunks_suffix; exact E).
  rewrite (chunks_prefix _ _ _ E2). unfold mid at 1. by rewrite trim_left_twice, trim_right_twice.
Qed.

(** ** Case *)

(** The code points outside ASCII that have a lower case: from, to, step and
    the distance to the lower-case letter (the simple mappings of
    UnicodeData). *)
Definition lower_ranges : list (Z * Z * Z * Z) :=
  [
    (192, 214, 1, 32); (216, 222, 1, 32); (256, 302, 2, 1); (304, 304, 1, (-199));
    (306, 310, 2, 1); (313, 327, 2, 1); (330, 374, 2, 1); (376, 376, 1, (-121));
    (377, 381, 2, 1); (385, 385, 1, 210); (386, 388, 2, 1); (390, 390, 1, 206);
    (391, 391, 1, 1); (393, 394, 1, 205); (395, 395, 1, 1); (398, 398, 1, 79);
    (399, 399, 1, 202); (400, 400, 1, 203); (401, 401, 1, 1); (403, 403, 1, 205);
    (404, 404, 1, 207); (406, 406, 1, 211); (407, 407, 1, 209); (408, 408, 1, 1);
    (412, 412, 1, 211); (413, 413, 1, 213); (415, 415, 1, 214); (416, 420, 2, 1);
    (422, 422, 1, 218); (423, 423, 1, 1); (425, 425, 1, 218); (428, 428, 1, 1);
    (430, 430, 1, 218); (431, 431, 1, 1); (433, 434, 1, 217); (435, 437, 2, 1);
    (439, 439, 1, 219); (440, 440, 1, 1); (444, 444, 1, 1); (452, 452, 1, 2); (453, 453, 1, 1);
    (455, 455, 1, 2); (456, 456, 1, 1); (458, 458, 1, 2); (459, 475, 2, 1); (478, 494, 2, 1);
    (497, 497, 1, 2); (498, 500, 2, 1); (502, 502, 1, (-97)); (503, 503, 1, (-56));
    (504, 542, 2, 1); (544, 544, 1, (-130)); (546, 562, 2, 1); (570, 570, 1, 10795);
    (571, 571, 1, 1); (573, 573, 1, (-163)); (574, 574, 1, 10792); (577, 577, 1, 1);
    (579, 579, 1, (-195)); (580, 580, 1, 69); (581, 581, 1, 71); (582, 590, 2, 1);
    (880, 882, 2, 1); (886, 886, 1, 1); (895, 895, 1, 116); (902, 902, 1, 38);
    (904, 906, 1, 37); (908, 908, 1, 64); (910, 911, 1, 63); (913, 929, 1, 32);
    (931, 939, 1, 32); (975, 975, 1, 8); (984, 1006, 2, 1); (1012, 1012, 1, (-60));
    (1015, 1015, 1, 1); (1017, 1017, 1, (-7)); (1018, 1018, 1, 1); (1021, 1023, 1, (-130));
    (1024, 1039, 1, 80); (1040, 1071, 1, 32); (1120, 1152, 2, 1); (1162, 1214, 2, 1);
    (1216, 1216, 1, 15); (1217, 1229, 2, 1); (1232, 1326, 2, 1); (1329, 1366, 1, 48);
    (4256, 4293, 1, 7264); (4295, 4295, 1, 7264); (4301, 4301, 1, 7264); (5024, 5103, 1, 38864);
    (5104, 5109, 1, 8); (7312, 7354, 1, (-3008)); (7357, 7359, 1, (-3008)); (7680, 7828, 2, 1);
    (7838, 7838, 1, (-7615)); (7840, 7934, 2, 1); (7944, 7951, 1, (-8)); (7960, 7965, 1, (-8));
    (7976, 7983, 1, (-8)); (7992, 7999, 1, (-8)); (8008, 8013, 1, (-8)); (8025, 8031, 2, (-8));
    (8040, 8047, 1, (-8)); (8072, 8079, 1, (-8)); (8088, 8095, 1, (-8)); (8104, 8111, 1, (-8));
    (8120, 8121, 1, (-8)); (8122, 8123, 1, (-74)); (8124, 8124, 1, (-9));
    (8136, 8139, 1, (-86)); (8140, 8140, 1, (-9)); (8152, 8153, 1, (-8));
    (8154, 8155, 1, (-100)); (8168, 8169, 1, (-8)); (8170, 8171, 1, (-112));
    (8172, 8172, 1, (-7)); (8184, 8185, 1, (-128)); (8186, 8187, 1, (-126));
    (8188, 8188, 1, (-9)); (8486, 8486, 1, (-7517)); (8490, 8490, 1, (-8383));
    (8491, 8491, 1, (-8262)); (8498, 8498, 1, 28); (8544, 8559, 1, 16); (8579, 8579, 1, 1);
    (9398, 9423, 1, 26); (11264, 11311, 1, 48); (11360, 11360, 1, 1);
    (11362, 11362, 1, (-10743)); (11363, 11363, 1, (-3814)); (11364, 11364, 1, (-10727));
    (11367, 11371, 2, 1); (11373, 11373, 1, (-10780)); (11374, 11374, 1, (-10749));
    (11375, 11375, 1, (-10783)); (11376, 11376, 1, (-10782)); (11378, 11378, 1, 1);
    (11381, 11381, 1, 1); (11390, 11391, 1, (-10815)); (11392, 11490, 2, 1);
    (11499, 11501, 2, 1); (11506, 11506, 1, 1); (42560, 42604, 2, 1); (42624, 42650, 2, 1);
    (42786, 42798, 2, 1); (42802, 42862, 2, 1); (42873, 42875, 2, 1);
    (42877, 42877, 1, (-35332)); (42878, 42886, 2, 1); (42891, 42891, 1, 1);
    (42893, 42893, 1, (-42280)); (42896, 42898, 2, 1); (42902, 42920, 2, 1);
    (42922, 42922, 1, (-42308)); (42923, 42923, 1, (-42319)); (42924, 42924, 1, (-42315));
    (42925, 42925, 1, (-42305)); (42926, 42926, 1, (-42308)); (42928, 42928, 1, (-42258));
    (42929, 42929, 1, (-42282)); (42930, 42930, 1, (-42261)); (42931, 42931, 1, 928);
    (42932, 42946, 2, 1); (42948, 42948, 1, (-48)); (42949, 42949, 1, (-42307));
    (42950, 42950, 1, (-35384)); (42951, 42953, 2, 1); (42960, 42960, 1, 1);
    (42966, 42968, 2, 1); (42997, 42997, 1, 1); (65313, 65338, 1, 32); (66560, 66599, 1, 40);
    (66736, 66771, 1, 40); (66928, 66938, 1, 39); (66940, 66954, 1, 39); (66956, 66962, 1, 39);
    (66964, 66965, 1, 39); (68736, 68786, 1, 64); (71840, 71871, 1, 32); (93760, 93791, 1, 32);
    (125184, 125217, 1, 34)
  ].

(** [unicode.ToLower]. *)
Definition lower_rune (r : Z) : Z :=
  if (65 <=? r) && (r <=? 90) then r + 32 else
  if r <? 128 then r else
  match List.find (fun e => let '(lo, hi, step, _) := e in
                     (lo <=? r) && (r <=? hi) && ((r - lo) mod step =? 0)) lower_ranges with
  | Some (_, _, _, d) => r + d
  | None => r
  end.

(** [strings.ToLower]: rune by rune; an invalid byte becomes U+FFFD. *)
Definition ToLower (s : string) : string :=
  string_of (concat (map (fun r => encodeRune (lower_rune r)) (runes s))).

(** ** Prefixes, suffixes, substrings *)
Definition HasPrefix (s p : string) : bool := String.prefix p s.

Definition TrimPrefix (s p : string) : string :=
  if HasPrefix s p
  then String.substring (String.length p) (String.length s - String.length p) s else s.

Definition HasSuffix (s p : string) : bool :=
  let n := String.length s in let k := String.length p in
  (k <=? n)%nat && String.eqb (String.substring (n - k) k s) p.

Definition TrimSuffix (s p : string) : string :=
  if HasSuffix s p then String.substring 0 (String.length s - String.length p) s else s.

(** [s[:n]] for [n] in range. *)
Definition prefix_bytes (n : Z) (s : string) : string := String.substring 0 (Z.to_nat n) s.

(** [strings.Contains]: some suffix of [s] starts with [p]. *)
Fixpoint Contains (s p : string) : bool :=
  String.prefix p s ||
  match s with
  | EmptyString => false
  | String _ s' => Contains s' p
  end.

(** [strings.TrimRight(s, "/")] and [strings.TrimLeft(s, "/")]. *)
Fixpoint TrimLeft_slash (s : string) : string :=
  match s with
  | String "/"%char s' => TrimLeft_slash s'
  | _ => s
  end.
Fixpoint TrimRight_slash (s : string) : string :=
  match s with
  | EmptyString => EmptyString
  | String c s' =>
    match TrimRight_slash s' with
    | EmptyString => if Ascii.eqb c "/"%char then EmptyString else String c EmptyString
    | t => String c t
    end
  end.

(** [strings.ReplaceAll(s, ":", "/")]. *)
Fixpoint ReplaceAll_colon_slash (s : string) : string :=
  match s with
  | EmptyString => EmptyString
  | String c s' => String (if Ascii.eqb c ":"%char then "/"%char else c) (ReplaceAll_colon_slash s')
  end.

Definition is_digit (c : Ascii.ascii) : bool :=
  let n := Ascii.nat_of_ascii c in (48 <=? n)%nat && (n <=? 57)%nat.

Fixpoint all_chars (p : Ascii.ascii -> bool) (s : string) : bool :=
  match s with
  | EmptyString => true
  | String c s' => p c && all_chars p s'
  end.

(** ** Decimal numbers *)
Definition digit_char (d : Z) : Ascii.ascii := Ascii.ascii_of_nat (Z.to_nat (48 + d)).

Fixpoint digits_fuel (fuel : nat) (z : Z) (acc : string) : string :=
  match fuel with
  | O => acc
  | S f =>
    let acc := String (digit_char (z mod 10)) acc in
    if z / 10 =? 0 then acc else digits_fuel f (z / 10) acc
  end.

(** [strconv.FormatInt(z, 10)], [fmt.Sprintf("%d", z)]; a number has at most
    as many decimal digits as binary ones. *)
Definition FormatInt (z : Z) : string :=
  let f := S (Z.to_nat (Z.log2 (Z.abs z))) in
  if z <? 0 then String "-"%char (digits_fuel f (- z) "") else digits_fuel f z "".

Fixpoint digits_val (s : string) (acc : Z) : option Z :=
  match s with
  | EmptyString => Some acc
  | String c s' =>
    if is_digit c then digits_val s' (acc * 10 + (Z.of_nat (Ascii.nat_of_ascii c) - 48))
    else None
  end.

Definition int64_ok (z : Z) : bool := (- 2 ^ 63 <=? z) && (z <? 2 ^ 63).

(** [strconv.ParseInt(s, 10, 64)] (an error is [None]). *)
Definition ParseInt (s : string) : option Z :=
  let body sgn t :=
    match t with
    | EmptyString => None
    | _ => z ← digits_val t 0; if int64_ok (sgn * z) then Some (sgn * z) else None
    end in
  match s with
  | String "-"%char t => body (-1) t
  | String "+"%char t => body 1 t
  | _ => body 1 s
  end.

(** [n, _ := strconv.Atoi(s)]: 0 on a syntax error, the nearest int64 when
    the value is out of range. *)
Definition Atoi_or_zero (s : string) : Z :=
  let sat sgn t :=
    match t with
    | EmptyString => 0
    | _ => match digits_val t 0 with
           | None => 0
           | Some z => Z.max (- 2 ^ 63) (Z.min (2 ^ 63 - 1) (sgn * z))
           end
    end in
  match s with
  | String "-"%char t => sat (-1) t
  | String "+"%char t => sat 1 t
  | _ => sat 1 s
  end.

(** ** Hexadecimal and base64 *)
Definition hex_digit (z : Z) : Ascii.ascii :=
  Ascii.ascii_of_nat (Z.to_nat (if z <? 10 then 48 + z else 87 + z)).

(** [hex.EncodeToString]. *)
Fixpoint hex_encode (b : bytes) : string :=
  match b with
  | [] => EmptyString
  | x :: b' => String (hex_digit (Z_of_byte x / 16))
                 (String (hex_digit (Z_of_byte x mod 16)) (hex_encode b'))
  end.

Lemma hex_encode_length b : String.length (hex_encode b) = (2 * length b)%nat.
Proof. induction b as [|x b IH]; [done|]. cbn [hex_encode String.length length]. lia. Qed.

Lemma hex_encode_nonempty b n : length b = S n -> hex_encode b <> "".
Proof. by destruct b. Qed.

Definition b64_char (z : Z) : Ascii.ascii :=
  Ascii.ascii_of_nat (Z.to_nat
    (if z <? 26 then 65 + z else if z <? 52 then 97 + (z - 26)
     else if z <? 62 then 48 + (z - 52) else if z =? 62 then 43 else 47)).

(** [base64.StdEncoding.EncodeToString]. *)
Fixpoint base64_encode (b : bytes) : string :=
  match b with
  | x :: y :: z :: b' =>
    let n := Z_of_byte x * 65536 + Z_of_byte y * 256 + Z_of_byte z in
    String (b64_char (n / 262144)) (String (b64_char (n / 4096 mod 64))
      (String (b64_char (n / 64 mod 64)) (String (b64_char (n mod 64)) (base64_encode b'))))
  | [x; y] =>
    let n := Z_of_byte x * 65536 + Z_of_byte y * 256 in
    String (b64_char (n / 262144)) (String (b64_char (n / 4096 mod 64))
      (String (b64_char (n / 64 mod 64)) "="))
  | [x] =>
    let n := Z_of_byte x * 65536 in
    String (b64_char (n / 262144)) (String (b64_char (n / 4096 mod 64)) "==")
  | [] => EmptyString
  end.

(** ** Lemmas on appended keys

    Redis keys are built by concatenation; distinct suffixes give distinct
    keys. *)
Lemma append_inj_l p s t : p +:+ s = p +:+ t -> s = t.
Proof. induction p as [|c p IH]; simpl; [done|]. intros [= H]. auto. Qed.

Lemma append_assoc p s t : (p +:+ s) +:+ t = p +:+ (s +:+ t).
Proof. induction p as [|c p IH]; [done|]. exact (f_equal (String c) IH). Qed.

Lemma append_length s t : String.length (s +:+ t) = (String.length s + String.length t)%nat.
Proof. induction s as [|c s IH]; [done|]. exact (f_equal S IH). Qed.

Lemma bytes_of_app s t : bytes_of (s +:+ t) = bytes_of s ++ bytes_of t.
Proof.
  induction s as [|c s IH]; [done|]. exact (f_equal (cons (byte_of_ascii c)) IH).
Qed.

Lemma length_bytes_of s : length (bytes_of s) = String.length s.
Proof. induction s as [|c s IH]; [done|]. exact (f_equal S IH). Qed.

Example TrimSpace_ex : TrimSpace (string_of (map byte_of_Z [0x20; 0xE3; 0x80; 0x80]) +:+ "+86 ") = "+86". Proof. vm_compute. reflexivity. Qed.
Example TrimPrefix_ex : TrimPrefix "+86" "+" = "86". Proof. reflexivity. Qed.
Example FormatInt_ex : FormatInt (-1203) = "-1203". Proof. reflexivity. Qed.
Example ParseInt_ex : ParseInt "-1203" = Some (-1203). Proof. reflexivity. Qed.
Example TrimRight_ex : TrimRight_slash "http://x//" = "http://x". Proof. reflexivity. Qed.
Example base64_ex : base64_encode (bytes_of "Many h") = "TWFueSBo". Proof. reflexivity. Qed.
