(* ===== verification/Aes.v ===== *)
(** * AES-128 (crypto/aes)

    The block cipher behind [aes.NewCipher] in src/pkg/codec/codec.go,
    executable, with the proof that decryption inverts encryption under every
    16-byte key.  The state is the flat 16-byte block, column after column. *)

From S2P Require Import Prelude.
From Stdlib Require Import Btauto.

(** ** Bytes as elements of GF(2^8) *)
Definition byte_xor (a b : byte) : byte := byte_of_Z (Z.lxor (Z_of_byte a) (Z_of_byte b)).
Definition byte_or (a b : byte) : byte := byte_of_Z (Z.lor (Z_of_byte a) (Z_of_byte b)).
Infix "⊻" := byte_xor (at level 50, left associativity) : go_scope.
Local Open Scope go_scope.

Lemma Z_lxor_byte_range a b : 0 <= a < 256 -> 0 <= b < 256 -> 0 <= Z.lxor a b < 256.
Proof.
  intros [? ?] [? ?]. assert (0 <= Z.lxor a b) by (apply Z.lxor_nonneg; lia).
  split; [done|]. destruct (decide (Z.lxor a b = 0)); [lia|].
  change 256 with (2 ^ 8). apply Z.log2_lt_pow2; [lia|].
  eapply Z.le_lt_trans; [by apply Z.log2_lxor|].
  assert (forall z, 0 <= z < 256 -> Z.log2 z < 8) as L.
  { intros z Hz. destruct (decide (z = 0)) as [->|]; [done|].
    apply Z.log2_lt_pow2; simpl; lia. }
  apply Z.max_lub_lt; apply L; lia.
Qed.

Lemma Z_of_byte_xor a b : Z_of_byte (a ⊻ b) = Z.lxor (Z_of_byte a) (Z_of_byte b).
Proof.
  unfold byte_xor. rewrite Z_of_byte_of_Z.
  apply Z.mod_small, Z_lxor_byte_range; apply Z_of_byte_range.
Qed.

(** Equations between xors are equations between bits. *)
Ltac xor_solve :=
  apply Z_of_byte_inj; rewrite ?Z_of_byte_xor;
  apply Z.bits_inj; intros ?; rewrite ?Z.lxor_spec; btauto.

Lemma xor_comm a b : a ⊻ b = b ⊻ a.
Proof. xor_solve. Qed.
Lemma xor_0_r a : a ⊻ Byte.x00 = a.
Proof. apply Z_of_byte_inj. rewrite Z_of_byte_xor. apply Z.lxor_0_r. Qed.
Lemma xor_0_l a : Byte.x00 ⊻ a = a.
Proof. by rewrite xor_comm, xor_0_r. Qed.

Lemma xor_cancel a k : (a ⊻ k) ⊻ k = a.
Proof. xor_solve. Qed.

Lemma xor_transpose a1 a2 a3 a4 b1 b2 b3 b4 c1 c2 c3 c4 d1 d2 d3 d4 :
  (a1 ⊻ a2 ⊻ a3 ⊻ a4) ⊻ (b1 ⊻ b2 ⊻ b3 ⊻ b4) ⊻ (c1 ⊻ c2 ⊻ c3 ⊻ c4) ⊻ (d1 ⊻ d2 ⊻ d3 ⊻ d4)
  = (a1 ⊻ b1 ⊻ c1 ⊻ d1) ⊻ (a2 ⊻ b2 ⊻ c2 ⊻ d2) ⊻ (a3 ⊻ b3 ⊻ c3 ⊻ d3) ⊻ (a4 ⊻ b4 ⊻ c4 ⊻ d4).
Proof. xor_solve. Qed.

(** Multiplication by x modulo x^8+x^4+x^3+x+1. *)
Definition xtime (b : byte) : byte :=
  let z := 2 * Z_of_byte b in
  byte_of_Z (if z <? 256 then z else Z.lxor z 0x11B).

Definition m2 := xtime.
Definition m3 (b : byte) := xtime b ⊻ b.
Definition m4 (b : byte) := xtime (xtime b).
Definition m8 (b : byte) := xtime (m4 b).
Definition m9 (b : byte) := m8 b ⊻ b.
Definition m11 (b : byte) := m8 b ⊻ m2 b ⊻ b.
Definition m13 (b : byte) := m8 b ⊻ m4 b ⊻ b.
Definition m14 (b : byte) := m8 b ⊻ m4 b ⊻ m2 b.

Lemma xtime_xor a b : xtime (a ⊻ b) = xtime a ⊻ xtime b.
Proof.
  apply (byte_fun_eq2 (fun a b => xtime (a ⊻ b)) (fun a b => xtime a ⊻ xtime b)).
  vm_compute. reflexivity.
Qed.

(** ** The substitution box *)
Fixpoint gmul_fuel (n : nat) (a b : byte) (z : Z) : byte :=
  match n with
  | O => Byte.x00
  | S n => let r := gmul_fuel n (xtime a) b (z / 2) in
           if Z.odd z then a ⊻ r else r
  end.
Definition gmul (a b : byte) : byte := gmul_fuel 8 a b (Z_of_byte b).
(** x^254 is the inverse of x (and 0 for 0). *)
Definition ginv (a : byte) : byte := Nat.iter 253 (gmul a) a.
Definition rotl8 (z k : Z) : Z := Z.lor (Z.shiftl z k mod 256) (Z.shiftr z (8 - k)).
Definition sbox_calc (a : byte) : byte :=
  let z := Z_of_byte (ginv a) in
  byte_of_Z (Z.lxor (Z.lxor (Z.lxor (Z.lxor (Z.lxor z (rotl8 z 1)) (rotl8 z 2))
                                    (rotl8 z 3)) (rotl8 z 4)) 0x63).

Definition sbox_table : bytes := Eval vm_compute in map sbox_calc all_bytes.
Definition SubByte (b : byte) : byte := nth (Z.to_nat (Z_of_byte b)) sbox_table Byte.x00.

Fixpoint index_of (b : byte) (l : bytes) : Z :=
  match l with
  | [] => 0
  | x :: l => if Byte.eqb x b then 0 else 1 + index_of b l
  end.
Definition inv_sbox_table : bytes :=
  Eval vm_compute in map (fun b => byte_of_Z (index_of b sbox_table)) all_bytes.
Definition InvSubByte (b : byte) : byte := nth (Z.to_nat (Z_of_byte b)) inv_sbox_table Byte.x00.

Lemma InvSubByte_SubByte b : InvSubByte (SubByte b) = b.
Proof.
  apply (byte_fun_eq (fun b => InvSubByte (SubByte b)) id). vm_compute. reflexivity.
Qed.

(** ** Rounds *)
Definition ShiftRows (s : bytes) : bytes :=
  match s with
  | [a0;a1;a2;a3;b0;b1;b2;b3;c0;c1;c2;c3;d0;d1;d2;d3] =>
    [a0;b1;c2;d3;b0;c1;d2;a3;c0;d1;a2;b3;d0;a1;b2;c3]
  | _ => s
  end.
Definition InvShiftRows (s : bytes) : bytes :=
  match s with
  | [a0;a1;a2;a3;b0;b1;b2;b3;c0;c1;c2;c3;d0;d1;d2;d3] =>
    [a0;d1;c2;b3;b0;a1;d2;c3;c0;b1;a2;d3;d0;c1;b2;a3]
  | _ => s
  end.

Fixpoint MixColumns (s : bytes) : bytes :=
  match s with
  | a :: b :: c :: d :: s' =>
    (m2 a ⊻ m3 b ⊻ c ⊻ d) :: (a ⊻ m2 b ⊻ m3 c ⊻ d) ::
    (a ⊻ b ⊻ m2 c ⊻ m3 d) :: (m3 a ⊻ b ⊻ c ⊻ m2 d) :: MixColumns s'
  | _ => s
  end.
Fixpoint InvMixColumns (s : bytes) : bytes :=
  match s with
  | a :: b :: c :: d :: s' =>
    (m14 a ⊻ m11 b ⊻ m13 c ⊻ m9 d) :: (m9 a ⊻ m14 b ⊻ m11 c ⊻ m13 d) ::
    (m13 a ⊻ m9 b ⊻ m14 c ⊻ m11 d) :: (m11 a ⊻ m13 b ⊻ m9 c ⊻ m14 d) :: InvMixColumns s'
  | _ => s
  end.

Definition AddRoundKey (k s : bytes) : bytes := zip_with byte_xor s k.

(** ** Key schedule: 44 words of 4 bytes, then 11 round keys *)
Definition xor_word := zip_with byte_xor.
Definition rot_word (w : bytes) : bytes :=
  match w with a :: w' => w' ++ [a] | [] => [] end.

Fixpoint expand (n : nat) (rcon : byte) (k : bytes) : list bytes :=
  match n with
  | O => [k]
  | S n =>
    let w0 := take 4 k in let w1 := take 4 (drop 4 k) in
    let w2 := take 4 (drop 8 k) in let w3 := drop 12 k in
    let t := match map SubByte (rot_word w3) with
             | a :: t => (a ⊻ rcon) :: t | [] => [] end in
    let v0 := xor_word w0 t in let v1 := xor_word w1 v0 in
    let v2 := xor_word w2 v1 in let v3 := xor_word w3 v2 in
    k :: expand n (xtime rcon) (v0 ++ v1 ++ v2 ++ v3)
  end.
Definition round_keys (key : bytes) : list bytes := expand 10 Byte.x01 key.

Definition enc_round (s k : bytes) : bytes :=
  AddRoundKey k (MixColumns (ShiftRows (map SubByte s))).
Definition dec_round (k s : bytes) : bytes :=
  map InvSubByte (InvShiftRows (InvMixColumns (AddRoundKey k s))).
Definition enc_last (k s : bytes) : bytes := AddRoundKey k (ShiftRows (map SubByte s)).
Definition dec_last (k s : bytes) : bytes := map InvSubByte (InvShiftRows (AddRoundKey k s)).

(** [block.Encrypt] and [block.Decrypt] of one 16-byte block. *)
Definition block_encrypt (key s : bytes) : bytes :=
  match round_keys key with
  | k0 :: ks => enc_last (List.last ks []) (foldl enc_round (AddRoundKey k0 s) (removelast ks))
  | [] => s
  end.
Definition block_decrypt (key s : bytes) : bytes :=
  match round_keys key with
  | k0 :: ks => AddRoundKey k0 (foldr dec_round (dec_last (List.last ks []) s) (removelast ks))
  | [] => s
  end.

(** ** Decryption inverts encryption *)
Lemma m9_xor a b : m9 (a ⊻ b) = m9 a ⊻ m9 b.
Proof. unfold m9, m8, m4. rewrite !xtime_xor. xor_solve. Qed.
Lemma m11_xor a b : m11 (a ⊻ b) = m11 a ⊻ m11 b.
Proof. unfold m11, m8, m4, m2. rewrite !xtime_xor. xor_solve. Qed.
Lemma m13_xor a b : m13 (a ⊻ b) = m13 a ⊻ m13 b.
Proof. unfold m13, m8, m4. rewrite !xtime_xor. xor_solve. Qed.
Lemma m14_xor a b : m14 (a ⊻ b) = m14 a ⊻ m14 b.
Proof. unfold m14, m8, m4, m2. rewrite !xtime_xor. xor_solve. Qed.

(** The products of the two coefficient matrices are sixteen functions of one
    byte, each the identity or constantly zero: checked on all bytes. *)
Definition zero (_ : byte) : byte := Byte.x00.

Ltac mix_row :=
  rewrite ?m9_xor, ?m11_xor, ?m13_xor, ?m14_xor, xor_transpose.

Ltac quad_is f r :=
  let E := fresh "E" in
  pose proof (byte_fun_eq f r ltac:(vm_compute; reflexivity)) as E;
  cbv beta in E; rewrite E; clear E.
Ltac mix_done := unfold zero, id; rewrite ?xor_0_l, ?xor_0_r; reflexivity.

Lemma mix_inv0 a b c d :
  m14 (m2 a ⊻ m3 b ⊻ c ⊻ d) ⊻ m11 (a ⊻ m2 b ⊻ m3 c ⊻ d) ⊻
  m13 (a ⊻ b ⊻ m2 c ⊻ m3 d) ⊻ m9 (m3 a ⊻ b ⊻ c ⊻ m2 d) = a.
Proof.
  mix_row.
  quad_is (fun x => m14 (m2 x) ⊻ m11 x ⊻ m13 x ⊻ m9 (m3 x)) (@id byte).
  quad_is (fun x => m14 (m3 x) ⊻ m11 (m2 x) ⊻ m13 x ⊻ m9 x) zero.
  quad_is (fun x => m14 x ⊻ m11 (m3 x) ⊻ m13 (m2 x) ⊻ m9 x) zero.
  quad_is (fun x => m14 x ⊻ m11 x ⊻ m13 (m3 x) ⊻ m9 (m2 x)) zero.
  mix_done.
Qed.

Lemma mix_inv1 a b c d :
  m9 (m2 a ⊻ m3 b ⊻ c ⊻ d) ⊻ m14 (a ⊻ m2 b ⊻ m3 c ⊻ d) ⊻
  m11 (a ⊻ b ⊻ m2 c ⊻ m3 d) ⊻ m13 (m3 a ⊻ b ⊻ c ⊻ m2 d) = b.
Proof.
  mix_row.
  quad_is (fun x => m9 (m2 x) ⊻ m14 x ⊻ m11 x ⊻ m13 (m3 x)) zero.
  quad_is (fun x => m9 (m3 x) ⊻ m14 (m2 x) ⊻ m11 x ⊻ m13 x) (@id byte).
  quad_is (fun x => m9 x ⊻ m14 (m3 x) ⊻ m11 (m2 x) ⊻ m13 x) zero.
  quad_is (fun x => m9 x ⊻ m14 x ⊻ m11 (m3 x) ⊻ m13 (m2 x)) zero.
  mix_done.
Qed.

Lemma mix_inv2 a b c d :
  m13 (m2 a ⊻ m3 b ⊻ c ⊻ d) ⊻ m9 (a ⊻ m2 b ⊻ m3 c ⊻ d) ⊻
  m14 (a ⊻ b ⊻ m2 c ⊻ m3 d) ⊻ m11 (m3 a ⊻ b ⊻ c ⊻ m2 d) = c.
Proof.
  mix_row.
  quad_is (fun x => m13 (m2 x) ⊻ m9 x ⊻ m14 x ⊻ m11 (m3 x)) zero.
  quad_is (fun x => m13 (m3 x) ⊻ m9 (m2 x) ⊻ m14 x ⊻ m11 x) zero.
  quad_is (fun x => m13 x ⊻ m9 (m3 x) ⊻ m14 (m2 x) ⊻ m11 x) (@id byte).
  quad_is (fun x => m13 x ⊻ m9 x ⊻ m14 (m3 x) ⊻ m11 (m2 x)) zero.
  mix_done.
Qed.

Lemma mix_inv3 a b c d :
  m11 (m2 a ⊻ m3 b ⊻ c ⊻ d) ⊻ m13 (a ⊻ m2 b ⊻ m3 c ⊻ d) ⊻
  m9 (a ⊻ b ⊻ m2 c ⊻ m3 d) ⊻ m14 (m3 a ⊻ b ⊻ c ⊻ m2 d) = d.
Proof.
  mix_row.
  quad_is (fun x => m11 (m2 x) ⊻ m13 x ⊻ m9 x ⊻ m14 (m3 x)) zero.
  quad_is (fun x => m11 (m3 x) ⊻ m13 (m2 x) ⊻ m9 x ⊻ m14 x) zero.
  quad_is (fun x => m11 x ⊻ m13 (m3 x) ⊻ m9 (m2 x) ⊻ m14 x) zero.
  quad_is (fun x => m11 x ⊻ m13 x ⊻ m9 (m3 x) ⊻ m14 (m2 x)) (@id byte).
  mix_done.
Qed.

(** A 16-byte list, spelled out. *)
Lemma length16 {A} (s : list A) : length s = 16%nat ->
  exists a0 a1 a2 a3 b0 b1 b2 b3 c0 c1 c2 c3 d0 d1 d2 d3,
    s = [a0;a1;a2;a3;b0;b1;b2;b3;c0;c1;c2;c3;d0;d1;d2;d3].
Proof.
  intros H. do 16 (destruct s as [|? s]; [discriminate H|]).
  destruct s; [|discriminate H]. by eauto 20.
Qed.

Ltac spell16 H := apply length16 in H as (?&?&?&?&?&?&?&?&?&?&?&?&?&?&?&?&->).

Lemma InvMixColumns_MixColumns s : length s = 16%nat -> InvMixColumns (MixColumns s) = s.
Proof.
  intros H. spell16 H. cbn [MixColumns InvMixColumns].
  by rewrite !mix_inv0, !mix_inv1, !mix_inv2, !mix_inv3.
Qed.

Lemma InvShiftRows_ShiftRows s : length s = 16%nat -> InvShiftRows (ShiftRows s) = s.
Proof. intros H. by spell16 H. Qed.

Lemma map_InvSubByte s : map InvSubByte (map SubByte s) = s.
Proof.
  rewrite map_map. rewrite <- (map_id s) at 2. apply map_ext, InvSubByte_SubByte.
Qed.

Lemma AddRoundKey_twice k s : (length s <= length k)%nat -> AddRoundKey k (AddRoundKey k s) = s.
Proof.
  unfold AddRoundKey. revert k. induction s as [|a s IH]; intros [|b k] H; simpl in *; try done; [lia|].
  rewrite xor_cancel, IH by lia. done.
Qed.

Lemma length_AddRoundKey k s : length k = 16%nat -> length s = 16%nat -> length (AddRoundKey k s) = 16%nat.
Proof. unfold AddRoundKey. intros. rewrite length_zip_with. lia. Qed.
Lemma length_ShiftRows s : length s = 16%nat -> length (ShiftRows s) = 16%nat.
Proof. intros H. by spell16 H. Qed.
Lemma length_MixColumns s : length s = 16%nat -> length (MixColumns s) = 16%nat.
Proof. intros H. by spell16 H. Qed.

Lemma length_map_16 (f : byte -> byte) s : length s = 16%nat -> length (map f s) = 16%nat.
Proof. by rewrite length_map. Qed.
#[local] Hint Resolve length_AddRoundKey length_ShiftRows length_MixColumns length_map_16 : apipro.

Lemma dec_enc_round k s : length k = 16%nat -> length s = 16%nat -> dec_round k (enc_round s k) = s.
Proof.
  intros Hk Hs. unfold dec_round, enc_round.
  rewrite AddRoundKey_twice, InvMixColumns_MixColumns, InvShiftRows_ShiftRows, map_InvSubByte;
    auto with apipro.
  rewrite Hk. by rewrite length_MixColumns by auto with apipro.
Qed.

Lemma dec_enc_last k s : length k = 16%nat -> length s = 16%nat -> dec_last k (enc_last k s) = s.
Proof.
  intros Hk Hs. unfold dec_last, enc_last.
  rewrite AddRoundKey_twice, InvShiftRows_ShiftRows, map_InvSubByte; auto with apipro.
  rewrite Hk. by rewrite length_ShiftRows by auto with apipro.
Qed.

Lemma length_enc_round s k : length k = 16%nat -> length s = 16%nat -> length (enc_round s k) = 16%nat.
Proof. intros. unfold enc_round. auto with apipro. Qed.

Lemma length_enc_rounds ks s : Forall (fun k => length k = 16%nat) ks -> length s = 16%nat ->
  length (foldl enc_round s ks) = 16%nat.
Proof.
  intros H. revert s. induction H as [|k ks Hk _ IH]; intros s Hs; simpl; [done|].
  by apply IH, length_enc_round.
Qed.

Lemma dec_enc_rounds ks s : Forall (fun k => length k = 16%nat) ks -> length s = 16%nat ->
  foldr dec_round (foldl enc_round s ks) ks = s.
Proof.
  intros H. revert s. induction H as [|k ks Hk _ IH]; intros s Hs; simpl; [done|].
  rewrite IH by (by apply length_enc_round). by apply dec_enc_round.
Qed.

Lemma expand_lengths n r k : length k = 16%nat -> Forall (fun k => length k = 16%nat) (expand n r k).
Proof.
  revert r k. induction n as [|n IH]; intros r k Hk; simpl; [by repeat constructor|].
  constructor; [done|]. apply IH. by spell16 Hk.
Qed.

Lemma length_expand n r k : length (expand n r k) = S n.
Proof. revert r k. induction n as [|n IH]; intros; simpl; [done|]. by rewrite IH. Qed.

(** The schedule as used by the cipher: the first key, nine middle keys and
    the last one, all of 16 bytes. *)
Lemma round_keys_shape key : length key = 16%nat ->
  exists k0 ks kl, round_keys key = k0 :: ks ++ [kl] /\ length k0 = 16%nat /\
    length kl = 16%nat /\ Forall (fun k => length k = 16%nat) ks.
Proof.
  intros H. pose proof (expand_lengths 10 Byte.x01 key H) as Hf.
  pose proof (length_expand 10 Byte.x01 key) as Hl. unfold round_keys.
  destruct (expand 10 Byte.x01 key) as [|k0 ks]; [done|].
  destruct ks as [|kl ks _] using rev_ind; [done|].
  apply Forall_cons in Hf as [? [? Hkl]%Forall_app].
  rewrite Forall_singleton in Hkl. exists k0, ks, kl. auto.
Qed.

Lemma block_decrypt_encrypt key s :
  length key = 16%nat -> length s = 16%nat -> block_decrypt key (block_encrypt key s) = s.
Proof.
  intros Hk Hs. destruct (round_keys_shape key Hk) as (k0 & ks & kl & E & H0 & Hl & Hks).
  unfold block_decrypt, block_encrypt. rewrite E, List.last_last, removelast_last.
  rewrite dec_enc_last by (try apply length_enc_rounds; auto with apipro).
  rewrite dec_enc_rounds by auto with apipro.
  apply AddRoundKey_twice. lia.
Qed.

Lemma length_block_encrypt key s :
  length key = 16%nat -> length s = 16%nat -> length (block_encrypt key s) = 16%nat.
Proof.
  intros Hk Hs. destruct (round_keys_shape key Hk) as (k0 & ks & kl & E & H0 & Hl & Hks).
  unfold block_encrypt, enc_last. rewrite E, List.last_last, removelast_last.
  apply length_AddRoundKey, length_ShiftRows, length_map_16, length_enc_rounds; auto with apipro.
Qed.

(** The documented test vector of src/pkg/codec/codec.go: one padded block
    under the request key. *)
Example aes_vector :
  map Z_of_byte (block_encrypt (bytes_of "PHp1st5vEg5Ca8FH")
    (bytes_of "{" ++ byte_of_Z 34 :: bytes_of "a" ++ byte_of_Z 34 :: bytes_of ":1}"
     ++ replicate 9 (byte_of_Z 9)))
  = [0xf6;0xd9;0x66;0x62;0x60;0xc6;0x49;0xf4;0x10;0x50;0xf4;0x60;0xaa;0x0a;0x2c;0xbe].
Proof. vm_compute. reflexivity. Qed.
