(* ===== verification/Md5.v ===== *)
(** * MD5 (crypto/md5)

    The digest behind [MD5Hex] of src/common/auth/pwd.go, executable.  Words
    are [Z] values in [0, 2^32); every addition wraps. *)

From S2P Require Import Prelude GoStr.

(** Table of sines and rotation amounts. *)
Definition md5_K : list Z :=
  [0xd76aa478; 0xe8c7b756; 0x242070db; 0xc1bdceee; 0xf57c0faf; 0x4787c62a;
   0xa8304613; 0xfd469501; 0x698098d8; 0x8b44f7af; 0xffff5bb1; 0x895cd7be;
   0x6b901122; 0xfd987193; 0xa679438e; 0x49b40821; 0xf61e2562; 0xc040b340;
   0x265e5a51; 0xe9b6c7aa; 0xd62f105d; 0x02441453; 0xd8a1e681; 0xe7d3fbc8;
   0x21e1cde6; 0xc33707d6; 0xf4d50d87; 0x455a14ed; 0xa9e3e905; 0xfcefa3f8;
   0x676f02d9; 0x8d2a4c8a; 0xfffa3942; 0x8771f681; 0x6d9d6122; 0xfde5380c;
   0xa4beea44; 0x4bdecfa9; 0xf6bb4b60; 0xbebfbc70; 0x289b7ec6; 0xeaa127fa;
   0xd4ef3085; 0x04881d05; 0xd9d4d039; 0xe6db99e5; 0x1fa27cf8; 0xc4ac5665;
   0xf4292244; 0x432aff97; 0xab9423a7; 0xfc93a039; 0x655b59c3; 0x8f0ccc92;
   0xffeff47d; 0x85845dd1; 0x6fa87e4f; 0xfe2ce6e0; 0xa3014314; 0x4e0811a1;
   0xf7537e82; 0xbd3af235; 0x2ad7d2bb; 0xeb86d391].
Definition md5_s : list Z :=
  concat (map (fun r => concat (replicate 4 r))
    [[7;12;17;22]; [5;9;14;20]; [4;11;16;23]; [6;10;15;21]]).

Definition add32 (a b : Z) : Z := uint32 (a + b).
Definition not32 (a : Z) : Z := Z.lxor a 0xffffffff.
Definition rotl32 (a k : Z) : Z := Z.lor (uint32 (Z.shiftl a k)) (Z.shiftr a (32 - k)).

Definition md5_f (i : Z) (b c d : Z) : Z :=
  if i <? 16 then Z.lor (Z.land b c) (Z.land (not32 b) d)
  else if i <? 32 then Z.lor (Z.land d b) (Z.land (not32 d) c)
  else if i <? 48 then Z.lxor (Z.lxor b c) d
  else Z.lxor c (Z.lor b (not32 d)).
Definition md5_g (i : Z) : Z :=
  if i <? 16 then i
  else if i <? 32 then (5 * i + 1) mod 16
  else if i <? 48 then (3 * i + 5) mod 16
  else (7 * i) mod 16.

Definition word_le (b : bytes) : Z := foldr (fun x acc => Z_of_byte x + 256 * acc) 0 b.
Fixpoint split_le (n : nat) (z : Z) : bytes :=
  match n with
  | O => []
  | S n => byte_of_Z z :: split_le n (z / 256)
  end.
Fixpoint words (n : nat) (b : bytes) : list Z :=
  match n with
  | O => []
  | S n => word_le (take 4 b) :: words n (drop 4 b)
  end.

Definition md5_state : Type := Z * Z * Z * Z.

Definition md5_step (m : list Z) (st : md5_state) (iks : Z * (Z * Z)) : md5_state :=
  let '(a, b, c, d) := st in
  let '(i, (k, s)) := iks in
  let f := add32 (add32 (add32 (md5_f i b c d) a) k) (nth (Z.to_nat (md5_g i)) m 0) in
  (d, add32 b (rotl32 f s), b, c).

Definition md5_rounds : list (Z * (Z * Z)) :=
  zip (map Z.of_nat (seq 0 64)) (zip md5_K md5_s).

Definition md5_block (st : md5_state) (blk : bytes) : md5_state :=
  let '(a, b, c, d) := st in
  let '(a', b', c', d') := foldl (md5_step (words 16 blk)) st md5_rounds in
  (add32 a a', add32 b b', add32 c c', add32 d d').

(** Padding: 0x80, zeros up to 56 modulo 64, then the bit length. *)
Definition md5_pad (m : bytes) : bytes :=
  let n := Z.of_nat (length m) in
  m ++ Byte.x80 :: replicate (Z.to_nat ((55 - n) mod 64)) Byte.x00
    ++ split_le 8 ((8 * n) mod 2 ^ 64).

Fixpoint md5_blocks (n : nat) (st : md5_state) (m : bytes) : md5_state :=
  match n with
  | O => st
  | S n => md5_blocks n (md5_block st (take 64 m)) (drop 64 m)
  end.

(** [md5.Sum]. *)
Definition md5_Sum (m : bytes) : bytes :=
  let p := md5_pad m in
  let '(a, b, c, d) := md5_blocks (length p / 64)
    (0x67452301, 0xefcdab89, 0x98badcfe, 0x10325476) p in
  split_le 4 a ++ split_le 4 b ++ split_le 4 c ++ split_le 4 d.

Lemma length_split_le n z : length (split_le n z) = n.
Proof. revert z. induction n as [|n IH]; intros z; simpl; [done|]. by rewrite IH. Qed.

Lemma length_md5_Sum m : length (md5_Sum m) = 16%nat.
Proof.
  unfold md5_Sum. destruct (md5_blocks _ _ _) as [[[a b] c] d].
  by rewrite !length_app, !length_split_le.
Qed.

(** The test vector of src/common/auth/pwd_test.go. *)
Example md5_vector : hex_encode (md5_Sum (bytes_of "qwe123")) = "200820e3227815ed1756a6b531e7e0d2".
Proof. vm_compute. reflexivity. Qed.
