(* ===== verification/Codec.v ===== *)
(** * The encrypted transport (src/pkg/codec/codec.go)

    AES-128-ECB with PKCS#7 padding, and the six-byte frame header
    [00 A0 | length, big endian].  Every function of the file is here with its
    error returns; the theorems give the exact set of accepted paddings and
    frames and the round trips. *)

From S2P Require Import Prelude GoStr Aes.
Local Open Scope go_scope.

(** ** Constants and errors *)
Definition DefaultRequestKey : bytes := bytes_of "PHp1st5vEg5Ca8FH".
Definition DefaultResponseKey : bytes := bytes_of "qlCJekfRKwWkQxl7".
Definition frameByte0 : byte := Byte.x00.
Definition frameByte1 : byte := Byte.xa0.
Definition frameHeaderLen : Z := 6.

Definition ErrInvalidKey := ErrSentinel "codec.ErrInvalidKey" "codec: AES-128 key must be 16 bytes".
Definition ErrInvalidFrame := ErrSentinel "codec.ErrInvalidFrame" "codec: invalid frame header".
Definition ErrLengthMismatch := ErrSentinel "codec.ErrLengthMismatch" "codec: frame length mismatch".
Definition ErrPadding := ErrSentinel "codec.ErrPadding" "codec: invalid PKCS7 padding".
Definition ErrEmpty := ErrSentinel "codec.ErrEmpty" "codec: empty ciphertext".

Definition len {A} (l : list A) : Z := Z.of_nat (length l).

(** ** PKCS#7 *)
Definition pkcs7Pad (data : bytes) (blockSize : Z) : bytes :=
  if (blockSize <=? 0) || (255 <? blockSize) then []
  else let pad := blockSize - len data mod blockSize in
       data ++ replicate (Z.to_nat pad) (byte_of_Z pad).

Definition pkcs7Unpad (data : bytes) (blockSize : Z) : res bytes :=
  let n := len data in
  if (n =? 0) || negb (n mod blockSize =? 0) then Err ErrPadding
  else
    let pad := Z_of_byte (List.last data Byte.x00) in
    if (pad =? 0) || (blockSize <? pad) || (n <? pad) then Err ErrPadding
    else
      let v := foldl (fun v b => byte_or v (b ⊻ byte_of_Z pad)) Byte.x00
                     (drop (Z.to_nat (n - pad)) data) in
      if Byte.eqb v Byte.x00 then Ok (take (Z.to_nat (n - pad)) data)
      else Err ErrPadding.

(** ** ECB: one block at a time *)
Fixpoint ecb (blk : bytes -> bytes) (n : nat) (src : bytes) : bytes :=
  match n with
  | O => []
  | S n => blk (take 16 src) ++ ecb blk n (drop 16 src)
  end.
Definition ecbEncrypt (key src : bytes) : bytes := ecb (block_encrypt key) (length src / 16) src.
Definition ecbDecrypt (key src : bytes) : bytes := ecb (block_decrypt key) (length src / 16) src.

(** ** Encrypt and Decrypt *)
Definition Encrypt (plaintext key : bytes) : res bytes :=
  if negb (len key =? 16) then Err ErrInvalidKey
  else
    let padded := pkcs7Pad plaintext 16 in
    if len padded =? 0 then Err ErrEmpty
    else Ok (ecbEncrypt key padded).

Definition Decrypt (ciphertext key : bytes) : res bytes :=
  if negb (len key =? 16) then Err ErrInvalidKey
  else if len ciphertext =? 0 then Err ErrEmpty
  else if negb (len ciphertext mod 16 =? 0)
  then Err (ErrMsg ("codec: ciphertext not multiple of block size ("
                    +:+ FormatInt (len ciphertext) +:+ ")"))
  else pkcs7Unpad (ecbDecrypt key ciphertext) 16.

(** ** Big-endian integers ([binary.BigEndian]) *)
Fixpoint put_be (n : nat) (z : Z) : bytes :=
  match n with
  | O => []
  | S m => byte_of_Z (z / 256 ^ Z.of_nat m) :: put_be m z
  end.
Definition be (l : bytes) : Z := foldl (fun acc b => acc * 256 + Z_of_byte b) 0 l.

(** ** Frames *)
Definition EncodeFrame (payload key : bytes) : res bytes :=
  match Encrypt payload key with
  | Err e => Err e
  | Ok ct => Ok (frameByte0 :: frameByte1 :: put_be 4 (uint32 (len ct)) ++ ct)
  end.

Definition DecodeFrame (raw key : bytes) : res bytes :=
  if len raw <? frameHeaderLen then Err ErrInvalidFrame
  else match raw with
  | b0 :: b1 :: rest =>
    if negb (Byte.eqb b0 frameByte0) || negb (Byte.eqb b1 frameByte1) then Err ErrInvalidFrame
    else let n := be (take 4 rest) in
      if negb (n =? len raw - frameHeaderLen) then Err ErrLengthMismatch
      else Decrypt (drop 4 rest) key
  | _ => Err ErrInvalidFrame
  end.

(** ** Lemmas: big-endian integers *)
Lemma be_app l b : be (l ++ [b]) = be l * 256 + Z_of_byte b.
Proof. unfold be. by rewrite foldl_app. Qed.

Lemma length_put_be n z : length (put_be n z) = n.
Proof. induction n as [|n IH]; simpl; [done|]. by rewrite IH. Qed.

Lemma be_cons b l : be (b :: l) = Z_of_byte b * 256 ^ len l + be l.
Proof.
  revert b. induction l as [|c l IH] using rev_ind; intros b.
  { unfold be, len; simpl. lia. }
  rewrite app_comm_cons, !be_app, IH. unfold len. rewrite length_app. simpl.
  rewrite Nat2Z.inj_add, Z.pow_add_r by lia. lia.
Qed.

Lemma be_put_be n z : be (put_be n z) = z mod 256 ^ Z.of_nat n.
Proof.
  induction n as [|n IH]; [by rewrite Z.mod_1_r|]. cbn [put_be].
  rewrite be_cons, IH, Z_of_byte_of_Z. unfold len. rewrite length_put_be.
  rewrite Nat2Z.inj_succ, Z.pow_succ_r by lia.
  assert (0 < 256 ^ Z.of_nat n) by (apply Z.pow_pos_nonneg; lia).
  rewrite (Z.mul_comm 256), Z.rem_mul_r by lia. lia.
Qed.

Lemma be_range l : 0 <= be l < 256 ^ len l.
Proof.
  induction l as [|b l IH]; [done|]. rewrite be_cons.
  pose proof (Z_of_byte_range b). unfold len in *. cbn [length].
  rewrite Nat2Z.inj_succ, Z.pow_succ_r by lia. nia.
Qed.

Lemma put_be_be l : put_be (length l) (be l) = l.
Proof.
  enough (forall l z, put_be (length l) (be l + z * 256 ^ len l) = l) as E.
  { rewrite <- (E l 0) at 3. f_equal. lia. }
  clear l. intros l. induction l as [|b l IH]; intros z; [done|].
  pose proof (be_range l). pose proof (Z_of_byte_range b).
  rewrite be_cons. cbn [length put_be]. unfold len in *. cbn [length].
  rewrite Nat2Z.inj_succ, Z.pow_succ_r by lia.
  set (p := 256 ^ Z.of_nat (length l)) in *.
  replace (Z_of_byte b * p + be l + z * (256 * p))
    with (be l + (Z_of_byte b + z * 256) * p) by lia.
  f_equal; [|apply IH].
  rewrite Z.div_add, Z.div_small by lia.
  apply Z_of_byte_inj. rewrite Z_of_byte_of_Z.
  rewrite Z.add_0_l, Z_mod_plus_full. by apply Z.mod_small.
Qed.

(** ** Lemmas: padding *)
Lemma byte_or_zero a b : byte_or a b = Byte.x00 <-> a = Byte.x00 /\ b = Byte.x00.
Proof.
  split; [|by intros [-> ->]].
  unfold byte_or. intros H. apply (f_equal Z_of_byte) in H. rewrite Z_of_byte_of_Z in H.
  pose proof (Z_of_byte_range a). pose proof (Z_of_byte_range b).
  rewrite Z.mod_small in H.
  - apply Z.lor_eq_0_iff in H as [? ?]. split; by apply Z_of_byte_inj.
  - split; [apply Z.lor_nonneg; lia|].
    destruct (decide (Z.lor (Z_of_byte a) (Z_of_byte b) = 0)) as [->|]; [lia|].
    assert (0 <= Z.lor (Z_of_byte a) (Z_of_byte b)) by (apply Z.lor_nonneg; lia).
    assert (forall z, 0 <= z < 256 -> Z.log2 z < 8) as L.
    { intros z Hz. destruct (decide (z = 0)) as [->|]; [done|].
      apply Z.log2_lt_pow2; simpl; lia. }
    change 256 with (2 ^ 8). apply Z.log2_lt_pow2; [lia|].
    rewrite Z.log2_lor by lia. apply Z.max_lub_lt; by apply L.
Qed.

Lemma byte_xor_zero a b : a ⊻ b = Byte.x00 <-> a = b.
Proof.
  split; [|intros ->; apply Z_of_byte_inj; rewrite Z_of_byte_xor; apply Z.lxor_nilpotent].
  intros H. apply (f_equal Z_of_byte) in H. rewrite Z_of_byte_xor in H.
  by apply Z.lxor_eq in H; apply Z_of_byte_inj.
Qed.

Lemma fold_or_zero p l acc :
  foldl (fun v b => byte_or v (b ⊻ p)) acc l = Byte.x00 <->
  acc = Byte.x00 /\ l = replicate (length l) p.
Proof.
  revert acc. induction l as [|b l IH]; intros acc; simpl.
  { split; [by intros ->|by intros [-> _]]. }
  rewrite IH, byte_or_zero, byte_xor_zero. split.
  - intros ([-> ->] & E). split; [done|]. by f_equal.
  - intros (-> & E). injection E as -> E. done.
Qed.

Lemma last_replicate (d x : byte) (l : bytes) n : (0 < n)%nat -> List.last (l ++ replicate n x) d = x.
Proof.
  intros Hn. destruct n as [|n]; [lia|].
  rewrite <- Nat.add_1_r, replicate_add, app_assoc. apply List.last_last.
Qed.

(** The padded blocks [pkcs7Unpad] accepts, and nothing else. *)
Definition padded_as (d p : bytes) (pad : Z) : Prop :=
  1 <= pad <= 16 /\ d = p ++ replicate (Z.to_nat pad) (byte_of_Z pad) /\ len d mod 16 = 0.

Lemma unpad_spec d p : pkcs7Unpad d 16 = Ok p <-> exists pad, padded_as d p pad.
Proof.
  unfold pkcs7Unpad, padded_as, len. split.
  - intros H. break_if; [discriminate|]. break_if; [discriminate|]. break_if; [|discriminate].
    injection H as <-. bool_to_prop.
    match goal with E : Byte.eqb _ _ = true |- _ => rename E into Hv end.
    apply Byte.byte_dec_bl in Hv. apply fold_or_zero in Hv as [_ Hv]. rewrite length_drop in Hv.
    pose proof (Z_of_byte_range (List.last d Byte.x00)).
    set (pad := Z_of_byte _) in *. exists pad. split; [lia|]. split; [|lia].
    rewrite <- (take_drop (Z.to_nat (Z.of_nat (length d) - pad)) d) at 1. f_equal.
    etransitivity; [exact Hv|]. f_equal. lia.
  - intros (pad & Hpad & -> & Hm). rewrite length_app, length_replicate in *.
    rewrite last_replicate by lia.
    rewrite Z_of_byte_of_Z, (Z.mod_small pad 256) by lia.
    rewrite Hm. break_if; [bool_absurd|]. break_if; [bool_absurd|].
    rewrite drop_app_length', take_app_length' by lia.
    assert (forall m, foldl (fun v b => byte_or v (b ⊻ byte_of_Z pad)) Byte.x00
              (replicate m (byte_of_Z pad)) = Byte.x00) as ->; [|done].
    intros m. apply fold_or_zero. by rewrite length_replicate.
Qed.

Lemma pad_spec p : padded_as (pkcs7Pad p 16) p (16 - len p mod 16).
Proof.
  unfold pkcs7Pad, padded_as, len. simpl.
  pose proof (Z.mod_pos_bound (Z.of_nat (length p)) 16 ltac:(lia)).
  split; [lia|]. split; [done|]. rewrite length_app, length_replicate.
  rewrite Nat2Z.inj_add, Z2Nat.id by lia.
  replace (Z.of_nat (length p) + (16 - Z.of_nat (length p) mod 16))
    with (0 + (1 + Z.of_nat (length p) / 16) * 16)
    by (pose proof (Z.div_mod (Z.of_nat (length p)) 16); lia).
  by rewrite Z_mod_plus_full.
Qed.

Lemma pad_not_empty p : pkcs7Pad p 16 <> [].
Proof.
  pose proof (pad_spec p) as (? & -> & _).
  destruct (Z.to_nat _) eqn:E; [lia|]. by destruct p.
Qed.

(** ** Lemmas: ECB *)
Lemma ecb_inv f g n s :
  (forall b, length b = 16%nat -> length (f b) = 16%nat /\ g (f b) = b) ->
  length s = (16 * n)%nat -> ecb g n (ecb f n s) = s.
Proof.
  intros Hfg. revert s. induction n as [|n IH]; intros s Hs.
  { by destruct s; simpl in Hs; [|lia]. }
  cbn [ecb]. destruct (Hfg (take 16 s)) as [Hl Hg]. { rewrite length_take. lia. }
  rewrite take_app_length', drop_app_length' by done.
  rewrite Hg, IH, take_drop by (rewrite length_drop; lia). done.
Qed.

Lemma length_ecb f n s :
  (forall b, length b = 16%nat -> length (f b) = 16%nat) ->
  length s = (16 * n)%nat -> length (ecb f n s) = (16 * n)%nat.
Proof.
  intros Hf. revert s. induction n as [|n IH]; intros s Hs; [done|].
  cbn [ecb]. rewrite length_app, IH, Hf by (rewrite ?length_take, ?length_drop; lia). lia.
Qed.

Lemma blocks_of (s : bytes) : len s mod 16 = 0 -> length s = (16 * (length s / 16))%nat.
Proof.
  unfold len. intros H. apply Nat2Z.inj. rewrite Nat2Z.inj_mul, Nat2Z.inj_div.
  pose proof (Z.div_mod (Z.of_nat (length s)) 16). simpl Z.of_nat in *. lia.
Qed.

Lemma ecb_roundtrip key s : length key = 16%nat -> len s mod 16 = 0 ->
  length (ecbEncrypt key s) = length s /\ ecbDecrypt key (ecbEncrypt key s) = s.
Proof.
  intros Hk Hs%blocks_of. unfold ecbEncrypt, ecbDecrypt.
  assert (length (ecb (block_encrypt key) (length s / 16) s) = length s) as Hl.
  { rewrite length_ecb; [done| |done]. intros b Hb. by apply length_block_encrypt. }
  split; [done|]. rewrite Hl. apply ecb_inv; [|done].
  intros b Hb. split; [by apply length_block_encrypt|by apply block_decrypt_encrypt].
Qed.

Lemma len_eq16 (key : bytes) : (len key =? 16) = true <-> length key = 16%nat.
Proof. unfold len. rewrite Z.eqb_eq. lia. Qed.

Lemma Encrypt_ok p key : length key = 16%nat ->
  exists ct, Encrypt p key = Ok ct /\ len ct mod 16 = 0 /\ 0 < len ct <= len p + 16 /\
    Decrypt ct key = Ok p.
Proof.
  intros Hk. pose proof (pad_spec p) as Hp. pose proof (pad_not_empty p) as Hne.
  set (d := pkcs7Pad p 16) in *.
  destruct (ecb_roundtrip key d Hk) as [Hl Hd]; [by destruct Hp as (_ & _ & ?)|].
  assert ((len d =? 0) = false) as Hd0. { unfold len. destruct d; [done|]. simpl. lia. }
  assert (0 < len d <= len p + 16) as Hb.
  { apply Z.eqb_neq in Hd0. destruct Hp as (? & E & _). rewrite E in *.
    unfold len in *. rewrite length_app, length_replicate in *. lia. }
  exists (ecbEncrypt key d). unfold Encrypt, Decrypt.
  rewrite (proj2 (len_eq16 key) Hk). fold d. rewrite Hd0. simpl.
  assert (len (ecbEncrypt key d) = len d) as Hlen by (unfold len; by rewrite Hl).
  rewrite Hlen, Hd0, Hd. destruct Hp as (? & E & Hm). rewrite Hm. simpl.
  repeat split; try done; try lia.
  apply unpad_spec. exists (16 - len p mod 16). by repeat split; try lia.
Qed.

Lemma frame_ok p key : length key = 16%nat -> len p + 16 < 2 ^ 32 ->
  exists fr, EncodeFrame p key = Ok fr /\ DecodeFrame fr key = Ok p.
Proof.
  intros Hk Hlen.
  destruct (Encrypt_ok p key Hk) as (ct & E & Hm & Hb & D).
  unfold EncodeFrame. rewrite E. eexists; split; [done|].
  unfold DecodeFrame.
  assert (len (frameByte0 :: frameByte1 :: put_be 4 (uint32 (len ct)) ++ ct) = 6 + len ct) as Hl.
  { unfold len. cbn [length]. rewrite length_app, length_put_be. lia. }
  rewrite Hl. unfold frameHeaderLen. destruct (_ <? 6) eqn:?; bool_to_prop; [lia|].
  cbn [Byte.eqb frameByte0 frameByte1 negb orb].
  rewrite take_app_length', drop_app_length' by (by rewrite length_put_be).
  rewrite be_put_be. change (256 ^ Z.of_nat 4) with (2 ^ 32).
  unfold wrapu. rewrite Zmod_mod, Z.mod_small by lia.
  destruct (_ =? _) eqn:?; bool_to_prop; [done|lia].
Qed.

(** ** Theorems *)

(** C17. AES-ECB transport encryption loses nothing: with any 16-byte key,
    [Encrypt] succeeds on every plaintext (the empty one included), its
    output is a positive whole number of blocks at most one block longer than
    the plaintext, and [Decrypt] under the same key returns the plaintext. *)
Theorem Decrypt_Encrypt (p key : bytes) (Hk : length key = 16%nat) :
  exists ct, Encrypt p key = Ok ct /\ len ct mod 16 = 0 /\ 0 < len ct <= len p + 16 /\
    Decrypt ct key = Ok p.
Proof. by apply Encrypt_ok. Qed.

Lemma Decrypt_Encrypt_witness :
  length DefaultRequestKey = 16%nat /\
  exists ct, Encrypt (bytes_of "{}") DefaultRequestKey = Ok ct /\ len ct mod 16 = 0 /\
    0 < len ct <= len (bytes_of "{}") + 16 /\ Decrypt ct DefaultRequestKey = Ok (bytes_of "{}").
Proof. split; [reflexivity|]. apply (Decrypt_Encrypt (bytes_of "{}") DefaultRequestKey). reflexivity. Defined.

(** [pkcs7Unpad] is exact: it accepts a buffer and returns [p] if and only
    if the buffer is [p] followed by some 1..16 copies of that count and is a
    whole number of blocks; and [pkcs7Pad] always produces such a buffer. *)
Theorem pkcs7Unpad_exact (d p : bytes) :
  (pkcs7Unpad d 16 = Ok p <->
   exists pad, 1 <= pad <= 16 /\
     d = p ++ replicate (Z.to_nat pad) (byte_of_Z pad) /\ len d mod 16 = 0)
  /\ pkcs7Unpad (pkcs7Pad p 16) 16 = Ok p.
Proof.
  split; [apply unpad_spec|].
  apply unpad_spec. exists (16 - len p mod 16). apply pad_spec.
Qed.

(** C18. Frame round trip: a payload whose ciphertext length fits the 32-bit
    length field is recovered by [DecodeFrame] from [EncodeFrame]'s output. *)
Theorem DecodeFrame_EncodeFrame (p key : bytes)
    (Hk : length key = 16%nat) (Hlen : len p + 16 < 2 ^ 32) :
  exists fr, EncodeFrame p key = Ok fr /\ DecodeFrame fr key = Ok p.
Proof. by apply frame_ok. Qed.

Lemma DecodeFrame_EncodeFrame_witness :
  len (bytes_of "{hello}") + 16 < 2 ^ 32 /\
  exists fr, EncodeFrame (bytes_of "{hello}") DefaultResponseKey = Ok fr /\
             DecodeFrame fr DefaultResponseKey = Ok (bytes_of "{hello}").
Proof.
  split; [reflexivity|].
  apply (DecodeFrame_EncodeFrame (bytes_of "{hello}") DefaultResponseKey); reflexivity.
Defined.

(** C19. [DecodeFrame] accepts nothing but well-formed frames: success means
    the input is the two magic bytes, the big-endian length of the rest, and
    a non-empty ciphertext of whole blocks of exactly that length that
    decrypts to the result: no trailing bytes, no truncation. *)
Theorem DecodeFrame_sound (raw key p : bytes) (Hok : DecodeFrame raw key = Ok p) :
  exists ct, raw = frameByte0 :: frameByte1 :: put_be 4 (len ct) ++ ct /\
    0 < len ct < 2 ^ 32 /\ len ct mod 16 = 0 /\ length key = 16%nat /\
    Decrypt ct key = Ok p.
Proof.
  unfold DecodeFrame in Hok. break_if; [discriminate|].
  destruct raw as [|b0 [|b1 rest]]; [discriminate..|].
  break_if; [discriminate|]. break_if; [discriminate|]. bool_to_prop.
  apply Byte.byte_dec_bl in H0 as ->. apply Byte.byte_dec_bl in H as ->.
  exists (drop 4 rest). unfold frameHeaderLen, len in *. cbn [length] in *.
  assert (length (take 4 rest) = 4%nat) as H4 by (rewrite length_take; lia).
  assert (Z.of_nat (length (drop 4 rest)) = be (take 4 rest)) as Hn.
  { rewrite length_drop. lia. }
  split.
  { do 2 f_equal. rewrite <- (take_drop 4 rest) at 1. f_equal.
    rewrite Hn. rewrite <- H4 at 2. by rewrite put_be_be. }
  pose proof (be_range (take 4 rest)) as Hr. unfold len in Hr. rewrite H4 in Hr.
  change (256 ^ Z.of_nat 4) with (2 ^ 32) in Hr.
  pose proof Hok as Hok'. unfold Decrypt in Hok.
  destruct (len key =? 16) eqn:Hk; [|discriminate]. apply len_eq16 in Hk. simpl in Hok.
  break_if; [discriminate|]. break_if; [discriminate|]. bool_to_prop. unfold len in *.
  repeat split; try done; lia.
Qed.

Lemma DecodeFrame_sound_witness :
  exists fr, DecodeFrame fr DefaultRequestKey = Ok (bytes_of "{}") /\
  exists ct, fr = frameByte0 :: frameByte1 :: put_be 4 (len ct) ++ ct /\
    0 < len ct < 2 ^ 32 /\ len ct mod 16 = 0 /\ length DefaultRequestKey = 16%nat /\
    Decrypt ct DefaultRequestKey = Ok (bytes_of "{}").
Proof.
  exists (match EncodeFrame (bytes_of "{}") DefaultRequestKey with Ok f => f | Err _ => [] end).
  assert (DecodeFrame (match EncodeFrame (bytes_of "{}") DefaultRequestKey with
            Ok f => f | Err _ => [] end) DefaultRequestKey = Ok (bytes_of "{}")) as H
    by (vm_compute; reflexivity).
  split; [exact H|]. apply (DecodeFrame_sound _ _ _ H).
Defined.
