(* ===== verification/Json.v ===== *)
(** * JSON (encoding/json)

    The source stores sessions and cached payloads as JSON text and reads its
    requests from JSON text, so the standard library's encoder and decoder
    are modelled down to the bytes: values, the encoder's HTML-safe escaping,
    the decoder's grammar with its escapes and UTF-8 repair, and the rules by
    which object members fill struct fields.  The main lemma is the round trip
    [json_parse_text] on values with valid UTF-8 strings.  Not modelled: the
    decoder's nesting limit of 10000 levels. *)

From S2P Require Import Prelude GoStr.

#[warnings="-register-all"]
Inductive json : Type :=
| JNull
| JBool (b : bool)
| JNum (lit : string)                (* the literal, as written *)
| JStr (s : string)
| JArr (l : list json)
| JObj (l : list (string * json)).   (* members in order *)

(** ** Valid UTF-8 *)
Definition valid_chunk (c : Z * bytes) : bool := bool_decide (encodeRune c.1 = c.2).
Definition valid_utf8 (s : string) : bool := forallb valid_chunk (chunks (bytes_of s)).
(** Invalid bytes replaced by U+FFFD. *)
Definition to_valid (b : bytes) : bytes := concat (map (fun c => encodeRune c.1) (chunks b)).

Lemma to_valid_id s : valid_utf8 s = true -> to_valid (bytes_of s) = bytes_of s.
Proof.
  unfold valid_utf8, to_valid. intros H%forallb_True.
  rewrite <- (chunks_concat (bytes_of s)) at 2. f_equal.
  induction H as [|c l Hc _ IH]; simpl; [done|].
  unfold valid_chunk in Hc. bool_to_prop. by rewrite Hc, IH.
Qed.

(** ** Encoder *)
Definition hex4 (z : Z) : bytes :=
  bytes_of (String (hex_digit (z / 4096 mod 16)) (String (hex_digit (z / 256 mod 16))
           (String (hex_digit (z / 16 mod 16)) (String (hex_digit (z mod 16)) EmptyString)))).
Definition u_escape (z : Z) : bytes := Byte.x5c :: Byte.x75 :: hex4 z.

(** One rune of a quoted string, HTML-safe. *)
Definition quote_chunk (c : Z * bytes) : bytes :=
  let r := c.1 in
  if r <? 0x80 then
    if (r =? 0x22) || (r =? 0x5c) then Byte.x5c :: c.2
    else if r =? 8 then [Byte.x5c; Byte.x62]
    else if r =? 12 then [Byte.x5c; Byte.x66]
    else if r =? 10 then [Byte.x5c; Byte.x6e]
    else if r =? 13 then [Byte.x5c; Byte.x72]
    else if r =? 9 then [Byte.x5c; Byte.x74]
    else if (r <? 32) || (r =? 0x3c) || (r =? 0x3e) || (r =? 0x26) then u_escape r
    else c.2
  else if (r =? RuneError) && (length c.2 =? 1)%nat then u_escape 0xfffd
  else if (r =? 0x2028) || (r =? 0x2029) then u_escape r
  else c.2.

Definition quote (s : string) : bytes :=
  Byte.x22 :: concat (map quote_chunk (chunks (bytes_of s))) ++ [Byte.x22].

(** Comma-separated pieces. *)
Fixpoint join (l : list bytes) : bytes :=
  match l with
  | [] => []
  | [x] => x
  | x :: l => x ++ Byte.x2c :: join l
  end.

Fixpoint json_bytes (j : json) : bytes :=
  match j with
  | JNull => bytes_of "null"
  | JBool true => bytes_of "true"
  | JBool false => bytes_of "false"
  | JNum lit => bytes_of lit
  | JStr s => quote s
  | JArr l => Byte.x5b :: join (map json_bytes l) ++ [Byte.x5d]
  | JObj l =>
    Byte.x7b :: join (map (fun '(k, x) => quote k ++ Byte.x3a :: json_bytes x) l) ++ [Byte.x7d]
  end.

(** [json.Marshal] of a value, as a string. *)
Definition json_text (j : json) : string := string_of (json_bytes j).

(** ** Decoder *)
Definition is_ws (b : byte) : bool :=
  match b with Byte.x20 | Byte.x09 | Byte.x0a | Byte.x0d => true | _ => false end.
Definition skip_ws (s : bytes) : bytes := dropWhile is_ws s.

Definition hex_val (b : byte) : option Z :=
  let z := Z_of_byte b in
  if (48 <=? z) && (z <=? 57) then Some (z - 48)
  else if (97 <=? z) && (z <=? 102) then Some (z - 87)
  else if (65 <=? z) && (z <=? 70) then Some (z - 55)
  else None.
Definition hex4_val (a b c d : byte) : option Z :=
  a ← hex_val a; b ← hex_val b; c ← hex_val c; d ← hex_val d;
  Some (a * 4096 + b * 256 + c * 16 + d).
Definition is_surrogate (z : Z) : bool := (0xD800 <=? z) && (z <=? 0xDFFF).
(** [utf16.DecodeRune]. *)
Definition decode_pair (hi lo : Z) : option Z :=
  if (0xD800 <=? hi) && (hi <? 0xDC00) && (0xDC00 <=? lo) && (lo <? 0xE000)
  then Some (Z.lor (Z.shiftl (hi - 0xD800) 10) (lo - 0xDC00) + 0x10000) else None.

Definition prepend (b : bytes) (r : option (bytes * bytes)) : option (bytes * bytes) :=
  '(o, rest) ← r; Some (b ++ o, rest).

(** The body of a string up to its closing quote: the unescaped bytes and the
    rest of the input. *)
Fixpoint parse_str (s : bytes) : option (bytes * bytes) :=
  match s with
  | [] => None
  | Byte.x22 :: rest => Some ([], rest)
  | Byte.x5c :: s1 =>
    match s1 with
    | Byte.x22 :: s' => prepend [Byte.x22] (parse_str s')
    | Byte.x5c :: s' => prepend [Byte.x5c] (parse_str s')
    | Byte.x2f :: s' => prepend [Byte.x2f] (parse_str s')
    | Byte.x62 :: s' => prepend [Byte.x08] (parse_str s')
    | Byte.x66 :: s' => prepend [Byte.x0c] (parse_str s')
    | Byte.x6e :: s' => prepend [Byte.x0a] (parse_str s')
    | Byte.x72 :: s' => prepend [Byte.x0d] (parse_str s')
    | Byte.x74 :: s' => prepend [Byte.x09] (parse_str s')
    | Byte.x75 :: a :: b :: c :: d :: s' =>
      match hex4_val a b c d with
      | None => None
      | Some z =>
        if is_surrogate z then
          match s' with
          | Byte.x5c :: Byte.x75 :: a' :: b' :: c' :: d' :: s'' =>
            match hex4_val a' b' c' d' with
            | Some z' =>
              match decode_pair z z' with
              | Some r => prepend (encodeRune r) (parse_str s'')
              | None => prepend (encodeRune RuneError) (parse_str s')
              end
            | None => prepend (encodeRune RuneError) (parse_str s')
            end
          | _ => prepend (encodeRune RuneError) (parse_str s')
          end
        else prepend (encodeRune z) (parse_str s')
      end
    | _ => None
    end
  | b :: s' => if Z_of_byte b <? 32 then None else prepend [b] (parse_str s')
  end.

Definition parse_string (s : bytes) : option (string * bytes) :=
  '(o, rest) ← parse_str s; Some (string_of (to_valid o), rest).

Definition is_dig (b : byte) : bool := in_range 48 57 b.
Definition num_char (b : byte) : bool :=
  is_dig b || match b with
  | Byte.x2b | Byte.x2d | Byte.x2e | Byte.x45 | Byte.x65 => true | _ => false end.

(** The number grammar: -?(0|[1-9][0-9]* )(.[0-9]+)?([eE][+-]?[0-9]+)? *)
Definition digits1 (s : bytes) : option bytes :=
  match takeWhile is_dig s with [] => None | _ => Some (dropWhile is_dig s) end.
Definition num_exp (s : bytes) : bool :=
  match s with
  | [] => true
  | (Byte.x45 | Byte.x65) :: s' =>
    let s' := match s' with (Byte.x2b | Byte.x2d) :: t => t | _ => s' end in
    match digits1 s' with Some [] => true | _ => false end
  | _ => false
  end.
Definition num_frac (s : bytes) : bool :=
  match s with
  | Byte.x2e :: s' => match digits1 s' with Some t => num_exp t | None => false end
  | _ => num_exp s
  end.
Definition num_int (s : bytes) : bool :=
  match s with
  | Byte.x30 :: s' => num_frac s'
  | _ => match digits1 s with Some t => num_frac t | None => false end
  end.
Definition valid_num (s : bytes) : bool :=
  match s with Byte.x2d :: s' => num_int s' | _ => num_int s end.

Definition parse_num (s : bytes) : option (json * bytes) :=
  let lit := takeWhile num_char s in
  if valid_num lit then Some (JNum (string_of lit), dropWhile num_char s) else None.

Fixpoint parse_value (n : nat) (s : bytes) : option (json * bytes) :=
  match n with
  | O => None
  | S n =>
    match skip_ws s with
    | Byte.x22 :: s' => '(t, r) ← parse_string s'; Some (JStr t, r)
    | Byte.x7b :: s' =>
      match skip_ws s' with
      | Byte.x7d :: r => Some (JObj [], r)
      | _ => '(ms, r) ← parse_members n s'; Some (JObj ms, r)
      end
    | Byte.x5b :: s' =>
      match skip_ws s' with
      | Byte.x5d :: r => Some (JArr [], r)
      | _ => '(l, r) ← parse_elems n s'; Some (JArr l, r)
      end
    | Byte.x6e :: Byte.x75 :: Byte.x6c :: Byte.x6c :: r => Some (JNull, r)
    | Byte.x74 :: Byte.x72 :: Byte.x75 :: Byte.x65 :: r => Some (JBool true, r)
    | Byte.x66 :: Byte.x61 :: Byte.x6c :: Byte.x73 :: Byte.x65 :: r => Some (JBool false, r)
    | s' => parse_num s'
    end
  end
with parse_members (n : nat) (s : bytes) : option (list (string * json) * bytes) :=
  match n with
  | O => None
  | S n =>
    match skip_ws s with
    | Byte.x22 :: s1 =>
      '(k, s2) ← parse_string s1;
      match skip_ws s2 with
      | Byte.x3a :: s3 =>
        '(v, s4) ← parse_value n s3;
        match skip_ws s4 with
        | Byte.x2c :: s5 => '(ms, r) ← parse_members n s5; Some ((k, v) :: ms, r)
        | Byte.x7d :: r => Some ([(k, v)], r)
        | _ => None
        end
      | _ => None
      end
    | _ => None
    end
  end
with parse_elems (n : nat) (s : bytes) : option (list json * bytes) :=
  match n with
  | O => None
  | S n =>
    '(v, s1) ← parse_value n s;
    match skip_ws s1 with
    | Byte.x2c :: s2 => '(l, r) ← parse_elems n s2; Some (v :: l, r)
    | Byte.x5d :: r => Some ([v], r)
    | _ => None
    end
  end.

(** The whole input must be one value; two steps of fuel per byte are more
    than the grammar can use. *)
Definition json_parse (s : string) : option json :=
  let b := bytes_of s in
  '(j, r) ← parse_value (S (2 * length b)) b;
  match skip_ws r with [] => Some j | _ => None end.

(** ** Filling Go values *)

(** [bytes.EqualFold] against an ASCII name: ASCII letters, and the two
    non-ASCII runes that fold to ASCII letters. *)
Definition fold_rune (r : Z) : Z :=
  if (97 <=? r) && (r <=? 122) then r - 32
  else if r =? 0x17F then 83 else if r =? 0x212A then 75 else r.
Definition EqualFold (s t : string) : bool :=
  bool_decide (map fold_rune (runes s) = map fold_rune (runes t)).

(** A struct field: its JSON name, and how a value is stored into it ([None]
    when the value's type does not fit; the field is then left alone). *)
Record field (T : Type) : Type := Field { fname : string; fset : json -> T -> option T }.
Arguments Field {T} _ _.
Arguments fname {T} _.
Arguments fset {T} _ _ _.

Definition find_field {T} (fs : list (field T)) (k : string) : option (field T) :=
  match List.find (fun f => String.eqb (fname f) k) fs with
  | Some f => Some f
  | None => List.find (fun f => EqualFold (fname f) k) fs
  end.

Definition set_member {T} (fs : list (field T)) (acc : T * bool) (m : string * json) : T * bool :=
  match find_field fs m.1 with
  | None => acc
  | Some f => match m.2 with
    | JNull => acc                        (* null leaves a scalar field alone *)
    | v => match fset f v acc.1 with
           | Some t => (t, acc.2)
           | None => (acc.1, false)
           end
    end
  end.

(** Decode into a struct: the filled value, and whether every member fitted. *)
Definition decode_struct {T} (fs : list (field T)) (zero : T) (j : json) : T * bool :=
  match j with
  | JObj ms => foldl (set_member fs) (zero, true) ms
  | JNull => (zero, true)
  | _ => (zero, false)
  end.

(** [json.Unmarshal(text, &v)] for a struct type: the value left in [v], and
    [false] when an error is returned.  A syntax error leaves [v] alone; a
    type mismatch skips one member and goes on. *)
Definition Unmarshal {T} (fs : list (field T)) (zero : T) (text : string) : T * bool :=
  match json_parse text with
  | None => (zero, false)
  | Some j => decode_struct fs zero j
  end.

Definition as_string (j : json) : option string := match j with JStr s => Some s | _ => None end.
Definition as_bool (j : json) : option bool := match j with JBool b => Some b | _ => None end.
(** An [int]/[int64] field. *)
Definition as_int (j : json) : option Z := match j with JNum lit => ParseInt lit | _ => None end.
(** An [int32] field, and a [uint16] field. *)
Definition as_int32 (j : json) : option Z :=
  z ← as_int j; if (- 2 ^ 31 <=? z) && (z <? 2 ^ 31) then Some z else None.
Definition as_uint16 (j : json) : option Z :=
  match j with
  | JNum (String c _ as lit) =>
    if is_digit c then z ← ParseInt lit; if z <? 2 ^ 16 then Some z else None else None
  | _ => None
  end.

Definition jint (z : Z) : json := JNum (FormatInt z).
(** A field with the [omitempty] option. *)
Definition omitempty (empty : bool) (k : string) (j : json) : list (string * json) :=
  if empty then [] else [(k, j)].

Example json_text_ex :
  json_text (JObj [("a", jint 1); ("b", JArr [JStr "x<y"; JNull])]) =
  string_of (bytes_of "{" ++ quote "a" ++ bytes_of ":1," ++ quote "b" ++ bytes_of ":["
    ++ Byte.x22 :: bytes_of "x\u003cy" ++ Byte.x22 :: bytes_of ",null]}").
Proof. vm_compute. reflexivity. Qed.
Example json_parse_ex : json_parse " { } " = Some (JObj []).
Proof. vm_compute. reflexivity. Qed.

(** ** Round trip *)

(** Values the encoder's output represents faithfully: valid UTF-8 strings
    and grammatical number literals. *)
Fixpoint json_wf (j : json) : bool :=
  match j with
  | JNull | JBool _ => true
  | JNum lit => valid_num (bytes_of lit) && forallb num_char (bytes_of lit)
  | JStr s => valid_utf8 s
  | JArr l => forallb json_wf l
  | JObj l => forallb (fun '(k, x) => valid_utf8 k && json_wf x) l
  end.

Lemma json_ind' (P : json -> Prop)
    (Hnull : P JNull) (Hbool : forall b, P (JBool b)) (Hnum : forall l, P (JNum l))
    (Hstr : forall s, P (JStr s)) (Harr : forall l, Forall P l -> P (JArr l))
    (Hobj : forall l, Forall (fun m => P m.2) l -> P (JObj l)) : forall j, P j.
Proof.
  fix IH 1. intros [|b|lit|s|l|l]; [done|done|done|done| |].
  - apply Harr. induction l as [|x l IHl]; constructor; [apply IH|exact IHl].
  - apply Hobj. induction l as [|[k x] l IHl]; constructor; [apply (IH x)|exact IHl].
Qed.

Lemma parse_str_high (b : byte) (s : bytes) : 128 <= Z_of_byte b -> parse_str (b :: s) = prepend [b] (parse_str s).
Proof.
  intros H. destruct b;
    first [exfalso; revert H; vm_compute; intros H; by apply H | reflexivity].
Qed.

Lemma prepend_app a b r : prepend a (prepend b r) = prepend (a ++ b) r.
Proof. destruct r as [[o t]|]; [|done]. simpl. by rewrite app_assoc. Qed.

Lemma prepend_nil r : prepend [] r = r.
Proof. by destruct r as [[o t]|]. Qed.

Lemma parse_str_high_app bs s : Forall (fun b => 128 <= Z_of_byte b) bs ->
  parse_str (bs ++ s) = prepend bs (parse_str s).
Proof.
  induction 1 as [|b bs Hb _ IH]; [by rewrite prepend_nil|].
  simpl app. rewrite parse_str_high, IH by done. apply (prepend_app [b]).
Qed.

Lemma parse_str_ascii b s : Z_of_byte b < 128 ->
  parse_str (quote_chunk (Z_of_byte b, [b]) ++ s) = prepend [b] (parse_str s).
Proof.
  intros H. destruct b;
    first [exfalso; revert H; vm_compute; intros H; discriminate H | reflexivity].
Qed.

(** Bytes at or above 0x80 have bit 7 set. *)
Lemma high_byte z : Z.testbit z 7 = true -> 128 <= Z_of_byte (byte_of_Z z).
Proof.
  intros H. rewrite Z_of_byte_of_Z. pose proof (Z.mod_pos_bound z 256 ltac:(lia)).
  assert (Z.testbit (z mod 2 ^ 8) 7 = true) as Hb by (rewrite Z.mod_pow2_bits_low; [done|lia]).
  apply Z.testbit_true in Hb; [|lia]. change (2 ^ 8) with 256 in Hb. change (2 ^ 7) with 128 in Hb.
  destruct (decide (128 <= z mod 256)); [done|].
  rewrite Z.div_small in Hb by lia. done.
Qed.

Lemma encodeRune_high r : 128 <= r -> Forall (fun b => 128 <= Z_of_byte b) (encodeRune r).
Proof.
  intros Hr. unfold encodeRune.
  set (r' := if (_ : bool) then RuneError else r).
  assert (128 <= r') as Hr' by (unfold r', RuneError; destruct (_ || _); lia).
  destruct (r' <? 128) eqn:?; bool_to_prop; [lia|].
  repeat case_match; repeat constructor; apply high_byte; rewrite Z.lor_spec; done.
Qed.

Lemma encodeRune_ascii r : 0 <= r < 128 -> encodeRune r = [byte_of_Z r].
Proof.
  intros Hr. unfold encodeRune, RuneError.
  replace ((r <? 0) || (1114111 <? r) || ((55296 <=? r) && (r <=? 57343))) with false.
  - by replace (r <? 128) with true by lia.
  - symmetry. apply orb_false_intro; [apply orb_false_intro|apply andb_false_intro1]; lia.
Qed.

Lemma encodeRune_error_length : length (encodeRune RuneError) = 3%nat.
Proof. reflexivity. Qed.

(** Lowering a chunk: the decoder reads back the bytes of a valid chunk. *)
Lemma parse_quote_chunk c s : 0 <= c.1 -> valid_chunk c = true ->
  parse_str (quote_chunk c ++ s) = prepend c.2 (parse_str s).
Proof.
  destruct c as [r bs]. unfold valid_chunk. cbn [fst snd]. intros Hr Hv. bool_to_prop.
  destruct (decide (r < 128)) as [Hlt|Hge].
  - rewrite encodeRune_ascii in Hv by lia. subst bs.
    assert (Z_of_byte (byte_of_Z r) = r) as E by (rewrite Z_of_byte_of_Z; apply Z.mod_small; lia).
    rewrite <- E at 1. apply parse_str_ascii. lia.
  - unfold quote_chunk. cbn [fst snd]. replace (r <? 128) with false by lia.
    destruct (r =? RuneError) eqn:E1; bool_to_prop.
    + subst r bs. cbn [andb]. rewrite encodeRune_error_length.
      apply parse_str_high_app, encodeRune_high. unfold RuneError; lia.
    + cbn [andb]. destruct (r =? 0x2028) eqn:E2; [bool_to_prop; by subst r bs|].
      destruct (r =? 0x2029) eqn:E3; [bool_to_prop; by subst r bs|].
      cbn [orb]. subst bs. apply parse_str_high_app, encodeRune_high. lia.
Qed.

Lemma decodeRune_nonneg s r n : decodeRune s = Some (r, n) -> 0 <= r.
Proof.
  unfold decodeRune. intros H.
  assert (forall b, 0 <= Z_of_byte b) by (intros b; pose proof (Z_of_byte_range b); lia).
  repeat (first [discriminate H | break_match_hyp]); simplify_eq;
    try (unfold RuneError; lia); auto;
    unfold low6; repeat (apply Z.lor_nonneg; split);
    rewrite ?Z.shiftl_nonneg; apply Z.land_nonneg; right; lia.
Qed.

Lemma chunks_nonneg s : Forall (fun c => 0 <= c.1) (chunks s).
Proof.
  unfold chunks. generalize (length s) as n. intros n. revert s.
  induction n as [|n IH]; intros s; simpl; [constructor|].
  destruct (decodeRune s) as [[r k]|] eqn:E; [|constructor].
  constructor; [|apply IH]. by apply decodeRune_nonneg in E.
Qed.

Lemma parse_quote_chunks cs s :
  Forall (fun c => 0 <= c.1) cs -> Forall (fun c => valid_chunk c = true) cs ->
  parse_str (concat (map quote_chunk cs) ++ Byte.x22 :: s) = Some (concat (map snd cs), s).
Proof.
  intros H1 H2. induction cs as [|c cs IH]; [done|].
  apply Forall_cons in H1 as [? ?]. apply Forall_cons in H2 as [? ?].
  cbn [map concat]. rewrite <- app_assoc, parse_quote_chunk by done. by rewrite IH.
Qed.

Lemma parse_quote s rest : valid_utf8 s = true ->
  exists t, quote s ++ rest = Byte.x22 :: t /\ parse_string t = Some (s, rest).
Proof.
  intros Hv. exists (concat (map quote_chunk (chunks (bytes_of s))) ++ Byte.x22 :: rest).
  split; [unfold quote; by rewrite <- app_comm_cons, <- app_assoc|].
  unfold parse_string. rewrite parse_quote_chunks.
  - rewrite chunks_concat. simpl. by rewrite to_valid_id, string_of_bytes_of.
  - apply chunks_nonneg.
  - by apply forallb_True.
Qed.

(** What may follow a number: not another character of the number alphabet. *)
Definition ok_rest (s : bytes) : bool :=
  match s with [] => true | b :: _ => negb (num_char b) end.

Lemma takeWhile_app {A} (p : A -> bool) l r :
  forallb p l = true -> (match r with [] => true | b :: _ => negb (p b) end) = true ->
  takeWhile p (l ++ r) = l /\ dropWhile p (l ++ r) = r.
Proof.
  induction l as [|x l IH]; simpl; intros Hl Hr.
  - destruct r as [|b r]; [done|]. apply negb_true_iff in Hr. simpl. by rewrite Hr.
  - apply andb_prop in Hl as [-> Hl]. destruct (IH Hl Hr) as [-> ->]. done.
Qed.

Lemma parse_num_lit lit rest :
  valid_num (bytes_of lit) = true -> forallb num_char (bytes_of lit) = true -> ok_rest rest = true ->
  parse_num (bytes_of lit ++ rest) = Some (JNum lit, rest).
Proof.
  intros Hv Hc Hr. unfold parse_num.
  destruct (takeWhile_app num_char (bytes_of lit) rest Hc Hr) as [-> ->].
  by rewrite Hv, string_of_bytes_of.
Qed.

(** The first byte of a number: a minus sign or a digit. *)
Definition num_head (b : byte) : bool := is_dig b || Byte.eqb b Byte.x2d.
Lemma valid_num_head l : valid_num l = true -> exists b t, l = b :: t /\ num_head b = true.
Proof.
  destruct l as [|b t]; [done|]. intros H. exists b, t. split; [done|].
  by destruct b; first [reflexivity | discriminate H].
Qed.

(** Fuel: a bound on the nesting a value needs, below the length of its text. *)
Fixpoint jsize (j : json) : nat :=
  match j with
  | JArr l => S (list_sum (map (fun x => S (jsize x)) l))
  | JObj l => S (list_sum (map (fun m => S (jsize m.2)) l))
  | _ => 1
  end.

Lemma skip_ws_nonws b t : is_ws b = false -> skip_ws (b :: t) = b :: t.
Proof. unfold skip_ws. simpl. by intros ->. Qed.

(** The first byte of a value is not white space, a bracket or a separator. *)
Definition value_head (b : byte) : bool :=
  negb (is_ws b || match b with Byte.x7d | Byte.x5d | Byte.x2c => true | _ => false end).

Lemma json_bytes_head j : json_wf j = true ->
  exists b t, json_bytes j = b :: t /\ value_head b = true.
Proof.
  destruct j as [|[]|lit|s|l|l]; simpl; intros H; try (eexists _, _; split; reflexivity).
  apply andb_prop in H as [H _]. apply valid_num_head in H as (b & t & -> & Hb).
  exists b, t. split; [done|]. by destruct b; first [reflexivity | discriminate Hb].
Qed.

Lemma parse_value_num n lit rest :
  valid_num (bytes_of lit) = true -> forallb num_char (bytes_of lit) = true -> ok_rest rest = true ->
  parse_value (S n) (bytes_of lit ++ rest) = Some (JNum lit, rest).
Proof.
  intros Hv Hc Hr. pose proof (parse_num_lit lit rest Hv Hc Hr) as Hp.
  apply valid_num_head in Hv as (b & t & E & Hb). rewrite E in *.
  rewrite <- Hp. cbn [app]. by destruct b; first [discriminate Hb | reflexivity].
Qed.

Lemma join_map_cons {A} (f : A -> bytes) x y l tl :
  join (map f (x :: y :: l)) ++ tl = f x ++ Byte.x2c :: (join (map f (y :: l)) ++ tl).
Proof. cbn [map]. by rewrite (app_comm_cons _ tl), (app_assoc (f x)). Qed.

(** A value and what the decoder reads from its text in front of [rest]. *)
Definition reads_back (j : json) : Prop :=
  forall n rest, json_wf j = true -> (jsize j <= n)%nat -> ok_rest rest = true ->
  parse_value n (json_bytes j ++ rest) = Some (j, rest).

Lemma parse_elems_join l n rest :
  Forall reads_back l -> forallb json_wf l = true -> l <> [] ->
  (list_sum (map (fun x => S (jsize x)) l) <= n)%nat ->
  parse_elems n (join (map json_bytes l) ++ Byte.x5d :: rest) = Some (l, rest).
Proof.
  intros HF. revert n. induction HF as [|x l Hx HF IH]; intros n Hwf Hne Hn; [done|].
  cbn [forallb] in Hwf. apply andb_prop in Hwf as [Hwx Hwl].
  cbn [map list_sum foldr] in Hn. destruct n as [|n]; [lia|].
  destruct l as [|y l].
  - cbn [map join parse_elems]. rewrite Hx by (done || lia). reflexivity.
  - rewrite join_map_cons. cbn [parse_elems].
    rewrite Hx by (done || lia). cbn [mbind option_bind].
    rewrite skip_ws_nonws by done. cbv iota.
    rewrite (IH n); [done|done|done|]. cbn [map list_sum foldr] in *. lia.
Qed.

Definition member_bytes (m : string * json) : bytes := quote m.1 ++ Byte.x3a :: json_bytes m.2.

Lemma parse_members_join l n rest :
  Forall (fun m => reads_back m.2) l ->
  forallb (fun m => valid_utf8 m.1 && json_wf m.2) l = true -> l <> [] ->
  (list_sum (map (fun m => S (jsize m.2)) l) <= n)%nat ->
  parse_members n (join (map member_bytes l) ++ Byte.x7d :: rest) = Some (l, rest).
Proof.
  intros HF. revert n. induction HF as [|[k x] l Hx HF IH]; intros n Hwf Hne Hn; [done|].
  cbn [forallb fst snd] in Hwf. apply andb_prop in Hwf as [[Hk Hwx]%andb_prop Hwl].
  cbn [map list_sum foldr fst snd] in Hn, Hx. destruct n as [|n]; [lia|].
  assert (forall tl, ok_rest tl = true ->
    parse_members (S n) (member_bytes (k, x) ++ tl) =
    match skip_ws tl with
    | Byte.x2c :: s5 => '(ms, r) ← parse_members n s5; Some ((k, x) :: ms, r)
    | Byte.x7d :: r => Some ([(k, x)], r)
    | _ => None
    end) as Hm.
  { intros tl Htl. unfold member_bytes. cbn [fst snd]. rewrite <- app_assoc.
    destruct (parse_quote k ((Byte.x3a :: json_bytes x) ++ tl) Hk) as (t & -> & Ht).
    cbn [parse_members]. rewrite skip_ws_nonws by done. rewrite Ht.
    cbn [mbind option_bind app]. rewrite skip_ws_nonws by done.
    rewrite Hx by (done || lia). reflexivity. }
  destruct l as [|y l].
  - cbn [map join]. rewrite Hm by done. reflexivity.
  - rewrite join_map_cons, Hm by done.
    rewrite skip_ws_nonws by done. cbv iota.
    rewrite (IH n); [done|done|done|]. cbn [map list_sum foldr] in *. lia.
Qed.

Lemma json_bytes_reads_back j : reads_back j.
Proof.
  induction j as [|b|lit|s|l IH|l IH] using json_ind'; intros n rest Hwf Hn Hr;
    (destruct n as [|n]; [simpl in Hn; lia|]).
  - reflexivity.
  - by destruct b.
  - simpl in Hwf. apply andb_prop in Hwf as [Hv Hc]. by apply parse_value_num.
  - simpl json_bytes. destruct (parse_quote s rest Hwf) as (t & -> & Ht).
    cbn [parse_value]. rewrite skip_ws_nonws by done. by rewrite Ht.
  - cbn [json_bytes]. rewrite <- app_comm_cons, <- app_assoc. cbn [parse_value app].
    rewrite skip_ws_nonws by done. destruct l as [|x l]; [reflexivity|].
    pose proof (parse_elems_join (x :: l) n rest IH Hwf ltac:(done) ltac:(simpl in *; lia)) as Hp.
    cbn [json_wf forallb] in Hwf. apply andb_prop in Hwf as [Hwx _].
    destruct (json_bytes_head x Hwx) as (b & t & Hb & Hh).
    destruct (join _ ++ _) as [|c u] eqn:E; [by destruct l; cbn [map join] in E; rewrite Hb in E|].
    assert (c = b) as -> by (destruct l; cbn [map join] in E; rewrite Hb in E; by injection E).
    rewrite skip_ws_nonws by (by destruct b). by destruct b; first [discriminate Hh | rewrite Hp].
  - cbn [json_bytes]. rewrite <- app_comm_cons, <- app_assoc. cbn [parse_value app].
    rewrite skip_ws_nonws by done. destruct l as [|x l]; [reflexivity|].
    replace (map _ (x :: l)) with (map member_bytes (x :: l)) by (apply map_ext; by intros []).
    assert (forallb (fun m => valid_utf8 m.1 && json_wf m.2) (x :: l) = true) as Hwf'.
    { rewrite <- Hwf. cbn [json_wf]. clear. induction (x :: l) as [|[] ? IHl]; [done|].
      cbn [forallb fst snd]. by rewrite IHl. }
    pose proof (parse_members_join (x :: l) n rest IH Hwf' ltac:(done) ltac:(simpl in *; lia)) as Hp.
    destruct (join _ ++ _) as [|c u] eqn:E; [by destruct l|].
    assert (c = Byte.x22) as -> by (destruct l; cbn [map join] in E; by injection E).
    rewrite skip_ws_nonws by done. by rewrite Hp.
Qed.

Lemma length_join_map {A} (f : A -> bytes) x l :
  S (length (join (map f (x :: l)))) = list_sum (map (fun y => S (length (f y))) (x :: l)).
Proof.
  revert x. induction l as [|y l IH]; intros x; [simpl; lia|].
  rewrite <- (app_nil_r (join _)), join_map_cons, app_nil_r, length_app.
  cbn [length map list_sum foldr]. specialize (IH y). cbn [map list_sum foldr] in IH. lia.
Qed.

Lemma list_sum_le {A} (f g : A -> nat) l :
  Forall (fun x => (f x <= g x)%nat) l -> (list_sum (map f l) <= list_sum (map g l))%nat.
Proof. induction 1; simpl; lia. Qed.

Lemma jsize_length j : json_wf j = true -> (jsize j <= 2 * length (json_bytes j))%nat.
Proof.
  induction j as [|[]|lit|s|l IH|l IH] using json_ind'; intros Hwf; try (simpl; lia).
  - destruct (json_bytes_head _ Hwf) as (b & t & -> & _). simpl; lia.
  - cbn [json_bytes jsize json_wf length] in *. rewrite length_app. cbn [length].
    destruct l as [|x l]; [simpl; lia|].
    pose proof (length_join_map json_bytes x l) as E.
    apply forallb_True in Hwf.
    enough (list_sum (map (fun x => S (jsize x)) (x :: l)) <=
            list_sum (map (fun x => 2 * S (length (json_bytes x))) (x :: l)))%nat as H.
    + assert (forall L : list json, list_sum (map (fun x => 2 * S (length (json_bytes x))) L) =
        2 * list_sum (map (fun x => S (length (json_bytes x))) L))%nat as Hd.
      { clear. induction L; simpl in *; lia. }
      rewrite Hd in H. lia.
    + apply list_sum_le. eapply Forall_impl; [apply Forall_and; split; [exact IH|exact Hwf]|].
      intros y [H1 H2]. specialize (H1 H2). cbv beta. lia.
  - cbn [json_bytes jsize json_wf length] in *. rewrite length_app. cbn [length].
    destruct l as [|x l]; [simpl; lia|].
    replace (map (fun '(k, x) => _) (x :: l)) with (map member_bytes (x :: l))
      by (apply map_ext; by intros []).
    pose proof (length_join_map member_bytes x l) as E.
    apply forallb_True in Hwf.
    enough (list_sum (map (fun m => S (jsize m.2)) (x :: l)) <=
            list_sum (map (fun m => 2 * S (length (member_bytes m))) (x :: l)))%nat as H.
    + assert (forall L : list (string * json), list_sum (map (fun x => 2 * S (length (member_bytes x))) L) =
        2 * list_sum (map (fun x => S (length (member_bytes x))) L))%nat as Hd.
      { clear. induction L; simpl in *; lia. }
      rewrite Hd in H. lia.
    + apply list_sum_le. eapply Forall_impl; [apply Forall_and; split; [exact IH|exact Hwf]|].
      intros [k y] [H1 H2]. cbn [snd] in *. apply andb_prop in H2 as [_ H2]. specialize (H1 H2).
      unfold member_bytes. cbn [fst snd]. rewrite length_app. cbn [length]. lia.
Qed.

(** The decoder reads back the value the encoder wrote. *)
Lemma json_parse_text j : json_wf j = true -> json_parse (json_text j) = Some j.
Proof.
  intros Hwf. unfold json_parse, json_text. rewrite bytes_of_string_of.
  pose proof (json_bytes_reads_back j (S (2 * length (json_bytes j))) [] Hwf) as H.
  rewrite app_nil_r in H. rewrite H; [done| |done].
  pose proof (jsize_length j Hwf). lia.
Qed.

Lemma Unmarshal_text {T} (fs : list (field T)) zero j :
  json_wf j = true -> Unmarshal fs zero (json_text j) = decode_struct fs zero j.
Proof. intros H. unfold Unmarshal. by rewrite json_parse_text. Qed.

(** ** Decimal numbers round trip *)
Lemma digit_char_val d : 0 <= d < 10 ->
  is_digit (digit_char d) = true /\ Z.of_nat (Ascii.nat_of_ascii (digit_char d)) - 48 = d.
Proof.
  intros H. unfold is_digit, digit_char. rewrite Ascii.nat_ascii_embedding by lia.
  split; [|lia]. apply andb_true_intro. split; apply Nat.leb_le; lia.
Qed.

Lemma digits_val_fuel f z acc : 0 <= z < 2 ^ Z.of_nat f ->
  digits_val (digits_fuel f z acc) 0 = digits_val acc z.
Proof.
  revert z acc. induction f as [|f IH]; intros z acc Hz; [simpl in *; by replace z with 0 by lia|].
  assert (digits_val (String (digit_char (z mod 10)) acc) (z / 10) = digits_val acc z) as Hd.
  { destruct (digit_char_val (z mod 10) ltac:(apply Z.mod_pos_bound; lia)) as [E1 E2].
    cbn [digits_val]. rewrite E1, E2. f_equal. pose proof (Z.div_mod z 10). lia. }
  cbn [digits_fuel]. destruct (z / 10 =? 0) eqn:E; bool_to_prop.
  - rewrite <- Hd. by rewrite E.
  - rewrite IH; [done|]. rewrite Nat2Z.inj_succ, Z.pow_succ_r in Hz by lia.
    split; [apply Z.div_pos; lia|]. apply Z.div_lt_upper_bound; lia.
Qed.

Lemma digits_fuel_nonempty f z acc : digits_fuel (S f) z acc <> EmptyString.
Proof.
  revert z acc. induction f as [|f IH]; intros z acc.
  - simpl. by destruct (z / 10 =? 0).
  - remember (S f) as g. cbn [digits_fuel]. subst. destruct (z / 10 =? 0); [done|apply IH].
Qed.

Lemma fuel_enough z : 0 <= z -> z < 2 ^ Z.of_nat (S (Z.to_nat (Z.log2 z))).
Proof.
  intros H. rewrite Nat2Z.inj_succ, Z2Nat.id by apply Z.log2_nonneg.
  destruct (decide (z = 0)) as [->|]; [done|]. apply Z.log2_spec. lia.
Qed.

Lemma digits_fuel_length f z acc : (String.length (digits_fuel f z acc) <= f + String.length acc)%nat.
Proof.
  revert z acc. induction f as [|f IH]; intros z acc; [done|]. cbn [digits_fuel].
  destruct (_ =? 0); [cbn [String.length]; lia|]. etransitivity; [apply IH|]. cbn [String.length]. lia.
Qed.

Lemma FormatInt_length z n : Z.abs z < 2 ^ Z.of_nat n -> (0 < n)%nat ->
  (String.length (FormatInt z) <= S n)%nat.
Proof.
  intros Hz Hn. assert (S (Z.to_nat (Z.log2 (Z.abs z))) <= n)%nat as Hf.
  { destruct (decide (z = 0)) as [->|]; [change (Z.log2 (Z.abs 0)) with 0; lia|].
    assert (Z.log2 (Z.abs z) < Z.of_nat n) by (apply Z.log2_lt_pow2; lia).
    pose proof (Z.log2_nonneg (Z.abs z)). lia. }
  unfold FormatInt. destruct (z <? 0); cbn [String.length].
  - pose proof (digits_fuel_length (S (Z.to_nat (Z.log2 (Z.abs z)))) (- z) ""). cbn [String.length] in *. lia.
  - pose proof (digits_fuel_length (S (Z.to_nat (Z.log2 (Z.abs z)))) z ""). cbn [String.length] in *. lia.
Qed.

(** The digits written are digits, and start with 0 only for zero. *)
Definition decimal (s : bytes) : Prop :=
  forallb is_dig s = true /\ (s = [Byte.x30] \/ exists b t, s = b :: t /\ b <> Byte.x30).

Lemma digit_char_byte d : 0 <= d < 10 ->
  is_dig (byte_of_ascii (digit_char d)) = true /\
  (byte_of_ascii (digit_char d) = Byte.x30 -> d = 0).
Proof.
  intros H. assert (d = 0 \/ d = 1 \/ d = 2 \/ d = 3 \/ d = 4 \/ d = 5 \/ d = 6 \/ d = 7 \/ d = 8 \/ d = 9) as Hd by lia.
  repeat (destruct Hd as [->|Hd]; [by split|]). by subst.
Qed.

Lemma digits_fuel_decimal f z acc : 0 <= z < 2 ^ Z.of_nat f ->
  exists ds, bytes_of (digits_fuel f z acc) = ds ++ bytes_of acc /\ forallb is_dig ds = true /\
    (0 < z -> exists b t, ds = b :: t /\ b <> Byte.x30) /\ (z = 0 -> (0 < f)%nat -> ds = [Byte.x30]).
Proof.
  revert z acc. induction f as [|f IH]; intros z acc Hz.
  { exists []. simpl in *. split_and!; [done|done|lia|lia]. }
  destruct (digit_char_byte (z mod 10) ltac:(apply Z.mod_pos_bound; lia)) as [Hd H0].
  cbn [digits_fuel]. destruct (z / 10 =? 0) eqn:E; bool_to_prop.
  - pose proof (Z.div_mod z 10). assert (z mod 10 = z) as Em by lia. rewrite Em in *.
    exists [byte_of_ascii (digit_char z)]. split_and!; [done|simpl; by rewrite Hd| |by intros ->].
    intros Hp. exists (byte_of_ascii (digit_char z)), []. split; [done|]. intros F. apply H0 in F. lia.
  - rewrite Nat2Z.inj_succ, Z.pow_succ_r in Hz by lia.
    assert (0 <= z / 10) by (apply Z.div_pos; lia).
    destruct (IH (z / 10) (String (digit_char (z mod 10)) acc)) as (ds & Eb & Hds & Hp & _).
    { split; [done|]. apply Z.div_lt_upper_bound; lia. }
    exists (ds ++ [byte_of_ascii (digit_char (z mod 10))]). rewrite Eb, <- app_assoc.
    split_and!; [done|by rewrite forallb_app, Hds; simpl; rewrite Hd| |].
    + intros _. destruct (Hp ltac:(lia)) as (b & t & -> & Hb). exists b. by eexists.
    + intros ->. done.
Qed.

Lemma decimal_valid_num ds : forallb is_dig ds = true ->
  ds = [Byte.x30] \/ (exists b t, ds = b :: t /\ b <> Byte.x30) ->
  valid_num ds = true /\ num_int ds = true.
Proof.
  intros Hd [->|(b & t & -> & Hb)]; [done|].
  destruct (takeWhile_app is_dig (b :: t) [] Hd eq_refl) as [E1 E2]. rewrite app_nil_r in E1, E2.
  assert (num_int (b :: t) = true) as Hn.
  { assert (match digits1 (b :: t) with Some t' => num_frac t' | None => false end = true) as Hm
      by (unfold digits1; by rewrite E1, E2).
    unfold num_int. by destruct b; first [congruence | exact Hm]. }
  split; [|done]. simpl in Hd. apply andb_prop in Hd as [Hb' _].
  unfold valid_num. by destruct b; first [discriminate Hb' | exact Hn].
Qed.

Lemma digits_num_char ds : forallb is_dig ds = true -> forallb num_char ds = true.
Proof.
  intros H. induction ds as [|b ds IH]; [done|]. simpl in *. apply andb_prop in H as [Hb Hd].
  rewrite IH by done. unfold num_char. by rewrite Hb.
Qed.

Lemma digits_of_nonneg z : 0 <= z ->
  exists ds, bytes_of (digits_fuel (S (Z.to_nat (Z.log2 z))) z "") = ds /\
    forallb is_dig ds = true /\ valid_num ds = true /\ num_int ds = true.
Proof.
  intros H. destruct (digits_fuel_decimal (S (Z.to_nat (Z.log2 z))) z "") as (ds & E & Hd & Hp & H0).
  { split; [done|]. by apply fuel_enough. }
  exists ds. rewrite app_nil_r in E. split_and!; [done|done| |];
    apply decimal_valid_num; try done;
    (destruct (decide (z = 0)); [left; apply H0; lia|right; apply Hp; lia]).
Qed.

Lemma json_wf_jint z : json_wf (jint z) = true.
Proof.
  unfold jint, json_wf, FormatInt.
  destruct (digits_of_nonneg (Z.abs z) ltac:(lia)) as (ds & E & Hd & Hv & Hn).
  destruct (z <? 0) eqn:Hz; bool_to_prop.
  - replace (- z) with (Z.abs z) by lia.
    change (bytes_of (String "-"%char ?s)) with (Byte.x2d :: bytes_of s).
    rewrite E. simpl. rewrite Hn. by apply digits_num_char.
  - replace z with (Z.abs z) at 2 4 by lia. rewrite E, Hv. by apply digits_num_char.
Qed.

Lemma FormatInt_digit_head c s z : 0 <= z ->
  digits_fuel (S (Z.to_nat (Z.log2 z))) z "" = String c s -> is_digit c = true.
Proof.
  intros Hz E. destruct (digits_of_nonneg z Hz) as (ds & Eb & Hd & _).
  rewrite E in Eb. subst ds. simpl in Hd. apply andb_prop in Hd as [Hd _].
  by destruct c as [[] [] [] [] [] [] [] []]; first [reflexivity | discriminate Hd].
Qed.

Lemma ParseInt_FormatInt z : int64_ok z = true -> ParseInt (FormatInt z) = Some z.
Proof.
  intros Hok. unfold FormatInt.
  assert (digits_val (digits_fuel (S (Z.to_nat (Z.log2 (Z.abs z)))) (Z.abs z) "") 0
            = Some (Z.abs z)) as Hv.
  { rewrite digits_val_fuel; [done|]. split; [lia|]. apply fuel_enough. lia. }
  destruct (z <? 0) eqn:Hz; bool_to_prop.
  - replace (- z) with (Z.abs z) by lia. cbn [ParseInt].
    destruct (digits_fuel _ _ _) as [|c s] eqn:E; [by apply digits_fuel_nonempty in E|].
    rewrite Hv. cbn [mbind option_bind]. replace (-1 * Z.abs z) with z by lia. by rewrite Hok.
  - replace (digits_fuel (S (Z.to_nat (Z.log2 (Z.abs z)))) z "")
      with (digits_fuel (S (Z.to_nat (Z.log2 (Z.abs z)))) (Z.abs z) "") by (f_equal; lia).
    destruct (digits_fuel _ _ _) as [|c s] eqn:E; [by apply digits_fuel_nonempty in E|].
    apply FormatInt_digit_head in E as Hc; [|lia].
    assert ((z' ← digits_val (String c s) 0;
             if int64_ok (1 * z') then Some (1 * z') else None) = Some z) as Hr.
    { rewrite Hv. cbn [mbind option_bind]. replace (1 * Z.abs z) with z by lia. by rewrite Hok. }
    rewrite <- Hr. unfold ParseInt.
    by destruct c as [[] [] [] [] [] [] [] []]; first [discriminate Hc | reflexivity].
Qed.

#[export] Hint Resolve json_wf_jint : apipro.

(** Decoding one member at a time. *)
Lemma foldl_member {T} (fs : list (field T)) acc acc' m ms r :
  set_member fs acc m = acc' -> foldl (set_member fs) acc' ms = r ->
  foldl (set_member fs) acc (m :: ms) = r.
Proof. by intros <- <-. Qed.

Ltac decode_members :=
  repeat (eapply foldl_member;
    [lazy -[ParseInt FormatInt]; rewrite ?ParseInt_FormatInt by done;
     lazy -[ParseInt FormatInt]; reflexivity|]); reflexivity.

(** ASCII text is valid UTF-8. *)
Lemma valid_utf8_ascii s : Forall (fun b => Z_of_byte b < 128) (bytes_of s) -> valid_utf8 s = true.
Proof.
  unfold valid_utf8, chunks. generalize (bytes_of s) as l. intros l Hl.
  apply forallb_True. induction Hl as [|b l Hb Hl IH]; [constructor|].
  pose proof (Z_of_byte_range b). cbn [length chunks_fuel decodeRune].
  replace (Z_of_byte b <? 128) with true by lia. constructor; [|exact IH].
  unfold valid_chunk. cbn [fst snd take]. rewrite encodeRune_ascii by lia.
  rewrite byte_of_Z_of_byte. by apply bool_decide_eq_true_2.
Qed.

Lemma valid_utf8_hex b : valid_utf8 (hex_encode b) = true.
Proof.
  apply valid_utf8_ascii. induction b as [|x b IH]; [constructor|].
  assert (forall z, 0 <= z < 16 -> Z_of_byte (byte_of_ascii (hex_digit z)) < 128) as Hd.
  { intros z Hz. assert (forallb (fun n => Z_of_byte (byte_of_ascii (hex_digit (Z.of_nat n))) <? 128)
      (seq 0 16) = true) as Ht by (vm_compute; reflexivity).
    eapply forallb_forall with (x := Z.to_nat z) in Ht; [|apply in_seq; lia].
    rewrite Z2Nat.id in Ht by lia. by apply Z.ltb_lt. }
  pose proof (Z_of_byte_range x). cbn [hex_encode].
  assert (forall c s, bytes_of (String c s) = byte_of_ascii c :: bytes_of s) as Hc by done.
  rewrite !Hc. constructor; [apply Hd|constructor; [apply Hd|exact IH]].
  - split; [apply Z.div_pos; lia|apply Z.div_lt_upper_bound; lia].
  - apply Z.mod_pos_bound. lia.
Qed.

Lemma b64_char_ascii z : Z_of_byte (byte_of_ascii (b64_char z)) < 128.
Proof.
  assert (forall n, (n <= 122)%nat -> Z_of_byte (byte_of_ascii (Ascii.ascii_of_nat n)) < 128) as Hn.
  { intros n Hn. assert (forallb (fun n => Z_of_byte (byte_of_ascii (Ascii.ascii_of_nat n)) <? 128) (seq 0 123) = true)
      as Ht by (vm_compute; reflexivity).
    eapply forallb_forall with (x := n) in Ht; [|apply in_seq; lia]. by apply Z.ltb_lt. }
  unfold b64_char. apply Hn. repeat case_match; bool_to_prop; lia.
Qed.

Lemma valid_utf8_base64 b : valid_utf8 (base64_encode b) = true.
Proof.
  apply valid_utf8_ascii.
  assert (forall c s, bytes_of (String c s) = byte_of_ascii c :: bytes_of s) as Hc by done.
  remember (length b) as n eqn:Hn. revert b Hn. induction n as [n IH] using lt_wf_ind. intros b ->.
  destruct b as [|x [|y [|z b]]]; cbn [base64_encode]; rewrite ?Hc;
    repeat (constructor; [apply b64_char_ascii|]); try by repeat constructor.
  apply (IH (length b)); [cbn; lia|done].
Qed.
