(* ===== verification/RawJson.v ===== *)
(** * Raw JSON messages

    [json.RawMessage]: a member kept as the text it was written with, and what
    [json.Marshal] makes of such a text when it embeds it (checked, stripped of
    insignificant space, HTML-safe).  The encoder's own output is a fixed point
    of the latter, and reading a member back from it gives that member's
    encoding. *)

From S2P Require Import Prelude GoStr Json.

(** ** Reading *)

(** A value and the text it spans. *)
Definition raw_value (n : nat) (s : bytes) : option (bytes * bytes) :=
  let s := skip_ws s in
  '(_, r) ← parse_value n s; Some (take (length s - length r) s, r).

(** The members of an object, after its opening brace. *)
Fixpoint raw_members (n : nat) (s : bytes) : option (list (string * bytes)) :=
  match n with
  | O => None
  | S n =>
    match skip_ws s with
    | Byte.x22 :: s1 =>
      '(k, s2) ← parse_string s1;
      match skip_ws s2 with
      | Byte.x3a :: s3 =>
        '(v, s4) ← raw_value n s3;
        match skip_ws s4 with
        | Byte.x2c :: s5 => ms ← raw_members n s5; Some ((k, v) :: ms)
        | Byte.x7d :: _ => Some [(k, v)]
        | _ => None
        end
      | _ => None
      end
    | _ => None
    end
  end.

(** What a RawMessage field [name] of a struct with the fields [fs] holds after
    decoding an object: the text of the last member that goes to it. *)
Definition raw_member {T} (fs : list (field T)) (name : string) (text : bytes) : bytes :=
  match skip_ws text with
  | Byte.x7b :: s =>
    foldl (fun acc m =>
      match find_field fs m.1 with
      | Some f => if String.eqb (fname f) name then m.2 else acc
      | None => acc
      end) [] (default [] (raw_members (S (2 * length text)) s))
  | _ => []
  end.

(** A RawMessage among the fields of a struct: it takes any value. *)
Definition RawField {T} (name : string) : field T := Field name (fun _ t => Some t).

(** ** Writing *)
Definition json_valid (s : bytes) : bool :=
  match json_parse (string_of s) with Some _ => true | None => false end.

(** The three bytes of U+2028 and U+2029. *)
Definition separator (b y z : byte) : bool :=
  Byte.eqb b Byte.xe2 && Byte.eqb y Byte.x80 && (Byte.eqb z Byte.xa8 || Byte.eqb z Byte.xa9).

(** The text byte by byte, [instr] inside a string. *)
Fixpoint compact_go (instr : bool) (s : bytes) : bytes :=
  match s with
  | [] => []
  | b :: s' =>
    if instr then
      if Byte.eqb b Byte.x22 then b :: compact_go false s'
      else if Byte.eqb b Byte.x5c then
        match s' with c :: s'' => b :: c :: compact_go true s'' | [] => [b] end
      else if Byte.eqb b Byte.x3c || Byte.eqb b Byte.x3e || Byte.eqb b Byte.x26 then
        u_escape (Z_of_byte b) ++ compact_go true s'
      else match s' with
        | y :: z :: s'' =>
          if separator b y z then u_escape (if Byte.eqb z Byte.xa8 then 0x2028 else 0x2029) ++ compact_go true s''
          else b :: compact_go true s'
        | _ => b :: compact_go true s'
        end
    else if is_ws b then compact_go false s'
    else b :: compact_go (Byte.eqb b Byte.x22) s'
  end.

(** [json.Marshal] of a RawMessage inside another value; [None] is an error. *)
Definition raw_marshal (s : bytes) : option bytes :=
  if json_valid s then Some (compact_go false s) else None.

(** An object whose member texts are ready. *)
Definition obj_bytes (ms : list (string * bytes)) : bytes :=
  Byte.x7b :: join (map (fun '(k, v) => quote k ++ Byte.x3a :: v) ms) ++ [Byte.x7d].

Example raw_ex :
  let text := bytes_of " { " ++ quote "a" ++ bytes_of " : [ 1, " ++ quote "x y" ++ bytes_of " ] , "
                ++ quote "b" ++ bytes_of ": 2 }" in
  let fs := [@RawField unit "a"; RawField "b"] in
  raw_member fs "a" text = bytes_of "[ 1, " ++ quote "x y" ++ bytes_of " ]" /\
  raw_marshal (raw_member fs "a" text) = Some (bytes_of "[1," ++ quote "x y" ++ bytes_of "]") /\
  raw_member fs "b" text = bytes_of "2".
Proof. by vm_compute. Qed.

(** ** The encoder's output *)

Lemma json_head x : json_wf x = true -> exists b t, json_bytes x = b :: t /\ is_ws b = false.
Proof.
  intros Hwf. destruct (json_bytes_head x Hwf) as (b & t & Hb & Hh). exists b, t. split; [done|].
  by destruct b.
Qed.

Lemma raw_value_bytes x n tl : json_wf x = true -> (jsize x <= n)%nat -> ok_rest tl = true ->
  raw_value n (json_bytes x ++ tl) = Some (json_bytes x, tl).
Proof.
  intros Hwf Hn Htl. unfold raw_value. destruct (json_head x Hwf) as (b & t & Hb & Hw).
  assert (skip_ws (json_bytes x ++ tl) = json_bytes x ++ tl) as ->
    by (rewrite Hb; cbn [app]; by apply skip_ws_nonws).
  rewrite (json_bytes_reads_back x n tl) by done. cbn [mbind option_bind].
  rewrite length_app. replace (_ + _ - _)%nat with (length (json_bytes x)) by lia.
  by rewrite take_app_length.
Qed.

(** Bytes that stand for themselves outside strings. *)
Definition plain_byte (b : byte) : bool := negb (is_ws b) && negb (Byte.eqb b Byte.x22).

Lemma compact_plain l rest : forallb plain_byte l = true ->
  compact_go false (l ++ rest) = l ++ compact_go false rest.
Proof.
  induction l as [|b l IH]; [done|]. cbn [forallb app compact_go].
  intros [Hb Hl]%andb_true_iff. apply andb_true_iff in Hb as [Hw Hq].
  apply negb_true_iff in Hw, Hq. by rewrite Hw, Hq, IH.
Qed.

Lemma high_continuation x : exists b, byte_of_Z (Z.lor 0x80 (Z.land x 0x3F)) = b /\ 128 <= Z_of_byte b < 192 /\
  Z_of_byte b = 128 + Z.land x 0x3F.
Proof.
  eexists. split; [done|]. assert (0 <= Z.land x 0x3F < 64) as Hx.
  { change 0x3F with (Z.ones 6). rewrite Z.land_ones by lia. apply Z.mod_pos_bound. lia. }
  revert Hx. generalize (Z.land x 0x3F) as z. intros z Hz.
  assert ((Z_of_byte (byte_of_Z (Z.lor 0x80 z)) =? 128 + z) = true) as Hb.
  { apply (upto_forall (fun z => Z_of_byte (byte_of_Z (Z.lor 0x80 z)) =? 128 + z) 64);
      [vm_compute; reflexivity|lia]. }
  bool_to_prop. lia.
Qed.

(** Bytes above 0x7f stay, but for the two separators. *)
Lemma high_ne b c : 128 <= Z_of_byte b -> Z_of_byte c < 128 -> Byte.eqb b c = false.
Proof. intros Hb Hc. destruct (Byte.eqb b c) eqn:E; [|done]. apply Byte.byte_dec_bl in E as ->. lia. Qed.

Lemma compact_high b s : 128 <= Z_of_byte b ->
  match s with y :: z :: _ => separator b y z | _ => false end = false ->
  compact_go true (b :: s) = b :: compact_go true s.
Proof.
  intros Hb Hs. cbn [compact_go]. rewrite !(high_ne b) by (done || by vm_compute).
  destruct s as [|y [|z s]]; [done|done|]. by rewrite Hs.
Qed.

Lemma not_separator b y z : b <> Byte.xe2 -> separator b y z = false.
Proof.
  intros Hb. unfold separator. destruct (Byte.eqb b Byte.xe2) eqn:E; [|done].
  by apply Byte.byte_dec_bl in E.
Qed.

Lemma compact_not_e2 b s : 128 <= Z_of_byte b -> b <> Byte.xe2 ->
  compact_go true (b :: s) = b :: compact_go true s.
Proof. intros Hb He. apply compact_high; [done|]. destruct s as [|y [|z s]]; [done..|]. by apply not_separator. Qed.

Lemma continuation_not_e2 b : Z_of_byte b < 192 -> b <> Byte.xe2.
Proof. intros Hb ->. vm_compute in Hb. discriminate Hb. Qed.

Lemma compact_three b y z s : 128 <= Z_of_byte b -> 128 <= Z_of_byte y < 192 -> 128 <= Z_of_byte z < 192 ->
  separator b y z = false -> compact_go true (b :: y :: z :: s) = b :: y :: z :: compact_go true s.
Proof.
  intros Hb Hy Hz Hs. rewrite compact_high by done.
  by rewrite !compact_not_e2 by first [lia | apply continuation_not_e2; lia].
Qed.

(** The lead bytes of multi-byte runes. *)
Lemma lead_byte base n x : In (base, n) [(0xC0, 32%nat); (0xE0, 16%nat); (0xF0, 8%nat)] -> 0 <= x < Z.of_nat n ->
  Z_of_byte (byte_of_Z (Z.lor base x)) = base + x.
Proof.
  intros Hin Hx.
  assert ((Z_of_byte (byte_of_Z (Z.lor base x)) =? base + x) = true) as Hb; [|by apply Z.eqb_eq].
  destruct Hin as [[= <- <-]|[[= <- <-]|[[= <- <-]|[]]]];
    match goal with |- context [Z.lor ?c _] =>
      apply (upto_forall (fun x => Z_of_byte (byte_of_Z (Z.lor c x)) =? c + x)) with (2 := Hx) end;
    vm_compute; reflexivity.
Qed.

Lemma shiftr_range r k n : 0 <= r -> 0 <= k -> r < n * 2 ^ k -> 0 <= Z.shiftr r k < n.
Proof.
  intros Hr Hk Hn. rewrite Z.shiftr_div_pow2 by done. split; [apply Z.div_pos; lia|].
  apply Z.div_lt_upper_bound; lia.
Qed.

(** A three-byte rune is a separator only if it is one of the two. *)
Lemma rune_separator r b y z : Z_of_byte b = 0xE0 + Z.shiftr r 12 ->
  Z_of_byte y = 128 + Z.land (Z.shiftr r 6) 0x3F -> Z_of_byte z = 128 + Z.land r 0x3F ->
  0 <= r -> r <> 0x2028 -> r <> 0x2029 -> separator b y z = false.
Proof.
  intros Hb Hy Hz Hr H1 H2. destruct (separator b y z) eqn:E; [exfalso|done].
  unfold separator in E. rewrite !andb_true_iff, orb_true_iff in E. destruct E as [[Eb Ey] Ez].
  apply Byte.byte_dec_bl in Eb, Ey. subst b y.
  change 0x3F with (Z.ones 6) in *. rewrite Z.land_ones in Hy, Hz by lia.
  rewrite !Z.shiftr_div_pow2 in * by lia. change (2 ^ 6) with 64 in *. change (2 ^ 12) with 4096 in *.
  change (Z_of_byte Byte.xe2) with 226 in Hb. change (Z_of_byte Byte.x80) with 128 in Hy.
  assert (r / 4096 = r / 64 / 64) as Hdd by (rewrite Z.div_div by lia; done).
  pose proof (Z.div_mod r 64 ltac:(lia)). pose proof (Z.div_mod (r / 64) 64 ltac:(lia)).
  destruct Ez as [Ez|Ez]; apply Byte.byte_dec_bl in Ez as ->;
    [change (Z_of_byte Byte.xa8) with 168 in Hz|change (Z_of_byte Byte.xa9) with 169 in Hz]; lia.
Qed.

Lemma compact_rune r s : 128 <= r -> r <> 0x2028 -> r <> 0x2029 ->
  compact_go true (encodeRune r ++ s) = encodeRune r ++ compact_go true s.
Proof.
  intros Hr Hn1 Hn2. unfold encodeRune.
  set (bad := (r <? 0) || _ || _).
  assert (exists r', (if bad then RuneError else r) = r' /\ 128 <= r' <= 0x10FFFF /\ r' <> 0x2028 /\ r' <> 0x2029)
    as (r' & -> & [Hr' Hmax] & Hn1' & Hn2').
  { destruct bad eqn:Ebad; eexists; (split; [done|]); [done|]. unfold bad in Ebad.
    apply orb_false_iff in Ebad as [[_ Ebad]%orb_false_iff _]. lia. }
  clear bad Hr Hn1 Hn2; clear r; rename r' into r, Hr' into Hr, Hn1' into Hn1, Hn2' into Hn2. cbv zeta.
  replace (r <? 0x80) with false by lia.
  destruct (high_continuation r) as (z & -> & Hz & Ez).
  destruct (high_continuation (Z.shiftr r 6)) as (y & -> & Hy & Ey).
  destruct (high_continuation (Z.shiftr r 12)) as (x & -> & Hx & Ex).
  destruct (r <? 0x800) eqn:E1; bool_to_prop; [|destruct (r <? 0x10000) eqn:E2; bool_to_prop]; cbn [app].
  - pose proof (shiftr_range r 6 32 ltac:(lia) ltac:(lia) ltac:(lia)) as Hl.
    pose proof (lead_byte 0xC0 32 _ ltac:(by left) Hl) as El.
    rewrite !compact_not_e2; [done|lia|apply continuation_not_e2; lia|lia|].
    intros E. rewrite E in El. change (Z_of_byte Byte.xe2) with 226 in El. lia.
  - pose proof (shiftr_range r 12 16 ltac:(lia) ltac:(lia) ltac:(lia)) as Hl.
    pose proof (lead_byte 0xE0 16 _ ltac:(by right; left) Hl) as El.
    apply compact_three; [lia|done|done|]. by apply (rune_separator r); [..|lia|done|done].
  - pose proof (shiftr_range r 18 8 ltac:(lia) ltac:(lia) ltac:(lia)) as Hl.
    pose proof (lead_byte 0xF0 8 _ ltac:(by right; right; left) Hl) as El.
    rewrite !compact_not_e2; [done|try lia; apply continuation_not_e2; lia..|lia|].
    intros E. rewrite E in El. change (Z_of_byte Byte.xe2) with 226 in El. lia.
Qed.

Lemma compact_ascii b s : Z_of_byte b < 128 ->
  compact_go true (quote_chunk (Z_of_byte b, [b]) ++ s) = quote_chunk (Z_of_byte b, [b]) ++ compact_go true s.
Proof.
  intros Hb. destruct b;
    first [ exfalso; revert Hb; vm_compute; intros Hb; discriminate Hb
          | destruct s as [|y [|z s]]; reflexivity ].
Qed.

Lemma compact_chunk c s : 0 <= c.1 -> valid_chunk c = true ->
  compact_go true (quote_chunk c ++ s) = quote_chunk c ++ compact_go true s.
Proof.
  destruct c as [r bs]. unfold valid_chunk. cbn [fst snd]. intros Hr Hv. bool_to_prop.
  destruct (decide (r < 128)) as [Hlt|Hge].
  - rewrite encodeRune_ascii in Hv by lia. subst bs.
    assert (Z_of_byte (byte_of_Z r) = r) as E by (rewrite Z_of_byte_of_Z; apply Z.mod_small; lia).
    rewrite <- E at 1 3. apply compact_ascii. lia.
  - unfold quote_chunk. cbn [fst snd]. replace (r <? 128) with false by lia.
    assert ((r =? RuneError) && (length bs =? 1)%nat = false) as ->.
    { destruct (r =? RuneError) eqn:E1; [|done]. bool_to_prop. subst r bs. by rewrite encodeRune_error_length. }
    destruct (r =? 0x2028) eqn:E2; [bool_to_prop; subst r; by destruct s as [|? [|? ?]]|].
    destruct (r =? 0x2029) eqn:E3; [bool_to_prop; subst r; by destruct s as [|? [|? ?]]|].
    bool_to_prop. cbn [orb]. subst bs. by apply compact_rune; [lia|..].
Qed.

Lemma compact_quote s rest : valid_utf8 s = true ->
  compact_go false (quote s ++ rest) = quote s ++ compact_go false rest.
Proof.
  intros Hv%forallb_True. unfold quote. cbn [app compact_go is_ws Byte.eqb].
  f_equal. rewrite <- !app_assoc. cbn [app].
  pose proof (chunks_nonneg (bytes_of s)) as Hn. revert Hn Hv. generalize (chunks (bytes_of s)) as cs.
  intros cs Hn Hv. induction cs as [|c cs IH]; [reflexivity|].
  apply Forall_cons in Hn as [? ?]. apply Forall_cons in Hv as [? ?].
  cbn [map concat]. rewrite <- !app_assoc, compact_chunk by done. f_equal. by apply IH.
Qed.

(** Text that marshalling leaves as it is, in front of anything. *)
Definition compact_fixed (t : bytes) : Prop :=
  forall rest, compact_go false (t ++ rest) = t ++ compact_go false rest.

Lemma fixed_app a b : compact_fixed a -> compact_fixed b -> compact_fixed (a ++ b).
Proof. intros Ha Hb rest. by rewrite <- !app_assoc, Ha, Hb. Qed.

Lemma fixed_byte b : plain_byte b = true -> compact_fixed [b].
Proof. intros Hb rest. apply compact_plain. cbn [forallb]. by rewrite Hb. Qed.

Lemma fixed_join l : Forall compact_fixed l -> compact_fixed (join l).
Proof.
  induction 1 as [|x l Hx Hl IH]; [by intros rest|]. cbn [join]. destruct l; [done|].
  apply fixed_app; [done|]. by apply (fixed_app [Byte.x2c]); [apply fixed_byte|].
Qed.

Lemma fixed_member k v : valid_utf8 k = true -> compact_fixed v -> compact_fixed (quote k ++ Byte.x3a :: v).
Proof.
  intros Hk Hv. apply fixed_app; [by intros rest; apply compact_quote|].
  by apply (fixed_app [Byte.x3a]); [apply fixed_byte|].
Qed.

Lemma fixed_json j : json_wf j = true -> compact_fixed (json_bytes j).
Proof.
  induction j as [|b|lit|s|l IH|l IH] using json_ind'; cbn [json_wf json_bytes]; intros Hwf.
  - intros rest. by apply compact_plain.
  - intros rest. destruct b; by apply compact_plain.
  - intros rest. apply compact_plain. apply andb_true_iff in Hwf as [_ Hc].
    rewrite forallb_True in *. eapply Forall_impl; [exact Hc|]. intros b. by destruct b.
  - intros rest. by apply compact_quote.
  - apply (fixed_app [Byte.x5b]); [by apply fixed_byte|]. apply fixed_app; [|by apply fixed_byte].
    apply fixed_join. rewrite forallb_True in Hwf. apply Forall_map.
    eapply Forall_impl; [apply Forall_and; split; [exact IH|exact Hwf]|]. intros x [H1 H2]. auto.
  - apply (fixed_app [Byte.x7b]); [by apply fixed_byte|]. apply fixed_app; [|by apply fixed_byte].
    apply fixed_join. rewrite forallb_True in Hwf. apply Forall_map.
    eapply Forall_impl; [apply Forall_and; split; [exact IH|exact Hwf]|].
    intros [k x] [H1 [H2 H3]%andb_true_iff]. cbn [snd] in H1. apply fixed_member; auto.
Qed.

Lemma json_valid_bytes j : json_wf j = true -> json_valid (json_bytes j) = true.
Proof. intros Hwf. unfold json_valid. pose proof (json_parse_text j Hwf) as E. unfold json_text in E. by rewrite E. Qed.

(** Marshalling what the encoder wrote changes nothing. *)
Lemma raw_marshal_bytes j : json_wf j = true -> raw_marshal (json_bytes j) = Some (json_bytes j).
Proof.
  intros Hwf. unfold raw_marshal. rewrite json_valid_bytes by done. f_equal.
  pose proof (fixed_json j Hwf []) as E. by rewrite !app_nil_r in E.
Qed.

(** ** Reading back members of an encoded object *)
Lemma raw_members_join l n rest :
  forallb (fun m => valid_utf8 m.1 && json_wf m.2) l = true -> l <> [] ->
  (list_sum (map (fun m => S (jsize m.2)) l) <= n)%nat ->
  raw_members n (join (map member_bytes l) ++ Byte.x7d :: rest) = Some (map (fun m => (m.1, json_bytes m.2)) l).
Proof.
  revert n. induction l as [|[k x] l IH]; intros n Hwf Hne Hn; [done|].
  cbn [forallb fst snd] in Hwf. apply andb_prop in Hwf as [[Hk Hwx]%andb_prop Hwl].
  cbn [map list_sum foldr fst snd] in Hn. destruct n as [|n]; [lia|].
  assert (forall tl, ok_rest tl = true ->
    raw_members (S n) (member_bytes (k, x) ++ tl) =
    match skip_ws tl with
    | Byte.x2c :: s5 => ms ← raw_members n s5; Some ((k, json_bytes x) :: ms)
    | Byte.x7d :: r => Some [(k, json_bytes x)]
    | _ => None
    end) as Hm.
  { intros tl Htl. unfold member_bytes. cbn [fst snd]. rewrite <- app_assoc.
    destruct (parse_quote k ((Byte.x3a :: json_bytes x) ++ tl) Hk) as (t & -> & Ht).
    cbn [raw_members]. rewrite skip_ws_nonws by done. rewrite Ht.
    cbn [mbind option_bind app]. rewrite skip_ws_nonws by done.
    rewrite raw_value_bytes by (done || lia). reflexivity. }
  destruct l as [|y l].
  - cbn [map join]. rewrite Hm by done. reflexivity.
  - rewrite join_map_cons, Hm by done. rewrite skip_ws_nonws by done. cbv iota.
    rewrite (IH n); [done|done|done|]. cbn [map list_sum foldr] in *. lia.
Qed.

Lemma json_bytes_obj l : json_bytes (JObj l) = Byte.x7b :: join (map member_bytes l) ++ [Byte.x7d].
Proof. cbn [json_bytes]. do 3 f_equal. apply map_ext. by intros []. Qed.

(** The members whose key goes to [name], last one first served. *)
Definition last_named {T} (fs : list (field T)) (name : string) (ms : list (string * bytes)) : bytes :=
  foldl (fun acc m =>
    match find_field fs m.1 with
    | Some f => if String.eqb (fname f) name then m.2 else acc
    | None => acc
    end) [] ms.

Lemma raw_member_obj {T} (fs : list (field T)) name l tail : json_wf (JObj l) = true ->
  raw_member fs name (json_bytes (JObj l) ++ tail) = last_named fs name (map (fun m => (m.1, json_bytes m.2)) l).
Proof.
  intros Hwf. pose proof (jsize_length _ Hwf) as Hs. unfold raw_member. rewrite json_bytes_obj.
  rewrite json_bytes_obj in Hs. cbn [app]. rewrite skip_ws_nonws by done. cbv iota.
  rewrite <- app_assoc. cbn [app]. destruct l as [|m l]; [reflexivity|].
  rewrite raw_members_join; [reflexivity| |done|].
  - rewrite <- Hwf. cbn [json_wf]. clear. induction (m :: l) as [|[] ? IHl]; [done|]. cbn [forallb fst snd]. by rewrite IHl.
  - set (t := join _ ++ Byte.x7d :: tail). cbn [jsize] in Hs.
    assert (length (Byte.x7b :: join (map member_bytes (m :: l)) ++ [Byte.x7d]) <= S (length t))%nat.
    { unfold t. cbn [length]. rewrite !length_app. cbn [length]. lia. }
    cbn [length] in *. lia.
Qed.

(** White space after a value changes nothing. *)
Lemma json_parse_trailing j ws : json_wf j = true -> forallb is_ws ws = true ->
  json_parse (string_of (json_bytes j ++ ws)) = Some j.
Proof.
  intros Hwf Hws. unfold json_parse. rewrite bytes_of_string_of.
  rewrite json_bytes_reads_back; [|done| |].
  - cbn [mbind option_bind]. assert (skip_ws ws = []) as ->; [|done].
    induction ws as [|b ws IH]; [done|]. cbn [forallb] in Hws. apply andb_true_iff in Hws as [Hb Hws].
    unfold skip_ws in *. cbn [dropWhile]. rewrite Hb. by apply IH.
  - pose proof (jsize_length j Hwf). rewrite length_app. lia.
  - destruct ws as [|b ws]; [done|]. cbn [forallb] in Hws. apply andb_true_iff in Hws as [Hb _]. by destruct b.
Qed.
