(* ===== verification/Degrade.v ===== *)
(** * The degrade state machine (src/common/degrade/degrade.go)

    [Manager] holds the mode and the watcher channels (each the list of its
    queued modes, oldest first, at most eight).  [Set_], [PromoteIfWorse],
    [DemoteIfBetter] and [Watch] run one call to its end; the [step] relation
    at the end of the file splits a call at the point where the lock is
    released, so that the notifications of two calls interleave. *)

From S2P Require Import Prelude GoStr.

(** ** Modes and levels *)

(** [Mode] is an int32 ordinal. *)
Definition Mode : Type := Z.
Definition ModeNormal : Mode := 0.
Definition ModeDegraded : Mode := 1.
Definition ModeProtected : Mode := 2.
Definition ModeEmergency : Mode := 3.

Definition Mode_String (m : Mode) : string :=
  if m =? ModeNormal then "NORMAL"
  else if m =? ModeDegraded then "DEGRADED"
  else if m =? ModeProtected then "PROTECTED"
  else if m =? ModeEmergency then "EMERGENCY"
  else "UNKNOWN(" +:+ FormatInt m +:+ ")".

Definition Severity (m : Mode) : Z :=
  if m =? ModeNormal then 0
  else if m =? ModeDegraded then 1
  else if m =? ModeProtected then 2
  else if m =? ModeEmergency then 3
  else 0.

Definition Level : Type := Z.
Definition LevelDisplay : Level := 1.
Definition LevelAuth : Level := 2.
Definition LevelWrite : Level := 3.

(** ** The manager *)
Record Manager : Type := MkManager {
  mode : Mode;
  watchers : list (list Mode);
}.

Definition New : Manager := {| mode := ModeNormal; watchers := [] |}.

(** The capacity given to [make(chan Mode, 8)]. *)
Definition watchCap : nat := 8.

(** A non-blocking send on a buffered channel: the queue after it, and
    whether the value went in. *)
Definition try_send (ch : list Mode) (m : Mode) : list Mode * bool :=
  if (length ch <? watchCap)%nat then (ch ++ [m], true) else (ch, false).
Definition try_recv (ch : list Mode) : list Mode :=
  match ch with [] => [] | _ :: ch' => ch' end.

(** [notify] for one watcher: send, or drop the oldest and retry once. *)
Definition notify_one (m : Mode) (ch : list Mode) : list Mode :=
  let '(ch1, ok) := try_send ch m in
  if ok then ch1 else (try_send (try_recv ch1) m).1.

Definition notify (ws : list (list Mode)) (m : Mode) : list (list Mode) :=
  map (notify_one m) ws.

Definition Set_ (m : Mode) : St Manager unit :=
  mg ← get;
  if mode mg =? m then put {| mode := m; watchers := watchers mg |}
  else put {| mode := m; watchers := notify (watchers mg) m |}.

Definition CanServeLevel (mg : Manager) (level : Level) : bool :=
  let m := mode mg in
  if m =? ModeNormal then true
  else if (m =? ModeDegraded) || (m =? ModeProtected)
  then (level =? LevelDisplay) || (level =? LevelAuth)
  else if m =? ModeEmergency then level =? LevelAuth
  else false.

Definition PromoteIfWorse (m : Mode) : St Manager bool :=
  mg ← get;
  if Severity (mode mg) <? Severity m
  then _ ← put {| mode := m; watchers := notify (watchers mg) m |}; mret true
  else mret false.

Definition DemoteIfBetter (m : Mode) : St Manager bool :=
  mg ← get;
  if Severity m <? Severity (mode mg)
  then _ ← put {| mode := m; watchers := notify (watchers mg) m |}; mret true
  else mret false.

(** The new channel's index in [watchers] stands for the channel. *)
Definition Watch : St Manager nat :=
  mg ← get;
  _ ← put {| mode := mode mg; watchers := watchers mg ++ [[]] |};
  mret (length (watchers mg)).

(** The gauge is the ordinal itself. *)
Definition ModeGauge (mg : Manager) : Z := mode mg.

(** ** Watcher queues *)

(** Every queue fits its channel. *)
Definition queues_ok (mg : Manager) : Prop :=
  Forall (fun ch => (length ch <= watchCap)%nat) (watchers mg).

Lemma notify_one_length m ch :
  (length ch <= watchCap)%nat -> (length (notify_one m ch) <= watchCap)%nat.
Proof.
  unfold notify_one, try_send, watchCap. intros H.
  destruct (Nat.ltb_spec (length ch) 8); simpl; [rewrite length_app; simpl; lia|].
  destruct ch as [|c ch]; simpl in *; [lia|].
  destruct (Nat.ltb_spec (length ch) 8); simpl; [rewrite length_app; simpl; lia|lia].
Qed.

(** The newest mode is queued last, and at most one older entry is lost. *)
Lemma notify_one_last m ch : (length ch <= watchCap)%nat ->
  exists k, notify_one m ch = drop k ch ++ [m] /\ (k <= 1)%nat /\ (k = 1%nat <-> length ch = watchCap).
Proof.
  unfold notify_one, try_send, watchCap. intros H.
  destruct (Nat.ltb_spec (length ch) 8) as [Hl|Hl]; simpl.
  - exists 0%nat. split_and!; [done|lia|lia].
  - destruct ch as [|c ch]; simpl in *; [lia|].
    destruct (Nat.ltb_spec (length ch) 8) as [Hl'|Hl']; [|lia].
    exists 1%nat. split_and!; [done|lia|lia].
Qed.

Lemma notify_ok ws m : Forall (fun ch => (length ch <= watchCap)%nat) ws ->
  Forall (fun ch => (length ch <= watchCap)%nat) (notify ws m).
Proof.
  intros H. unfold notify. apply Forall_map. eapply Forall_impl; [exact H|].
  intros ch. apply notify_one_length.
Qed.

(** ** One call at a time *)
Inductive call : Type :=
| CSet (m : Mode) | CPromote (m : Mode) | CDemote (m : Mode) | CWatch | CRecv (i : nat).

(** A watcher's receive on its channel. *)
Definition recv (i : nat) : St Manager unit :=
  modify (fun mg => {| mode := mode mg; watchers := alter try_recv i (watchers mg) |}).

Definition run_call (c : call) (mg : Manager) : Manager :=
  match c with
  | CSet m => execSt (Set_ m) mg
  | CPromote m => execSt (PromoteIfWorse m) mg
  | CDemote m => execSt (DemoteIfBetter m) mg
  | CWatch => execSt Watch mg
  | CRecv i => execSt (recv i) mg
  end.
Definition run_calls (cs : list call) (mg : Manager) : Manager := foldl (fun s c => run_call c s) mg cs.

Lemma run_call_queues_ok c mg : queues_ok mg -> queues_ok (run_call c mg).
Proof.
  unfold queues_ok. intros H.
  destruct c as [m|m|m| |i]; cbv [run_call execSt Set_ PromoteIfWorse DemoteIfBetter Watch recv
    mbind St_bind mret St_ret get put modify runSt fst snd];
    try (break_if; simpl; by first [apply notify_ok|done]); simpl.
  - apply Forall_app. split; [done|]. constructor; [simpl; lia|done].
  - apply Forall_alter; [done|]. intros ch E Hc. destruct ch; simpl in *; lia.
Qed.

(** The serving table: in each of the four modes exactly the levels of
    the documented table are served; a mode outside the four serves nothing,
    and no mode outside NORMAL serves writes. *)
Theorem CanServeLevel_table (mg : Manager) (level : Level) :
  CanServeLevel mg level = true <->
  mode mg = ModeNormal \/
  ((mode mg = ModeDegraded \/ mode mg = ModeProtected) /\ (level = LevelDisplay \/ level = LevelAuth)) \/
  (mode mg = ModeEmergency /\ level = LevelAuth).
Proof.
  unfold CanServeLevel, ModeNormal, ModeDegraded, ModeProtected, ModeEmergency.
  destruct (mode mg =? 0) eqn:E0; bool_to_prop; [split; [auto|done]|].
  destruct ((mode mg =? 1) || (mode mg =? 2)) eqn:E1.
  { rewrite orb_true_iff, !Z.eqb_eq in *. unfold LevelDisplay, LevelAuth. lia. }
  bool_to_prop. destruct (mode mg =? 3) eqn:E3; bool_to_prop.
  - rewrite Z.eqb_eq. unfold LevelDisplay, LevelAuth. lia.
  - split; [done|]. lia.
Qed.

(** Promotion and demotion: each call returns whether it changed the
    mode; a promotion moves to its argument exactly when that is strictly more
    severe and otherwise changes nothing, a demotion exactly when it is
    strictly less severe.  When a transition happens every watcher's queue
    ends with the new mode, loses at most its oldest entry, and loses it only
    when all eight slots were taken. *)
Theorem transitions_monotone (m : Mode) (mg : Manager) (Hq : queues_ok mg) :
  let told (ch ch' : list Mode) := exists k, ch' = drop k ch ++ [m] /\ (k <= 1)%nat /\
                                            (k = 1%nat <-> length ch = watchCap) in
  let moved mg' := mode mg' = m /\ Forall2 told (watchers mg) (watchers mg') in
  (let (b, mg') := runSt (PromoteIfWorse m) mg in
   if b then Severity (mode mg) < Severity m /\ moved mg'
   else Severity m <= Severity (mode mg) /\ mg' = mg) /\
  (let (b, mg') := runSt (DemoteIfBetter m) mg in
   if b then Severity m < Severity (mode mg) /\ moved mg'
   else Severity (mode mg) <= Severity m /\ mg' = mg).
Proof.
  intros told moved.
  assert (moved {| mode := m; watchers := notify (watchers mg) m |}) as Hm.
  { split; [done|]. simpl. unfold notify. apply Forall2_fmap_r.
    apply Forall_Forall2_diag. eapply Forall_impl; [exact Hq|].
    intros ch. apply notify_one_last. }
  split; unfold PromoteIfWorse, DemoteIfBetter; run_st;
    break_if; simpl; bool_to_prop; auto.
Qed.

Lemma transitions_monotone_witness :
  let mg := run_calls [CWatch; CPromote ModeProtected] New in
  queues_ok mg /\
  (let (b, mg') := runSt (PromoteIfWorse ModeEmergency) mg in
   b = true /\ 2 < 3 /\ mode mg' = ModeEmergency).
Proof.
  intros mg.
  assert (queues_ok mg) as Hq by (repeat constructor; vm_compute; lia).
  destruct (transitions_monotone ModeEmergency mg Hq) as [[H1 [H2 _]] _].
  exact (conj Hq (conj eq_refl (conj H1 H2))).
Defined.

(** ** Interleaved calls

    A transition stores the mode under the lock and notifies after releasing
    it, so the notifications of two transitions run side by side.  [pending]
    holds, per running call, the mode it still has to send and the watchers
    still to be told, with the phase of the send in progress. *)
Inductive phase := PSend | PDrop | PRetry.
#[global] Instance phase_eq_dec : EqDecision phase.
Proof. solve_decision. Defined.

Record task : Type := Task { t_mode : Mode; t_phase : phase; t_left : list nat }.
Record World : Type := MkWorld { manager : Manager; pending : list task }.

Definition with_watchers (mg : Manager) (ws : list (list Mode)) : Manager :=
  {| mode := mode mg; watchers := ws |}.

(** One select statement of [notify]'s loop. *)
Definition task_step (mg : Manager) (t : task) : Manager * option task :=
  match t_left t with
  | [] => (mg, None)
  | i :: rest =>
    match watchers mg !! i with
    | None => (mg, Some (Task (t_mode t) PSend rest))
    | Some ch =>
      match t_phase t with
      | PSend =>
        let '(ch', ok) := try_send ch (t_mode t) in
        (with_watchers mg (<[i := ch']> (watchers mg)),
         Some (if ok then Task (t_mode t) PSend rest else Task (t_mode t) PDrop (i :: rest)))
      | PDrop =>
        (with_watchers mg (<[i := try_recv ch]> (watchers mg)),
         Some (Task (t_mode t) PRetry (i :: rest)))
      | PRetry =>
        (with_watchers mg (<[i := (try_send ch (t_mode t)).1]> (watchers mg)),
         Some (Task (t_mode t) PSend rest))
      end
    end
  end.

(** The critical section of a transition to [m]. *)
Definition store (m : Mode) (w : World) : World :=
  {| manager := {| mode := m; watchers := watchers (manager w) |};
     pending := pending w ++ [Task m PSend (seq 0 (length (watchers (manager w))))] |}.

Inductive step : World -> World -> Prop :=
| step_set w m : mode (manager w) <> m -> step w (store m w)
| step_promote w m : Severity (mode (manager w)) < Severity m -> step w (store m w)
| step_demote w m : Severity m < Severity (mode (manager w)) -> step w (store m w)
| step_watch w : step w {| manager := execSt Watch (manager w); pending := pending w |}
| step_recv w i : step w {| manager := execSt (recv i) (manager w); pending := pending w |}
| step_notify w l t r mg ot :
    pending w = l ++ t :: r -> task_step (manager w) t = (mg, ot) ->
    step w {| manager := mg; pending := l ++ option_list ot ++ r |}.

Definition reachable (w : World) : Prop := rtc step {| manager := New; pending := [] |} w.

Lemma try_send_ok ch m : (length ch <= watchCap)%nat -> (length (try_send ch m).1 <= watchCap)%nat.
Proof.
  unfold try_send, watchCap. intros H.
  destruct (Nat.ltb_spec (length ch) 8); simpl; rewrite ?length_app; simpl; lia.
Qed.

Lemma task_step_queues_ok mg t : queues_ok mg -> queues_ok (task_step mg t).1.
Proof.
  unfold queues_ok, task_step. intros H. destruct (t_left t) as [|i rest]; [done|].
  destruct (watchers mg !! i) as [ch|] eqn:E; [|done].
  pose proof (Forall_lookup_1 _ _ _ _ H E) as Hc. cbv beta in Hc.
  pose proof (try_send_ok ch (t_mode t) Hc) as Hs.
  destruct (t_phase t); [destruct (try_send ch (t_mode t))| |]; simpl in *;
    apply Forall_insert; try done. destruct ch; simpl in *; lia.
Qed.

Lemma step_queues_ok w w' : step w w' -> queues_ok (manager w) -> queues_ok (manager w').
Proof.
  destruct 1 as [| | |w|w i|w l t r mg ot _ Ht]; intros Hq; try exact Hq.
  - apply (run_call_queues_ok CWatch), Hq.
  - apply (run_call_queues_ok (CRecv i)), Hq.
  - simpl. pose proof (task_step_queues_ok (manager w) t Hq) as H. by rewrite Ht in H.
Qed.

(** In every interleaving of transitions, notifications, new watchers and
    receives, every watcher queue stays within its eight slots, so a
    notification never waits for a consumer. *)
Theorem reachable_queues_ok (w : World) : reachable w -> queues_ok (manager w).
Proof.
  intros H. apply (rtc_invariant step (fun w => queues_ok (manager w)) _ _ step_queues_ok H).
  constructor.
Qed.

Lemma reachable_queues_ok_witness :
  let w := store ModeEmergency {| manager := execSt Watch New; pending := [] |} in
  reachable w /\ queues_ok (manager w).
Proof.
  intros w.
  assert (reachable w) as Hr.
  { eapply rtc_l; [apply step_watch|]. apply rtc_once. apply (step_set _ ModeEmergency). discriminate. }
  split; [exact Hr | exact (reachable_queues_ok w Hr)].
Defined.

(** Because notification happens after the lock is released, a watcher
    may be left with a stale mode: there is an execution in which two
    transitions have completed, every notification has been delivered, the
    manager is in EMERGENCY, and the newest mode in the watcher's queue is
    DEGRADED. *)
Theorem watcher_may_end_stale :
  exists w, reachable w /\ pending w = [] /\ mode (manager w) = ModeEmergency /\
    watchers (manager w) = [[ModeEmergency; ModeDegraded]].
Proof.
  exists {| manager := {| mode := ModeEmergency; watchers := [[ModeEmergency; ModeDegraded]] |};
            pending := [] |}.
  split; [|done].
  eapply rtc_l; [apply step_watch|].
  eapply rtc_l; [apply (step_promote _ ModeDegraded); done|].
  eapply rtc_l; [apply (step_promote _ ModeEmergency); done|].
  eapply rtc_l; [by apply (step_notify _ [Task ModeDegraded PSend [0%nat]] (Task ModeEmergency PSend [0%nat]) [])|].
  eapply rtc_l; [by apply (step_notify _ [Task ModeDegraded PSend [0%nat]] (Task ModeEmergency PSend []) [])|].
  eapply rtc_l; [by apply (step_notify _ [] (Task ModeDegraded PSend [0%nat]) [])|].
  eapply rtc_l; [by apply (step_notify _ [] (Task ModeDegraded PSend []) [])|].
  done.
Qed.

(** ** Notifications end *)

(** The selects a task has still to do, and one more to return. *)
Definition budget (t : task) : nat :=
  (1 + (3 * length (t_left t) - match t_phase t with PSend => 0 | PDrop => 1 | PRetry => 2 end))%nat.
Definition pending_budget (w : World) : nat := list_sum (map budget (pending w)).

(** Between transitions: a select of the pending notification at a position, a
    new watcher, a receive. *)
Inductive turn := Selects (i : nat) | Watches | Receives (i : nat).
Inductive deliveries : list turn -> World -> World -> Prop :=
| deliver_none w : deliveries [] w w
| deliver_watch acts w w' :
    deliveries acts {| manager := execSt Watch (manager w); pending := pending w |} w' ->
    deliveries (Watches :: acts) w w'
| deliver_recv acts w w' i :
    deliveries acts {| manager := execSt (recv i) (manager w); pending := pending w |} w' ->
    deliveries (Receives i :: acts) w w'
| deliver_select acts w w' l t r mg ot :
    pending w = l ++ t :: r -> task_step (manager w) t = (mg, ot) ->
    deliveries acts {| manager := mg; pending := l ++ option_list ot ++ r |} w' ->
    deliveries (Selects (length l) :: acts) w w'.

Definition selects (acts : list turn) : nat :=
  length (filter (fun a => match a with Selects _ => true | _ => false end = true) acts).

(** They are steps of the whole. *)
Lemma deliveries_steps acts w w' : deliveries acts w w' -> rtc step w w'.
Proof.
  induction 1 as [w|acts w w' _ IH|acts w w' i _ IH|acts w w' l t r mg ot Hp Ht _ IH]; [done|..].
  - eapply rtc_l; [apply step_watch|exact IH].
  - eapply rtc_l; [apply (step_recv _ i)|exact IH].
  - eapply rtc_l; [by eapply step_notify|exact IH].
Qed.

Lemma task_step_budget mg t mg' ot : task_step mg t = (mg', ot) ->
  (list_sum (map budget (option_list ot)) < budget t)%nat.
Proof.
  assert (forall m ph l, budget (Task m ph l) =
    (1 + (3 * length l - match ph with PSend => 0 | PDrop => 1 | PRetry => 2 end))%nat) as Hb by done.
  unfold task_step. destruct t as [m ph [|i rest]]; cbn [t_left t_phase t_mode].
  - intros [= <- <-]. rewrite Hb. destruct ph; cbn; lia.
  - destruct (watchers mg !! i) as [ch|]; [destruct ph; [destruct (try_send ch m) as [ch' []]| |]|];
      intros [= <- <-]; rewrite Hb; cbn -[budget Nat.mul]; rewrite ?Hb; cbn [length]; first [lia | destruct ph; lia].
Qed.

Lemma deliveries_budget acts w w' : deliveries acts w w' -> (selects acts + pending_budget w' <= pending_budget w)%nat.
Proof.
  induction 1 as [w|acts w w' _ IH|acts w w' i _ IH|acts w w' l t r mg ot Hp Ht _ IH]; [done|exact IH|exact IH|].
  pose proof (task_step_budget _ _ _ _ Ht). unfold pending_budget, selects in *. rewrite Hp. cbn [pending] in IH.
  rewrite filter_cons, decide_True by done. cbn [length].
  rewrite !map_app, !list_sum_app in *. cbn [map list_sum foldr] in *. unfold list_sum in *. lia.
Qed.

(** A pending notification returns by its own selects alone. *)
Lemma task_returns n : forall i t w, (budget t <= n)%nat -> pending w !! i = Some t ->
  exists k w', (k <= n)%nat /\ deliveries (replicate k (Selects i)) w w' /\ pending w' = delete i (pending w).
Proof.
  induction n as [|n IH]; intros i t w Hb Hi; [unfold budget in Hb; destruct (t_phase t); lia|].
  destruct (task_step (manager w) t) as [mg ot] eqn:Et. pose proof (task_step_budget _ _ _ _ Et) as Hlt.
  pose proof (take_drop_middle _ _ _ Hi) as Hp. pose proof (lookup_lt_Some _ _ _ Hi) as Hlen.
  assert (length (take i (pending w)) = i) as Hl by (rewrite length_take; lia).
  assert (delete i (pending w) = take i (pending w) ++ drop (S i) (pending w)) as Hdel by (by rewrite delete_take_drop).
  set (w1 := {| manager := mg; pending := take i (pending w) ++ option_list ot ++ drop (S i) (pending w) |}).
  assert (forall acts w', deliveries acts w1 w' -> deliveries (Selects i :: acts) w w') as Hcons.
  { intros acts w' Hd. rewrite <- Hl at 1. by eapply deliver_select. }
  destruct ot as [t'|].
  - cbn -[budget] in Hlt. destruct (IH i t' w1) as (k & w' & Hk & Hd & Hw'); [lia| |].
    { cbn [pending w1 option_list]. by apply list_lookup_middle. }
    exists (S k), w'. split_and!; [lia|by apply Hcons|]. rewrite Hw', Hdel. cbn [pending w1 option_list app].
    rewrite <- Hl at 1. by apply delete_middle.
  - exists 1%nat, w1. split_and!; [lia|apply Hcons; constructor|by rewrite Hdel].
Qed.

Lemma budget_bound t : (budget t <= S (3 * length (t_left t)))%nat.
Proof. unfold budget. destruct (t_phase t); lia. Qed.

Lemma list_sum_budget l : (list_sum (map budget l) <= list_sum (map (fun t => S (3 * length (t_left t))) l))%nat.
Proof.
  induction l as [|t l IH]; [done|]. cbn [map list_sum foldr]. unfold list_sum in IH.
  pose proof (budget_bound t). lia.
Qed.

(** C35. Notifications terminate and never block.  Between transitions, however
    the selects of pending notifications interleave with each other, with new
    watchers and with receivers, they take no more steps in all than three per
    watcher to notify and one per notification.  And in every state so reached,
    whatever the queues hold, each pending notification, left to run by itself
    with nobody receiving, returns within three selects per watcher it has
    left and one more, the other notifications as they were. *)
Theorem notifications_terminate (acts : list turn) (w w' : World) (Hrun : deliveries acts w w') :
  (selects acts <= list_sum (map (fun t => S (3 * length (t_left t))) (pending w)))%nat /\
  forall i t, pending w' !! i = Some t ->
    exists k w'', (k <= S (3 * length (t_left t)))%nat /\
      deliveries (replicate k (Selects i)) w' w'' /\ pending w'' = delete i (pending w').
Proof.
  split.
  - pose proof (deliveries_budget acts w w' Hrun) as Hb. etransitivity; [|apply (list_sum_budget (pending w))].
    unfold pending_budget in Hb. lia.
  - intros i t Hi. by apply (task_returns _ i t); [apply budget_bound|].
Qed.

(** Two notifications of one watcher with a full queue, the first one's select
    done: the second returns by itself. *)
Lemma notifications_terminate_witness :
  let w := {| manager := {| mode := ModeEmergency; watchers := [replicate 8 ModeNormal] |};
              pending := [Task ModeDegraded PSend [0%nat]; Task ModeEmergency PSend [0%nat]] |} in
  exists w' k w'', deliveries [Selects 0] w w' /\ (k <= 4)%nat /\ deliveries (replicate k (Selects 1)) w' w'' /\
    pending w'' = [Task ModeDegraded PDrop [0%nat]].
Proof.
  intros w.
  eassert (deliveries [Selects 0] w _) as Hd.
  { eapply (deliver_select _ _ _ [] _ [Task ModeEmergency PSend [0%nat]]); [reflexivity|reflexivity|constructor]. }
  destruct (notifications_terminate _ w _ Hd) as [_ Hp].
  destruct (Hp 1%nat _ eq_refl) as (k & w'' & Hk & Hd2 & Hw'').
  eexists _, k, w''. split; [exact Hd|]. split; [exact Hk|]. split; [exact Hd2|exact Hw''].
Defined.
