(* ===== verification/Semaphore.v ===== *)
(** * The DB semaphore (src/common/db/semaphore.go)

    A buffered channel of tokens with three counters.  The operations are
    given first as calls that run alone (a call that would block forever
    returns [Blocked]); then goroutines interleave at every channel operation
    and every atomic add ([step]), and the invariant ties each counter to
    what the goroutines are doing. *)

From S2P Require Import Prelude GoStr.

Record Semaphore : Type := MkSemaphore {
  name : string;
  capacity : Z;     (* cap(s.tokens) *)
  tokens : Z;       (* len(s.tokens) *)
  total : Z;        (* int32 *)
  waiting : Z;      (* int64 counters *)
  acquired : Z;
  rejected : Z;
}.

(** [None] is the nil semaphore: no limit. *)
Definition NewSemaphore (n : string) (maxConcurrent : Z) : option Semaphore :=
  if maxConcurrent <=? 0 then None
  else Some {| name := n; capacity := maxConcurrent; tokens := 0; total := int32 maxConcurrent;
               waiting := 0; acquired := 0; rejected := 0 |}.

(** ** Atomic operations *)
Definition add_tokens (d : Z) (s : Semaphore) : Semaphore :=
  {| name := name s; capacity := capacity s; tokens := tokens s + d; total := total s;
     waiting := waiting s; acquired := acquired s; rejected := rejected s |}.
Definition add_waiting (d : Z) (s : Semaphore) : Semaphore :=
  {| name := name s; capacity := capacity s; tokens := tokens s; total := total s;
     waiting := int64 (waiting s + d); acquired := acquired s; rejected := rejected s |}.
Definition add_acquired (s : Semaphore) : Semaphore :=
  {| name := name s; capacity := capacity s; tokens := tokens s; total := total s;
     waiting := waiting s; acquired := int64 (acquired s + 1); rejected := rejected s |}.
Definition add_rejected (s : Semaphore) : Semaphore :=
  {| name := name s; capacity := capacity s; tokens := tokens s; total := total s;
     waiting := waiting s; acquired := acquired s; rejected := int64 (rejected s + 1) |}.
Definition free (s : Semaphore) : bool := tokens s <? capacity s.

(** ** Calls that run alone *)

(** The context's state when the call selects, and which ready case the
    select takes when both are ready. *)
Record Ctx : Type := MkCtx { ctx_err : option error; take_token : bool }.
Definition Background : Ctx := {| ctx_err := None; take_token := true |}.

Inductive outcome : Type := Blocked | Returned (e : option error).
#[global] Instance outcome_eq_dec : EqDecision outcome.
Proof. solve_decision. Defined.

Definition Acquire (ctx : Ctx) : St (option Semaphore) outcome :=
  s ← get;
  match s with
  | None => mret (Returned None)
  | Some s =>
    let s := add_waiting 1 s in
    match free s && (take_token ctx || bool_decide (ctx_err ctx = None)), ctx_err ctx with
    | true, _ =>
      _ ← put (Some (add_waiting (-1) (add_acquired (add_tokens 1 s)))); mret (Returned None)
    | false, Some e =>
      _ ← put (Some (add_waiting (-1) (add_rejected s))); mret (Returned (Some e))
    | false, None => _ ← put (Some s); mret Blocked
    end
  end.

Definition TryAcquire : St (option Semaphore) bool :=
  s ← get;
  match s with
  | None => mret true
  | Some s =>
    if free s then _ ← put (Some (add_acquired (add_tokens 1 s))); mret true else mret false
  end.

Definition Release : St (option Semaphore) unit :=
  modify (fun s => match s with
    | Some s => Some (if 0 <? tokens s then add_tokens (-1) s else s)
    | None => None
    end).

(** [f] may use the semaphore's state and the rest of the world [W]. *)
Definition WithToken {W} (ctx : Ctx) (f : St (option Semaphore * W) (option error))
    : St (option Semaphore * W) outcome :=
  let onsem {A} (m : St (option Semaphore) A) : St (option Semaphore * W) A :=
    zoom fst (fun s w => (s, w.2)) m in
  s ← gets fst;
  match s with
  | None => r ← f; mret (Returned r)
  | Some _ =>
    a ← onsem (Acquire ctx);
    match a with
    | Returned None => r ← f; _ ← onsem Release; mret (Returned r)
    | _ => mret a
    end
  end.

Record stats : Type := MkStats {
  st_available : Z; st_total : Z; st_waiting : Z; st_acquired : Z; st_rejected : Z }.

Definition Stats (s : option Semaphore) : stats :=
  match s with
  | None => MkStats 0 0 0 0 0
  | Some s =>
    let held := int32 (tokens s) in
    let avail := int32 (total s - held) in
    MkStats (if avail <? 0 then 0 else avail) (total s) (waiting s) (acquired s) (rejected s)
  end.

Definition Name (s : option Semaphore) : string :=
  match s with None => "" | Some s => name s end.

Definition Sem_String (s : option Semaphore) : string :=
  match s with
  | None => "Semaphore(nil)"
  | Some sm =>
    let t := Stats s in
    "Semaphore(name=" +:+ name sm +:+ ", available=" +:+ FormatInt (st_available t) +:+ "/"
    +:+ FormatInt (st_total t) +:+ ", waiting=" +:+ FormatInt (st_waiting t)
    +:+ ", acquired=" +:+ FormatInt (st_acquired t) +:+ ", rejected="
    +:+ FormatInt (st_rejected t) +:+ ")"
  end.

(** WithToken pairs its token: when a token can be had and [f] leaves the
    number of held tokens as it found it, [f] runs exactly once with one more
    token held, its result is returned, and afterwards as many tokens are
    held as before; when the context is done first, [f] does not run (the rest
    of the world is untouched), the context's error is returned and no token
    is taken; with no token and a live context the call blocks. *)
Theorem WithToken_pairs {W} (s : Semaphore) (w : W) (ctx : Ctx)
    (f : St (option Semaphore * W) (option error))
    (Hs : 0 <= tokens s)
    (Hf : forall s0 w0, exists s1, (execSt f (Some s0, w0)).1 = Some s1 /\ tokens s1 = tokens s0) :
  let '(r, (s', w')) := runSt (WithToken ctx f) (Some s, w) in
  exists s'', s' = Some s'' /\
  match r with
  | Returned None => tokens s'' = tokens s /\ tokens s < capacity s /\
      exists s0, tokens s0 = tokens s + 1 /\ evalSt f (Some s0, w) = None /\
                 w' = (execSt f (Some s0, w)).2
  | Returned (Some e) => tokens s'' = tokens s /\
      ((w' = w /\ ctx_err ctx = Some e) \/
       exists s0, tokens s0 = tokens s + 1 /\ evalSt f (Some s0, w) = Some e /\
                  w' = (execSt f (Some s0, w)).2)
  | Blocked => capacity s <= tokens s /\ ctx_err ctx = None
  end.
Proof.
  destruct ctx as [ce tk]. unfold WithToken, Acquire, zoom, gets, get, put.
  cbv [mbind St_bind mret St_ret runSt fst snd ctx_err take_token].
  destruct (free (add_waiting 1 s) && (tk || bool_decide (ce = None))) eqn:E.
  - assert (tokens s < capacity s) as Hc.
    { apply andb_prop in E as [E _]. unfold free, add_waiting in E; simpl in E. bool_to_prop. lia. }
    set (s0 := add_waiting (-1) (add_acquired (add_tokens 1 (add_waiting 1 s)))).
    assert (tokens s0 = tokens s + 1) as Ht0 by done.
    destruct (Hf s0 w) as (s1 & E1 & Ht1).
    pose proof (runSt_eval_exec f (Some s0, w)) as Er. unfold runSt in Er.
    destruct f as [f]. rewrite Er. destruct (execSt _ _) as [so w'] eqn:Ex. simpl in E1. subst so.
    unfold Release, modify. simpl. rewrite Ht1, Ht0.
    assert ((0 <? tokens s + 1) = true) as -> by (apply Z.ltb_lt; lia). eexists. split; [reflexivity|].
    destruct (evalSt _ _) as [e|] eqn:Ev; simpl; (split; [lia|]).
    + right. exists s0. by rewrite Ev, Ex.
    + split; [done|]. exists s0. by rewrite Ev, Ex.
  - destruct ce as [e|]; simpl.
    + eexists. split; [reflexivity|]. split; [done|]. auto.
    + eexists. split; [reflexivity|]. unfold free, add_waiting in E; simpl in E.
      rewrite orb_true_r, andb_true_r in E. bool_to_prop. by split.
Qed.

Lemma WithToken_pairs_witness :
  exists s : Semaphore, NewSemaphore "mysql-main" 1 = Some s /\
  let '(r, (s', w')) := runSt (WithToken Background (_ ← modify (fun p => (p.1, p.2 + 1)); mret None))
                              (Some s, 0) in
  r = Returned None /\ w' = 1 /\ exists s'', s' = Some s'' /\ tokens s'' = 0.
Proof.
  eexists. split; [reflexivity|].
  pose proof (WithToken_pairs
    {| name := "mysql-main"; capacity := 1; tokens := 0; total := int32 1;
       waiting := 0; acquired := 0; rejected := 0 |} 0 Background
    (_ ← modify (fun p => (p.1, p.2 + 1)); mret None) ltac:(done)
    (fun s0 w0 => ex_intro _ s0 (conj eq_refl eq_refl))) as H.
  destruct H as (s'' & E & Ht & _).
  exact (conj eq_refl (conj eq_refl (ex_intro _ s'' (conj E Ht)))).
Defined.

(** ** Interleaved goroutines *)

(** Where a goroutine is.  [W0] has counted itself as waiting and is at
    Acquire's select; [W1] has sent its token, [W2] has counted it and is about
    to run the deferred decrement; [X1] was rejected and has counted it.
    [T1] is TryAcquire between its send and its count; [Hold] runs with a
    token. *)
Inductive phase := Idle | W0 | W1 | W2 | X1 | T1 | Hold.
#[global] Instance phase_eq_dec : EqDecision phase.
Proof. solve_decision. Defined.

(** Does the phase own a token, and is it counted as waiting. *)
Definition owns (p : phase) : Z := match p with W1 | W2 | T1 | Hold => 1 | _ => 0 end.
Definition waits (p : phase) : Z := match p with W0 | W1 | W2 | X1 => 1 | _ => 0 end.
(** Sent but not yet counted in [acquired]. *)
Definition uncounted (p : phase) : Z := match p with W1 | T1 => 1 | _ => 0 end.

(** Just rejected. *)
Definition rejecting (p : phase) : Z := match p with X1 => 1 | _ => 0 end.

(** The semaphore, the goroutines, and how many tokens were ever sent and how
    many calls were ever rejected. *)
Record World : Type := MkWorld { sem : Semaphore; gs : list phase; n_sent : Z; n_rejected : Z }.

(** One atomic operation of one goroutine: the phase it starts from, its guard
    on the semaphore, its effect and the next phase. *)
Inductive act : phase -> Semaphore -> Semaphore -> phase -> Prop :=
| acquire_enter s : act Idle s (add_waiting 1 s) W0
| acquire_send s : free s = true -> act W0 s (add_tokens 1 s) W1
| acquire_count s : act W1 s (add_acquired s) W2
| acquire_leave s : act W2 s (add_waiting (-1) s) Hold
| acquire_done s : act W0 s (add_rejected s) X1
| acquire_error s : act X1 s (add_waiting (-1) s) Idle
| try_send s : free s = true -> act Idle s (add_tokens 1 s) T1
| try_fail s : free s = false -> act Idle s s Idle
| try_count s : act T1 s (add_acquired s) Hold
| release s : 0 < tokens s -> act Hold s (add_tokens (-1) s) Idle
| release_unpaired s : tokens s <= 0 -> act Hold s s Idle.

Inductive step : World -> World -> Prop :=
| step_spawn w : step w (MkWorld (sem w) (gs w ++ [Idle]) (n_sent w) (n_rejected w))
| step_act w i p s' p' :
    gs w !! i = Some p -> act p (sem w) s' p' ->
    step w (MkWorld s' (<[i := p']> (gs w))
      (n_sent w + uncounted p')
      (n_rejected w + rejecting p')).

Definition reachable (s0 : Semaphore) (w : World) : Prop := rtc step (MkWorld s0 [] 0 0) w.

(** The counters are what the goroutines make them. *)
Record inv (s0 : Semaphore) (w : World) : Prop := Inv {
  inv_cap : capacity (sem w) = capacity s0;
  inv_total : total (sem w) = total s0;
  inv_tokens : tokens (sem w) = sumZ owns (gs w);
  inv_bound : 0 <= tokens (sem w) <= capacity s0;
  inv_waiting : waiting (sem w) = int64 (sumZ waits (gs w));
  inv_acquired : acquired (sem w) = int64 (n_sent w - sumZ uncounted (gs w));
  inv_rejected : rejected (sem w) = int64 (n_rejected w);
}.

Lemma wraps64_add a b : int64 (int64 a + b) = int64 (a + b).
Proof. by apply wraps_add. Qed.

Lemma owned_at l i : l !! i = Some Hold -> 0 < sumZ owns l.
Proof.
  revert i. induction l as [|p l IH]; intros [|i] H; simpl in *; simplify_eq.
  - simpl. pose proof (sumZ_nonneg owns l) as Hn.
    enough (0 <= sumZ owns l) by lia. apply Hn. by intros [].
  - apply IH in H. enough (0 <= owns p) by lia. by destruct p.
Qed.

Lemma act_inv s0 w i p s' p' :
  inv s0 w -> gs w !! i = Some p -> act p (sem w) s' p' ->
  inv s0 (MkWorld s' (<[i := p']> (gs w))
      (n_sent w + uncounted p')
      (n_rejected w + rejecting p')).
Proof.
  intros [Hc Ht Hk Hb Hw Ha Hr] Hp Hact.
  remember (sem w) as s eqn:Es.
  destruct Hact as [s|s Hf|s|s|s|s|s Hf|s Hf|s|s Hpos|s Hneg]; subst s;
    try (apply owned_at in Hp as Hown; exfalso; lia);
    try (unfold free in Hf; bool_to_prop);
    split; cbn [sem gs n_sent n_rejected add_tokens add_waiting add_acquired add_rejected
      tokens capacity total waiting acquired rejected];
    rewrite ?(sumZ_insert _ _ _ _ _ Hp); cbn [owns waits uncounted rejecting];
    rewrite ?Hw, ?Ha, ?Hr, ?wraps64_add; try (f_equal; lia); try lia; try done.
Qed.

Lemma step_inv s0 w w' : step w w' -> inv s0 w -> inv s0 w'.
Proof.
  destruct 1 as [w|w i p s' p' Hp Hact]; intros Hi; [|by eapply act_inv].
  destruct Hi. split; simpl; rewrite ?sumZ_app; simpl; rewrite ?Z.add_0_r; done.
Qed.

Lemma reachable_inv s0 w :
  tokens s0 = 0 -> waiting s0 = 0 -> acquired s0 = 0 -> rejected s0 = 0 -> 0 <= capacity s0 ->
  reachable s0 w -> inv s0 w.
Proof.
  intros H1 H2 H3 H4 H5 Hr. refine (rtc_invariant step (inv s0) _ _ (step_inv s0) Hr _).
  split; simpl; try lia; done.
Qed.

(** C33. In every interleaving of goroutines that acquire, try, give up and
    release: the tokens held are exactly the goroutines that own one, so never
    more than the limit run under a token; no release finds the channel empty;
    and Stats reports total minus held (never clamped), the goroutines inside
    Acquire, the sends counted so far and the rejections. *)
Theorem Stats_correct (n : string) (k : Z) (s0 : Semaphore) (w : World)
    (Hnew : NewSemaphore n k = Some s0) (Hk : k < 2 ^ 31) (Hr : reachable s0 w) :
  sumZ owns (gs w) <= k /\
  (forall i, gs w !! i = Some Hold -> 0 < tokens (sem w)) /\
  Stats (Some (sem w)) =
    MkStats (k - sumZ owns (gs w)) k (int64 (sumZ waits (gs w)))
            (int64 (n_sent w - sumZ uncounted (gs w))) (int64 (n_rejected w)).
Proof.
  unfold NewSemaphore in Hnew. destruct (k <=? 0) eqn:Ek; [done|]. bool_to_prop. injection Hnew as <-.
  apply reachable_inv in Hr as [Hc Ht Hk' Hb Hw Ha Hrj]; simpl in *; try lia.
  assert (int32 k = k) as E by (apply wraps_id; lia).
  assert (int32 (tokens (sem w)) = tokens (sem w)) as Et by (apply wraps_id; lia).
  split_and!; [lia| |].
  - intros i Hi. rewrite Hk'. by eapply owned_at.
  - unfold Stats. rewrite Et, Ht, E, Hw, Ha, Hrj.
    rewrite (wraps_id 32) by lia.
    destruct (_ <? 0) eqn:El; bool_to_prop; [lia|]. by rewrite Hk'.
Qed.

Lemma Stats_correct_witness :
  exists s0 w, NewSemaphore "s" 1 = Some s0 /\ reachable s0 w /\ gs w = [Hold; W0] /\
    Stats (Some (sem w)) = MkStats 0 1 1 1 0.
Proof.
  eexists _, (MkWorld _ [Hold; W0] 1 0).
  assert (NewSemaphore "s" 1 = Some _) as Hn by reflexivity.
  match type of Hn with _ = Some ?s =>
    assert (reachable s (MkWorld (add_waiting 1 (add_waiting (-1) (add_acquired (add_tokens 1 (add_waiting 1 s))))) [Hold; W0] 1 0)) as Hr
  end.
  { eapply rtc_l; [apply step_spawn|]. eapply rtc_l; [apply step_spawn|].
    eapply rtc_l; [eapply (step_act _ 0 Idle); [done|apply acquire_enter]|].
    eapply rtc_l; [eapply (step_act _ 0 W0); [done|by apply acquire_send]|].
    eapply rtc_l; [eapply (step_act _ 0 W1); [done|apply acquire_count]|].
    eapply rtc_l; [eapply (step_act _ 0 W2); [done|apply acquire_leave]|].
    eapply rtc_l; [eapply (step_act _ 1 Idle); [done|apply acquire_enter]|]. apply rtc_refl. }
  destruct (Stats_correct _ _ _ _ Hn ltac:(lia) Hr) as (_ & _ & H).
  exact (conj Hn (conj Hr (conj eq_refl H))).
Defined.

(** C34. A free token is never out of reach: in a reachable state where some
    goroutine waits at Acquire's select and fewer than the limit hold tokens,
    that goroutine can send at once; and when all tokens are held, some
    goroutine that owns one can move on. *)
Theorem no_lost_wakeup (n : string) (k : Z) (s0 : Semaphore) (w : World) (i : nat)
    (Hnew : NewSemaphore n k = Some s0) (Hr : reachable s0 w) (Hi : gs w !! i = Some W0) :
  (sumZ owns (gs w) < k -> exists w', step w w' /\ gs w' = <[i := W1]> (gs w)) /\
  (sumZ owns (gs w) = k -> exists j p w', gs w !! j = Some p /\ owns p = 1 /\ step w w' /\
                             gs w' <> gs w /\ forall q, q <> j -> gs w' !! q = gs w !! q).
Proof.
  unfold NewSemaphore in Hnew. destruct (k <=? 0) eqn:Ek; [done|]. bool_to_prop. injection Hnew as <-.
  apply reachable_inv in Hr as [Hc Ht Hk' Hb Hw Ha Hrj]; simpl in *; try lia. split.
  - intros Hl. eexists. split; [eapply step_act; [exact Hi|]; apply acquire_send|done].
    unfold free. apply Z.ltb_lt. lia.
  - intros Hf.
    assert (exists j p, gs w !! j = Some p /\ owns p = 1) as (j & p & Hj & Hp).
    { clear -Hf Ek. assert (0 < sumZ owns (gs w)) as Hpos by lia. clear Hf Ek.
      induction (gs w) as [|p l IH]; simpl in Hpos; [lia|].
      destruct (decide (owns p = 1)); [by exists 0%nat, p|].
      destruct IH as (j & q & H1 & H2); [destruct p; simpl in *; lia|]. by exists (S j), q. }
    assert (exists s' p', act p (sem w) s' p' /\ p' <> p) as (s' & p' & Hact & Hne).
    { destruct p; simpl in Hp; try lia.
      - eexists _, _; split; [apply acquire_count|done].
      - eexists _, _; split; [apply acquire_leave|done].
      - eexists _, _; split; [apply try_count|done].
      - eexists _, _; split; [apply release; lia|done]. }
    exists j, p. eexists. split_and!; [done|done|by eapply step_act| |]; simpl.
    + intros E. apply (f_equal (.!! j)) in E.
      rewrite list_lookup_insert_eq in E by (by eapply lookup_lt_Some). congruence.
    + intros q Hq. by apply list_lookup_insert_ne.
Qed.

Lemma no_lost_wakeup_witness :
  exists s0 w, NewSemaphore "s" 1 = Some s0 /\ reachable s0 w /\ gs w !! 0%nat = Some W0 /\
    exists w', step w w' /\ gs w' = [W1].
Proof.
  eexists _, (MkWorld _ [W0] 0 0).
  assert (NewSemaphore "s" 1 = Some _) as Hn by reflexivity.
  match type of Hn with _ = Some ?s =>
    assert (reachable s (MkWorld (add_waiting 1 s) [W0] 0 0)) as Hr
  end.
  { eapply rtc_l; [apply step_spawn|].
    eapply rtc_l; [eapply (step_act _ 0 Idle); [done|apply acquire_enter]|]. apply rtc_refl. }
  destruct (no_lost_wakeup _ _ _ _ 0%nat Hn Hr eq_refl) as [H _].
  exact (conj Hn (conj Hr (conj eq_refl (H eq_refl)))).
Defined.
