(* ===== verification/Hub.v ===== *)
(** * The chat hub's shared state (pkg/wschat/hub.go)

    What the goroutines of the WebSocket chat share: the rooms, and of each
    connection the fields of [Client] that its handlers, the broadcasts of
    other connections and its write pump touch.  A client is named by the
    position it was accepted at (the pointer of the source).  [hubop] lists
    the accesses that are atomic in the source -- the sections under [h.mu],
    one channel operation, one field assignment by the owning goroutine -- and
    [hub_step] gives each its effect; the handlers of [WsChat] are programs
    over these.  [hub_ok] is the invariant every one of them keeps. *)

From S2P Require Import Prelude.

Module Chat.

(** ** State *)

(** [defaultSendQueueSize]: the buffer of [Client.send]. *)
Definition defaultSendQueueSize : Z := 256.

Record Client : Type := MkClient {
  send : list bytes;                 (* frames queued for the write pump *)
  uid : Z;
  nickName : string;
  icon : string;
  isGuest : bool;
  authenticated : bool;
  ip : string;
  rooms : gset string;
  mutedRooms : gmap string bool;
  sendTimes : list Z;
  conn_open : bool;                  (* until conn.Close *)
}.

Record Hub : Type := MkHub {
  hub_rooms : gmap string (gset nat);
  clients : list Client;
}.

(** A connection as [ServeWS] makes it. *)
Definition new_client (ip : string) : Client :=
  {| send := []; uid := 0; nickName := ""; icon := ""; isGuest := false;
     authenticated := false; ip := ip; rooms := ∅; mutedRooms := ∅; sendTimes := [];
     conn_open := true |}.

Definition with_send (l : list bytes) (c : Client) : Client :=
  MkClient l (uid c) (nickName c) (icon c) (isGuest c) (authenticated c) (ip c) (rooms c)
    (mutedRooms c) (sendTimes c) (conn_open c).
Definition with_rooms (s : gset string) (c : Client) : Client :=
  MkClient (send c) (uid c) (nickName c) (icon c) (isGuest c) (authenticated c) (ip c) s
    (mutedRooms c) (sendTimes c) (conn_open c).
Definition with_identity (u : Z) (nick ic : string) (guest : bool) (c : Client) : Client :=
  MkClient (send c) u nick ic guest true (ip c) (rooms c) (mutedRooms c) (sendTimes c) (conn_open c).
Definition with_muted (m : gmap string bool) (c : Client) : Client :=
  MkClient (send c) (uid c) (nickName c) (icon c) (isGuest c) (authenticated c) (ip c) (rooms c)
    m (sendTimes c) (conn_open c).
Definition with_sendTimes (l : list Z) (c : Client) : Client :=
  MkClient (send c) (uid c) (nickName c) (icon c) (isGuest c) (authenticated c) (ip c) (rooms c)
    (mutedRooms c) l (conn_open c).
Definition closed (c : Client) : Client :=
  MkClient (send c) (uid c) (nickName c) (icon c) (isGuest c) (authenticated c) (ip c) (rooms c)
    (mutedRooms c) (sendTimes c) false.

Definition on_client (c : nat) (f : Client -> Client) (h : Hub) : Hub :=
  MkHub (hub_rooms h) (alter f c (clients h)).

(** The members of a room; an absent room has none. *)
Definition members (h : Hub) (room : string) : gset nat := default ∅ (hub_rooms h !! room).

(** ** The sections under h.mu *)

Definition joinRoom (room : string) (c : nat) (h : Hub) : Hub :=
  on_client c (fun cl => with_rooms ({[room]} ∪ rooms cl) cl)
    (MkHub (<[room := {[c]} ∪ members h room]> (hub_rooms h)) (clients h)).

(** [delete(r, c); if len(r) == 0 { delete(h.rooms, room) }] *)
Definition drop_member (c : nat) (room : string) (m : gmap string (gset nat)) : gmap string (gset nat) :=
  match m !! room with
  | Some r =>
    let r' := r ∖ {[c]} in
    if decide (r' = ∅) then delete room m else <[room := r']> m
  | None => m
  end.

Definition leaveRoom (room : string) (c : nat) (h : Hub) : Hub :=
  on_client c (fun cl => with_rooms (rooms cl ∖ {[room]}) cl)
    (MkHub (drop_member c room (hub_rooms h)) (clients h)).

Definition unregisterAll (c : nat) (h : Hub) : Hub :=
  match clients h !! c with
  | Some cl =>
    on_client c (with_rooms ∅)
      (MkHub (foldr (drop_member c) (hub_rooms h) (elements (rooms cl))) (clients h))
  | None => h
  end.

(** [RoomSize]. *)
Definition RoomSize (h : Hub) (room : string) : Z := Z.of_nat (size (members h room)).

(** [select { case c.send <- frame: default: }]: whether the frame was queued. *)
Definition try_send (c : nat) (frame : bytes) (h : Hub) : bool * Hub :=
  match clients h !! c with
  | Some cl =>
    if Z.of_nat (length (send cl)) <? defaultSendQueueSize
    then (true, on_client c (with_send (send cl ++ [frame])) h)
    else (false, h)
  | None => (false, h)
  end.

(** [<-c.send] by the write pump, when a frame is there. *)
Definition try_recv (c : nat) (h : Hub) : option bytes * Hub :=
  match clients h !! c with
  | Some cl =>
    match send cl with
    | f :: l => (Some f, on_client c (with_send l) h)
    | [] => (None, h)
    end
  | None => (None, h)
  end.

(** ** Atomic accesses *)
Inductive hubop : Type -> Type :=
| HAccept (ip : string) : hubop nat
| HRead (c : nat) : hubop Client
| HIdentity (c : nat) (u : Z) (nick ic : string) (guest : bool) : hubop unit
| HMute (c : nat) (room : string) (flag : option bool) : hubop unit   (* None: delete *)
| HSendTimes (c : nat) (l : list Z) : hubop unit
| HJoin (room : string) (c : nat) : hubop unit
| HLeave (room : string) (c : nat) : hubop unit
| HUnregister (c : nat) : hubop unit
| HMembers (room : string) : hubop (list nat)
| HSize (room : string) : hubop Z
| HTrySend (c : nat) (frame : bytes) : hubop bool
| HRecv (c : nat) : hubop (option bytes)
| HClose (c : nat) : hubop unit.

(** Every pointer in use names an accepted client: an operation on another
    number does nothing. *)
Definition if_client (c : nat) (f : Hub -> Hub) (h : Hub) : Hub :=
  match clients h !! c with Some _ => f h | None => h end.

Definition hub_step {A} (o : hubop A) (h : Hub) : A * Hub :=
  match o in hubop A return A * Hub with
  | HAccept ip => (length (clients h), MkHub (hub_rooms h) (clients h ++ [new_client ip]))
  | HRead c => (default (new_client "") (clients h !! c), h)
  | HIdentity c u nick ic guest => (tt, on_client c (with_identity u nick ic guest) h)
  | HMute c room flag =>
    (tt, on_client c (fun cl => with_muted (partial_alter (fun _ => flag) room (mutedRooms cl)) cl) h)
  | HSendTimes c l => (tt, on_client c (with_sendTimes l) h)
  | HJoin room c => (tt, if_client c (joinRoom room c) h)
  | HLeave room c => (tt, if_client c (leaveRoom room c) h)
  | HUnregister c => (tt, unregisterAll c h)
  | HMembers room => (elements (members h room), h)
  | HSize room => (RoomSize h room, h)
  | HTrySend c frame => try_send c frame h
  | HRecv c => try_recv c h
  | HClose c => (tt, on_client c closed h)
  end.

(** Ranging over a room's clients is in no particular order. *)
Definition hub_answer {A} (o : hubop A) : A -> A -> Prop :=
  match o in hubop A return A -> A -> Prop with
  | HMembers _ => fun l l' => l ≡ₚ l'
  | _ => eq
  end.

(** ** The invariant *)
Record hub_ok (h : Hub) : Prop := HubOk {
  (** no empty room stays in the map *)
  ok_nonempty : forall room s, hub_rooms h !! room = Some s -> s <> ∅;
  (** a client is in a room's set exactly when the room is in the client's *)
  ok_member : forall room c,
    c ∈ members h room <-> exists cl, clients h !! c = Some cl /\ room ∈ rooms cl;
  (** no send queue is over its buffer *)
  ok_queue : forall c cl, clients h !! c = Some cl ->
    Z.of_nat (length (send cl)) <= defaultSendQueueSize;
}.

(** No client is in any room: the hub [NewHub] makes. *)
Definition empty_hub : Hub := MkHub ∅ [].

Lemma empty_hub_ok : hub_ok empty_hub.
Proof.
  split; [done| |done]. intros room c. unfold members. cbn [hub_rooms empty_hub].
  rewrite lookup_empty. cbn. split; [set_solver|]. by intros (? & ? & ?).
Qed.

(** *** Lemmas *)
Lemma lookup_on_client c f h i :
  clients (on_client c f h) !! i = if decide (c = i) then f <$> clients h !! i else clients h !! i.
Proof.
  unfold on_client. cbn [clients]. destruct (decide (c = i)) as [->|].
  - apply list_lookup_alter_eq.
  - by apply list_lookup_alter_ne.
Qed.

Lemma members_on_client c f h room : members (on_client c f h) room = members h room.
Proof. done. Qed.

(** Accesses that leave room membership and queue alone keep the invariant. *)
Lemma on_client_ok c f h :
  (forall cl, rooms (f cl) = rooms cl) ->
  (forall cl, clients h !! c = Some cl -> Z.of_nat (length (send cl)) <= defaultSendQueueSize ->
     Z.of_nat (length (send (f cl))) <= defaultSendQueueSize) ->
  hub_ok h -> hub_ok (on_client c f h).
Proof.
  intros Hr Hq [H1 H2 H3]. split.
  - apply H1.
  - intros room i. rewrite members_on_client, H2. setoid_rewrite lookup_on_client.
    destruct (decide (c = i)) as [->|]; [|done].
    split; intros (cl & Hc & Hin).
    + exists (f cl). rewrite Hc. split; [done|by rewrite Hr].
    + destruct (clients h !! i) as [cl0|]; [|done]. cbn in Hc. injection Hc as <-.
      exists cl0. by rewrite Hr in Hin.
  - intros i cl. rewrite lookup_on_client. destruct (decide (c = i)) as [->|]; [|apply H3].
    destruct (clients h !! i) as [cl0|] eqn:E; [|done]. cbn. intros [= <-]. eauto.
Qed.

Lemma drop_member_lookup c room m r :
  default ∅ (drop_member c room m !! r) =
  if decide (r = room) then default ∅ (m !! r) ∖ {[c]} else default ∅ (m !! r).
Proof.
  unfold drop_member. destruct (m !! room) as [s|] eqn:E.
  - destruct (decide (s ∖ {[c]} = ∅)) as [He|He]; destruct (decide (r = room)) as [->|Hne].
    + rewrite lookup_delete_eq, E. cbn. by rewrite He.
    + by rewrite lookup_delete_ne by done.
    + rewrite lookup_insert_eq, E. done.
    + by rewrite lookup_insert_ne by done.
  - destruct (decide (r = room)) as [->|]; [|done]. rewrite E. cbn. set_solver.
Qed.

Lemma drop_member_nonempty c room m :
  (forall r s, m !! r = Some s -> s <> ∅) ->
  forall r s, drop_member c room m !! r = Some s -> s <> ∅.
Proof.
  intros Hm r s. unfold drop_member. destruct (m !! room) as [s0|] eqn:E; [|apply Hm].
  destruct (decide _) as [He|He].
  - rewrite lookup_delete_Some. intros [_ ?]. eauto.
  - rewrite lookup_insert_Some. intros [[_ <-]|[_ ?]]; eauto.
Qed.

Lemma drop_members_lookup c l m r :
  default ∅ (foldr (drop_member c) m l !! r) =
  if decide (r ∈ l) then default ∅ (m !! r) ∖ {[c]} else default ∅ (m !! r).
Proof.
  induction l as [|room l IH]; cbn [foldr].
  - by rewrite decide_False by apply not_elem_of_nil.
  - rewrite drop_member_lookup, IH.
    repeat case_decide; subst; set_solver.
Qed.

Lemma drop_members_nonempty c l m :
  (forall r s, m !! r = Some s -> s <> ∅) ->
  forall r s, foldr (drop_member c) m l !! r = Some s -> s <> ∅.
Proof. intros Hm. induction l; [done|]. by apply drop_member_nonempty. Qed.

Lemma joinRoom_ok room c h : hub_ok h -> hub_ok (if_client c (joinRoom room c) h).
Proof.
  unfold if_client. destruct (clients h !! c) as [cl|] eqn:Ec; [|done].
  intros [H1 H2 H3]. split.
  - intros r s. unfold joinRoom, on_client. cbn [hub_rooms]. rewrite lookup_insert_Some.
    intros [[_ <-]|[_ ?]]; [set_solver|eauto].
  - intros r i. setoid_rewrite lookup_on_client. cbn [clients].
    assert (members (joinRoom room c h) r = if decide (r = room) then {[c]} ∪ members h r else members h r) as ->.
    { unfold members, joinRoom, on_client. cbn [hub_rooms]. destruct (decide (r = room)) as [->|].
      - by rewrite lookup_insert_eq.
      - by rewrite lookup_insert_ne. }
    specialize (H2 r i). destruct (decide (c = i)) as [->|Hci].
    + rewrite Ec in *. cbn. split.
      * intros Hin. eexists. split; [done|]. cbn. destruct (decide (r = room)) as [->|]; [set_solver|].
        apply H2 in Hin as (cl' & [= <-] & ?). set_solver.
      * intros (cl' & [= <-] & Hin). cbn in Hin. destruct (decide (r = room)) as [->|]; [set_solver|].
        apply H2. exists cl. split; [done|set_solver].
    + rewrite <- H2. destruct (decide (r = room)); set_solver.
  - intros i cl'. unfold joinRoom. rewrite lookup_on_client. cbn [clients].
    destruct (decide (c = i)) as [->|]; [|apply H3].
    rewrite Ec. cbn. intros [= <-]. cbn. eauto.
Qed.

(** Taking a client out of a list of rooms keeps the invariant. *)
Lemma leave_rooms_ok l c (h : Hub) cl : clients h !! c = Some cl -> hub_ok h ->
  hub_ok (on_client c (with_rooms (rooms cl ∖ list_to_set l))
            (MkHub (foldr (drop_member c) (hub_rooms h) l) (clients h))).
Proof.
  intros Ec [H1 H2 H3]. split.
  - cbn. by apply drop_members_nonempty.
  - intros r i. rewrite members_on_client. setoid_rewrite lookup_on_client. cbn [clients].
    unfold members. cbn [hub_rooms]. rewrite drop_members_lookup.
    specialize (H2 r i). unfold members in H2. destruct (decide (c = i)) as [->|Hci].
    + rewrite Ec in *. cbn. split.
      * intros Hin. eexists. split; [done|]. cbn. destruct (decide (r ∈ l)); [set_solver|].
        apply H2 in Hin as (cl' & [= <-] & ?). set_solver.
      * intros (cl' & [= <-] & Hin). cbn in Hin. rewrite decide_False by set_solver.
        apply H2. exists cl. split; [done|set_solver].
    + rewrite <- H2. destruct (decide (r ∈ l)); set_solver.
  - intros i cl'. rewrite lookup_on_client. cbn [clients]. destruct (decide (c = i)) as [->|]; [|apply H3].
    rewrite Ec. cbn. intros [= <-]. cbn. eauto.
Qed.

Lemma on_client_ext c f g h cl : clients h !! c = Some cl -> f cl = g cl -> on_client c f h = on_client c g h.
Proof.
  intros Ec Hfg. unfold on_client. f_equal. apply list_eq. intros i.
  destruct (decide (c = i)) as [->|].
  - rewrite !list_lookup_alter_eq, Ec. cbn. by rewrite Hfg.
  - by rewrite !list_lookup_alter_ne.
Qed.

Lemma leaveRoom_ok room c h : hub_ok h -> hub_ok (if_client c (leaveRoom room c) h).
Proof.
  unfold if_client. destruct (clients h !! c) as [cl|] eqn:Ec; [|done].
  intros Hok. pose proof (leave_rooms_ok [room] c h cl Ec Hok) as Hl. cbn [foldr] in Hl.
  unfold leaveRoom. erewrite on_client_ext; [exact Hl|exact Ec|].
  cbn. f_equal. set_solver.
Qed.

Lemma unregisterAll_ok c h : hub_ok h -> hub_ok (unregisterAll c h).
Proof.
  unfold unregisterAll. destruct (clients h !! c) as [cl|] eqn:Ec; [|done].
  intros Hok. pose proof (leave_rooms_ok (elements (rooms cl)) c h cl Ec Hok) as Hl.
  erewrite on_client_ext; [exact Hl|exact Ec|].
  cbn. f_equal. set_solver.
Qed.

Lemma hub_try_send_ok c frame h : hub_ok h -> hub_ok (try_send c frame h).2.
Proof.
  intros Hok. unfold try_send. destruct (clients h !! c) as [cl|] eqn:Ec; [|done].
  destruct (Z.ltb_spec (Z.of_nat (length (send cl))) defaultSendQueueSize); [|done].
  apply on_client_ok; [done| |done]. intros cl'. rewrite Ec. intros [= <-] _. cbn.
  rewrite length_app. cbn. lia.
Qed.

Lemma hub_try_recv_ok c h : hub_ok h -> hub_ok (try_recv c h).2.
Proof.
  intros Hok. unfold try_recv. destruct (clients h !! c) as [cl|] eqn:Ec; [|done].
  destruct (send cl) as [|f l] eqn:Es; [done|].
  apply on_client_ok; [done| |done]. intros cl'. rewrite Ec. intros [= <-]. cbn.
  rewrite Es. cbn [length]. lia.
Qed.

(** Every atomic access keeps the invariant. *)
Lemma hub_step_ok {A} (o : hubop A) h : hub_ok h -> hub_ok (hub_step o h).2.
Proof.
  intros Hok. destruct o; cbn [hub_step snd];
    eauto using joinRoom_ok, leaveRoom_ok, unregisterAll_ok, hub_try_send_ok, hub_try_recv_ok, on_client_ok.
  destruct Hok as [H1 H2 H3]. split.
  - apply H1.
  - intros room c. unfold members in *. cbn [hub_rooms clients]. rewrite H2.
    split; intros (cl & Hc & Hin).
    + exists cl. split; [by apply lookup_app_l_Some|done].
    + apply lookup_app_Some in Hc as [Hc|[_ Hc]]; [eauto|].
      apply list_lookup_singleton_Some in Hc as [_ <-]. cbn in Hin. set_solver.
  - intros c cl Hc. apply lookup_app_Some in Hc as [Hc|[_ Hc]]; [eauto|].
    apply list_lookup_singleton_Some in Hc as [_ <-]. cbn. unfold defaultSendQueueSize. lia.
Qed.

(** A client out of all rooms has left every room's set. *)
Lemma unregisterAll_leaves c h room : hub_ok h -> c ∉ members (unregisterAll c h) room.
Proof.
  intros Hok Hin. apply (ok_member _ (unregisterAll_ok c h Hok)) in Hin as (cl & Hc & Hin).
  unfold unregisterAll in Hc. destruct (clients h !! c) as [cl0|] eqn:Ec; [|by rewrite Ec in Hc].
  rewrite lookup_on_client, decide_True in Hc by done. cbn [clients] in Hc. rewrite Ec in Hc.
  injection Hc as <-. cbn in Hin. set_solver.
Qed.
End Chat.
