(* ===== verification/HubSpec.v ===== *)
(** * What the chat hub promises

    The hub as its clients may think of it: who is in which room, as one set of
    pairs, and one bounded first-in-first-out queue of frames per connection.
    The detailed hub of [Hub] -- a map of rooms to sets of clients, the set of
    rooms each client keeps of its own, rooms deleted when they run empty --
    refines it: whatever it answers, the specification can answer. *)

From S2P Require Import Prelude Hub.

Module HubSpec.
Import Chat.

(** ** The specification *)
Record Spec : Type := MkSpec {
  joined : gset (string * nat);      (* (room, client) *)
  queues : list (list bytes);        (* the frames waiting for each connection *)
}.
Definition nobody : Spec := MkSpec ∅ [].

Definition connected (s : Spec) (c : nat) : bool := (c <? length (queues s))%nat.
Definition in_room (room : string) (s : Spec) : gset (string * nat) := filter (fun p => p.1 = room) (joined s).

(** An access, its answer, and what it does to who is where. *)
Definition spec_step {A} (o : hubop A) (s : Spec) : A -> Spec -> Prop :=
  match o in hubop A return A -> Spec -> Prop with
  | HAccept _ => fun c s' => c = length (queues s) /\ s' = MkSpec (joined s) (queues s ++ [[]])
  | HJoin room c => fun _ s' =>
    s' = if connected s c then MkSpec ({[(room, c)]} ∪ joined s) (queues s) else s
  | HLeave room c => fun _ s' => s' = MkSpec (joined s ∖ {[(room, c)]}) (queues s)
  | HUnregister c => fun _ s' => s' = MkSpec (filter (fun p => p.2 <> c) (joined s)) (queues s)
  | HMembers room => fun l s' => s' = s /\ NoDup l /\ forall c, c ∈ l <-> (room, c) ∈ joined s
  | HSize room => fun n s' => s' = s /\ n = Z.of_nat (size (in_room room s))
  | HTrySend c frame => fun ok s' =>
    match queues s !! c with
    | Some q =>
      if Z.of_nat (length q) <? defaultSendQueueSize
      then ok = true /\ s' = MkSpec (joined s) (<[c := q ++ [frame]]> (queues s))
      else ok = false /\ s' = s
    | None => ok = false /\ s' = s
    end
  | HRecv c => fun f s' =>
    match queues s !! c with
    | Some (frame :: q) => f = Some frame /\ s' = MkSpec (joined s) (<[c := q]> (queues s))
    | _ => f = None /\ s' = s
    end
  | HRead _ | HIdentity _ _ _ _ _ | HMute _ _ _ | HSendTimes _ _ | HClose _ => fun _ s' => s' = s
  end.

(** An access with the answer it got, and finite runs. *)
Inductive event : Type := Event (A : Type) (o : hubop A) (a : A).
Arguments Event {A} o a.

Inductive hub_trace : Hub -> list event -> Hub -> Prop :=
| hub_done h : hub_trace h [] h
| hub_more {A} (o : hubop A) a h tr h' :
    hub_answer o (hub_step o h).1 a -> hub_trace (hub_step o h).2 tr h' ->
    hub_trace h (Event o a :: tr) h'.
Inductive spec_trace : Spec -> list event -> Spec -> Prop :=
| spec_done s : spec_trace s [] s
| spec_more {A} (o : hubop A) a s s1 tr s' :
    spec_step o s a s1 -> spec_trace s1 tr s' -> spec_trace s (Event o a :: tr) s'.

(** ** The simulation *)
Record repr (h : Hub) (s : Spec) : Prop := Repr {
  repr_queues : queues s = map send (clients h);
  repr_joined : forall room c, (room, c) ∈ joined s <-> c ∈ members h room }.

Lemma lookup_map {A B} (f : A -> B) (l : list A) i : map f l !! i = f <$> l !! i.
Proof. exact (list_lookup_fmap f l i). Qed.

Lemma connected_client h s c : repr h s -> connected s c = true <-> is_Some (clients h !! c).
Proof.
  intros [Hq _]. unfold connected. rewrite Hq, length_map, Nat.ltb_lt. by rewrite lookup_lt_is_Some.
Qed.

Lemma repr_lookup h s c : repr h s -> queues s !! c = send <$> clients h !! c.
Proof. intros [-> _]. by rewrite lookup_map. Qed.

Lemma queues_on_client c f h : (forall cl, send (f cl) = send cl) ->
  map send (clients (on_client c f h)) = map send (clients h).
Proof.
  intros Hf. apply list_eq. intros i. rewrite !lookup_map, lookup_on_client. destruct (decide (c = i)); [|done].
  destruct (clients h !! i); cbn; [|done]. by rewrite Hf.
Qed.

Lemma queues_set c g h cl : clients h !! c = Some cl ->
  map send (clients (on_client c (with_send g) h)) = <[c := g]> (map send (clients h)).
Proof.
  intros Hc. apply list_eq. intros i. rewrite lookup_map, lookup_on_client. destruct (decide (c = i)) as [<-|Hne].
  - rewrite Hc. cbn. rewrite list_lookup_insert_eq; [done|]. rewrite length_map. by eapply lookup_lt_Some.
  - by rewrite list_lookup_insert_ne, lookup_map.
Qed.

(** An access that leaves rooms and queues alone. *)
Lemma repr_on_client h s c f : (forall cl, send (f cl) = send cl) -> repr h s -> repr (on_client c f h) s.
Proof. intros Hf [Hq Hj]. split; [by rewrite queues_on_client|exact Hj]. Qed.

Lemma members_joinRoom room c h r i :
  i ∈ members (joinRoom room c h) r <-> i ∈ members h r \/ (r = room /\ i = c).
Proof.
  unfold members, joinRoom, on_client. cbn [hub_rooms]. destruct (decide (r = room)) as [->|Hne].
  - rewrite lookup_insert_eq. cbn. set_solver.
  - rewrite lookup_insert_ne by done. set_solver.
Qed.

Lemma members_leaveRoom room c h r i :
  i ∈ members (leaveRoom room c h) r <-> i ∈ members h r /\ ~ (r = room /\ i = c).
Proof.
  unfold members, leaveRoom, on_client. cbn [hub_rooms]. rewrite drop_member_lookup.
  destruct (decide (r = room)); set_solver.
Qed.

Lemma members_unregisterAll c h r i : hub_ok h -> i ∈ members (unregisterAll c h) r <-> i ∈ members h r /\ i <> c.
Proof.
  intros Hok. pose proof (ok_member _ Hok r c) as Hm. unfold unregisterAll.
  destruct (clients h !! c) as [cl|] eqn:Ec.
  - unfold members, on_client in *. cbn [hub_rooms]. rewrite drop_members_lookup.
    destruct (decide (r ∈ elements (rooms cl))) as [Hin|Hin]; rewrite elem_of_elements in Hin; [set_solver|].
    split; [|by intros []]. intros Hi. split; [done|]. intros ->. apply Hm in Hi as (cl' & [= <-] & ?). done.
  - split; [|by intros []]. intros Hi. split; [done|]. intros ->. apply Hm in Hi as (cl' & ? & _). done.
Qed.

(** A member is connected. *)
Lemma member_connected h r c : hub_ok h -> c ∈ members h r -> is_Some (clients h !! c).
Proof. intros Hok Hc. apply (ok_member _ Hok) in Hc as (cl & -> & _). done. Qed.

Lemma room_size h s room : repr h s -> RoomSize h room = Z.of_nat (size (in_room room s)).
Proof.
  intros [_ Hj]. unfold RoomSize. f_equal.
  assert (in_room room s = list_to_set (map (pair room) (elements (members h room)))) as ->.
  { apply set_eq. intros [r c]. unfold in_room. rewrite elem_of_filter, Hj, elem_of_list_to_set.
    change (map (pair room) ?l) with (pair room <$> l). rewrite list_elem_of_fmap. cbn [fst]. split.
    - intros [-> Hc]. exists c. by rewrite elem_of_elements.
    - intros (c' & [= -> ->] & Hc). by rewrite elem_of_elements in Hc. }
  rewrite size_list_to_set.
  - by rewrite length_map.
  - apply NoDup_fmap_2; [by intros ?? [= ->]|apply NoDup_elements].
Qed.

Lemma spec_send c frame h s : repr h s ->
  exists s', spec_step (HTrySend c frame) s (try_send c frame h).1 s' /\ repr (try_send c frame h).2 s'.
Proof.
  intros Hr. pose proof (repr_lookup h s c Hr) as Hl. destruct Hr as [Hq Hj]. unfold try_send. cbn [spec_step].
  destruct (clients h !! c) as [cl|] eqn:Ec; cbn in Hl; rewrite Hl; [|by exists s].
  destruct (_ <? _); [|by exists s]. eexists. split; [by split|]. split; [|exact Hj].
  cbn [queues]. rewrite Hq. symmetry. by eapply queues_set.
Qed.

Lemma spec_recv c h s : repr h s ->
  exists s', spec_step (HRecv c) s (try_recv c h).1 s' /\ repr (try_recv c h).2 s'.
Proof.
  intros Hr. pose proof (repr_lookup h s c Hr) as Hl. destruct Hr as [Hq Hj]. unfold try_recv. cbn [spec_step].
  destruct (clients h !! c) as [cl|] eqn:Ec; cbn in Hl; rewrite Hl; [|by exists s].
  destruct (send cl) as [|f q] eqn:Es; [by exists s|]. eexists. split; [by split|]. split; [|exact Hj].
  cbn [queues snd]. rewrite Hq. symmetry. by eapply queues_set.
Qed.

(** Membership changes, case by case. *)
Lemma spec_join room c h s : repr h s ->
  repr (if_client c (joinRoom room c) h)
    (if connected s c then MkSpec ({[(room, c)]} ∪ joined s) (queues s) else s).
Proof.
  intros Hr. pose proof (connected_client h s c Hr) as Hc. unfold if_client.
  destruct (connected s c).
  - destruct (proj1 Hc eq_refl) as [cl ->]. destruct Hr as [Hq Hj]. split.
    + cbn [queues]. rewrite Hq. symmetry. by apply (queues_on_client c _ (MkHub _ (clients h))).
    + intros r i. rewrite members_joinRoom, <- Hj. cbn [joined]. rewrite elem_of_union, elem_of_singleton.
      split; [intros [[= -> ->]|]; auto|intros [|[-> ->]]; auto].
  - destruct (clients h !! c); [|exact Hr]. discriminate (proj2 Hc ltac:(by eexists)).
Qed.

Lemma spec_leave room c h s : hub_ok h -> repr h s ->
  repr (if_client c (leaveRoom room c) h) (MkSpec (joined s ∖ {[(room, c)]}) (queues s)).
Proof.
  intros Hok [Hq Hj]. unfold if_client. destruct (clients h !! c) as [cl|] eqn:Ec; split; cbn [queues joined].
  - rewrite Hq. symmetry. by apply (queues_on_client c _ (MkHub _ (clients h))).
  - intros r i. rewrite members_leaveRoom, <- Hj, elem_of_difference, elem_of_singleton.
    split; intros [Hi Hn]; (split; [done|]); intros E; apply Hn; [by destruct E as [-> ->]|by injection E].
  - done.
  - intros r i. rewrite elem_of_difference, elem_of_singleton, Hj. split; [by intros []|].
    intros Hi. split; [done|]. intros [= -> ->]. apply member_connected in Hi as [? Hi]; [congruence|done].
Qed.

Lemma spec_unregister c h s : hub_ok h -> repr h s ->
  repr (unregisterAll c h) (MkSpec (filter (fun p => p.2 <> c) (joined s)) (queues s)).
Proof.
  intros Hok [Hq Hj]. split; cbn [queues joined].
  - rewrite Hq. unfold unregisterAll. destruct (clients h !! c); [|done].
    symmetry. by apply (queues_on_client c _ (MkHub _ (clients h))).
  - intros r i. rewrite members_unregisterAll, <- Hj, elem_of_filter by done. cbn [snd]. tauto.
Qed.

(** Every access of the hub is one of the specification. *)
Lemma hub_step_refines {A} (o : hubop A) h s a : hub_ok h -> repr h s -> hub_answer o (hub_step o h).1 a ->
  exists s', spec_step o s a s' /\ repr (hub_step o h).2 s'.
Proof.
  intros Hok Hr Ha.
  destruct o; cbn [hub_step hub_answer fst snd] in *; try subst a.
  all: try (cbn [spec_step]; exists s; split; [done|by apply repr_on_client]).
  all: try (cbn [spec_step]; by exists s).
  all: try (by apply spec_send); try (by apply spec_recv).
  - eexists. split; [split; [|reflexivity]|]; destruct Hr as [Hq Hj].
    + by rewrite Hq, length_map.
    + split; [|exact Hj]. cbn [queues clients]. by rewrite Hq, map_app.
  - eexists. split; [reflexivity|]. by apply spec_join.
  - eexists. split; [reflexivity|]. by apply spec_leave.
  - eexists. split; [reflexivity|]. by apply spec_unregister.
  - exists s. split; [|done]. split_and!; [done|by rewrite <- Ha; apply NoDup_elements|].
    intros c. rewrite <- Ha, elem_of_elements. symmetry. apply Hr.
  - exists s. split; [|done]. split; [done|]. by apply room_size.
Qed.

Lemma hub_trace_refines h tr h' : hub_trace h tr h' -> forall s, hub_ok h -> repr h s ->
  exists s', spec_trace s tr s' /\ repr h' s'.
Proof.
  induction 1 as [h|A o a h tr h' Ha Htr IH]; intros s Hok Hr; [exists s; by split; [constructor|]|].
  destruct (hub_step_refines o h s a Hok Hr Ha) as (s1 & Hs & Hr1).
  destruct (IH s1 (hub_step_ok o h Hok) Hr1) as (s' & Hs' & Hr'). exists s'. split; [by econstructor|done].
Qed.

(** C9. The hub refines its specification: in any run from the empty hub, of
    any accesses in any order, each answer is one the set of (room, client)
    pairs and the bounded queues can give -- a room's members exactly the pairs
    of that room, each once; its size their number; frames out in the order
    they went in, none lost unless the sender was told -- and the final states
    correspond. *)
Theorem hub_refines (tr : list event) (h : Hub) (Hrun : hub_trace empty_hub tr h) :
  exists s, spec_trace nobody tr s /\ repr h s.
Proof.
  apply (hub_trace_refines empty_hub tr h Hrun); [exact empty_hub_ok|]. split; [reflexivity|]. intros room c.
  unfold members. cbn [hub_rooms empty_hub joined nobody]. rewrite lookup_empty. cbn. set_solver.
Qed.

(** Two connections in a room, one leaves; a frame goes through. *)
Definition demo_trace : list event :=
  [Event (HAccept "a") 0%nat; Event (HAccept "b") 1%nat; Event (HJoin "r" 0) tt;
   Event (HJoin "r" 1) tt; Event (HSize "r") 2; Event (HTrySend 1 [Byte.x41]) true;
   Event (HUnregister 0) tt; Event (HMembers "r") [1%nat];
   Event (HRecv 1) (Some [Byte.x41]); Event (HSize "r") 1].

Lemma hub_refines_witness : exists h s, hub_trace empty_hub demo_trace h /\ spec_trace nobody demo_trace s /\ repr h s.
Proof.
  eassert (hub_trace empty_hub demo_trace _) as Hrun.
  { unfold demo_trace. repeat first [apply hub_done | apply hub_more; [vm_compute; reflexivity|]]. }
  destruct (hub_refines demo_trace _ Hrun) as (s & Hs & Hr). eexists _, s. exact (conj Hrun (conj Hs Hr)).
Defined.
End HubSpec.
