(* ===== verification/Sql.v ===== *)
(** * database/sql: values, rows and Scan

    The models read rows with [row.Scan] and [rows.Next]/[rows.Scan].  The
    database itself is a service ([Env]); this file gives the standard
    library's part: what a driver value becomes when it is scanned into an
    integer, a string, a nullable or a time, and how a row of them is read in
    order. *)

From S2P Require Import Prelude GoStr.

Module Sql.

(** ** Values *)

(** A driver value: NULL, an integer, text (string or []byte), an instant
    (ns since the epoch, in UTC). *)
Inductive sqlval : Type :=
| SNull
| SInt (z : Z)
| SText (s : string)
| STime (t : Z).
#[global] Instance sqlval_eq_dec : EqDecision sqlval.
Proof. solve_decision. Defined.

Definition row : Type := list sqlval.

(** What a query gives: its rows, the error [rows.Err] reports after them and
    the one [rows.Close] returns. *)
Record answer : Type := Answer { a_rows : list row; a_err : option error; a_close : option error }.

Definition ErrNoRows := ErrSentinel "sql.ErrNoRows" "sql: no rows in result set".

(** ** Instants as text *)

(** Days since the epoch to (year, month, day), by 400-year cycles from
    0000-03-01. *)
Definition civil (days : Z) : Z * Z * Z :=
  let z := days + 719468 in
  let era := z / 146097 in
  let doe := z mod 146097 in
  let yoe := (doe - doe / 1460 + doe / 36524 - doe / 146096) / 365 in
  let doy := doe - (365 * yoe + yoe / 4 - yoe / 100) in
  let mp := (5 * doy + 2) / 153 in
  let d := doy - (153 * mp + 2) / 5 + 1 in
  let m := if mp <? 10 then mp + 3 else mp - 9 in
  (yoe + era * 400 + (if m <=? 2 then 1 else 0), m, d).

(** [n] decimal digits of [z], zero-padded. *)
Fixpoint padded (n : nat) (z : Z) : string :=
  match n with
  | O => EmptyString
  | S n => padded n (z / 10) +:+ String (digit_char (z mod 10)) EmptyString
  end.

Fixpoint trim_zeros (s : string) : string :=
  match s with
  | EmptyString => EmptyString
  | String c s' =>
    match trim_zeros s' with
    | EmptyString => if Ascii.eqb c "0" then EmptyString else String c EmptyString
    | t => String c t
    end
  end.

(** [t.Format(time.RFC3339Nano)] in UTC. *)
Definition rfc3339nano (t : Z) : string :=
  let '(y, mo, d) := civil (t / (86400 * Second)) in
  let s := (t / Second) mod 86400 in
  let frac := trim_zeros (padded 9 (t mod Second)) in
  padded 4 y +:+ "-" +:+ padded 2 mo +:+ "-" +:+ padded 2 d +:+ "T" +:+
  padded 2 (s / 3600) +:+ ":" +:+ padded 2 (s / 60 mod 60) +:+ ":" +:+ padded 2 (s mod 60) +:+
  (if String.eqb frac "" then "" else "." +:+ frac) +:+ "Z".

Example rfc3339nano_ex :
  rfc3339nano (1786165348 * Second) = "2026-08-08T05:02:28Z" /\
  rfc3339nano (-1) = "1969-12-31T23:59:59.999999999Z" /\
  rfc3339nano (951782400 * Second + 120000000) = "2000-02-29T00:00:00.12Z".
Proof. by vm_compute. Qed.

(** ** Scanning one value *)
Definition scan_error : error := ErrMsg "sql: Scan error on column".

Definition fits (bits : Z) (z : Z) : bool := (- 2 ^ (bits - 1) <=? z) && (z <? 2 ^ (bits - 1)).

(** Into a signed integer of [bits] bits. *)
Definition to_int (bits : Z) (v : sqlval) : res Z :=
  match v with
  | SInt z => if fits bits z then Ok z else Err scan_error
  | SText s =>
    match ParseInt s with
    | Some z => if fits bits z then Ok z else Err scan_error
    | None => Err scan_error
    end
  | SNull | STime _ => Err scan_error
  end.

Definition to_str (v : sqlval) : res string :=
  match v with
  | SInt z => Ok (FormatInt z)
  | SText s => Ok s
  | STime t => Ok (rfc3339nano t)
  | SNull => Err scan_error
  end.

Definition to_time (v : sqlval) : res Z :=
  match v with STime t => Ok t | _ => Err scan_error end.

(** sql.NullString, sql.NullInt64, sql.NullTime: [None] is not Valid. *)
Definition nullable {A} (conv : sqlval -> res A) (v : sqlval) : res (option A) :=
  match v with SNull => Ok None | _ => a ← conv v; Ok (Some a) end.

(** ** Scanning a row *)

(** A list of destinations: each takes the next column. *)
Definition scan (A : Type) : Type := row -> res (A * row).

#[global] Instance scan_ret : MRet scan := fun A a r => Ok (a, r).
#[global] Instance scan_bind : MBind scan :=
  fun A B k p r => match p r with Ok (a, r') => k a r' | Err e => Err e end.

Definition column {A} (conv : sqlval -> res A) : scan A := fun r =>
  match r with
  | v :: r => a ← conv v; Ok (a, r)
  | [] => Err scan_error
  end.

Definition int64_col : scan Z := column (to_int 64).
Definition int32_col : scan Z := column (to_int 32).
Definition str_col : scan string := column to_str.
Definition time_col : scan Z := column to_time.
(** The [.String] of a sql.NullString and the [.Int64] of a sql.NullInt64. *)
Definition null_str_col : scan string := s ← column (nullable to_str); mret (default "" s).
Definition null_int_col : scan Z := z ← column (nullable (to_int 64)); mret (default 0 z).
Definition null_time_col : scan (option Z) := column (nullable to_time).

(** [Scan] refuses a row with more or fewer columns than destinations. *)
Definition scan_row {A} (p : scan A) (r : row) : res A :=
  match p r with
  | Ok (a, []) => Ok a
  | Ok (_, _ :: _) => Err scan_error
  | Err e => Err e
  end.

(** [for rows.Next() { rows.Scan(..); out = append(out, r) }; return out, rows.Err()]. *)
Definition scan_all {A} (p : scan A) (a : answer) : list A * option error :=
  match mapM (scan_row p) (a_rows a) with
  | Ok out => (out, a_err a)
  | Err e => ([], Some e)
  end.

(** [row.Scan] of a [QueryRow]: the first row; none is [ErrNoRows]. *)
Definition scan_one {A} (p : scan A) (a : res answer) : res A :=
  match a with
  | Err e => Err e
  | Ok (Answer [] err _) => Err (default ErrNoRows err)
  | Ok (Answer (r :: _) _ close) =>
    match scan_row p r with
    | Err e => Err e
    | Ok x => match close with Some e => Err e | None => Ok x end
    end
  end.

End Sql.
