(* ===== verification/Time.v ===== *)
(** * Calendar time

    The part of Go's time package the program uses on civil dates: [Date],
    [ParseInLocation] for the layouts of match_model.go, and
    [Format("20060102")].  The zone database is not part of the repository: a
    location is the function from an instant (Unix seconds) to its offset. *)

From S2P Require Import Prelude GoStr Sql.

(** ** Days *)

Definition leap (y : Z) : bool :=
  (y mod 4 =? 0) && (negb (y mod 100 =? 0) || (y mod 400 =? 0)).
Definition daysIn (m y : Z) : Z :=
  if m =? 2 then (if leap y then 29 else 28)
  else if (m =? 4) || (m =? 6) || (m =? 9) || (m =? 11) then 30 else 31.

(** Days since the epoch of a date, the inverse of [Sql.civil]. *)
Definition days_of (y m d : Z) : Z :=
  let y := if m <=? 2 then y - 1 else y in
  let era := y / 400 in
  let yoe := y mod 400 in
  let mp := if m <=? 2 then m + 9 else m - 3 in
  let doy := (153 * mp + 2) / 5 + d - 1 in
  let doe := yoe * 365 + yoe / 4 - yoe / 100 + doy in
  era * 146097 + doe - 719468.

Definition valid_date (y m d : Z) : bool :=
  (1 <=? m) && (m <=? 12) && (1 <=? d) && (d <=? daysIn m y).


(** ** The calendar is right

    [Sql.civil] and [days_of] are inverse to each other and stay within the
    calendar.  Dates count from 1 March of a 400-year cycle: the years of a
    cycle are checked one by one, then the days of a year. *)

(** The first and last day of year [y] of a cycle. *)
Definition start (y : Z) : Z := 365 * y + y / 4 - y / 100.
Definition last (y : Z) : Z := if y =? 399 then 146096 else start (y + 1) - 1.
Definition yoe_of (doe : Z) : Z := (doe - doe / 1460 + doe / 36524 - doe / 146096) / 365.

Definition year_ok (y : Z) : bool :=
  (yoe_of (start y) =? y) && (yoe_of (Z.min (last y) 146095) =? y) && (yoe_of (last y) =? y) &&
  (last y <=? start y + 365) && implb (last y =? start y + 365) (leap (y + 1)) &&
  (start y <=? last y) && implb (negb (last y <=? 146095)) (y =? 399).

Lemma years_ok y : 0 <= y < 400 -> year_ok y = true.
Proof. apply (upto_forall year_ok 400). vm_compute. reflexivity. Qed.

Lemma year_exists doe : 0 <= doe <= 146096 -> exists y, 0 <= y < 400 /\ start y <= doe <= last y.
Proof.
  intros Hd.
  assert (forall n : nat, (n <= 399)%nat -> doe < start (Z.of_nat n) ->
    exists y, 0 <= y < 400 /\ start y <= doe <= last y) as Hn.
  { induction n as [|n IH]; intros Hl Hlt; [change (start (Z.of_nat 0)) with 0 in Hlt; lia|].
    destruct (Z.lt_ge_cases doe (start (Z.of_nat n))); [apply IH; [lia|done]|].
    exists (Z.of_nat n). unfold last. replace (Z.of_nat n =? 399) with false by lia.
    replace (Z.of_nat n + 1) with (Z.of_nat (S n)) by lia. lia. }
  destruct (Z.lt_ge_cases doe (start 399)); [by apply (Hn 399%nat)|].
  exists 399. change (last 399) with 146096. lia.
Qed.

Lemma yoe_mono a b : 0 <= a <= b -> b <= 146095 -> yoe_of a <= yoe_of b.
Proof.
  intros Ha Hb. unfold yoe_of. apply Z.div_le_mono; [lia|].
  rewrite (Z.div_small a 146096), (Z.div_small b 146096) by lia.
  pose proof (Z.div_le_mono a b 36524 ltac:(lia) ltac:(lia)).
  assert (b / 1460 - a / 1460 <= b - a); [|lia].
  pose proof (Z.div_mod a 1460 ltac:(lia)). pose proof (Z.div_mod b 1460 ltac:(lia)).
  pose proof (Z.mod_pos_bound a 1460 ltac:(lia)). pose proof (Z.mod_pos_bound b 1460 ltac:(lia)). lia.
Qed.

Lemma yoe_spec doe : 0 <= doe <= 146096 ->
  0 <= yoe_of doe < 400 /\ 0 <= doe - start (yoe_of doe) <= 365 /\
  (doe - start (yoe_of doe) = 365 -> leap (yoe_of doe + 1) = true).
Proof.
  intros Hd. destruct (year_exists doe Hd) as (y & Hy & Hs). pose proof (years_ok y Hy) as Hok.
  unfold year_ok in Hok. bool_to_prop.
  assert (0 <= start y) by (unfold start; pose proof (Z.div_mod y 4 ltac:(lia));
    pose proof (Z.mod_pos_bound y 4 ltac:(lia)); pose proof (Z.div_mod y 100 ltac:(lia));
    pose proof (Z.mod_pos_bound y 100 ltac:(lia)); lia).
  match goal with H : implb (last y =? _) _ = true |- _ => rename H into Hi end.
  match goal with H : implb (negb _) _ = true |- _ => rename H into Hlast end.
  assert (yoe_of doe = y) as ->.
  { destruct (decide (doe = 146096)) as [->|].
    - assert (last y = 146096) as El by (destruct (last y <=? 146095) eqn:E; cbn [negb implb] in Hlast;
        bool_to_prop; [lia|by subst y]).
      by rewrite <- El.
    - pose proof (yoe_mono (start y) doe ltac:(lia) ltac:(lia)).
      pose proof (yoe_mono doe (Z.min (last y) 146095) ltac:(lia) ltac:(lia)). lia. }
  split_and!; [lia..|]. intros E. destruct (last y =? start y + 365) eqn:El; [done|]. bool_to_prop. lia.
Qed.

(** The month and day of day [doy] of a year that starts in March. *)
Definition mp_of (doy : Z) : Z := (5 * doy + 2) / 153.
Definition month_of (doy : Z) : Z := if mp_of doy <? 10 then mp_of doy + 3 else mp_of doy - 9.
Definition mday_of (doy : Z) : Z := doy - (153 * mp_of doy + 2) / 5 + 1.

Definition doy_ok (doy : Z) : bool :=
  let m := month_of doy in
  (1 <=? m) && (m <=? 12) && (1 <=? mday_of doy) &&
  (mday_of doy <=? if m =? 2 then (if doy =? 365 then 29 else 28) else daysIn m 1) &&
  ((if m <=? 2 then m + 9 else m - 3) =? mp_of doy).

Lemma doys_ok doy : 0 <= doy <= 365 -> doy_ok doy = true.
Proof. intros H. apply (upto_forall doy_ok 366); [vm_compute; reflexivity|lia]. Qed.

Lemma civil_eq z : Sql.civil z =
  let doe := (z + 719468) mod 146097 in let yoe := yoe_of doe in
  let doy := doe - start yoe in
  (yoe + (z + 719468) / 146097 * 400 + (if month_of doy <=? 2 then 1 else 0), month_of doy, mday_of doy).
Proof. reflexivity. Qed.

Lemma leap_shift y e : leap (y + e * 400) = leap y.
Proof.
  assert (forall k c, (y + e * (k * c)) mod c = y mod c) as Hm
    by (intros; by rewrite Z.mul_assoc, Z_mod_plus_full).
  unfold leap. rewrite (Hm 100 4 : (y + e * 400) mod 4 = _), (Hm 4 100 : (y + e * 400) mod 100 = _).
  by rewrite Z_mod_plus_full.
Qed.

Lemma civil_valid z :
  let '(y, m, d) := Sql.civil z in valid_date y m d = true /\ days_of y m d = z.
Proof.
  rewrite civil_eq. cbv zeta. set (era := (z + 719468) / 146097). set (doe := (z + 719468) mod 146097).
  pose proof (Z.div_mod (z + 719468) 146097 ltac:(lia)) as Hz. fold era doe in Hz.
  pose proof (Z.mod_pos_bound (z + 719468) 146097 ltac:(lia)) as Hd. fold doe in Hd.
  destruct (yoe_spec doe ltac:(lia)) as (Hy & Hdoy & Hleap).
  set (yoe := yoe_of doe) in *. set (doy := doe - start yoe) in *.
  pose proof (doys_ok doy Hdoy) as Hok. unfold doy_ok in Hok. cbv zeta in Hok.
  apply andb_prop in Hok as [Hok Hmp]. apply Z.eqb_eq in Hmp. bool_to_prop. split.
  - unfold valid_date. rewrite !andb_true_iff, !Z.leb_le. split_and!; [done..|].
    unfold daysIn in *. destruct (month_of doy =? 2) eqn:E2; [|done]. bool_to_prop. rewrite E2 in *.
    destruct (doy =? 365) eqn:E; [|destruct (leap (yoe + era * 400 + _)); lia]. bool_to_prop.
    replace (yoe + era * 400 + (if 2 <=? 2 then 1 else 0)) with (yoe + 1 + era * 400) by (cbn; lia).
    rewrite leap_shift, Hleap by done. done.
  - unfold days_of.
    replace (if month_of doy <=? 2 then _ - 1 else _) with (yoe + era * 400)
      by (destruct (month_of doy <=? 2); lia).
    rewrite Z_div_plus_full, Z_mod_plus_full, Z.div_small, Z.mod_small, Hmp by lia.
    change (mday_of doy) with (doy - (153 * mp_of doy + 2) / 5 + 1).
    unfold doy, start. lia.
Qed.

(** ** Instants and locations *)

Section location.
(** The offset from UTC, in seconds, that a location keeps at an instant. *)
Context (Local : Z -> Z).

(** [time.Date(.., loc)] in Unix seconds: the offset is looked up at the
    civil time taken as UTC, then again at the instant that gives. *)
Definition Date_unix (y m d hour mi sec : Z) : Z :=
  let unix := days_of y m d * 86400 + hour * 3600 + mi * 60 + sec in
  if Local unix =? 0 then unix else unix - Local (unix - Local unix).

(** [t.Format("20060102")] of an instant shown in the location. *)
Definition format_20060102 (t : Z) : string :=
  let s := t / Second in
  let '(y, m, d) := Sql.civil ((s + Local s) / 86400) in
  Sql.padded 4 y +:+ Sql.padded 2 m +:+ Sql.padded 2 d.
End location.

Definition UTC : Z -> Z := fun _ => 0.

(** ** ParseInLocation *)

Fixpoint cutspace (s : string) : string :=
  match s with String c s' => if Ascii.eqb c " " then cutspace s' else s | _ => s end.

(** The literal text of a layout; a space matches any run of spaces, and the
    end of the value. *)
Definition skip (c : Ascii.ascii) (s : string) : option string :=
  match s with
  | String b s' => if Ascii.eqb c " " then (if Ascii.eqb b " " then Some (cutspace s') else None)
                   else if Ascii.eqb b c then Some s' else None
  | EmptyString => if Ascii.eqb c " " then Some EmptyString else None
  end.

Definition digit_val (c : Ascii.ascii) : option Z :=
  if is_digit c then Some (Z.of_nat (Ascii.nat_of_ascii c) - 48) else None.

(** Exactly [n] digits. *)
Fixpoint take_digits (n : nat) (acc : Z) (s : string) : option (Z * string) :=
  match n, s with
  | O, _ => Some (acc, s)
  | S n, String c s => d ← digit_val c; take_digits n (acc * 10 + d) s
  | S _, EmptyString => None
  end.

(** [getnum(value, fixed)]: two digits, or one when the field is not fixed. *)
Definition getnum (fixed : bool) (s : string) : option (Z * string) :=
  match take_digits 2 0 s with
  | Some r => Some r
  | None => if fixed then None else take_digits 1 0 s
  end.

Definition within (lo hi : Z) (r : option (Z * string)) : option (Z * string) :=
  match r with Some (z, s) => if (lo <=? z) && (z <=? hi) then Some (z, s) else None | None => None end.

(** "2006-01-02"; the day is checked against the month at the end. *)
Definition parse_date (s : string) : option (Z * Z * Z * string) :=
  '(y, s) ← take_digits 4 0 s; s ← skip "-" s;
  '(m, s) ← within 1 12 (getnum true s); s ← skip "-" s;
  '(d, s) ← getnum true s;
  Some (y, m, d, s).

Fixpoint all_digits (s : string) : string * string :=
  match s with
  | String c s' => if is_digit c then let '(a, b) := all_digits s' in (String c a, b) else (EmptyString, s)
  | EmptyString => (EmptyString, EmptyString)
  end.

(** Fractional seconds that the layout does not mention: at most nine digits
    count. *)
Definition parse_frac (s : string) : Z * string :=
  match s with
  | String p (String c s') =>
    if (Ascii.eqb p "." || Ascii.eqb p ",") && is_digit c then
      let '(ds, rest) := all_digits (String c s') in
      let ds := String.substring 0 9 ds in
      (default 0 (digits_val ds 0) * 10 ^ (9 - Z.of_nat (String.length ds)), rest)
    else (0, s)
  | _ => (0, s)
  end.

(** "15:04:05": hours need not be padded. *)
Definition parse_clock (s : string) : option (Z * Z * Z * Z * string) :=
  '(hh, s) ← within 0 23 (getnum false s); s ← skip ":" s;
  '(mi, s) ← within 0 59 (getnum true s); s ← skip ":" s;
  '(ss, s) ← within 0 59 (getnum true s);
  let '(ns, s) := parse_frac s in
  Some (hh, mi, ss, ns, s).

(** "Z07:00": the offset; [None] inside is UTC. *)
Definition parse_zone (s : string) : option (option Z * string) :=
  match s with
  | String sg s' =>
    if Ascii.eqb sg "Z" then Some (None, s')
    else
      '(hr, s1) ← within 0 24 (take_digits 2 0 s'); s2 ← skip ":" s1;
      '(mm, s3) ← within 0 60 (take_digits 2 0 s2);
      if Ascii.eqb sg "+" then Some (Some ((hr * 60 + mm) * 60), s3)
      else if Ascii.eqb sg "-" then Some (Some (- ((hr * 60 + mm) * 60)), s3) else None
  | EmptyString => None
  end.

Inductive layout : Type := LDateTime (sep : Ascii.ascii) | LRFC3339 | LDate.

(** [time.ParseInLocation]: the instant in ns. *)
Definition ParseInLocation (l : layout) (s : string) (Local : Z -> Z) : option Z :=
  '(y, m, d, s) ← parse_date s;
  let at_ (loc : Z -> Z) hh mi ss ns (off : Z) (s : string) : option Z :=
    if String.eqb s "" && valid_date y m d
    then Some ((Date_unix loc y m d hh mi ss - off) * Second + ns) else None in
  match l with
  | LDate => at_ Local 0 0 0 0 0 s
  | LDateTime sep =>
    s ← skip sep s; '(hh, mi, ss, ns, s) ← parse_clock s;
    at_ Local hh mi ss ns 0 s
  | LRFC3339 =>
    s ← skip "T" s; '(hh, mi, ss, ns, s) ← parse_clock s;
    '(z, s) ← parse_zone s;
    at_ UTC hh mi ss ns (default 0 z) s
  end.

Example parse_ex :
  ParseInLocation (LDateTime " ") "2026-08-08 05:02:28" UTC = Some (1786165348 * Second) /\
  ParseInLocation (LDateTime " ") "2026-08-08  5:02:28.25" (fun _ => 28800) = Some (1786136548 * Second + 250000000) /\
  ParseInLocation (LDateTime "T") "2026-08-08T05:02:28Z" UTC = None /\
  ParseInLocation LRFC3339 "2026-08-08T05:02:28+08:00" UTC = Some (1786136548 * Second) /\
  ParseInLocation LDate "2026-02-29" UTC = None /\
  ParseInLocation LDate "1970-01-02" UTC = Some (86400 * Second).
Proof. by vm_compute. Qed.

(** ** What Format writes, Parse reads *)

Lemma digit_val_char d : 0 <= d < 10 -> digit_val (digit_char d) = Some d.
Proof.
  intros Hd. assert (d = 0 \/ d = 1 \/ d = 2 \/ d = 3 \/ d = 4 \/ d = 5 \/ d = 6 \/ d = 7 \/ d = 8 \/ d = 9)
    as Hc by lia. by repeat (destruct Hc as [->|Hc]); [..|subst d].
Qed.

Lemma take_digits_add n m acc s :
  take_digits (n + m) acc s = ('(z, s') ← take_digits n acc s; take_digits m z s').
Proof.
  revert acc s. induction n as [|n IH]; intros acc s; [done|]. cbn [Nat.add take_digits].
  destruct s as [|c s]; [done|]. destruct (digit_val c) as [d|]; [|done]. cbn. apply IH.
Qed.

Lemma take_padded n z acc s : 0 <= z < 10 ^ Z.of_nat n ->
  take_digits n acc (Sql.padded n z +:+ s) = Some (acc * 10 ^ Z.of_nat n + z, s).
Proof.
  revert z acc s. induction n as [|n IH]; intros z acc s Hz.
  { cbn in *. do 2 f_equal. lia. }
  rewrite Nat2Z.inj_succ, Z.pow_succ_r in Hz by lia.
  cbn [Sql.padded]. rewrite append_assoc. replace (S n) with (n + 1)%nat by lia. rewrite take_digits_add.
  pose proof (Z.div_mod z 10 ltac:(lia)). pose proof (Z.mod_pos_bound z 10 ltac:(lia)).
  rewrite IH by lia.
  change (take_digits 1 (acc * 10 ^ Z.of_nat n + z / 10) (String (digit_char (z mod 10)) s) =
    Some (acc * 10 ^ Z.of_nat (n + 1) + z, s)).
  cbn [take_digits]. rewrite digit_val_char by done. cbn [mbind option_bind].
  replace (Z.of_nat (n + 1)) with (Z.succ (Z.of_nat n)) by lia. rewrite Z.pow_succ_r by lia.
  do 2 f_equal. lia.
Qed.

Definition digits (s : string) : Prop := all_chars is_digit s = true.

Lemma digits_app s t : digits (s +:+ t) <-> digits s /\ digits t.
Proof.
  unfold digits. induction s as [|c s IH]; cbn; [tauto|].
  change (is_digit c && all_chars is_digit (s +:+ t) = true <->
    is_digit c && all_chars is_digit s = true /\ all_chars is_digit t = true).
  rewrite !andb_true_iff, IH. tauto.
Qed.

Lemma is_digit_char d : 0 <= d < 10 -> is_digit (digit_char d) = true.
Proof.
  intros Hd. pose proof (digit_val_char d Hd) as E. unfold digit_val in E. by destruct (is_digit _).
Qed.

Lemma digits_padded n z : digits (Sql.padded n z).
Proof.
  revert z. induction n as [|n IH]; intros z; [done|]. cbn [Sql.padded]. apply digits_app. split; [apply IH|].
  unfold digits. cbn. rewrite is_digit_char; [done|]. apply Z.mod_pos_bound. lia.
Qed.

Lemma length_padded n z : String.length (Sql.padded n z) = n.
Proof.
  revert z. induction n as [|n IH]; intros z; [done|]. cbn [Sql.padded]. rewrite append_length, IH. cbn. lia.
Qed.

Lemma digits_val_take s acc : digits s ->
  digits_val s acc = fst <$> take_digits (String.length s) acc s.
Proof.
  unfold digits. revert acc. induction s as [|c s IH]; intros acc; [done|].
  cbn [all_chars String.length take_digits digits_val]. unfold digit_val. intros H.
  apply andb_prop in H as [-> H]. cbn. by apply IH.
Qed.

(** The zeros that are trimmed are the factor that is put back. *)
Lemma trim_zeros_val s : digits s -> forall acc,
  let t := Sql.trim_zeros s in
  digits t /\ (String.length t <= String.length s)%nat /\
  (v ← digits_val t acc; Some (v * 10 ^ (Z.of_nat (String.length s) - Z.of_nat (String.length t)))) =
  digits_val s acc.
Proof.
  unfold digits. induction s as [|c s IH]; intros Hd acc; cbn zeta.
  { cbn. split_and!; [done|lia|]. f_equal. lia. }
  cbn [all_chars] in Hd. apply andb_prop in Hd as [Hc Hd].
  cbn [Sql.trim_zeros digits_val String.length]. rewrite Hc.
  set (acc' := acc * 10 + (Z.of_nat (Ascii.nat_of_ascii c) - 48)).
  destruct (IH Hd acc') as (Ht & Hl & Hv). clear IH.
  destruct (Sql.trim_zeros s) as [|c' t'] eqn:Et.
  - destruct (Ascii.eqb_spec c "0") as [->|].
    + cbn [digits_val String.length all_chars mbind option_bind] in *. split_and!; [done|lia|].
      rewrite <- Hv. unfold acc'. change (Z.of_nat (Ascii.nat_of_ascii "0") - 48) with 0. f_equal.
      replace (Z.of_nat (S (String.length s)) - Z.of_nat 0)
        with (Z.succ (Z.of_nat (String.length s) - Z.of_nat 0)) by lia.
      rewrite Z.pow_succ_r by lia. lia.
    + cbn [digits_val String.length all_chars mbind option_bind] in *. rewrite Hc. split_and!; [done|lia|].
      fold acc'. cbn [mbind option_bind]. rewrite <- Hv. do 3 f_equal. lia.
  - cbn [digits_val String.length all_chars] in *. rewrite Hc. split_and!; [done|lia|].
    fold acc'. rewrite <- Hv. cbn [mbind option_bind]. destruct (if is_digit c' then _ else _); [|done].
    cbn. do 3 f_equal. lia.
Qed.

Lemma all_digits_app s rest : digits s -> all_digits rest = (EmptyString, rest) ->
  all_digits (s +:+ rest) = (s, rest).
Proof.
  intros Hd Hr. revert Hd. unfold digits. induction s as [|c s IH]; [done|].
  cbn [all_chars]. intros H. apply andb_prop in H as [Hc Hd].
  change (all_digits (String c s +:+ rest)) with (all_digits (String c (s +:+ rest))).
  cbn [all_digits]. by rewrite Hc, IH.
Qed.

Lemma substring_short n s : (String.length s <= n)%nat -> String.substring 0 n s = s.
Proof.
  revert n. induction s as [|c s IH]; intros [|n] Hn; [done..|cbn in Hn; lia|].
  cbn in Hn |- *. by rewrite IH by lia.
Qed.

Lemma append_empty_r s : s +:+ "" = s.
Proof. induction s as [|c s IH]; [done|]. exact (f_equal (String c) IH). Qed.

(** The fraction as RFC3339Nano writes it. *)
Lemma parse_frac_nano ns rest : 0 <= ns < Second ->
  all_digits rest = (EmptyString, rest) -> parse_frac rest = (0, rest) ->
  let frac := Sql.trim_zeros (Sql.padded 9 ns) in
  parse_frac ((if String.eqb frac "" then "" else "." +:+ frac) +:+ rest) = (ns, rest).
Proof.
  intros Hns Hr Hp0 frac. pose proof (digits_padded 9 ns) as Hp.
  destruct (trim_zeros_val _ Hp 0) as (Hd & Hl & Hv). fold frac in Hd, Hl, Hv.
  rewrite (digits_val_take (Sql.padded 9 ns)), length_padded in Hv by done.
  pose proof (take_padded 9 ns 0 "" Hns) as Ht.
  assert (Sql.padded 9 ns +:+ "" = Sql.padded 9 ns) as En by apply append_empty_r.
  rewrite En, Z.mul_0_l, Z.add_0_l in Ht. rewrite Ht in Hv. cbn [fmap option_fmap option_map fst] in Hv. clear Ht En.
  destruct frac as [|c f]; [cbn in Hv; cbn [String.eqb]|].
  - injection Hv as <-. change ("" +:+ rest) with rest. exact Hp0.
  - rewrite length_padded in Hl.
    change ((if String.eqb (String c f) "" then "" else "." +:+ String c f) +:+ rest)
      with (String "." (String c f +:+ rest)).
    change (String c f +:+ rest) with (String c (f +:+ rest)) at 1.
    assert (is_digit c = true) as Hc by (unfold digits in Hd; cbn in Hd; by apply andb_prop in Hd as [? ?]).
    unfold parse_frac. change (Ascii.eqb "." ".") with true. rewrite Hc. cbn [orb andb].
    change (String c (f +:+ rest)) with (String c f +:+ rest). rewrite all_digits_app by done.
    rewrite substring_short by done.
    destruct (digits_val (String c f) 0) as [v|]; [|done]. cbn [mbind option_bind default from_option id] in *.
    injection Hv as Hv. f_equal. exact Hv.
Qed.

(** The years that Format writes with four digits. *)
Definition four_digit_year (t : Z) : Prop :=
  - 62167219200 * Second <= t < 253402300800 * Second.

Lemma civil_year t : four_digit_year t ->
  let '(y, m, d) := Sql.civil (t / (86400 * Second)) in 0 <= y < 10000.
Proof.
  intros Ht. unfold four_digit_year in Ht. set (z := t / (86400 * Second)).
  assert (- 719528 <= z < 2932897) as Hz.
  { unfold z. split; [apply Z.div_le_lower_bound|apply Z.div_lt_upper_bound]; unfold Second in *; lia. }
  rewrite civil_eq. cbv zeta.
  pose proof (Z.div_mod (z + 719468) 146097 ltac:(lia)) as Hm.
  pose proof (Z.mod_pos_bound (z + 719468) 146097 ltac:(lia)) as Hb.
  set (era := (z + 719468) / 146097) in *. set (doe := (z + 719468) mod 146097) in *.
  destruct (yoe_spec doe ltac:(lia)) as (Hy & Hd & _).
  set (yoe := yoe_of doe) in *. set (doy := doe - start yoe) in *.
  assert ((month_of doy <=? 2) = (306 <=? doy)) as ->.
  { unfold month_of, mp_of. pose proof (Z.div_mod (5 * doy + 2) 153 ltac:(lia)).
    pose proof (Z.mod_pos_bound (5 * doy + 2) 153 ltac:(lia)). case_match; bool_to_prop; lia. }
  assert (start yoe = 365 * yoe + yoe / 4 - yoe / 100) as Es by done.
  pose proof (Z.div_mod yoe 4 ltac:(lia)). pose proof (Z.mod_pos_bound yoe 4 ltac:(lia)).
  pose proof (Z.div_mod yoe 100 ltac:(lia)). pose proof (Z.mod_pos_bound yoe 100 ltac:(lia)).
  assert (-1 <= era <= 24) by lia.
  destruct (306 <=? doy) eqn:E; bool_to_prop; lia.
Qed.

Lemma take_padded0 n z s : 0 <= z < 10 ^ Z.of_nat n ->
  take_digits n 0 (Sql.padded n z +:+ s) = Some (z, s).
Proof. intros Hz. rewrite take_padded by done. by rewrite Z.mul_0_l. Qed.

Lemma getnum_padded fixed z s : 0 <= z < 100 -> getnum fixed (Sql.padded 2 z +:+ s) = Some (z, s).
Proof. intros Hz. unfold getnum. by rewrite take_padded0. Qed.

Lemma within_ok lo hi z s : lo <= z <= hi -> within lo hi (Some (z, s)) = Some (z, s).
Proof.
  intros Hz. unfold within. by replace ((lo <=? z) && (z <=? hi)) with true
    by (symmetry; apply andb_true_iff; rewrite !Z.leb_le; lia).
Qed.

Lemma skip_sep c s : Ascii.eqb c " " = false -> skip c (String c s) = Some s.
Proof. intros Hc. unfold skip. by rewrite Hc, Ascii.eqb_refl. Qed.

Lemma parse_date_padded y m d s : 0 <= y < 10000 -> valid_date y m d = true ->
  parse_date (Sql.padded 4 y +:+ ("-" +:+ (Sql.padded 2 m +:+ ("-" +:+ (Sql.padded 2 d +:+ s))))) =
  Some (y, m, d, s).
Proof.
  intros Hy Hv. unfold parse_date. rewrite take_padded0 by done. cbn [mbind option_bind].
  assert (d <= 31) by (unfold valid_date, daysIn in Hv; bool_to_prop; repeat case_match; lia).
  unfold valid_date in Hv. bool_to_prop.
  change ("-" +:+ ?x) with (String "-" x). 
  rewrite skip_sep by done. cbn [mbind option_bind].
  rewrite getnum_padded, within_ok by lia. cbn [mbind option_bind].
  change ("-" +:+ ?x) with (String "-" x). rewrite skip_sep by done. cbn [mbind option_bind].
  by rewrite getnum_padded by lia.
Qed.

Lemma parse_clock_padded hh mi ss ns s : 0 <= hh < 24 -> 0 <= mi < 60 -> 0 <= ss < 60 -> 
  forall f, parse_frac f = (ns, s) ->
  parse_clock (Sql.padded 2 hh +:+ (":" +:+ (Sql.padded 2 mi +:+ (":" +:+ (Sql.padded 2 ss +:+ f))))) =
  Some (hh, mi, ss, ns, s).
Proof.
  intros Hh Hm Hs f Hf. unfold parse_clock.
  rewrite getnum_padded, within_ok by lia. cbn [mbind option_bind].
  change (":" +:+ ?x) with (String ":" x). rewrite skip_sep by done. cbn [mbind option_bind].
  rewrite getnum_padded, within_ok by lia. cbn [mbind option_bind].
  change (":" +:+ ?x) with (String ":" x). rewrite skip_sep by done. cbn [mbind option_bind].
  rewrite getnum_padded, within_ok by lia. cbn [mbind option_bind]. by rewrite Hf.
Qed.

(** An instant with a four-digit year survives RFC3339Nano, and the text is
    read by no layout without a zone. *)
Lemma parse_rfc3339nano t Local : four_digit_year t ->
  ParseInLocation LRFC3339 (Sql.rfc3339nano t) Local = Some t /\
  ParseInLocation (LDateTime " ") (Sql.rfc3339nano t) Local = None /\
  ParseInLocation (LDateTime "T") (Sql.rfc3339nano t) Local = None.
Proof.
  intros Ht. pose proof (civil_year t Ht) as Hy. pose proof (civil_valid (t / (86400 * Second))) as Hv.
  unfold Sql.rfc3339nano. destruct (Sql.civil _) as [[y mo] d] eqn:Ec. destruct Hv as [Hv Hdays].
  set (s := (t / Second) mod 86400). set (frac := Sql.trim_zeros (Sql.padded 9 (t mod Second))).
  pose proof (Z.mod_pos_bound (t / Second) 86400 ltac:(lia)) as Hs. fold s in Hs.
  pose proof (Z.mod_pos_bound t Second ltac:(unfold Second; lia)) as Hn.
  assert (0 <= s / 3600 < 24) by (split; [apply Z.div_pos; lia|apply Z.div_lt_upper_bound; lia]).
  pose proof (Z.mod_pos_bound (s / 60) 60 ltac:(lia)). pose proof (Z.mod_pos_bound s 60 ltac:(lia)).
  pose proof (parse_frac_nano (t mod Second) "Z" Hn eq_refl eq_refl) as Hf. fold frac in Hf. cbv zeta in Hf.
  unfold ParseInLocation. rewrite parse_date_padded by done. cbn [mbind option_bind].
  change ("T" +:+ ?x) with (String "T" x). rewrite !skip_sep by done. cbn [mbind option_bind].
  rewrite (parse_clock_padded _ _ _ (t mod Second) "Z") by (done || exact Hf).
  cbn [mbind option_bind String.eqb andb skip Ascii.eqb Bool.eqb]. split_and!; [|done|done].
  rewrite Hv. cbn [parse_zone Ascii.eqb Bool.eqb mbind option_bind String.eqb andb default from_option].
  f_equal. unfold Date_unix, UTC. rewrite Z.eqb_refl, Hdays.
  assert (t / (86400 * Second) = t / Second / 86400) as -> by (rewrite Z.div_div by (unfold Second; lia); f_equal).
  pose proof (Z.div_mod t Second ltac:(unfold Second; lia)).
  pose proof (Z.div_mod (t / Second) 86400 ltac:(lia)) as E1. fold s in E1.
  pose proof (Z.div_mod s 3600 ltac:(lia)). pose proof (Z.div_mod s 60 ltac:(lia)).
  pose proof (Z.div_mod (s / 60) 60 ltac:(lia)).
  assert (s / 60 / 60 = s / 3600) by (by rewrite Z.div_div by lia). lia.
Qed.

Lemma rfc3339nano_nonempty t : Sql.rfc3339nano t <> "".
Proof.
  unfold Sql.rfc3339nano. destruct (Sql.civil _) as [[y m] d]. intros E.
  apply (f_equal String.length) in E. rewrite append_length, length_padded in E. discriminate.
Qed.

(** [t.AddDate(0, 0, n)] shown in a location: the wall clock is kept. *)
Definition AddDays (Local : Z -> Z) (t n : Z) : Z :=
  let s := t / Second in
  let ls := s + Local s in
  let '(y, m, d) := Sql.civil (ls / 86400) in
  let sod := ls mod 86400 in
  Date_unix Local y m (d + n) (sod / 3600) (sod / 60 mod 60) (sod mod 60) * Second + t mod Second.

Example AddDays_ex : format_20060102 UTC (AddDays UTC (1772236800 * Second) 1) = "20260301".
Proof. by vm_compute. Qed.
