(* ===== verification/Env.v ===== *)
(** * Effectful programs and the services they call

    Code that talks to Redis, reads the clock or draws random bytes is a
    program tree [prog]: it asks for an effect [ev], receives the answer, and
    goes on.  The services are not part of the repository; they are a
    parameter, [World], that answers the effects, with [Laws] stating what the
    code relies on: a Redis that is up behaves as the documented commands do
    ([redis_step]) on the stored keys; one that fails returns an error and has
    either done the command or not; the clock does not run backwards;
    crypto/rand returns as many bytes as asked for.  [run] executes one
    program alone, [sched] interleaves several.  [MiniWorld], a small
    in-memory world with a scripted outage, satisfies the laws and is what the
    witnesses compute with. *)

From S2P Require Import Prelude GoStr Degrade Semaphore Hub Sql.

(** ** Redis *)
Inductive value : Type :=
| VStr (s : string)
| VZset (z : gmap string Z)          (* member -> score *)
| VSet (s : gset string)
| VList (l : list string).

(** A value and the instant (ns) it expires at. *)
Record entry : Type := Entry { val : value; deadline : option Z }.
Abbreviation kv := (gmap string entry).

(** The commands of the go-zero client the source uses. *)
Inductive cmd : Type -> Type :=
| RGet (k : string) : cmd string
| RSet (k v : string) : cmd unit
| RSetex (k v : string) (sec : Z) : cmd unit
| RSetnx (k v : string) : cmd bool
| RSetnxEx (k v : string) (sec : Z) : cmd bool
| RIncr (k : string) : cmd Z
| RDecr (k : string) : cmd Z
| RExpire (k : string) (sec : Z) : cmd unit
| RDel (ks : list string) : cmd Z
| RKeys (pattern : string) : cmd (list string)
| RZremrangebyscore (k : string) (lo hi : Z) : cmd Z
| RZcard (k : string) : cmd Z
| RZadd (k : string) (score : Z) (member : string) : cmd bool
| RSismember (k m : string) : cmd bool
| RLpush (k v : string) : cmd Z
| RLtrim (k : string) (lo hi : Z) : cmd unit
| RLrange (k : string) (lo hi : Z) : cmd (list string).

Definition live (now : Z) (e : entry) : bool :=
  match deadline e with None => true | Some t => now <? t end.
(** The entry of a key that has not expired. *)
Definition find (now : Z) (m : kv) (k : string) : option entry :=
  e ← m !! k; if live now e then Some e else None.
Definition after (now sec : Z) : option Z := Some (now + sec * Second).

Definition wrongtype {A} : res A :=
  Err (ErrMsg "WRONGTYPE Operation against a key holding the wrong kind of value").
Definition bad_expire {A} : res A := Err (ErrMsg "ERR invalid expire time").
Definition not_integer {A} : res A := Err (ErrMsg "ERR value is not an integer or out of range").

Definition incr_by (d now : Z) (m : kv) (k : string) : res Z * kv :=
  match find now m k with
  | None => (Ok d, <[k := Entry (VStr (FormatInt d)) None]> m)
  | Some (Entry (VStr s) t) =>
    match ParseInt s with
    | Some n =>
      if bool_decide (FormatInt n = s) && int64_ok (n + d)
      then (Ok (n + d), <[k := Entry (VStr (FormatInt (n + d))) t]> m)
      else (not_integer, m)
    | None => (not_integer, m)
    end
  | Some _ => (wrongtype, m)
  end.

(** The elements between two indices, negative ones counted from the end. *)
Definition list_range (l : list string) (lo hi : Z) : list string :=
  let n := Z.of_nat (length l) in
  let lo := Z.max 0 (if lo <? 0 then lo + n else lo) in
  let hi := Z.min (n - 1) (if hi <? 0 then hi + n else hi) in
  take (Z.to_nat (hi - lo + 1)) (drop (Z.to_nat lo) l).

Definition del_one (now : Z) (acc : Z * kv) (k : string) : Z * kv :=
  ((match find now acc.2 k with Some _ => acc.1 + 1 | None => acc.1 end), delete k acc.2).

Section redis.
(** Scores are IEEE doubles; [glob] is Redis's pattern matcher. *)
Context (dbl : Z -> Z) (glob : string -> string -> bool).

(** One command on the stored keys, at the server's time [now]. *)
Definition redis_step (now : Z) {A} (c : cmd A) (m : kv) : res A * kv :=
  match c in cmd A return res A * kv with
  | RGet k =>
    match find now m k with
    | None => (Ok "", m)                          (* go-zero hides redis.Nil *)
    | Some (Entry (VStr s) _) => (Ok s, m)
    | Some _ => (wrongtype, m)
    end
  | RSet k v => (Ok tt, <[k := Entry (VStr v) None]> m)
  | RSetex k v sec =>
    if sec <=? 0 then (bad_expire, m)
    else (Ok tt, <[k := Entry (VStr v) (after now sec)]> m)
  | RSetnx k v =>
    match find now m k with
    | Some _ => (Ok false, m)
    | None => (Ok true, <[k := Entry (VStr v) None]> m)
    end
  | RSetnxEx k v sec =>
    if sec <=? 0 then (bad_expire, m)
    else match find now m k with
         | Some _ => (Ok false, m)
         | None => (Ok true, <[k := Entry (VStr v) (after now sec)]> m)
         end
  | RIncr k => incr_by 1 now m k
  | RDecr k => incr_by (-1) now m k
  | RExpire k sec =>
    match find now m k with
    | None => (Ok tt, m)
    | Some e =>
      (Ok tt, if sec <=? 0 then delete k m else <[k := Entry (val e) (after now sec)]> m)
    end
  | RDel ks => let '(n, m') := foldl (del_one now) (0, m) ks in (Ok n, m')
  | RKeys pattern =>
    (Ok (filter (fun k => glob pattern k = true /\ find now m k <> None) (map fst (map_to_list m))), m)
  | RZremrangebyscore k lo hi =>
    match find now m k with
    | None => (Ok 0, m)
    | Some (Entry (VZset z) t) =>
      let z' := filter (fun p => ~ (dbl lo <= p.2 <= dbl hi)) z in
      (Ok (Z.of_nat (size z) - Z.of_nat (size z')),
       if decide (z' = ∅) then delete k m else <[k := Entry (VZset z') t]> m)
    | Some _ => (wrongtype, m)
    end
  | RZcard k =>
    match find now m k with
    | None => (Ok 0, m)
    | Some (Entry (VZset z) _) => (Ok (Z.of_nat (size z)), m)
    | Some _ => (wrongtype, m)
    end
  | RZadd k score member =>
    match find now m k with
    | None => (Ok true, <[k := Entry (VZset {[member := dbl score]}) None]> m)
    | Some (Entry (VZset z) t) =>
      (Ok (bool_decide (z !! member = None)), <[k := Entry (VZset (<[member := dbl score]> z)) t]> m)
    | Some _ => (wrongtype, m)
    end
  | RSismember k x =>
    match find now m k with
    | None => (Ok false, m)
    | Some (Entry (VSet s) _) => (Ok (bool_decide (x ∈ s)), m)
    | Some _ => (wrongtype, m)
    end
  | RLpush k v =>
    match find now m k with
    | None => (Ok 1, <[k := Entry (VList [v]) None]> m)
    | Some (Entry (VList l) t) =>
      (Ok (Z.of_nat (length l) + 1), <[k := Entry (VList (v :: l)) t]> m)
    | Some _ => (wrongtype, m)
    end
  | RLtrim k lo hi =>
    match find now m k with
    | None => (Ok tt, m)
    | Some (Entry (VList l) t) =>
      let l' := list_range l lo hi in
      (Ok tt, if decide (l' = []) then delete k m else <[k := Entry (VList l') t]> m)
    | Some _ => (wrongtype, m)
    end
  | RLrange k lo hi =>
    match find now m k with
    | None => (Ok [], m)
    | Some (Entry (VList l) _) => (Ok (list_range l lo hi), m)
    | Some _ => (wrongtype, m)
    end
  end.
End redis.

(** KEYS answers in no particular order. *)
Definition same_answer {A} (c : cmd A) : res A -> res A -> Prop :=
  match c in cmd A return res A -> res A -> Prop with
  | RKeys _ => fun r r' =>
    match r, r' with Ok l, Ok l' => l ≡ₚ l' | _, _ => r = r' end
  | _ => eq
  end.

(** ** Effects and programs *)

(** The in-process cache (freecache). *)
Inductive l1cmd : Type -> Type :=
| LGet (k : string) : l1cmd (res string)
| LSet (k v : string) (sec : Z) : l1cmd (res unit)
| LDel (k : string) : l1cmd bool
| LClear : l1cmd unit.

(** What a circuit breaker decides before a request runs. *)
Inductive verdict : Type := BAccept | BReject | BCtxDone (e : error).

(** The process's int64 counters. *)
Inductive counter : Type :=
| CHit (family : string) | CMiss (family : string)          (* cache.Stats *)
| FbHit (source : string) | FbMiss (source : string) | FbErr (source : string)
(* how often the family's Prometheus counters and histogram were updated *)
| PmHit (family : string) | PmMiss (family : string) | PmError (family : string) | PmLatency (family : string).
#[global] Instance counter_eq_dec : EqDecision counter.
Proof. solve_decision. Defined.

Inductive ev : Type -> Type :=
| Redis {A} (c : cmd A) : ev (res A)
| Now : ev Z                                        (* time.Now().UnixNano() *)
| RandRead (n : nat) : ev (res bytes)               (* crypto/rand.Read *)
| HttpGet (url : string) : ev (res (Z * res bytes))   (* status, body read *)
| L1 {A} (c : l1cmd A) : ev A
| BreakerAsk (name : string) : ev verdict
| BreakerMark (name : string) (ok : bool) : ev unit
| AtomicAdd (c : counter) : ev unit
| AtomicLoad (c : counter) : ev Z
| Dgr {A} (m : St Degrade.Manager A) : ev A           (* a call on the degrade manager *)
| SqlQuery (q : string) (args : list Sql.sqlval) : ev (res Sql.answer)
| SqlExec (q : string) (args : list Sql.sqlval) : ev (res unit)
| HubOp {A} (o : Chat.hubop A) : ev A                 (* the chat hub's shared state *)
| SemAcquire : ev (option error)                      (* DBSem.Acquire(ctx), once it returns *)
| SemRelease : ev unit
| Pick (n : nat) : ev nat                             (* a choice the language leaves open *)
(* singleflight's Do in one of the process's groups: [None] when this call leads
   and runs its function, [Some r] when it waited for one that led, whose
   function returned [r] *)
| FlightAsk {V} (group key : string) : ev (option (res V)).

Definition is_redis {X} (e : ev X) : bool := match e with Redis _ => true | _ => false end.

Definition is_l1 {X} (e : ev X) : bool := match e with L1 _ => true | _ => false end.

Inductive prog (A : Type) : Type :=
| Ret (a : A)
| Vis {X} (e : ev X) (k : X -> prog A)
| Fork (p : prog unit) (k : prog A).                (* go func() { p }() *)
Arguments Ret {A} a.
Arguments Vis {A X} e k.
Arguments Fork {A} p k.

Fixpoint prog_bind {A B : Type} (k : A -> prog B) (p : prog A) : prog B :=
  match p with
  | Ret a => k a
  | Vis e f => Vis e (fun x => prog_bind k (f x))
  | Fork p q => Fork p (prog_bind k q)
  end.
#[global] Instance prog_mret : MRet prog := @Ret.
#[global] Instance prog_mbind : MBind prog := @prog_bind.

Definition redis {A} (c : cmd A) : prog (res A) := Vis (Redis c) Ret.
Definition now : prog Z := Vis Now Ret.
Definition rand_read (n : nat) : prog (res bytes) := Vis (RandRead n) Ret.
Definition l1 {A} (c : l1cmd A) : prog A := Vis (L1 c) Ret.
Definition atomic_add (c : counter) : prog unit := Vis (AtomicAdd c) Ret.
Definition atomic_load (c : counter) : prog Z := Vis (AtomicLoad c) Ret.
Definition dgr {A} (m : St Degrade.Manager A) : prog A := Vis (Dgr m) Ret.
Definition http_get (url : string) : prog (res (Z * res bytes)) := Vis (HttpGet url) Ret.
Definition sql_query (q : string) (args : list Sql.sqlval) : prog (res Sql.answer) :=
  Vis (SqlQuery q args) Ret.
Definition sql_exec (q : string) (args : list Sql.sqlval) : prog (res unit) := Vis (SqlExec q args) Ret.
Definition hub {A} (o : Chat.hubop A) : prog A := Vis (HubOp o) Ret.
Definition pick (n : nat) : prog nat := Vis (Pick n) Ret.
Definition go (p : prog unit) : prog unit := Fork p (Ret tt).

(** ** The world that answers *)
Class World (W : Type) : Type := handle : forall {X}, ev X -> W -> X * W.

(** A program run alone; a goroutine it starts runs at once. *)
Fixpoint run {W : Type} `{World W} {A : Type} (p : prog A) (w : W) : A * W :=
  match p with
  | Ret a => (a, w)
  | Vis e k => let '(x, w') := handle e w in run (k x) w'
  | Fork p q => let '(_, w') := run p w in run q w'
  end.

(** A program run alone, the goroutines it starts left behind. *)
Fixpoint detach {W : Type} `{World W} {A : Type} (p : prog A) (w : W) : A * W * list (prog unit) :=
  match p with
  | Ret a => (a, w, [])
  | Vis e k => let '(x, w') := handle e w in detach (k x) w'
  | Fork p q => let '(a, w', gs) := detach q w in (a, w', p :: gs)
  end.

Lemma detach_bind_inv `{World W} {A B} (p : prog A) (k : A -> prog B) w b w' gs :
  detach (p ≫= k) w = (b, w', gs) -> exists a w1 g1 g2,
    detach p w = (a, w1, g1) /\ detach (k a) w1 = (b, w', g2) /\ gs = g1 ++ g2.
Proof.
  unfold mbind, prog_mbind. revert k w gs.
  induction p as [A a|A X e f IH|A p _ q IH]; intros k w gs; cbn [prog_bind detach].
  - intros Hd. by exists a, w, [], gs.
  - destruct (handle e w) as [x w1]. apply IH.
  - destruct (detach (prog_bind k q) w) as [[b' w1] g] eqn:E. intros [= <- <- <-].
    apply IH in E as (a & w2 & g1 & g2 & -> & E2 & ->). by exists a, w2, (p :: g1), g2.
Qed.

(** One effect leaves nothing behind. *)
Lemma detach_vis_inv `{World W} {X} (e : ev X) w x w' gs :
  detach (Vis e Ret) w = (x, w', gs) -> run (Vis e Ret) w = (x, w') /\ gs = [].
Proof. cbn [detach run]. destruct (handle e w). by intros [= <- <- <-]. Qed.

Lemma run_ret {W} `{World W} {A} (a : A) w : run (mret a) w = (a, w).
Proof. reflexivity. Qed.

Lemma run_bind `{World W} {A B} (p : prog A) (k : A -> prog B) w :
  run (p ≫= k) w = run (k (run p w).1) (run p w).2.
Proof.
  unfold mbind, prog_mbind. revert k w.
  induction p as [A a|A X e f IH|A p _ q IH]; intros k w; simpl.
  - done.
  - destruct (handle e w). apply IH.
  - destruct (run p w). apply IH.
Qed.

Lemma run_bind_inv `{World W} {A B} (p : prog A) (k : A -> prog B) w b w' :
  run (p ≫= k) w = (b, w') -> exists a w1, run p w = (a, w1) /\ run (k a) w1 = (b, w').
Proof. rewrite run_bind. destruct (run p w) as [a w1]. eauto. Qed.

(** Interleaving: any thread may perform its next effect, and the world may
    change on its own (time passes, other clients act) as [env] allows. *)
Section sched.
Context `{World W} {A : Type} (env : relation W).

Record pool : Type := Pool { shared : W; threads : list (prog A); forked : list (prog unit) }.

Inductive sched : pool -> pool -> Prop :=
| sched_vis c i {X} (e : ev X) k :
    threads c !! i = Some (Vis e k) ->
    sched c (Pool (handle e (shared c)).2
                  (<[i := k (handle e (shared c)).1]> (threads c)) (forked c))
| sched_fork c i p q :
    threads c !! i = Some (Fork p q) ->
    sched c (Pool (shared c) (<[i := q]> (threads c)) (forked c ++ [p]))
| sched_forked c i {X} (e : ev X) k :
    forked c !! i = Some (Vis e k) ->
    sched c (Pool (handle e (shared c)).2 (threads c)
                  (<[i := k (handle e (shared c)).1]> (forked c)))
| sched_forked_fork c i p q :
    forked c !! i = Some (Fork p q) ->
    sched c (Pool (shared c) (threads c) (<[i := q]> (forked c) ++ [p]))
| sched_env c w' : env (shared c) w' -> sched c (Pool w' (threads c) (forked c)).

(** A schedule, executably: which thread performs its next effect. *)
Definition step_thread (i : nat) (c : pool) : option pool :=
  match threads c !! i with
  | Some (Vis e k) =>
    let '(x, w') := handle e (shared c) in Some (Pool w' (<[i := k x]> (threads c)) (forked c))
  | Some (Fork p q) => Some (Pool (shared c) (<[i := q]> (threads c)) (forked c ++ [p]))
  | _ => None
  end.
Fixpoint run_schedule (turns : list nat) (c : pool) : option pool :=
  match turns with
  | [] => Some c
  | i :: turns => c' ← step_thread i c; run_schedule turns c'
  end.


(** The same with goroutines taking turns: [inr i] is the [i]-th one started. *)
Definition step_forked (i : nat) (c : pool) : option pool :=
  match forked c !! i with
  | Some (Vis e k) =>
    let '(x, w') := handle e (shared c) in Some (Pool w' (threads c) (<[i := k x]> (forked c)))
  | Some (Fork p q) => Some (Pool (shared c) (threads c) (<[i := q]> (forked c) ++ [p]))
  | _ => None
  end.
Fixpoint run_turns (turns : list (nat + nat)) (c : pool) : option pool :=
  match turns with
  | [] => Some c
  | inl i :: turns => c' ← step_thread i c; run_turns turns c'
  | inr i :: turns => c' ← step_forked i c; run_turns turns c'
  end.

Lemma step_thread_sound i c c' : step_thread i c = Some c' -> sched c c'.
Proof.
  unfold step_thread. destruct (threads c !! i) as [[a|X e k|p q]|] eqn:Ei; try done.
  - pose proof (sched_vis c i e k Ei) as Hs. destruct (handle e (shared c)). by intros [= <-].
  - intros [= <-]. by apply sched_fork.
Qed.

Lemma step_forked_sound i c c' : step_forked i c = Some c' -> sched c c'.
Proof.
  unfold step_forked. destruct (forked c !! i) as [[a|X e k|p q]|] eqn:Ei; try done.
  - pose proof (sched_forked c i e k Ei) as Hs. destruct (handle e (shared c)). by intros [= <-].
  - intros [= <-]. by apply sched_forked_fork.
Qed.

Lemma run_schedule_sound turns c c' : run_schedule turns c = Some c' -> rtc sched c c'.
Proof.
  revert c. induction turns as [|i turns IH]; intros c; cbn [run_schedule]; [by intros [= ->]|].
  destruct (step_thread i c) as [c1|] eqn:E; [|done]. cbn. intros Ht.
  eapply rtc_l; [by eapply step_thread_sound|by apply IH].
Qed.

Lemma run_turns_sound turns c c' : run_turns turns c = Some c' -> rtc sched c c'.
Proof.
  revert c. induction turns as [|[i|i] turns IH]; intros c; cbn [run_turns]; [by intros [= ->]|..].
  - destruct (step_thread i c) as [c1|] eqn:E; [|done]. cbn. intros Ht.
    eapply rtc_l; [by eapply step_thread_sound|by apply IH].
  - destruct (step_forked i c) as [c1|] eqn:E; [|done]. cbn. intros Ht.
    eapply rtc_l; [by eapply step_forked_sound|by apply IH].
Qed.
End sched.
Arguments Pool {W A} _ _ _.
Arguments shared {W A} _.
Arguments threads {W A} _.
Arguments forked {W A} _.

(** ** What the code relies on *)
Class Laws (W : Type) `{World W} : Type := {
  keys : W -> kv;                     (* what Redis stores *)
  clock : W -> Z;                     (* ns since the epoch *)
  healthy : W -> Prop;                (* Redis answers, now and later *)
  l1map : W -> gmap string string;    (* what the in-process cache may hold *)
  mode_of : W -> Degrade.Manager;     (* the degrade manager *)
  counts : W -> counter -> Z;         (* the int64 counters *)
  hub_of : W -> Chat.Hub;             (* the chat hub *)
  sql_log : W -> list (string * list Sql.sqlval);   (* statements executed so far *)
  sem_of : W -> option Semaphore.Semaphore;         (* the DB semaphore *)
  dbl : Z -> Z;                       (* float64(int64) *)
  glob : string -> string -> bool;
  dbl_mono : forall a b, a <= b -> dbl a <= dbl b;
  dbl_exact : forall a, Z.abs a <= 2 ^ 53 -> dbl a = a;
  glob_prefix : forall p k,
    forallb (fun c => negb (Ascii.eqb c "*" || Ascii.eqb c "?" || Ascii.eqb c "[" || Ascii.eqb c "\"))
            (String.list_ascii_of_string p) = true ->
    glob (p +:+ "*") k = HasPrefix k p;
  (** Redis that is up does what its commands document. *)
  redis_up : forall {A} (c : cmd A) w, healthy w ->
    let '(r, w') := handle (Redis c) w in
    let '(r0, m) := redis_step dbl glob (clock w') c (keys w) in
    same_answer c r0 r /\ keys w' = m /\ healthy w' /\ clock w <= clock w';
  (** In any state a command answers as documented, or fails having been
      carried out or not. *)
  redis_any : forall {A} (c : cmd A) w,
    let '(r, w') := handle (Redis c) w in
    let '(r0, m) := redis_step dbl glob (clock w') c (keys w) in
    clock w <= clock w' /\
    ((same_answer c r0 r /\ keys w' = m) \/
     ((exists e, r = Err e) /\ (keys w' = keys w \/ keys w' = m)));
  (** Nothing else touches Redis; time goes on. *)
  quiet_law : forall {X} (e : ev X) w, is_redis e = false ->
    keys (handle e w).2 = keys w /\ clock w <= clock (handle e w).2 /\
    (healthy w -> healthy (handle e w).2);
  now_law : forall w, (handle Now w).1 = clock (handle Now w).2;
  rand_law : forall n w b, (handle (RandRead n) w).1 = Ok b -> length b = n;
  (** The in-process cache may drop entries at any time, and returns only what
      was set. *)
  l1_law : forall {A} (c : l1cmd A) w,
    let '(r, w') := handle (L1 c) w in
    match c in l1cmd A return A -> Prop with
    | LGet k => fun r => l1map w' ⊆ l1map w /\ match r with Ok v => l1map w !! k = Some v | Err _ => True end
    | LSet k v _ => fun r => l1map w' ⊆ <[k := v]> (l1map w)
    | LDel k => fun r => l1map w' ⊆ delete k (l1map w)
    | LClear => fun r => l1map w' = ∅
    end r;
  l1_quiet : forall {X} (e : ev X) w, is_l1 e = false -> l1map (handle e w).2 ⊆ l1map w;
  (** The process's own memory. *)
  dgr_law : forall {A} (m : St Degrade.Manager A) w,
    ((handle (Dgr m) w).1, mode_of (handle (Dgr m) w).2) = runSt m (mode_of w);
  count_law : forall c w c',
    counts (handle (AtomicAdd c) w).2 c' = if decide (c = c') then int64 (counts w c' + 1) else counts w c';
  load_law : forall c w, (handle (AtomicLoad c) w).1 = counts w c;
  own_quiet : forall {X} (e : ev X) w,
    match e with Dgr _ => True | _ => mode_of (handle e w).2 = mode_of w end /\
    match e with AtomicAdd _ => True | _ => counts (handle e w).2 = counts w end;
  hub_law : forall {A} (o : Chat.hubop A) w,
    let '(r, w') := handle (HubOp o) w in
    let '(r0, h) := Chat.hub_step o (hub_of w) in
    Chat.hub_answer o r0 r /\ hub_of w' = h;
  exec_law : forall q args w,
    sql_log (handle (SqlExec q args) w).2 = sql_log w ++ [(q, args)];
  chat_quiet : forall {X} (e : ev X) w,
    match e with HubOp _ => True | _ => hub_of (handle e w).2 = hub_of w end /\
    match e with SqlExec _ _ => True | _ => sql_log (handle e w).2 = sql_log w end;
  (** Acquire, once it returns, did what it does for some state of its context. *)
  acquire_law : forall w, exists ctx,
    runSt (Semaphore.Acquire ctx) (sem_of w) =
    (Semaphore.Returned (handle SemAcquire w).1, sem_of (handle SemAcquire w).2);
  release_law : forall w, sem_of (handle SemRelease w).2 = execSt Semaphore.Release (sem_of w);
  sem_quiet : forall {X} (e : ev X) w,
    match e with SemAcquire | SemRelease => True | _ => sem_of (handle e w).2 = sem_of w end;
}.

(** ** A small concrete world *)

(** The stored keys, the time, how long each effect takes, which of the next
    Redis commands fail ([true] = fails, before being carried out), the random
    bytes to come (the source fails when it runs dry), the web, the in-process
    cache, what the breakers will decide (accept when nothing is scripted), the
    degrade manager, the counters, and a [Side] of the chat hub, the database
    (a fixed answer to each query and statement), the statement log and the DB
    semaphore, whose callers' contexts are past their deadline. *)
Record Side : Type := MkSide {
  s_hub : Chat.Hub;
  s_db : string -> list Sql.sqlval -> res Sql.answer;
  s_exec : string -> list Sql.sqlval -> res unit;
  s_log : list (string * list Sql.sqlval);
  s_sem : option Semaphore.Semaphore;
}.
Definition no_db : Side :=
  {| s_hub := Chat.empty_hub; s_db _ _ := Err (ErrMsg "dial tcp: connection refused");
     s_exec _ _ := Err (ErrMsg "dial tcp: connection refused"); s_log := []; s_sem := Semaphore.NewSemaphore "mysql-main" 50 |}.

Record MiniWorld : Type := MkWorld {
  m_keys : kv;
  m_clock : Z;
  m_lapse : Z;
  m_outage : list bool;
  m_rand : bytes;
  m_web : string -> res (Z * res bytes);
  m_l1 : gmap string (string * option Z);
  m_verdicts : list verdict;
  m_dgr : Degrade.Manager;
  m_counts : counter -> Z;
  m_side : Side;
}.

(** A world with an empty in-process cache, closed breakers, normal mode. *)
Definition MkMini keys clock lapse outage rand web : MiniWorld :=
  MkWorld keys clock lapse outage rand web ∅ [] Degrade.New (fun _ => 0) no_db.

Definition set_keys (m : kv) (o : list bool) (w : MiniWorld) : MiniWorld :=
  MkWorld m (m_clock w) (m_lapse w) o (m_rand w) (m_web w) (m_l1 w) (m_verdicts w) (m_dgr w) (m_counts w) (m_side w).
Definition set_clock (t : Z) (w : MiniWorld) : MiniWorld :=
  MkWorld (m_keys w) t (m_lapse w) (m_outage w) (m_rand w) (m_web w) (m_l1 w) (m_verdicts w) (m_dgr w) (m_counts w) (m_side w).
Definition set_rand (b : bytes) (w : MiniWorld) : MiniWorld :=
  MkWorld (m_keys w) (m_clock w) (m_lapse w) (m_outage w) b (m_web w) (m_l1 w) (m_verdicts w) (m_dgr w) (m_counts w) (m_side w).
Definition set_web (f : string -> res (Z * res bytes)) (w : MiniWorld) : MiniWorld :=
  MkWorld (m_keys w) (m_clock w) (m_lapse w) (m_outage w) (m_rand w) f (m_l1 w) (m_verdicts w) (m_dgr w) (m_counts w) (m_side w).
Definition set_l1 (l : gmap string (string * option Z)) (w : MiniWorld) : MiniWorld :=
  MkWorld (m_keys w) (m_clock w) (m_lapse w) (m_outage w) (m_rand w) (m_web w) l (m_verdicts w) (m_dgr w) (m_counts w) (m_side w).
Definition set_verdicts (l : list verdict) (w : MiniWorld) : MiniWorld :=
  MkWorld (m_keys w) (m_clock w) (m_lapse w) (m_outage w) (m_rand w) (m_web w) (m_l1 w) l (m_dgr w) (m_counts w) (m_side w).
Definition set_dgr (d : Degrade.Manager) (w : MiniWorld) : MiniWorld :=
  MkWorld (m_keys w) (m_clock w) (m_lapse w) (m_outage w) (m_rand w) (m_web w) (m_l1 w) (m_verdicts w) d (m_counts w) (m_side w).
Definition set_counts (f : counter -> Z) (w : MiniWorld) : MiniWorld :=
  MkWorld (m_keys w) (m_clock w) (m_lapse w) (m_outage w) (m_rand w) (m_web w) (m_l1 w) (m_verdicts w) (m_dgr w) f (m_side w).
Definition set_side (sd : Side) (w : MiniWorld) : MiniWorld :=
  MkWorld (m_keys w) (m_clock w) (m_lapse w) (m_outage w) (m_rand w) (m_web w) (m_l1 w) (m_verdicts w) (m_dgr w) (m_counts w) sd.
Definition set_hub (h : Chat.Hub) (w : MiniWorld) : MiniWorld :=
  let sd := m_side w in set_side (MkSide h (s_db sd) (s_exec sd) (s_log sd) (s_sem sd)) w.
Definition set_db (db : string -> list Sql.sqlval -> res Sql.answer) (exec : string -> list Sql.sqlval -> res unit)
    (w : MiniWorld) : MiniWorld :=
  let sd := m_side w in set_side (MkSide (s_hub sd) db exec (s_log sd) (s_sem sd)) w.
Definition add_log (q : string) (args : list Sql.sqlval) (w : MiniWorld) : MiniWorld :=
  let sd := m_side w in set_side (MkSide (s_hub sd) (s_db sd) (s_exec sd) (s_log sd ++ [(q, args)]) (s_sem sd)) w.
Definition set_sem (sm : option Semaphore.Semaphore) (w : MiniWorld) : MiniWorld :=
  let sd := m_side w in set_side (MkSide (s_hub sd) (s_db sd) (s_exec sd) (s_log sd) sm) w.
(** The context of a call that will not wait. *)
Definition mini_ctx : Semaphore.Ctx := Semaphore.MkCtx (Some ErrDeadlineExceeded) true.

Definition m_tick (w : MiniWorld) : MiniWorld := set_clock (m_clock w + Z.abs (m_lapse w)) w.

(** Patterns without a final star match themselves only. *)
Definition mini_glob (pattern k : string) : bool :=
  if HasSuffix pattern "*" then HasPrefix k (TrimSuffix pattern "*") else String.eqb pattern k.

Definition mini_l1 {A} (c : l1cmd A) (now : Z) (l : gmap string (string * option Z))
    : A * gmap string (string * option Z) :=
  match c in l1cmd A return A * gmap string (string * option Z) with
  | LGet k =>
    match l !! k with
    | Some (v, None) => (Ok v, l)
    | Some (v, Some d) => if now <? d then (Ok v, l) else (Err (ErrMsg "Entry not found"), delete k l)
    | None => (Err (ErrMsg "Entry not found"), l)
    end
  | LSet k v sec => (Ok tt, <[k := (v, if sec <=? 0 then None else Some (now + sec * Second))]> l)
  | LDel k => (match l !! k with Some _ => true | None => false end, delete k l)
  | LClear => (tt, ∅)
  end.

Definition mini_handle {X} (e : ev X) (w0 : MiniWorld) : X * MiniWorld :=
  let w := m_tick w0 in
  match e in ev X return X * MiniWorld with
  | Redis c =>
    match m_outage w with
    | true :: o => (Err (ErrMsg "dial tcp: connection refused"), set_keys (m_keys w) o w)
    | _ =>
      let '(r, m) := redis_step id mini_glob (m_clock w) c (m_keys w) in
      (r, set_keys m (tail (m_outage w)) w)
    end
  | Now => (m_clock w, w)
  | RandRead n =>
    if (length (m_rand w) <? n)%nat then (Err (ErrMsg "entropy source failed"), w)
    else (Ok (take n (m_rand w)), set_rand (drop n (m_rand w)) w)
  | HttpGet u => (m_web w u, w)
  | L1 c => let '(r, l) := mini_l1 c (m_clock w) (m_l1 w) in (r, set_l1 l w)
  | BreakerAsk _ =>
    match m_verdicts w with
    | [] => (BAccept, w)
    | v :: vs => (v, set_verdicts vs w)
    end
  | BreakerMark _ _ => (tt, w)
  | AtomicAdd c =>
    (tt, set_counts (fun c' => if decide (c = c') then int64 (m_counts w c' + 1) else m_counts w c') w)
  | AtomicLoad c => (m_counts w c, w)
  | Dgr m => let '(a, d) := runSt m (m_dgr w) in (a, set_dgr d w)
  | SqlQuery q args => (s_db (m_side w) q args, w)
  | SqlExec q args => (s_exec (m_side w) q args, add_log q args w)
  | HubOp o => let '(a, h) := Chat.hub_step o (s_hub (m_side w)) in (a, set_hub h w)
  | SemAcquire =>
    let '(a, sm) := runSt (Semaphore.Acquire mini_ctx) (s_sem (m_side w)) in
    (match a with Semaphore.Returned e => e | Semaphore.Blocked => None end, set_sem sm w)
  | SemRelease => (tt, set_sem (execSt Semaphore.Release (s_sem (m_side w))) w)
  | Pick _ => (O, w)
  | FlightAsk _ _ => (None, w)
  end.
#[global] Instance mini_world : World MiniWorld := @mini_handle.

Lemma same_answer_refl {A} (c : cmd A) r : same_answer c r r.
Proof. destruct c; simpl; try done. by destruct r. Qed.

Lemma prefix_app p s : String.prefix p (p +:+ s) = true.
Proof.
  induction p as [|c p IH]; [by destruct s|].
  change (String.prefix (String c p) (String c (p +:+ s)) = true). cbn [String.prefix].
  by destruct (Ascii.ascii_dec c c).
Qed.

Lemma substring_all s : String.substring 0 (String.length s) s = s.
Proof. induction s as [|c s IH]; [done|]. simpl. by rewrite IH. Qed.

Lemma substring_prefix p s : String.substring 0 (String.length p) (p +:+ s) = p.
Proof.
  induction p as [|c p IH]; [by destruct s|]. exact (f_equal (String c) IH).
Qed.

Lemma substring_skip p s : String.substring (String.length p) (String.length s) (p +:+ s) = s.
Proof. induction p as [|c p IH]; [apply substring_all|exact IH]. Qed.

Lemma HasSuffix_app p s : HasSuffix (p +:+ s) s = true.
Proof.
  unfold HasSuffix. rewrite append_length.
  replace (String.length p + String.length s - String.length s)%nat with (String.length p) by lia.
  rewrite substring_skip, String.eqb_refl, andb_true_r. apply Nat.leb_le. lia.
Qed.

Lemma TrimSuffix_app p s : TrimSuffix (p +:+ s) s = p.
Proof.
  unfold TrimSuffix. rewrite HasSuffix_app, append_length.
  replace (String.length p + String.length s - String.length s)%nat with (String.length p) by lia.
  apply substring_prefix.
Qed.

#[global] Program Instance mini_laws : Laws MiniWorld := {|
  keys := m_keys; clock := m_clock; healthy w := Forall (eq false) (m_outage w);
  l1map w := fst <$> m_l1 w; mode_of := m_dgr; counts := m_counts;
  hub_of w := s_hub (m_side w); sql_log w := s_log (m_side w); sem_of w := s_sem (m_side w);
  dbl := id; glob := mini_glob |}.
Next Obligation. done. Qed.
Next Obligation. done. Qed.
Next Obligation.
  intros p k _. unfold mini_glob. by rewrite HasSuffix_app, TrimSuffix_app.
Qed.
Next Obligation.
  intros A c w Hh. cbv beta in Hh.
  unfold handle, mini_world, mini_handle. cbn [m_outage m_tick set_clock].
  destruct (m_outage w) as [|[] o] eqn:E;
    [| apply Forall_cons in Hh as [? _]; done | apply Forall_cons in Hh as [_ Hh]];
    (cbn [m_clock m_keys m_tick set_clock]; destruct (redis_step _ _ _ _ _) as [r m] eqn:Er;
     cbn [m_clock m_keys m_outage tail m_tick set_clock set_keys]; rewrite Er;
     split_and!; [apply same_answer_refl|done|done|lia]).
Qed.
Next Obligation.
  intros A c w. unfold handle, mini_world, mini_handle. cbn [m_outage m_tick set_clock].
  destruct (m_outage w) as [|[] o] eqn:E;
    cbn [m_clock m_keys m_tick set_clock set_keys]; destruct (redis_step _ _ _ _ _) as [r m] eqn:Er;
    cbn [m_clock m_keys m_tick set_clock set_keys]; rewrite ?Er; (split; [lia|]);
    solve [left; split; [apply same_answer_refl|done] | right; split; [by eexists|by left]].
Qed.
Next Obligation.
  intros X e w He. unfold handle, mini_world.
  destruct e; try discriminate He; cbn -[mini_l1 Chat.hub_step];
    repeat (case_match; cbn -[mini_l1 Chat.hub_step]); split_and!; first [done | lia].
Qed.
Next Obligation. done. Qed.
Next Obligation.
  intros n w b. unfold handle, mini_world, mini_handle.
  destruct (Nat.ltb_spec (length (m_rand (m_tick w))) n); [done|].
  cbn [fst]. intros [= <-]. rewrite length_take. apply Nat.min_l. done.
Qed.
Next Obligation.
  intros A c w. unfold handle, mini_world, mini_handle. cbn [m_l1 m_clock m_tick set_clock].
  destruct c as [k|k v sec|k|]; cbn [mini_l1].
  - destruct (m_l1 w !! k) as [[v [d|]]|] eqn:E; [destruct (_ <? d)|..]; cbn [m_l1 set_l1];
      rewrite ?fmap_delete; (split; [try done; apply delete_subseteq|]); try done;
      by rewrite lookup_fmap, E.
  - cbn [m_l1 set_l1]. by rewrite fmap_insert.
  - cbn [m_l1 set_l1]. by rewrite fmap_delete.
  - done.
Qed.
Next Obligation.
  intros X e w He. unfold handle, mini_world.
  destruct e; try discriminate He; cbn -[Chat.hub_step]; repeat (case_match; cbn -[Chat.hub_step]); done.
Qed.
Next Obligation. intros A m w. cbn. by destruct (runSt m (m_dgr w)). Qed.
Next Obligation. done. Qed.
Next Obligation. done. Qed.
Next Obligation.
  intros X e w. unfold handle, mini_world.
  destruct e; cbn -[mini_l1]; repeat (case_match; cbn -[mini_l1]); done.
Qed.

Next Obligation.
  intros A o w. cbn -[Chat.hub_step].
  destruct (Chat.hub_step o (s_hub (m_side w))) as [a h]. split; [by destruct o|done].
Qed.
Next Obligation. done. Qed.
Next Obligation.
  intros X e w. unfold handle, mini_world.
  destruct e; cbn -[mini_l1 Chat.hub_step]; repeat (case_match; cbn -[mini_l1 Chat.hub_step]); done.
Qed.
Next Obligation.
  intros w. exists mini_ctx. unfold handle, mini_world, mini_handle.
  cbn [m_side m_tick set_clock]. unfold Semaphore.Acquire, mini_ctx, get, put.
  cbv [mbind St_bind mret St_ret runSt fst snd Semaphore.ctx_err Semaphore.take_token].
  repeat case_match; simplify_eq/=; done.
Qed.
Next Obligation. done. Qed.
Next Obligation.
  intros X e w. unfold handle, mini_world.
  destruct e; cbn -[mini_l1 Chat.hub_step]; repeat (case_match; cbn -[mini_l1 Chat.hub_step]); done.
Qed.

(** A quiet world at time [t] holding [m]. *)
Definition mini (t : Z) (m : kv) : MiniWorld :=
  MkMini m t 0 [] [] (fun _ => Err (ErrMsg "no route to host")).

(** ** Stepping through a program in a lawful world *)

(** Commands with a determined answer: all but KEYS. *)
Definition determined {A} (c : cmd A) : bool :=
  match c with RKeys _ => false | _ => true end.

Lemma same_answer_eq {A} (c : cmd A) r r' : determined c = true -> same_answer c r r' -> r = r'.
Proof. by destruct c. Qed.

Section step.
Context `{Laws W}.

(** The state after an effect: later, with the keys given, still healthy. *)
Definition next_state (w w' : W) (m : kv) : Prop :=
  keys w' = m /\ clock w <= clock w' /\ (healthy w -> healthy w').

Lemma next_state_refl w : next_state w w (keys w).
Proof. split; [done|]. split; [lia|done]. Qed.

Lemma next_state_trans w w1 w2 m1 m2 :
  next_state w w1 m1 -> next_state w1 w2 m2 -> next_state w w2 m2.
Proof. intros (? & ? & ?) (? & ? & ?). split; [done|]. split; [lia|auto]. Qed.

Lemma run_redis_up {A B} (c : cmd A) (k : res A -> prog B) w :
  healthy w -> determined c = true ->
  exists w', let '(r, m) := redis_step dbl glob (clock w') c (keys w) in
    run (redis c ≫= k) w = run (k r) w' /\ next_state w w' m.
Proof.
  intros Hh Hd. pose proof (redis_up c w Hh) as Hu.
  change (run (redis c ≫= k) w)
    with (let '(x, w') := handle (Redis c) w in run (k x) w').
  destruct (handle (Redis c) w) as [r w']. exists w'.
  destruct (redis_step _ _ _ _ _) as [r0 m]. destruct Hu as (Hs & ? & ? & ?).
  apply same_answer_eq in Hs as ->; [|done]. by split.
Qed.

Lemma run_redis_any {A B} (c : cmd A) (k : res A -> prog B) w :
  determined c = true ->
  exists w' r, run (redis c ≫= k) w = run (k r) w' /\ clock w <= clock w' /\
    let '(r0, m) := redis_step dbl glob (clock w') c (keys w) in
    ((r = r0 /\ keys w' = m) \/ ((exists e, r = Err e) /\ (keys w' = keys w \/ keys w' = m))).
Proof.
  intros Hd. pose proof (redis_any c w) as Hu.
  change (run (redis c ≫= k) w)
    with (let '(x, w') := handle (Redis c) w in run (k x) w').
  destruct (handle (Redis c) w) as [r w']. exists w', r. split; [done|].
  destruct (redis_step _ _ _ _ _) as [r0 m]. destruct Hu as (? & [[Hs ?]|?]); split; auto.
  apply same_answer_eq in Hs as ->; auto.
Qed.

(** Time does not run backwards in any program. *)
Lemma run_clock {A} (p : prog A) w : clock w <= clock (run p w).2.
Proof.
  revert w. induction p as [A a|A X e f IH|A p IHp q IHq]; intros w; cbn [run].
  - cbn. lia.
  - assert (clock w <= clock (handle e w).2) as He.
    { destruct (is_redis e) eqn:Er; [|by apply quiet_law].
      destruct e as [A' c| | | | | | | | | | | | | | | |]; try discriminate Er.
      pose proof (redis_any c w) as Hr. destruct (handle (Redis c) w) as [r w'].
      destruct (redis_step _ _ _ _ _). by destruct Hr. }
    destruct (handle e w) as [x w']. cbn [fst snd] in He. specialize (IH x w'). lia.
  - specialize (IHp w). destruct (run p w) as [x w']. specialize (IHq w'). cbn [snd] in *. lia.
Qed.

Lemma run_clock_eq {A} (p : prog A) w a w' : run p w = (a, w') -> clock w <= clock w'.
Proof. intros E. pose proof (run_clock p w) as Hc. by rewrite E in Hc. Qed.

(** The same, with what does not depend on the answer first. *)
Lemma run_redis {A B} (c : cmd A) (k : res A -> prog B) w :
  healthy w -> determined c = true ->
  exists w', clock w <= clock w' /\ healthy w' /\ clock w' <= clock (run (redis c ≫= k) w).2 /\
    forall r m, redis_step dbl glob (clock w') c (keys w) = (r, m) ->
    run (redis c ≫= k) w = run (k r) w' /\ keys w' = m.
Proof.
  intros Hh Hd. destruct (run_redis_up c k w Hh Hd) as (w' & Hr). exists w'.
  destruct (redis_step _ _ _ _ _) as [r0 m0]. destruct Hr as [Hr (Hk & Ht & Hh')].
  split_and!; [done|auto|rewrite Hr; apply run_clock|]. by intros r m [= <- <-].
Qed.

(** Every other effect leaves Redis alone. *)
Lemma run_quiet {X B} (e : ev X) (k : X -> prog B) w : is_redis e = false ->
  exists w', run (Vis e k) w = run (k (handle e w).1) w' /\ handle e w = ((handle e w).1, w') /\
    next_state w w' (keys w).
Proof.
  intros He. pose proof (quiet_law e w He) as Hq. cbn [run].
  destruct (handle e w) as [x w']. by exists w'.
Qed.

Lemma run_now {B} (k : Z -> prog B) w :
  exists w', run (now ≫= k) w = run (k (clock w')) w' /\ next_state w w' (keys w).
Proof.
  destruct (run_quiet Now k w eq_refl) as (w' & Hr & Hw & Hn). exists w'. split; [|done].
  pose proof (now_law w) as Ht. rewrite Hw in Ht. cbn [fst snd] in Ht. rewrite <- Ht. exact Hr.
Qed.

Lemma run_rand {B} n (k : res bytes -> prog B) w :
  exists w' r, run (rand_read n ≫= k) w = run (k r) w' /\ next_state w w' (keys w) /\
    forall b, r = Ok b -> length b = n.
Proof.
  destruct (run_quiet (RandRead n) k w eq_refl) as (w' & Hr & Hw & Hn).
  exists w', (handle (RandRead n) w).1. split_and!; [exact Hr|done|]. apply rand_law.
Qed.

(** The process's own state: mode and counters, and what the in-process cache
    may hold. *)
Lemma run_dgr {A B} (m : St Degrade.Manager A) (k : A -> prog B) w :
  exists w', run (dgr m ≫= k) w = run (k (evalSt m (mode_of w))) w' /\
    next_state w w' (keys w) /\ mode_of w' = execSt m (mode_of w) /\ l1map w' ⊆ l1map w /\
    counts w' = counts w.
Proof.
  destruct (run_quiet (Dgr m) k w eq_refl) as (w' & Hr & Hw & Hn). exists w'.
  pose proof (dgr_law m w) as Hd. pose proof (l1_quiet (Dgr m) w eq_refl) as Hl.
  pose proof (own_quiet (Dgr m) w) as [_ Hc].
  rewrite Hw in Hd, Hl, Hc. cbn [fst snd] in *. rewrite runSt_eval_exec in Hd. injection Hd as Ha Hm.
  split_and!; [|done|done|done|done]. by rewrite <- Ha.
Qed.

Lemma run_count {B} (c : counter) (k : unit -> prog B) w :
  exists w', run (atomic_add c ≫= k) w = run (k tt) w' /\
    next_state w w' (keys w) /\ mode_of w' = mode_of w /\ l1map w' ⊆ l1map w /\
    forall c', counts w' c' = if decide (c = c') then int64 (counts w c' + 1) else counts w c'.
Proof.
  destruct (run_quiet (AtomicAdd c) k w eq_refl) as (w' & Hr & Hw & Hn). exists w'.
  pose proof (count_law c w) as Hd. pose proof (l1_quiet (AtomicAdd c) w eq_refl) as Hl.
  pose proof (own_quiet (AtomicAdd c) w) as [Hm _].
  rewrite Hw in Hd, Hl, Hm. cbn [fst snd] in *.
  destruct (handle (AtomicAdd c) w) as [[] w'']. by split_and!.
Qed.

Lemma run_l1 {A B} (c : l1cmd A) (k : A -> prog B) w :
  exists w' r, run (l1 c ≫= k) w = run (k r) w' /\
    next_state w w' (keys w) /\ mode_of w' = mode_of w /\
    match c in l1cmd A return A -> Prop with
    | LGet k => fun r => l1map w' ⊆ l1map w /\ match r with Ok v => l1map w !! k = Some v | Err _ => True end
    | LSet k v _ => fun r => l1map w' ⊆ <[k := v]> (l1map w)
    | LDel k => fun r => l1map w' ⊆ delete k (l1map w)
    | LClear => fun r => l1map w' = ∅
    end r.
Proof.
  destruct (run_quiet (L1 c) k w eq_refl) as (w' & Hr & Hw & Hn). exists w', (handle (L1 c) w).1.
  pose proof (l1_law c w) as Hl. pose proof (own_quiet (L1 c) w) as [Hm _].
  rewrite Hw in Hl, Hm. cbn [fst snd] in *. by split_and!.
Qed.

(** The chat hub moves by its own accesses only, the statement log by
    executed statements only. *)
Definition is_hub {X} (e : ev X) : bool := match e with HubOp _ => true | _ => false end.
Definition is_exec {X} (e : ev X) : bool := match e with SqlExec _ _ => true | _ => false end.

Lemma hub_kept {X} (e : ev X) w : is_hub e = false -> hub_of (handle e w).2 = hub_of w.
Proof. intros He. destruct (chat_quiet e w) as [Hh _]. by destruct e. Qed.

Lemma log_kept {X} (e : ev X) w : is_exec e = false -> sql_log (handle e w).2 = sql_log w.
Proof. intros He. destruct (chat_quiet e w) as [_ Hl]. by destruct e. Qed.

(** An access with one possible answer: all but [HMembers]. *)
Definition settled {A} (o : Chat.hubop A) : bool :=
  match o with Chat.HMembers _ => false | _ => true end.

Lemma run_hub {A B} (o : Chat.hubop A) (k : A -> prog B) w : settled o = true ->
  exists w', run (hub o ≫= k) w = run (k (Chat.hub_step o (hub_of w)).1) w' /\
    next_state w w' (keys w) /\ hub_of w' = (Chat.hub_step o (hub_of w)).2 /\ sql_log w' = sql_log w.
Proof.
  intros Ho. destruct (run_quiet (HubOp o) k w eq_refl) as (w' & Hr & Hw & Hn). exists w'.
  pose proof (hub_law o w) as Hl. pose proof (log_kept (HubOp o) w eq_refl) as Hg.
  rewrite Hw in Hl, Hg. cbn [snd] in Hg. destruct (Chat.hub_step o (hub_of w)) as [a h].
  destruct Hl as [Ha Hh]. cbn [fst snd]. split_and!; [|done|done|done].
  assert (a = (handle (HubOp o) w).1) as -> by (by destruct o). exact Hr.
Qed.

Lemma run_members {B} room (k : list nat -> prog B) w :
  exists w' l, run (hub (Chat.HMembers room) ≫= k) w = run (k l) w' /\
    next_state w w' (keys w) /\ hub_of w' = hub_of w /\ sql_log w' = sql_log w /\
    l ≡ₚ elements (Chat.members (hub_of w) room).
Proof.
  destruct (run_quiet (HubOp (Chat.HMembers room)) k w eq_refl) as (w' & Hr & Hw & Hn).
  exists w', (handle (HubOp (Chat.HMembers room)) w).1.
  pose proof (hub_law (Chat.HMembers room) w) as Hl.
  pose proof (log_kept (HubOp (Chat.HMembers room)) w eq_refl) as Hg.
  rewrite Hw in Hl, Hg. cbn [fst snd Chat.hub_step Chat.hub_answer] in Hl, Hg.
  destruct Hl as [Ha Hh]. split_and!; done.
Qed.

(** An effect of another kind: the hub and the log stay, the answer is the
    world's. *)
Lemma run_other {X B} (e : ev X) (k : X -> prog B) w : is_hub e = false -> is_exec e = false ->
  exists w', run (Vis e k) w = run (k (handle e w).1) w' /\
    hub_of w' = hub_of w /\ sql_log w' = sql_log w /\ clock w <= clock w'.
Proof.
  intros Hh He. pose proof (hub_kept e w Hh). pose proof (log_kept e w He).
  pose proof (run_clock (Vis e Ret) w) as Hc. cbn [run] in *.
  destruct (handle e w) as [x w']. by exists w'.
Qed.

Lemma run_exec {B} q args (k : res unit -> prog B) w :
  exists w' r, run (sql_exec q args ≫= k) w = run (k r) w' /\ next_state w w' (keys w) /\
    hub_of w' = hub_of w /\ sql_log w' = sql_log w ++ [(q, args)].
Proof.
  destruct (run_quiet (SqlExec q args) k w eq_refl) as (w' & Hr & Hw & Hn).
  exists w', (handle (SqlExec q args) w).1.
  pose proof (hub_kept (SqlExec q args) w eq_refl) as Hh. pose proof (exec_law q args w) as Hg.
  rewrite Hw in Hh, Hg. cbn [snd] in *. by split_and!.
Qed.

(** Everything but time as it was. *)
Definition same_state (w w' : W) : Prop :=
  keys w' = keys w /\ hub_of w' = hub_of w /\ sql_log w' = sql_log w /\ clock w <= clock w'.

Lemma same_state_refl w : same_state w w.
Proof. split_and!; (done || lia). Qed.

Lemma same_state_trans w w1 w2 : same_state w w1 -> same_state w1 w2 -> same_state w w2.
Proof.
  intros (K1 & H1 & L1 & T1) (K2 & H2 & L2 & T2). unfold same_state. rewrite K2, H2, L2.
  split_and!; (done || lia).
Qed.

(** The clock, random bytes, queries: effects that only answer. *)
Definition silent {X} (e : ev X) : bool := negb (is_redis e || is_hub e || is_exec e).

Lemma run_vis {X B} (e : ev X) (k : X -> prog B) w :
  run (Vis e k) w = run (k (handle e w).1) (handle e w).2.
Proof. cbn [run]. by destruct (handle e w). Qed.

Lemma handle_silent {X} (e : ev X) w : silent e = true -> same_state w (handle e w).2.
Proof.
  intros He. assert (is_redis e = false /\ is_hub e = false /\ is_exec e = false) as (E1 & E2 & E3).
  { unfold silent in He. by destruct (is_redis e), (is_hub e), (is_exec e). }
  destruct (quiet_law e w E1) as (Hk & Ht & _). split_and!; auto using hub_kept, log_kept.
Qed.

(** A read of Redis, up or not, leaves everything as it was. *)
Definition read_only {A} (c : cmd A) : bool :=
  match c with
  | RGet _ | RSismember _ _ | RLrange _ _ _ | RZcard _ => true
  | _ => false
  end.

Lemma read_only_step t {A} (c : cmd A) m : read_only c = true -> (redis_step dbl glob t c m).2 = m.
Proof. destruct c; try done; intros _; cbn [redis_step]; repeat case_match; done. Qed.

Lemma handle_read {A} (c : cmd A) w : read_only c = true -> same_state w (handle (Redis c) w).2.
Proof.
  intros Hc. pose proof (redis_any c w) as Hr.
  pose proof (hub_kept (Redis c) w eq_refl) as Hh. pose proof (log_kept (Redis c) w eq_refl) as Hl.
  pose proof (read_only_step (clock (handle (Redis c) w).2) c (keys w) Hc) as Hm.
  destruct (handle (Redis c) w) as [r w']. cbn [snd] in *.
  destruct (redis_step _ _ _ _ _) as [r0 m]. cbn [snd] in Hm. subst m.
  destruct Hr as (Ht & [[_ Hk]|[_ [Hk|Hk]]]); by split_and!.
Qed.

Lemma run_query {B} q args (k : res Sql.answer -> prog B) w :
  exists w' a, run (sql_query q args ≫= k) w = run (k a) w' /\ same_state w w' /\
    a = (handle (SqlQuery q args) w).1.
Proof. do 2 eexists. split; [apply run_vis|]. split; [by apply handle_silent|done]. Qed.

Lemma run_time {B} (k : Z -> prog B) w :
  exists w', run (now ≫= k) w = run (k (clock w')) w' /\ same_state w w'.
Proof.
  exists (handle Now w).2. rewrite <- now_law. split; [apply run_vis|by apply handle_silent].
Qed.

Lemma run_read {A B} (c : cmd A) (k : res A -> prog B) w : read_only c = true ->
  exists w' r, run (redis c ≫= k) w = run (k r) w' /\ same_state w w'.
Proof. intros Hc. do 2 eexists. split; [apply run_vis|by apply handle_read]. Qed.

(** Any command, Redis up or not, as the hub and the database see it. *)
Lemma run_redis_aside {A B} (c : cmd A) (k : res A -> prog B) w :
  exists w' r, run (redis c ≫= k) w = run (k r) w' /\
    hub_of w' = hub_of w /\ sql_log w' = sql_log w /\ clock w <= clock w'.
Proof.
  do 2 eexists. split; [apply run_vis|]. split_and!; [by apply hub_kept|by apply log_kept|].
  pose proof (redis_any c w) as Hr. destruct (handle (Redis c) w). destruct (redis_step _ _ _ _ _).
  by destruct Hr.
Qed.

(** A command on a Redis that is up, with the hub and the log. *)
Lemma run_redis_chat {A B} (c : cmd A) (k : res A -> prog B) w :
  healthy w -> determined c = true ->
  exists w', healthy w' /\ hub_of w' = hub_of w /\ sql_log w' = sql_log w /\
    clock w <= clock w' <= clock (run (redis c ≫= k) w).2 /\
    forall r m, redis_step dbl glob (clock w') c (keys w) = (r, m) ->
    run (redis c ≫= k) w = run (k r) w' /\ keys w' = m.
Proof.
  intros Hh Hd. pose proof (redis_up c w Hh) as Hu.
  pose proof (hub_kept (Redis c) w eq_refl) as Hhub. pose proof (log_kept (Redis c) w eq_refl) as Hl.
  assert (run (redis c ≫= k) w = let '(x, w') := handle (Redis c) w in run (k x) w') as Er by done.
  destruct (handle (Redis c) w) as [r w']. exists w'. cbn [snd] in *.
  destruct (redis_step _ _ _ _ _) as [r0 m]. destruct Hu as (Hs & ? & ? & ?).
  apply same_answer_eq in Hs as ->; [|done].
  split_and!; [done..|rewrite Er; apply run_clock|]. by intros r' m' [= <- <-].
Qed.

(** *** Which effects a program can perform *)

(** Every effect of every branch satisfies [P]. *)
Fixpoint all_ev (P : forall X : Type, ev X -> bool) {A : Type} (p : prog A) : Prop :=
  match p with
  | Ret _ => True
  | Vis e k => P _ e = true /\ forall x, all_ev P (k x)
  | Fork p q => all_ev P p /\ all_ev P q
  end.

Lemma all_ev_bind P {A B} (p : prog A) (k : A -> prog B) :
  all_ev P p -> (forall a, all_ev P (k a)) -> all_ev P (p ≫= k).
Proof.
  unfold mbind, prog_mbind. revert k. induction p as [A a|A X e f IH|A p _ q IH]; intros k Hp Hk.
  - apply Hk.
  - destruct Hp as [He Hf]. split; [done|]. intros x. by apply IH.
  - destruct Hp as [Hp Hq]. split; [done|]. by apply IH.
Qed.

(** What each allowed effect keeps, the program keeps. *)
Lemma run_all_ev (P : forall X, ev X -> bool) (R : relation W) `{!PreOrder R} :
  (forall X (e : ev X) w, P X e = true -> R w (handle e w).2) ->
  forall {A} (p : prog A) w, all_ev P p -> R w (run p w).2.
Proof.
  intros HR A p. induction p as [A a|A X e f IH|A p IHp q IHq]; intros w Hp.
  - done.
  - destruct Hp as [He Hf]. rewrite run_vis. etransitivity; [by apply HR|]. by apply IH.
  - destruct Hp as [Hp Hq]. cbn [run]. specialize (IHp w Hp). destruct (run p w) as [u w1].
    etransitivity; [exact IHp|]. by apply IHq.
Qed.

(** A Redis that is up stays up. *)
Lemma run_healthy {A} (p : prog A) w : healthy w -> healthy (run p w).2.
Proof.
  intros Hh. assert (PreOrder (fun w w' : W => healthy w -> healthy w')) as Hpre by (split; repeat intro; auto).
  revert Hh. apply (run_all_ev (fun _ _ => true) (fun w w' => healthy w -> healthy w')).
  - intros X e w' _ Hh. destruct (is_redis e) eqn:Er; [|by apply quiet_law].
    destruct e as [A' c| | | | | | | | | | | | | | | |]; try discriminate Er.
    pose proof (redis_up c w' Hh) as Hu. destruct (handle (Redis c) w'). destruct (redis_step _ _ _ _ _).
    by destruct Hu as (_ & _ & ? & _).
  - clear. induction p as [A a|A X e f IH|A p IHp q IHq]; cbn [all_ev]; auto.
Qed.

(** One finished command on a Redis that is up. *)
Lemma redis_inv {A} (c : cmd A) w r w' : run (redis c) w = (r, w') -> healthy w -> determined c = true ->
  redis_step dbl glob (clock w') c (keys w) = (r, keys w') /\ clock w <= clock w' /\ healthy w'.
Proof.
  intros E Hh Hd. pose proof (redis_up c w Hh) as Hu. revert E. unfold redis. rewrite run_vis. cbn [run].
  destruct (handle (Redis c) w) as [r1 w1]. intros [= <- <-]. cbn [fst snd].
  destruct (redis_step _ _ _ _ _) as [r0 m]. destruct Hu as (Hs & <- & ? & ?).
  by apply same_answer_eq in Hs as ->.
Qed.

(** One finished call on the degrade manager, one access to the in-process
    cache. *)
Lemma dgr_inv {A} (m : St Degrade.Manager A) w a w' : run (dgr m) w = (a, w') ->
  a = evalSt m (mode_of w) /\ mode_of w' = execSt m (mode_of w) /\ next_state w w' (keys w) /\
  l1map w' ⊆ l1map w.
Proof.
  intros E. destruct (run_dgr m mret w) as (w1 & Hr & Hn & Hm & Hl & _).
  change (dgr m ≫= mret) with (dgr m) in Hr. rewrite run_ret, E in Hr. by injection Hr as -> ->.
Qed.

Lemma l1_get_inv k w r w' : run (l1 (LGet k)) w = (r, w') ->
  next_state w w' (keys w) /\ l1map w' ⊆ l1map w /\ (forall v, r = Ok v -> l1map w !! k = Some v).
Proof.
  intros E. destruct (run_l1 (LGet k) mret w) as (w1 & r1 & Hr & Hn & _ & Hl & Hv).
  change (l1 ?c ≫= mret) with (l1 c) in Hr. rewrite run_ret, E in Hr. injection Hr as -> ->.
  split_and!; [done|done|]. by intros v ->.
Qed.

(** Commands that leave key [k] as it is. *)
Definition spares (k : string) {A} (c : cmd A) : bool :=
  match c with
  | RGet _ | RKeys _ | RZcard _ | RSismember _ _ | RLrange _ _ _ => true
  | RSet k' _ | RSetex k' _ _ | RSetnx k' _ | RSetnxEx k' _ _ | RIncr k' | RDecr k' | RExpire k' _
  | RZremrangebyscore k' _ _ | RZadd k' _ _ | RLpush k' _ | RLtrim k' _ _ => negb (String.eqb k k')
  | RDel ks => forallb (fun k' => negb (String.eqb k k')) ks
  end.
Definition ev_spares (k : string) (X : Type) (e : ev X) : bool :=
  match e with Redis c => spares k c | _ => true end.

Lemma foldl_del_one_ne t k ks acc : forallb (fun k' => negb (String.eqb k k')) ks = true ->
  (foldl (del_one t) acc ks).2 !! k = acc.2 !! k.
Proof.
  revert acc. induction ks as [|k' ks IH]; intros acc Hk; cbn [foldl forallb] in *; [done|].
  apply andb_true_iff in Hk as [Hk' Hk]. rewrite IH by done. unfold del_one. cbn [snd].
  apply lookup_delete_ne. intros ->. by rewrite String.eqb_refl in Hk'.
Qed.

Lemma redis_step_spares t k {A} (c : cmd A) m : spares k c = true -> (redis_step dbl glob t c m).2 !! k = m !! k.
Proof.
  destruct c; cbn [spares redis_step]; intros Hk;
    try (apply negb_true_iff in Hk; bool_to_prop); unfold incr_by; repeat case_match; cbn [snd]; try done;
    try (by rewrite lookup_insert_ne by congruence); try (by rewrite lookup_delete_ne by congruence).
  pose proof (foldl_del_one_ne t k ks (0, m) Hk) as Hd.
  by match goal with E : foldl _ _ _ = _ |- _ => rewrite E in Hd end.
Qed.

Lemma run_spares k {A} (p : prog A) w : all_ev (ev_spares k) p -> keys (run p w).2 !! k = keys w !! k.
Proof.
  intros Hp. symmetry.
  assert (PreOrder (fun w w' : W => keys w !! k = keys w' !! k)) as Hpre by (split; repeat intro; congruence).
  apply (run_all_ev (ev_spares k) (fun w w' => keys w !! k = keys w' !! k)); [|done].
  intros X e w' He. symmetry. destruct (is_redis e) eqn:Er; [|by destruct (quiet_law e w' Er) as (-> & _)].
  destruct e as [A' c| | | | | | | | | | | | | | | |]; try discriminate Er. cbn [ev_spares] in He.
  pose proof (redis_any c w') as Hu. destruct (handle (Redis c) w') as [r w2].
  pose proof (redis_step_spares (clock w2) k c (keys w') He) as Hs. cbn [snd].
  destruct (redis_step _ _ _ _ _) as [r0 m]. cbn [snd] in Hs.
  destruct Hu as (_ & [[_ ->]|[_ [->| ->]]]); done.
Qed.

(** [w'] comes after [w]: effects were answered in between. *)
Definition later : relation W := rtc (fun v v' => exists X (e : ev X), v' = (handle e v).2).
#[export] Instance later_preorder : PreOrder later.
Proof. unfold later. apply _. Qed.

Lemma run_later {A} (p : prog A) w a w' : run p w = (a, w') -> later w w'.
Proof.
  intros E. assert (all_ev (fun _ _ => true) p) as Hp by (clear; induction p; cbn [all_ev]; auto).
  pose proof (run_all_ev (fun _ _ => true) later (fun X e v _ => rtc_once _ _ (ex_intro _ X (ex_intro _ e eq_refl))) p w Hp) as Hl.
  by rewrite E in Hl.
Qed.

Lemma detach_later {A} (p : prog A) w a w' gs : detach p w = (a, w', gs) -> later w w'.
Proof.
  revert w gs. induction p as [A a0|A X e f IH|A p _ q IH]; intros w gs; cbn [detach].
  - intros [= <- <- <-]. reflexivity.
  - destruct (handle e w) as [x w1] eqn:E. intros Hd. apply IH in Hd. etrans; [|exact Hd].
    apply rtc_once. exists X, e. by rewrite E.
  - destruct (detach q w) as [[b w1] g] eqn:E. intros [= <- <- <-]. by eapply IH.
Qed.

(** What every effect keeps holds later. *)
Lemma later_kept (P : W -> Prop) w w' : (forall X (e : ev X) v, P v -> P (handle e v).2) -> later w w' -> P w -> P w'.
Proof. intros HP. induction 1 as [|v v' v2 (X & e & ->) _ IH]; auto. Qed.

Lemma run_healthy_eq {A} (p : prog A) w a w' : run p w = (a, w') -> healthy w -> healthy w'.
Proof. intros E Hh. pose proof (run_healthy p w Hh) as Hh'. by rewrite E in Hh'. Qed.

Lemma run_spares_eq k {A} (p : prog A) w a w' : run p w = (a, w') -> all_ev (ev_spares k) p ->
  keys w' !! k = keys w !! k.
Proof. intros E Hp. pose proof (run_spares k p w Hp) as Hs. by rewrite E in Hs. Qed.

(** [run_redis] and [run_redis_any] with the process's memory. *)
Lemma redis_own {A} (c : cmd A) w :
  l1map (handle (Redis c) w).2 ⊆ l1map w /\ mode_of (handle (Redis c) w).2 = mode_of w.
Proof.
  split; [by apply l1_quiet|]. by destruct (own_quiet (Redis c) w).
Qed.

Lemma run_redis_full {A B} (c : cmd A) (k : res A -> prog B) w :
  healthy w -> determined c = true ->
  exists w', clock w <= clock w' /\ healthy w' /\ clock w' <= clock (run (redis c ≫= k) w).2 /\
    l1map w' ⊆ l1map w /\ mode_of w' = mode_of w /\
    forall r m, redis_step dbl glob (clock w') c (keys w) = (r, m) ->
    run (redis c ≫= k) w = run (k r) w' /\ keys w' = m.
Proof.
  intros Hh Hd. pose proof (redis_up c w Hh) as Hu. destruct (redis_own c w) as [Hl Hm].
  assert (run (redis c ≫= k) w = let '(x, w') := handle (Redis c) w in run (k x) w') as Er by done.
  destruct (handle (Redis c) w) as [r w']. exists w'.
  destruct (redis_step _ _ _ _ _) as [r0 m]. destruct Hu as (Hs & ? & ? & ?).
  apply same_answer_eq in Hs as ->; [|done].
  split_and!; [done|done|rewrite Er; apply run_clock|done|done|]. by intros r' m' [= <- <-].
Qed.

Lemma run_redis_any_full {A B} (c : cmd A) (k : res A -> prog B) w :
  determined c = true ->
  exists w' r, run (redis c ≫= k) w = run (k r) w' /\ clock w <= clock w' /\
    l1map w' ⊆ l1map w /\ mode_of w' = mode_of w /\
    let '(r0, m) := redis_step dbl glob (clock w') c (keys w) in
    ((r = r0 /\ keys w' = m) \/ ((exists e, r = Err e) /\ (keys w' = keys w \/ keys w' = m))).
Proof.
  intros Hd. pose proof (redis_any c w) as Hu. destruct (redis_own c w) as [Hl Hm].
  assert (run (redis c ≫= k) w = let '(x, w') := handle (Redis c) w in run (k x) w') as Er by done.
  destruct (handle (Redis c) w) as [r w']. exists w', r.
  destruct (redis_step _ _ _ _ _) as [r0 m]. destruct Hu as (? & [[Hs ?]|?]); split_and!; auto.
  apply same_answer_eq in Hs as ->; auto.
Qed.
End step.

Lemma all_ev_one (P : forall X : Type, ev X -> bool) {X} (e : ev X) : P X e = true -> all_ev P (Vis e Ret).
Proof. by split. Qed.

Lemma all_ev_go (P : forall X : Type, ev X -> bool) p : all_ev P p -> all_ev P (go p).
Proof. by split. Qed.

Create HintDb ev.

(** Walk through a program, one effect or branch at a time. *)
Ltac walk_ev :=
  repeat (intros;
    match goal with
    | |- all_ev _ (_ ≫= _) => apply all_ev_bind
    | |- all_ev _ (mret _) => exact I
    | |- all_ev _ (if ?b then _ else _) => destruct b
    | |- all_ev _ (match ?x with _ => _ end) => destruct x
    | |- all_ev _ (go _) => apply all_ev_go
    | |- all_ev _ (redis _) => apply all_ev_one
    | |- all_ev _ (hub _) => apply all_ev_one
    | |- all_ev _ (sql_query _ _) => apply all_ev_one
    | |- all_ev _ (sql_exec _ _) => apply all_ev_one
    | |- all_ev _ now => apply all_ev_one
    | |- all_ev _ _ => solve [auto with ev]
    | |- _ = true => reflexivity
    end).

(** Take a finished run apart: one hypothesis per call, a case per branch. *)
Ltac run_inv :=
  repeat match goal with
  | H : run (mret _) _ = _ |- _ => rewrite run_ret in H; first [injection H as ? ? | injection H as ?]; subst
  | H : run (_ ≫= _) _ = _ |- _ =>
    let x := fresh "x" in let w := fresh "v" in let E := fresh "E" in
    apply run_bind_inv in H as (x & w & E & H)
  | H : run (if ?b then _ else _) _ = _ |- _ => destruct b eqn:?
  | H : run (match ?x with _ => _ end) _ = _ |- _ => destruct x eqn:?
  end.

(** The clock, Redis's health and the order of the worlds along the finished
    runs at hand. *)
Ltac chain_worlds :=
  repeat match goal with
  | E : run _ ?w = (_, ?w') |- _ =>
    lazymatch goal with
    | _ : clock w <= clock w' |- _ => fail
    | _ => pose proof (run_clock_eq _ _ _ _ E); pose proof (run_healthy_eq _ _ _ _ E); pose proof (run_later _ _ _ _ E)
    end
  end.

Ltac follow := repeat first [eassumption | etrans; [eassumption|]].

(** Lookups after an update. *)
Lemma find_insert_eq t m k e : find t (<[k := e]> m) k = if live t e then Some e else None.
Proof. unfold find. by rewrite lookup_insert_eq. Qed.
Lemma find_insert_ne t m k k' e : k <> k' -> find t (<[k := e]> m) k' = find t m k'.
Proof. intros. unfold find. by rewrite lookup_insert_ne. Qed.
Lemma find_delete_eq t m k : find t (delete k m) k = None.
Proof. unfold find. by rewrite lookup_delete_eq. Qed.
Lemma find_delete_ne t m k k' : k <> k' -> find t (delete k m) k' = find t m k'.
Proof. intros. unfold find. by rewrite lookup_delete_ne. Qed.

(** An entry found later was there before. *)
Lemma find_later t t' m k e : t <= t' -> find t' m k = Some e -> find t m k = Some e.
Proof.
  unfold find. intros Ht. destruct (m !! k) as [e'|]; simpl; [|done].
  destruct (live t' e') eqn:E; [|done]. intros [= ->].
  unfold live in *. destruct (deadline e); [|done]. bool_to_prop.
  by replace (t <? z) with true by lia.
Qed.

(** DEL removes the named keys and no other. *)
Lemma del_one_spec t ks n m :
  forall k, (foldl (del_one t) (n, m) ks).2 !! k = if decide (k ∈ ks) then None else m !! k.
Proof.
  revert n m. induction ks as [|k0 ks IH]; intros n m k; cbn [foldl].
  - by rewrite decide_False by apply not_elem_of_nil.
  - unfold del_one at 2. cbn [fst snd]. rewrite IH.
    destruct (decide (k ∈ ks)); [by rewrite decide_True by set_solver|].
    destruct (decide (k = k0)) as [->|].
    + rewrite decide_True by set_solver. by rewrite lookup_delete_eq.
    + rewrite decide_False by set_solver. by rewrite lookup_delete_ne.
Qed.

(** KEYS on a Redis that is up: the live keys that match, in some order. *)
Lemma filter_same {A} (P Q : A -> Prop) `{forall x, Decision (P x)} `{forall x, Decision (Q x)} (l : list A) :
  (forall x, x ∈ l -> P x <-> Q x) -> filter P l = filter Q l.
Proof.
  induction l as [|x l IH]; intros Hl; [done|]. rewrite !filter_cons, IH by (intros y Hy; apply Hl; by right).
  pose proof (Hl x ltac:(by left)). repeat case_decide; tauto.
Qed.

(** DEL counts the keys it finds alive. *)
Lemma del_one_count t ks : NoDup ks -> forall n m,
  (foldl (del_one t) (n, m) ks).1 = n + Z.of_nat (length (filter (fun k => find t m k <> None) ks)).
Proof.
  induction 1 as [|k ks Hni _ IH]; intros n m; cbn [foldl]; [cbn; lia|]. unfold del_one at 2. cbn [fst snd].
  rewrite IH. assert (filter (fun k' => find t (delete k m) k' <> None) ks = filter (fun k' => find t m k' <> None) ks) as ->.
  { apply filter_same. intros k' Hk'. rewrite find_delete_ne; [done|]. intros ->. done. }
  rewrite filter_cons. destruct (find t m k) eqn:E.
  - rewrite decide_True by done. cbn [length]. lia.
  - rewrite decide_False by auto. lia.
Qed.

Lemma run_keys `{Laws W} {B} pattern (k : res (list string) -> prog B) w : healthy w ->
  exists w' l, run (redis (RKeys pattern) ≫= k) w = run (k (Ok l)) w' /\
    keys w' = keys w /\ clock w <= clock w' /\ healthy w' /\ l1map w' ⊆ l1map w /\ NoDup l /\
    forall s, s ∈ l <-> glob pattern s = true /\ is_Some (find (clock w') (keys w) s).
Proof.
  intros Hh. pose proof (redis_up (RKeys pattern) w Hh) as Hu. destruct (redis_own (RKeys pattern) w) as [Hl _].
  assert (run (redis (RKeys pattern) ≫= k) w = let '(x, w') := handle (Redis (RKeys pattern)) w in run (k x) w')
    as Er by done.
  destruct (handle (Redis (RKeys pattern)) w) as [r w']. cbn [redis_step same_answer] in Hu.
  destruct Hu as (Hs & Hk & Hh' & Ht). destruct r as [l|]; [|done]. exists w', l.
  split_and!; try done; [rewrite <- Hs; apply NoDup_filter, NoDup_fst_map_to_list|].
  intros s. rewrite <- Hs, list_elem_of_filter, list_elem_of_fmap.
  split.
  - intros [[Hg Hf] _]. split; [done|]. by destruct (find _ _ s).
  - intros [Hg [e Hf]]. split; [by rewrite Hf|].
    unfold find in Hf. destruct (keys w !! s) as [e'|] eqn:E; [|done].
    exists (s, e'). split; [done|]. by apply elem_of_map_to_list.
Qed.
