(* ===== verification/Db.v ===== *)
(** * Opening the database (src/common/db/db.go)

    [New] opens a driver, pings it and, for SQLite, runs the embedded schema
    statement by statement.  The drivers are third-party code: what opening and
    pinging answer are parameters of the model, and a statement executed is an
    effect of the world. *)

From S2P Require Import Prelude GoStr Aes Codec Json Hub Sql Env.

Module Db.

(** ** Splitting the schema script *)

(** The loop's variables: the statement being read, whether a string literal
    or a quoted name is open, the statements so far. *)
Record Scan : Type := MkScan { buf : bytes; inSingle : bool; inDouble : bool; out : list string }.

(** [stmt := strings.TrimSpace(buf.String()); if stmt != "" { append }]. *)
Definition emit (b : bytes) (l : list string) : list string :=
  let stmt := TrimSpace (string_of b) in if String.eqb stmt "" then l else l ++ [stmt].

Definition is_byte (z : Z) (c : byte) : bool := Z_of_byte c =? z.
Definition squote : byte -> bool := is_byte 39.
Definition dquote : byte -> bool := is_byte 34.
Definition semi : byte -> bool := is_byte 59.

Definition split_step (s : Scan) (c : byte) : Scan :=
  if squote c && negb (inDouble s) then MkScan (buf s ++ [c]) (negb (inSingle s)) (inDouble s) (out s)
  else if dquote c && negb (inSingle s) then MkScan (buf s ++ [c]) (inSingle s) (negb (inDouble s)) (out s)
  else if semi c && negb (inSingle s) && negb (inDouble s) then MkScan [] (inSingle s) (inDouble s) (emit (buf s) (out s))
  else MkScan (buf s ++ [c]) (inSingle s) (inDouble s) (out s).

Definition splitSQLStatements (script : string) : list string :=
  let s := foldl split_step (MkScan [] false false []) (bytes_of script) in
  if (0 <? length (buf s))%nat then emit (buf s) (out s) else out s.

Definition truncate (s : string) (n : Z) : string :=
  if Z.of_nat (String.length s) <=? n then s else prefix_bytes n s +:+ "...".

(** ** Opening *)

(** An open handle: the registered driver and the pool's settings. *)
Record DB : Type := MkDB {
  drv : string; dataSource : string; MaxOpenConns : Z; MaxIdleConns : Z; ConnMaxLifetime : Z; ConnMaxIdleTime : Z }.

Definition tuned (registered dsn : string) : DB := MkDB registered dsn 50 10 (30 * Minute) (5 * Minute).

Definition is_sqlite (driver : string) : bool := String.eqb driver "sqlite" || String.eqb driver "sqlite3".

(** The [switch driver]. *)
Definition registered (driver : string) : option string :=
  if String.eqb driver "mysql" then Some "mysql" else if is_sqlite driver then Some "sqlite" else None.

Section new.
(** The drivers: what opening answers, and the bounded ping. *)
Context (sql_Open : string -> string -> option error) (Ping : DB -> option error) (sqliteSchema : string).

(** [db: unsupported driver %q], for names of printable ASCII without quotes. *)
Definition unsupported (driver : string) : error :=
  ErrMsg ("db: unsupported driver " +:+ String (Ascii.ascii_of_nat 34) (driver +:+ String (Ascii.ascii_of_nat 34) "")).

Definition newline : string := String (Ascii.ascii_of_nat 10) "".

(** The loop over the statements of the schema. *)
Fixpoint apply_schema (stmts : list string) : prog (res unit) :=
  match stmts with
  | [] => mret (Ok tt)
  | stmt :: rest =>
    let stmt := TrimSpace stmt in
    if String.eqb stmt "" then apply_schema rest
    else r ← sql_exec stmt [];
         match r with
         | Err e => mret (Err (ErrAround "db: apply sqlite schema stmt: " e (newline +:+ "stmt: " +:+ truncate stmt 200)))
         | Ok _ => apply_schema rest
         end
  end.

(** What is left to do once the handle answers. *)
Definition set_up (driver : string) (db : DB) : prog (res DB) :=
  if is_sqlite driver then
    r ← apply_schema (splitSQLStatements sqliteSchema);
    match r with
    | Err e => mret (Err e)
    | Ok _ =>
      _ ← sql_exec "PRAGMA journal_mode=WAL;" [];
      _ ← sql_exec "PRAGMA foreign_keys=ON;" [];
      mret (Ok db)
    end
  else mret (Ok db).

Definition New (driver dsn : string) : prog (res DB) :=
  let driver := if String.eqb driver "" then "mysql" else driver in
  if String.eqb dsn "" then mret (Err (ErrMsg ("db: empty datasource for driver " +:+ driver)))
  else
    match registered driver with
    | None => mret (Err (unsupported driver))
    | Some name =>
      match sql_Open name dsn with
      | Some e => mret (Err (ErrWrap ("db: open " +:+ driver +:+ ": ") e))
      | None =>
        let db := tuned name dsn in
        match Ping db with
        | Some e =>
          if String.eqb driver "mysql" then set_up driver db
          else mret (Err (ErrWrap ("db: ping " +:+ driver +:+ ": ") e))
        | None => set_up driver db
        end
      end
    end.

(** [MustNew]: a panic is [inr]. *)
Definition MustNew (driver dsn : string) : prog (DB + error) :=
  r ← New driver dsn; mret (match r with Ok d => inl d | Err e => inr e end).
End new.

(** ** What the splitter computes *)

(** Quotes open after reading a piece, from the quotes open before; [None]
    when the piece has a semicolon outside quotes. *)
Fixpoint clean (q : bool * bool) (b : bytes) : option (bool * bool) :=
  match b with
  | [] => Some q
  | c :: b =>
    if squote c && negb q.2 then clean (negb q.1, q.2) b
    else if dquote c && negb q.1 then clean (q.1, negb q.2) b
    else if semi c && negb q.1 && negb q.2 then None
    else clean q b
  end.

(** A complete statement: its quotes are closed at its end. *)
Definition closed (stmt : string) : Prop := clean (false, false) (bytes_of stmt) = Some (false, false).
(** What may follow the last semicolon. *)
Definition tail_ok (stmt : string) : Prop := is_Some (clean (false, false) (bytes_of stmt)).

(** The script that a list of statements and a tail make up. *)
Fixpoint script_of (stmts : list string) (last : string) : string :=
  match stmts with [] => last | s :: l => s +:+ ";" +:+ script_of l last end.

Definition nonblank (l : list string) : list string := base.filter (fun s => s <> "") (map TrimSpace l).

Lemma emit_nonblank b l : emit b l = l ++ nonblank [string_of b].
Proof.
  unfold emit, nonblank. cbn [map]. rewrite filter_cons, filter_nil. destruct (String.eqb_spec (TrimSpace (string_of b)) "") as [E|E].
  - rewrite decide_False by (intros H; exact (H E)). by rewrite app_nil_r.
  - by rewrite decide_True by exact E.
Qed.

Lemma nonblank_app l k : nonblank (l ++ k) = nonblank l ++ nonblank k.
Proof. unfold nonblank. by rewrite map_app, filter_app. Qed.

(** A piece is read into the buffer. *)
Lemma scan_clean b : forall s q, clean (inSingle s, inDouble s) b = Some q ->
  foldl split_step s b = MkScan (buf s ++ b) q.1 q.2 (out s).
Proof.
  induction b as [|c b IH]; intros s q; cbn [clean foldl fst snd].
  - intros [= <-]. rewrite app_nil_r. by destruct s.
  - unfold split_step at 2.
    destruct (squote c && negb (inDouble s)); [|destruct (dquote c && negb (inSingle s));
      [|destruct (semi c && negb (inSingle s) && negb (inDouble s)); [discriminate|]]];
      intros H; (rewrite (IH (MkScan _ _ _ _) q H); cbn [buf out]; by rewrite <- app_assoc).
Qed.

Lemma scan_semi b l : split_step (MkScan b false false l) Byte.x3b = MkScan [] false false (emit b l).
Proof. reflexivity. Qed.

Lemma scan_script stmts last : forall l, Forall closed stmts -> tail_ok last ->
  exists q, foldl split_step (MkScan [] false false l) (bytes_of (script_of stmts last)) =
    MkScan (bytes_of last) q.1 q.2 (l ++ nonblank stmts).
Proof.
  induction stmts as [|s stmts IH]; intros l Hs [q Hq]; cbn [script_of].
  - exists q. rewrite (scan_clean _ (MkScan [] false false l) q Hq). by rewrite app_nil_r.
  - apply Forall_cons in Hs as [Hc Hs]. rewrite !bytes_of_app, !foldl_app.
    rewrite (scan_clean _ (MkScan [] false false l) _ Hc). cbn [fst snd buf out app].
    change (bytes_of ";") with [Byte.x3b]. cbn [foldl]. rewrite scan_semi, emit_nonblank, string_of_bytes_of.
    destruct (IH (l ++ nonblank [s]) Hs (ex_intro _ q Hq)) as [q' ->]. exists q'.
    by rewrite <- app_assoc, <- nonblank_app.
Qed.

Lemma split_pieces stmts last : Forall closed stmts -> tail_ok last ->
  splitSQLStatements (script_of stmts last) = nonblank (stmts ++ [last]).
Proof.
  intros Hs Hl. unfold splitSQLStatements. destruct (scan_script stmts last [] Hs Hl) as [q ->].
  cbn [buf out app]. rewrite nonblank_app. destruct last as [|c last]; [by rewrite app_nil_r|].
  cbn [bytes_of String.list_byte_of_string length Nat.ltb Nat.leb]. rewrite emit_nonblank.
  exact (f_equal (fun x => nonblank stmts ++ nonblank [x]) (string_of_bytes_of (String c last))).
Qed.

(** The first semicolon outside quotes, if any. *)
Lemma cut_clean b : forall q, is_Some (clean q b) \/
  exists p rest, clean q p = Some (false, false) /\ b = p ++ Byte.x3b :: rest.
Proof.
  induction b as [|c b IH]; intros q; [left; by exists q|]. cbn [clean].
  assert (forall q', clean q (c :: b) = clean q' b -> (forall p, clean q (c :: p) = clean q' p) ->
    is_Some (clean q' b) \/ exists p rest, clean q p = Some (false, false) /\ c :: b = p ++ Byte.x3b :: rest) as Hstep.
  { intros q' _ Hp. destruct (IH q') as [|(p & rest & Hc & ->)]; [by left|right].
    exists (c :: p), rest. by rewrite Hp. }
  cbn [clean] in Hstep.
  destruct (squote c && negb q.2); [by apply Hstep|]. destruct (dquote c && negb q.1); [by apply Hstep|].
  destruct (semi c && negb q.1 && negb q.2) eqn:E; [|by apply Hstep].
  right. exists [], b. bool_to_prop. destruct q as [a d]. cbn in *. subst.
  split; [done|]. cbn. f_equal. apply Z_of_byte_inj. unfold semi, is_byte in *. by bool_to_prop.
Qed.

(** Every script is of that form. *)
Lemma script_parts script : exists stmts last, Forall closed stmts /\ tail_ok last /\ script = script_of stmts last.
Proof.
  remember (String.length script) as n eqn:Hn. revert script Hn.
  induction n as [n IH] using lt_wf_ind. intros script ->.
  destruct (cut_clean (bytes_of script) (false, false)) as [Ht|(p & rest & Hp & E)].
  - by exists [], script.
  - assert (script = string_of p +:+ ";" +:+ string_of rest) as Es.
    { apply bytes_of_inj. rewrite E, !bytes_of_app, !bytes_of_string_of. reflexivity. }
    destruct (IH (String.length (string_of rest))) with (script := string_of rest) as (stmts & last & Hs & Hl & Er);
      [|done|].
    { rewrite Es, !append_length. cbn. lia. }
    exists (string_of p :: stmts), last. split_and!; [|done|by rewrite Es, Er].
    constructor; [|exact Hs]. unfold closed. by rewrite bytes_of_string_of.
Qed.

(** A script made of statements whose quotes are balanced, each followed by
    a semicolon, and of a rest without semicolon outside quotes is split into
    exactly these pieces: trimmed, in order, the blank ones left out; and every
    script is of that form. *)
Theorem split_roundtrip script :
  (exists stmts last, Forall closed stmts /\ tail_ok last /\ script = script_of stmts last) /\
  forall stmts last, Forall closed stmts -> tail_ok last -> script = script_of stmts last ->
    splitSQLStatements script = nonblank (stmts ++ [last]).
Proof. split; [apply script_parts|]. intros stmts last Hs Hl ->. exact (split_pieces stmts last Hs Hl). Qed.

(** No statement is blank, and each is trimmed. *)
Lemma split_trimmed script : Forall (fun s => s <> "" /\ TrimSpace s = s) (splitSQLStatements script).
Proof.
  destruct (script_parts script) as (stmts & last & Hs & Hl & ->). rewrite split_pieces by assumption.
  apply Forall_forall. intros s Hin. apply list_elem_of_filter in Hin as [Hne Hin].
  apply list_elem_of_fmap in Hin as (s0 & -> & _). split; [exact Hne|apply TrimSpace_twice].
Qed.

(** The head of the embedded schema: its fourth line has a semicolon in a
    comment, and the first statement sent is the comment before it. *)
Example schema_head : splitSQLStatements (
  "-- DBDriver=sqlite. Single-file layout: all tables live in one .db file;" +:+ newline +:+
  "-- see deploy/schema.mysql.sql for the production layout" +:+ newline +:+
  "CREATE TABLE IF NOT EXISTS user (uid INTEGER PRIMARY KEY);") =
  ["-- DBDriver=sqlite. Single-file layout: all tables live in one .db file";
   "-- see deploy/schema.mysql.sql for the production layout" +:+ newline +:+
   "CREATE TABLE IF NOT EXISTS user (uid INTEGER PRIMARY KEY)"].
Proof. vm_compute. reflexivity. Qed.

(** Semicolons in literals do not split. *)
Example quoted_semicolon : splitSQLStatements "INSERT INTO t VALUES ('a;b'); ; SELECT 1" =
  ["INSERT INTO t VALUES ('a;b')"; "SELECT 1"].
Proof. vm_compute. reflexivity. Qed.

Lemma split_roundtrip_witness :
  splitSQLStatements (script_of ["INSERT INTO t VALUES ('a;b')"; " "] " SELECT 1") = ["INSERT INTO t VALUES ('a;b')"; "SELECT 1"].
Proof.
  refine (eq_trans (proj2 (split_roundtrip _) _ _ _ _ eq_refl) _).
  - repeat constructor.
  - eexists. reflexivity.
  - vm_compute. reflexivity.
Defined.

(** ** What opening does *)
Section opening.
Context `{Laws W} (sql_Open : string -> string -> option error) (Ping : DB -> option error) (sqliteSchema : string).

(** Statements as the log has them: no arguments. *)
Definition plain_stmts (l : list string) : list (string * list Sql.sqlval) := map (fun q => (q, [])) l.

Definition pragmas : list string := ["PRAGMA journal_mode=WAL;"; "PRAGMA foreign_keys=ON;"].

(** What an error that stopped the schema at [stmt] looks like. *)
Definition stmt_error (stmt : string) (e0 : error) : error :=
  ErrAround "db: apply sqlite schema stmt: " e0 (newline +:+ "stmt: " +:+ truncate stmt 200).

Definition aside (w w' : W) : Prop := keys w' = keys w /\ hub_of w' = hub_of w.

Lemma exec_inv q args w r w' : run (sql_exec q args) w = (r, w') ->
  aside w w' /\ sql_log w' = sql_log w ++ [(q, args)].
Proof.
  intros Hr. destruct (run_exec q args mret w) as (w1 & r1 & E & (Hk & _) & Hh & Hl).
  assert (run (sql_exec q args) w = run (sql_exec q args ≫= mret) w) as E'
    by (rewrite run_bind; by destruct (run (sql_exec q args) w)).
  rewrite E', E, run_ret in Hr. injection Hr as -> ->. done.
Qed.

(** The statements run in order, up to and including the first that fails. *)
Lemma apply_schema_inv stmts : forall w r w', Forall (fun s => s <> "" /\ TrimSpace s = s) stmts ->
  run (apply_schema stmts) w = (r, w') ->
  aside w w' /\
  match r with
  | Ok _ => sql_log w' = sql_log w ++ plain_stmts stmts
  | Err e => exists front stmt back e0, stmts = front ++ stmt :: back /\ e = stmt_error stmt e0 /\
      sql_log w' = sql_log w ++ plain_stmts (front ++ [stmt])
  end.
Proof.
  induction stmts as [|s stmts IH]; intros w r w' Hs Hr; cbn [apply_schema] in Hr.
  - run_inv. split; [done|]. cbn. by rewrite app_nil_r.
  - apply Forall_cons in Hs as [[Hne Ht] Hs]. rewrite Ht in Hr.
    destruct (String.eqb_spec s "") as [|_]; [done|].
    apply run_bind_inv in Hr as (r1 & w1 & E1 & Hr). apply exec_inv in E1 as [[Hk1 Hh1] Hl1].
    destruct r1 as [u|e1].
    + apply (IH _ _ _ Hs) in Hr as [[Hk Hh] Hr]. split; [split; congruence|].
      destruct r as [u'|e].
      * rewrite Hr, Hl1, <- app_assoc. reflexivity.
      * destruct Hr as (front & stmt & back & e0 & -> & -> & Hl). exists (s :: front), stmt, back, e0.
        split_and!; [reflexivity|reflexivity|]. rewrite Hl, Hl1, <- app_assoc. reflexivity.
    + rewrite run_ret in Hr. injection Hr as <- <-. split; [done|].
      exists [], s, stmts, e1. by split_and!.
Qed.

Definition chosen (driver : string) : string := if String.eqb driver "" then "mysql" else driver.

Lemma registered_name driver name : registered driver = Some name ->
  (driver = "mysql" /\ name = "mysql" /\ is_sqlite driver = false) \/ (name = "sqlite" /\ is_sqlite driver = true).
Proof.
  unfold registered. destruct (String.eqb_spec driver "mysql") as [->|].
  - intros [= <-]. by left.
  - destruct (is_sqlite driver) eqn:E; [|discriminate]. intros [= <-]. by right.
Qed.

Lemma set_up_inv driver db w r w' : run (set_up sqliteSchema driver db) w = (r, w') ->
  aside w w' /\
  match r with
  | Ok db' => db' = db /\
      sql_log w' = sql_log w ++ (if is_sqlite driver then plain_stmts (splitSQLStatements sqliteSchema ++ pragmas) else [])
  | Err e => is_sqlite driver = true /\ exists front stmt back e0,
      splitSQLStatements sqliteSchema = front ++ stmt :: back /\ e = stmt_error stmt e0 /\
      sql_log w' = sql_log w ++ plain_stmts (front ++ [stmt])
  end.
Proof.
  unfold set_up. destruct (is_sqlite driver).
  2:{ rewrite run_ret. intros [= <- <-]. by rewrite app_nil_r. }
  intros Hr. apply run_bind_inv in Hr as (r1 & w1 & E1 & Hr).
  apply (apply_schema_inv _ _ _ _ (split_trimmed sqliteSchema)) in E1 as [[Hk1 Hh1] E1].
  destruct r1 as [u|e].
  - apply run_bind_inv in Hr as (r2 & w2 & E2 & Hr). apply exec_inv in E2 as [[Hk2 Hh2] Hl2].
    apply run_bind_inv in Hr as (r3 & w3 & E3 & Hr). apply exec_inv in E3 as [[Hk3 Hh3] Hl3].
    rewrite run_ret in Hr. injection Hr as <- <-. split; [split; congruence|]. split; [reflexivity|].
    unfold plain_stmts in *. rewrite Hl3, Hl2, E1, map_app, <- !app_assoc. reflexivity.
  - rewrite run_ret in Hr. injection Hr as <- <-. done.
Qed.

(** The driver that a name opens. *)
Definition opens (driver name : string) : Prop :=
  (driver ∈ [""; "mysql"] /\ name = "mysql") \/ (driver ∈ ["sqlite"; "sqlite3"] /\ name = "sqlite").

Lemma opens_registered driver name : registered (chosen driver) = Some name <-> opens driver name.
Proof.
  unfold opens, registered, chosen, is_sqlite. rewrite !elem_of_cons, elem_of_nil.
  destruct (String.eqb_spec driver "") as [->|]; [cbn; naive_solver|].
  destruct (String.eqb_spec driver "mysql") as [->|]; [naive_solver|].
  destruct (String.eqb_spec driver "sqlite") as [->|]; [cbn; naive_solver|].
  destruct (String.eqb_spec driver "sqlite3") as [->|]; cbn; naive_solver.
Qed.

(** C37. Opening the database.  It answers a handle only for a known driver and a
    data source that the driver opened; a MySQL handle without a statement
    run, a SQLite one only after the ping, every statement of the schema in
    order, and the two pragmas.  It fails, nothing executed, only without a
    data source, for an unknown driver, when the driver does not open, or when
    SQLite's ping fails; or, for SQLite, with the schema's statements executed
    up to and including the one the error quotes.  So whatever the ping says,
    MySQL's handle is handed out once its driver has opened. *)
Theorem New_outcome driver dsn w r w' :
  run (New sql_Open Ping sqliteSchema driver dsn) w = (r, w') ->
  keys w' = keys w /\ hub_of w' = hub_of w /\
  (opens driver "mysql" -> dsn <> "" -> sql_Open "mysql" dsn = None -> r = Ok (tuned "mysql" dsn)) /\
  match r with
  | Ok db => exists name, opens driver name /\ dsn <> "" /\ sql_Open name dsn = None /\ db = tuned name dsn /\
      (name = "mysql" /\ sql_log w' = sql_log w \/
       name = "sqlite" /\ Ping db = None /\
       sql_log w' = sql_log w ++ plain_stmts (splitSQLStatements sqliteSchema ++ pragmas))
  | Err e =>
      sql_log w' = sql_log w /\
        (dsn = "" \/ (forall name, ~ opens driver name) \/
         (exists name e0, opens driver name /\ sql_Open name dsn = Some e0 /\
            e = ErrWrap ("db: open " +:+ chosen driver +:+ ": ") e0) \/
         (exists e0, opens driver "sqlite" /\ sql_Open "sqlite" dsn = None /\
            Ping (tuned "sqlite" dsn) = Some e0 /\ e = ErrWrap ("db: ping " +:+ driver +:+ ": ") e0)) \/
      opens driver "sqlite" /\ sql_Open "sqlite" dsn = None /\ Ping (tuned "sqlite" dsn) = None /\
        exists front stmt back e0,
        splitSQLStatements sqliteSchema = front ++ stmt :: back /\ e = stmt_error stmt e0 /\
        sql_log w' = sql_log w ++ plain_stmts (front ++ [stmt])
  end.
Proof.
  intros Hrun. assert (forall A B C D : Prop, A /\ B /\ D -> (A /\ B /\ D -> C) -> A /\ B /\ C /\ D) as Hcut by tauto.
  apply Hcut; clear Hcut.
  2:{ intros (_ & _ & Hr) Hm Hd Ho. assert (forall name, opens driver name -> name = "mysql") as Hone.
      { intros name Hn. apply opens_registered in Hn, Hm. congruence. }
      assert ("sqlite" <> "mysql") as Hne by discriminate.
      destruct r as [db|e].
      - destruct Hr as (name & Hn & _ & _ & -> & _). by rewrite (Hone _ Hn).
      - exfalso. destruct Hr as [[_ [?|[Hno|[(name & e0 & Hn & He & _)|(e0 & Hn & _)]]]]|(Hn & _)];
          [done|by apply (Hno "mysql")| |by apply Hone in Hn|by apply Hone in Hn].
        rewrite (Hone _ Hn) in He. congruence. }
  revert Hrun. unfold New. fold (chosen driver). intros Hr.
  destruct (String.eqb_spec dsn "") as [->|Hd]; [rewrite run_ret in Hr; injection Hr as <- <-; by split_and!; [..|left; split; [|left]]|].
  destruct (registered (chosen driver)) as [name|] eqn:En; cycle 1.
  { rewrite run_ret in Hr. injection Hr as <- <-. split_and!; [done|done|]. left. split; [done|]. right; left.
    intros name Hn. apply opens_registered in Hn. congruence. }
  pose proof (proj1 (opens_registered _ _) En) as Hop.
  destruct (sql_Open name dsn) as [e|] eqn:Eo.
  { rewrite run_ret in Hr. injection Hr as <- <-. split_and!; [done|done|]. left. split; [done|]. right; right; left.
    by exists name, e. }
  destruct (registered_name _ _ En) as [(Em & -> & Esq)|(-> & Esq)].
  - rewrite Em in Hr. cbn [String.eqb Ascii.eqb Bool.eqb] in Hr.
    assert (run (set_up sqliteSchema "mysql" (tuned "mysql" dsn)) w = (r, w')) as Hr'
      by (destruct (Ping (tuned "mysql" dsn)); exact Hr).
    apply set_up_inv in Hr' as [[Hk Hh] Hr']. change (is_sqlite "mysql") with false in Hr'.
    destruct r as [db|]; [|by destruct Hr' as [? _]]. destruct Hr' as [-> Hl]. rewrite app_nil_r in Hl.
    split_and!; [done|done|]. exists "mysql". split_and!; auto.
  - assert (chosen driver = driver) as Ec.
    { destruct Hop as [[_ [=]]|[Hin _]]. apply elem_of_cons in Hin as [->|Hin]; [done|].
      by apply list_elem_of_singleton in Hin as ->. }
    destruct (Ping (tuned "sqlite" dsn)) as [e|] eqn:Ep.
    + destruct (String.eqb_spec (chosen driver) "mysql") as [Em|]; [rewrite Em in Esq; discriminate Esq|].
      rewrite run_ret in Hr. injection Hr as <- <-. split_and!; [done|done|]. left. split; [done|].
      right; right; right. exists e. rewrite Ec. by split_and!.
    + apply set_up_inv in Hr as [[Hk Hh] Hr]. split_and!; [done|done|]. rewrite Esq in Hr. destruct r as [db|e].
      * destruct Hr as [-> Hl]. exists "sqlite". split_and!; try done. right. by split_and!.
      * right. destruct Hr as (_ & Hr). by split_and!.
Qed.

(** MySQL that cannot be reached: the handle is handed out. *)
Lemma mysql_lazy driver dsn w : driver = "" \/ driver = "mysql" -> dsn <> "" -> sql_Open "mysql" dsn = None ->
  run (New sql_Open Ping sqliteSchema driver dsn) w = (Ok (tuned "mysql" dsn), w).
Proof.
  intros Hd Hn Ho. unfold New. destruct (String.eqb_spec dsn "") as [|_]; [done|].
  assert (chosen driver = "mysql") as E by (destruct Hd as [-> | ->]; reflexivity).
  unfold chosen in E. rewrite E. change (registered "mysql") with (Some "mysql"). cbv iota. rewrite Ho. cbv zeta.
  destruct (Ping _); reflexivity.
Qed.

(** [MustNew] panics exactly when [New] fails. *)
Lemma MustNew_panics driver dsn w e w' :
  run (MustNew sql_Open Ping sqliteSchema driver dsn) w = (inr e, w') <->
  run (New sql_Open Ping sqliteSchema driver dsn) w = (Err e, w').
Proof.
  unfold MustNew. rewrite run_bind. destruct (run (New _ _ _ _ _) w) as [[d|e'] w1]; rewrite run_ret;
    split; (intros E; injection E as E1 E2; first [discriminate | by subst | by injection E1 as ->; subst]).
Qed.
End opening.

(** A statement quoted in an error is cut to 200 bytes and an ellipsis. *)
Lemma truncate_short s n : 0 <= n -> Z.of_nat (String.length (truncate s n)) <= n + 3.
Proof.
  intros Hn. unfold truncate. destruct (Z.leb_spec (Z.of_nat (String.length s)) n); [lia|].
  unfold prefix_bytes. rewrite append_length. cbn [String.length].
  enough (forall k t, (String.length (String.substring 0 k t) <= k)%nat) as Hs
    by (specialize (Hs (Z.to_nat n) s); lia).
  intros k. induction k as [|k IH]; intros t; destruct t; cbn; try lia. specialize (IH t). lia.
Qed.

(** A fresh SQLite file: two statements and the pragmas; and a schema whose
    second statement fails. *)
Definition sqlite_world (exec : string -> list Sql.sqlval -> res unit) : MiniWorld :=
  set_db (fun _ _ => Err Sql.ErrNoRows) exec (mini 0 ∅).
Definition demo_schema : string := "CREATE TABLE a (x INTEGER); CREATE TABLE b (y TEXT);".
Definition second_fails (q : string) (_ : list Sql.sqlval) : res unit :=
  if HasPrefix q "CREATE TABLE b" then Err (ErrMsg "disk I/O error") else Ok tt.

(** SQLite on a fresh file, SQLite with a failing statement, and MySQL whose
    ping failed. *)
Lemma New_outcome_witness :
  (let p := run (New (fun _ _ => None) (fun _ => None) demo_schema "sqlite" "file.db") (sqlite_world (fun _ _ => Ok tt)) in
   p.1 = Ok (tuned "sqlite" "file.db") /\
   sql_log p.2 = plain_stmts ["CREATE TABLE a (x INTEGER)"; "CREATE TABLE b (y TEXT)";
                              "PRAGMA journal_mode=WAL;"; "PRAGMA foreign_keys=ON;"]) /\
  (let p := run (New (fun _ _ => None) (fun _ => None) demo_schema "sqlite" "file.db") (sqlite_world second_fails) in
   is_ok p.1 = false /\ keys p.2 = ∅) /\
  (let p := run (New (fun _ _ => None) (fun _ => Some (ErrMsg "i/o timeout")) demo_schema "" "root@tcp(db)/x")
              (sqlite_world second_fails) in
   p.1 = Ok (tuned "mysql" "root@tcp(db)/x")).
Proof.
  split; [split; vm_compute; reflexivity|]. split; [split; [vm_compute; reflexivity|]|].
  - exact (proj1 (New_outcome _ _ _ _ _ _ _ _ (surjective_pairing _))).
  - refine (proj1 (proj2 (proj2 (New_outcome _ _ _ _ _ _ _ _ (surjective_pairing _)))) _ _ _);
      [left; split; [by left|reflexivity]|discriminate|reflexivity].
Defined.
End Db.
