(* ===== verification/Metrics.v ===== *)
(** * Metric groups (src/common/observability/metrics.go)

    Groups of Prometheus metrics, one per family, dimension or database, and
    the process-wide ones.  Registering the same metric twice panics, so each
    group is created once and kept.  The Prometheus client is third-party
    code: a registry is anything with the laws of [Registerer]. *)

From S2P Require Import Prelude GoStr.

Module Metrics.

(** ** The registry's interface *)

(** What a metric is registered as: name, help text, constant labels, the
    names of its variable labels. *)
Record desc : Type := MkDesc {
  d_name : string; d_help : string; ConstLabels : list (string * string); d_vars : list string }.
#[global] Instance desc_eq_dec : EqDecision desc.
Proof. solve_decision. Defined.

(** Metrics of one name have the same help text and label names. *)
Definition same_dims (d d' : desc) : Prop :=
  d_help d = d_help d' /\ map fst (ConstLabels d) = map fst (ConstLabels d') /\ d_vars d = d_vars d'.

(** [register] is promauto's: [None] is the panic of MustRegister.  [valid]
    says which label values the client takes (UTF-8 text). *)
Class Registerer (R : Type) : Type := {
  register : desc -> R -> option R;
  has : R -> desc -> Prop;
  valid : string -> bool;
  register_new : forall d r, Forall (fun l => valid l.2 = true) (ConstLabels d) -> ~ has r d ->
    (forall d', has r d' -> d_name d' = d_name d -> same_dims d' d) ->
    exists r', register d r = Some r' /\ forall d', has r' d' <-> d' = d \/ has r d';
  register_twice : forall d r, has r d -> register d r = None;
}.

(** ** The groups *)

(** A metric's handle is what it is registered as. *)
Record CacheMetrics : Type := MkCache { Hits : desc; Misses : desc; Errors : desc; Latency : desc }.
Record DegradeMetrics : Type := MkDegrade { Mode : desc }.
Record RateLimitMetrics : Type := MkRate { Denied : desc }.
Record DBMetrics : Type := MkDBMetrics {
  Queries : desc; QErrors : desc; QLatency : desc; SemWaiting : desc; SemAcquired : desc }.
Record FallbackMetrics : Type := MkFallback { FHits : desc; FMisses : desc }.
Record HttpVecs : Type := MkHttpVecs { httpRequestsTotal : desc; httpRequestDuration : desc }.

Definition DegradeModeNormal : Z := 0.
Definition DegradeModeDegraded : Z := 1.
Definition DegradeModeProtected : Z := 2.
Definition DegradeModeEmergency : Z := 3.

(** What each group consists of. *)
Definition CacheGroup (family : string) : CacheMetrics :=
  let constLabels := [("family", family)] in
  MkCache (MkDesc "apipro_cache_hits_total" "Total number of cache hits." constLabels [])
    (MkDesc "apipro_cache_misses_total" "Total number of cache misses (loader invoked)." constLabels [])
    (MkDesc "apipro_cache_errors_total" "Total number of cache loader errors." constLabels [])
    (MkDesc "apipro_cache_latency_seconds" "Cache GetOrLoad latency in seconds." constLabels []).

Definition DegradeGroup : DegradeMetrics :=
  MkDegrade (MkDesc "apipro_degrade_mode"
    "Current degrade mode (0=NORMAL, 1=DEGRADED, 2=PROTECTED, 3=EMERGENCY)." [] []).

Definition RateLimitGroup (dim : string) : RateLimitMetrics :=
  MkRate (MkDesc "apipro_ratelimit_denied_total" "Total number of requests denied by the rate limiter." [("dim", dim)] []).

Definition DBGroup (name : string) : DBMetrics :=
  let constLabels := [("name", name)] in
  MkDBMetrics (MkDesc "apipro_db_queries_total" "Total number of DB queries executed." constLabels [])
    (MkDesc "apipro_db_errors_total" "Total number of DB query errors." constLabels [])
    (MkDesc "apipro_db_latency_seconds" "DB query latency in seconds." constLabels [])
    (MkDesc "apipro_db_sem_waiting" "Number of goroutines currently waiting to acquire the DB semaphore." constLabels [])
    (MkDesc "apipro_db_sem_acquired" "Number of DB semaphore permits currently held." constLabels []).

Definition FallbackGroup : FallbackMetrics :=
  MkFallback
    (MkDesc "apipro_fallback_hits_total" "Total number of fallback source hits, labeled by source (l1/oss/cdn)." [] ["source"])
    (MkDesc "apipro_fallback_misses_total" "Total number of fallback source misses (no fallback was available)." [] []).

(** middleware.go's two vectors. *)
Definition HttpGroup : HttpVecs :=
  MkHttpVecs (MkDesc "apipro_http_requests_total" "Total number of HTTP requests." [] ["method"; "path"; "status"])
    (MkDesc "apipro_http_request_duration_seconds" "HTTP request latency in seconds." [] ["method"; "path"]).

Section metrics.
Context {R : Type} `{Registerer R}.

(** The package's variables, the registry, and the value of the mode gauge. *)
Record State : Type := MkState {
  registry : R;
  cacheMetricsCache : gmap string CacheMetrics;
  degradeMetricsInst : option DegradeMetrics;
  rateLimitMetricsCache : gmap string RateLimitMetrics;
  dbMetricsCache : gmap string DBMetrics;
  fallbackMetricsInst : option FallbackMetrics;
  httpMetrics : option HttpVecs;
  mode_gauge : option Z }.

(** A call that may panic. *)
Definition M (A : Type) : Type := State -> option (A * State).
#[local] Instance M_ret : MRet M := fun A a s => Some (a, s).
#[local] Instance M_bind : MBind M := fun A B k m s => match m s with Some (a, s') => k a s' | None => None end.

Definition on_registry (r : R) (s : State) : State :=
  MkState r (cacheMetricsCache s) (degradeMetricsInst s) (rateLimitMetricsCache s) (dbMetricsCache s)
    (fallbackMetricsInst s) (httpMetrics s) (mode_gauge s).

(** promauto.NewCounter, NewGauge, NewHistogram and the vectors. *)
Definition promauto (d : desc) : M unit := fun s =>
  match register d (registry s) with Some r => Some (tt, on_registry r s) | None => None end.

(** Store the new group and return it. *)
Definition keep {A} (m : A) (f : State -> State) : M A := fun s => Some (m, f s).

(** The group in memory, or the one made now. *)
Definition memo {A} (look : State -> option A) (create : M A) : M A := fun s =>
  match look s with Some m => Some (m, s) | None => create s end.

Definition NewCacheMetrics (family : string) : M CacheMetrics :=
  memo (fun s => cacheMetricsCache s !! family)
    (let m := CacheGroup family in
     _ ← promauto (Hits m); _ ← promauto (Misses m); _ ← promauto (Errors m); _ ← promauto (Latency m);
     keep m (fun s => MkState (registry s) (<[family := m]> (cacheMetricsCache s)) (degradeMetricsInst s)
       (rateLimitMetricsCache s) (dbMetricsCache s) (fallbackMetricsInst s) (httpMetrics s) (mode_gauge s))).

Definition NewDegradeMetrics : M DegradeMetrics :=
  memo degradeMetricsInst
    (let m := DegradeGroup in
     _ ← promauto (Mode m);
     keep m (fun s => MkState (registry s) (cacheMetricsCache s) (Some m) (rateLimitMetricsCache s)
       (dbMetricsCache s) (fallbackMetricsInst s) (httpMetrics s) (Some DegradeModeNormal))).

Definition NewRateLimitMetrics (dim : string) : M RateLimitMetrics :=
  memo (fun s => rateLimitMetricsCache s !! dim)
    (let m := RateLimitGroup dim in
     _ ← promauto (Denied m);
     keep m (fun s => MkState (registry s) (cacheMetricsCache s) (degradeMetricsInst s)
       (<[dim := m]> (rateLimitMetricsCache s)) (dbMetricsCache s) (fallbackMetricsInst s) (httpMetrics s)
       (mode_gauge s))).

Definition NewDBMetrics (name : string) : M DBMetrics :=
  memo (fun s => dbMetricsCache s !! name)
    (let m := DBGroup name in
     _ ← promauto (Queries m); _ ← promauto (QErrors m); _ ← promauto (QLatency m);
     _ ← promauto (SemWaiting m); _ ← promauto (SemAcquired m);
     keep m (fun s => MkState (registry s) (cacheMetricsCache s) (degradeMetricsInst s) (rateLimitMetricsCache s)
       (<[name := m]> (dbMetricsCache s)) (fallbackMetricsInst s) (httpMetrics s) (mode_gauge s))).

Definition NewFallbackMetrics : M FallbackMetrics :=
  memo fallbackMetricsInst
    (let m := FallbackGroup in
     _ ← promauto (FHits m); _ ← promauto (FMisses m);
     keep m (fun s => MkState (registry s) (cacheMetricsCache s) (degradeMetricsInst s) (rateLimitMetricsCache s)
       (dbMetricsCache s) (Some m) (httpMetrics s) (mode_gauge s))).

(** middleware.go. *)
Definition initHTTPMetrics : M HttpVecs :=
  memo httpMetrics
    (let m := HttpGroup in
     _ ← promauto (httpRequestsTotal m); _ ← promauto (httpRequestDuration m);
     keep m (fun s => MkState (registry s) (cacheMetricsCache s) (degradeMetricsInst s) (rateLimitMetricsCache s)
       (dbMetricsCache s) (fallbackMetricsInst s) (Some m) (mode_gauge s))).

(** ** Sequences of calls *)
Inductive call : Type := CCache (family : string) | CDegrade | CRate (dim : string) | CDB (name : string) | CFallback | CHTTP.
#[global] Instance call_eq_dec : EqDecision call.
Proof. solve_decision. Defined.

(** The group a call answers with. *)
Inductive group : Type :=
| GCache (m : CacheMetrics) | GDegrade (m : DegradeMetrics) | GRate (m : RateLimitMetrics) | GDB (m : DBMetrics)
| GFallback (m : FallbackMetrics) | GHTTP (m : HttpVecs).

Definition do_call (c : call) : M group :=
  match c with
  | CCache f => m ← NewCacheMetrics f; mret (GCache m)
  | CDegrade => m ← NewDegradeMetrics; mret (GDegrade m)
  | CRate d => m ← NewRateLimitMetrics d; mret (GRate m)
  | CDB n => m ← NewDBMetrics n; mret (GDB m)
  | CFallback => m ← NewFallbackMetrics; mret (GFallback m)
  | CHTTP => m ← initHTTPMetrics; mret (GHTTP m)
  end.

Fixpoint do_calls (l : list call) : M (list group) :=
  match l with [] => mret [] | c :: l => g ← do_call c; gs ← do_calls l; mret (g :: gs) end.

(** What a call has in memory already. *)
Definition cached (c : call) (s : State) : option group :=
  match c with
  | CCache f => GCache <$> cacheMetricsCache s !! f
  | CDegrade => GDegrade <$> degradeMetricsInst s
  | CRate d => GRate <$> rateLimitMetricsCache s !! d
  | CDB n => GDB <$> dbMetricsCache s !! n
  | CFallback => GFallback <$> fallbackMetricsInst s
  | CHTTP => GHTTP <$> httpMetrics s
  end.

Definition group_of (c : call) : group :=
  match c with
  | CCache f => GCache (CacheGroup f) | CDegrade => GDegrade DegradeGroup | CRate d => GRate (RateLimitGroup d)
  | CDB n => GDB (DBGroup n) | CFallback => GFallback FallbackGroup | CHTTP => GHTTP HttpGroup
  end.

Definition group_descs (g : group) : list desc :=
  match g with
  | GCache m => [Hits m; Misses m; Errors m; Latency m]
  | GDegrade m => [Mode m]
  | GRate m => [Denied m]
  | GDB m => [Queries m; QErrors m; QLatency m; SemWaiting m; SemAcquired m]
  | GFallback m => [FHits m; FMisses m]
  | GHTTP m => [httpRequestsTotal m; httpRequestDuration m]
  end.

Definition call_label (c : call) : list (string * string) :=
  match c with
  | CCache f => [("family", f)] | CRate d => [("dim", d)] | CDB n => [("name", n)] | _ => []
  end.
Definition valid_call (c : call) : Prop := Forall (fun l => valid l.2 = true) (call_label c).

Definition descs (c : call) : list desc := group_descs (group_of c).

Definition own_names : list string :=
  ["apipro_cache_hits_total"; "apipro_cache_misses_total"; "apipro_cache_errors_total"; "apipro_cache_latency_seconds";
   "apipro_degrade_mode"; "apipro_ratelimit_denied_total"; "apipro_db_queries_total"; "apipro_db_errors_total";
   "apipro_db_latency_seconds"; "apipro_db_sem_waiting"; "apipro_db_sem_acquired"; "apipro_fallback_hits_total";
   "apipro_fallback_misses_total"; "apipro_http_requests_total"; "apipro_http_request_duration_seconds"].

(** ** The metrics of different groups differ *)
Ltac descs_cases :=
  cbn [descs group_of call_label group_descs CacheGroup DegradeGroup RateLimitGroup DBGroup FallbackGroup HttpGroup Hits Misses Errors
    Latency Mode Denied Queries QErrors QLatency SemWaiting SemAcquired FHits FMisses httpRequestsTotal httpRequestDuration In];
  rewrite ?list_elem_of_In; cbn [In].

Lemma in_descs c d : d ∈ descs c -> d_name d ∈ own_names /\ ConstLabels d = call_label c.
Proof.
  destruct c; descs_cases; intros Hd; repeat destruct Hd as [<-|Hd]; try contradiction;
    (split; [|reflexivity]); cbn; tauto.
Qed.

Lemma same_name c c' d d' : d ∈ descs c -> d' ∈ descs c' -> d_name d = d_name d' ->
  same_dims d d' /\ (ConstLabels d = ConstLabels d' -> c = c').
Proof.
  unfold descs. intros Hd Hd' Hn.
  destruct c, c'; revert Hd Hd' Hn; descs_cases; intros Hd Hd';
    repeat (destruct Hd as [<-|Hd]); repeat (destruct Hd' as [<-|Hd']);
    cbn [d_name]; intros Hn; try discriminate Hn; try contradiction;
    (split; [by repeat split|cbn [ConstLabels]; congruence]).
Qed.

Lemma descs_nodup c : NoDup (descs c).
Proof. apply (NoDup_fmap_1 d_name). by destruct c; apply (bool_decide_unpack _); vm_compute. Qed.

(** ** Creating a group *)

(** Registering in order. *)
Fixpoint promauto_all (l : list desc) : M unit :=
  match l with [] => mret tt | d :: l => _ ← promauto d; promauto_all l end.

Lemma promauto_all_ok l : forall s, NoDup l ->
  Forall (fun d => Forall (fun v => valid v.2 = true) (ConstLabels d)) l ->
  (forall d, d ∈ l -> ~ has (registry s) d) ->
  (forall d d', d ∈ l -> has (registry s) d' \/ d' ∈ l -> d_name d' = d_name d -> same_dims d' d) ->
  exists r, promauto_all l s = Some (tt, on_registry r s) /\ forall d, has r d <-> d ∈ l \/ has (registry s) d.
Proof.
  induction l as [|d l IH]; intros s Hnd Hv Hnew Hdim.
  - exists (registry s). split; [by destruct s|]. intros d. rewrite elem_of_nil. tauto.
  - apply NoDup_cons in Hnd as [Hd Hnd]. apply Forall_cons in Hv as [Hvd Hv].
    destruct (register_new d (registry s) Hvd) as (r & Er & Hr).
    { apply Hnew. by left. }
    { intros d' Hd' Hn. apply Hdim; [by left|by left|exact Hn]. }
    destruct (IH (on_registry r s) Hnd Hv) as (r' & Er' & Hr').
    { intros d' Hd' Hh. cbn in Hh. apply Hr in Hh as [->|Hh]; [exact (Hd Hd')|].
      apply (Hnew d'); [by right|exact Hh]. }
    { intros d1 d2 H1 H2 Hn. apply Hdim; [by right| |exact Hn]. cbn in H2. rewrite Hr in H2. rewrite elem_of_cons. tauto. }
    exists r'. split.
    + cbn [promauto_all]. unfold mbind, M_bind, promauto at 1. rewrite Er. rewrite Er'. reflexivity.
    + intros d'. rewrite Hr'. cbn. rewrite Hr, elem_of_cons. tauto.
Qed.

(** A call answers from memory. *)
Lemma do_call_cached c s g : cached c s = Some g -> do_call c s = Some (g, s).
Proof.
  destruct c; cbn [do_call cached];
    unfold NewCacheMetrics, NewDegradeMetrics, NewRateLimitMetrics, NewDBMetrics, NewFallbackMetrics, initHTTPMetrics, memo;
    unfold mbind, M_bind, mret, M_ret;
    match goal with |- context [fmap _ ?x] => destruct x; [|discriminate] end; by intros [= <-].
Qed.

(** Or it registers its metrics and keeps the group. *)
Lemma do_call_new c s r : cached c s = None -> promauto_all (descs c) s = Some (tt, on_registry r s) ->
  exists s', do_call c s = Some (group_of c, s') /\ registry s' = r /\
    forall c', cached c' s' = if decide (c' = c) then Some (group_of c) else cached c' s.
Proof.
  intros Hc E. destruct c; cbn [do_call cached] in *;
    unfold NewCacheMetrics, NewDegradeMetrics, NewRateLimitMetrics, NewDBMetrics, NewFallbackMetrics, initHTTPMetrics, memo;
    cbn [descs group_of group_descs promauto_all] in E; unfold mbind, M_bind, mret, M_ret in *;
    match goal with H : fmap _ ?x = None |- _ => destruct x eqn:Hx; [discriminate H|] end; cbv zeta;
    repeat match goal with
    | |- context [promauto ?d ?s] => destruct (promauto d s) as [[[] ?]|] eqn:?; [|discriminate E]
    end; injection E as ->; unfold keep;
    (eexists; split; [reflexivity|split; [reflexivity|]]);
    intros c'; destruct (decide _) as [->|Hne]; cbn [cached cacheMetricsCache rateLimitMetricsCache dbMetricsCache
      degradeMetricsInst fallbackMetricsInst httpMetrics on_registry];
    rewrite ?lookup_insert_eq; try reflexivity;
    destruct c'; cbn [cached cacheMetricsCache rateLimitMetricsCache dbMetricsCache
      degradeMetricsInst fallbackMetricsInst httpMetrics on_registry]; try reflexivity; try congruence;
    (rewrite lookup_insert_ne; [reflexivity|]; intros Hxx; apply Hne; by rewrite Hxx).
Qed.

(** ** The invariant *)

(** Each group in memory is the group of its name, and every metric of ours
    that is registered belongs to a group in memory. *)
Definition consistent (s : State) : Prop :=
  (forall c g, cached c s = Some g -> g = group_of c) /\
  (forall d, has (registry s) d -> d_name d ∈ own_names -> exists c, is_Some (cached c s) /\ d ∈ descs c).

Definition start (r : R) : State := MkState r ∅ None ∅ ∅ None None None.

Lemma start_consistent r : (forall d, has r d -> d_name d ∉ own_names) -> consistent (start r).
Proof.
  intros Hr. split.
  - intros c g. destruct c; cbn; rewrite ?lookup_empty; discriminate.
  - intros d Hd Hn. by destruct (Hr d Hd).
Qed.

Lemma do_call_ok c s : consistent s -> valid_call c ->
  exists s', do_call c s = Some (group_of c, s') /\ consistent s'.
Proof.
  intros [Hg Hr] Hv. destruct (cached c s) as [g|] eqn:Ec.
  { exists s. rewrite (do_call_cached _ _ _ Ec), (Hg _ _ Ec). by split. }
  destruct (promauto_all_ok (descs c) s (descs_nodup c)) as (r & E & Hh).
  - apply Forall_forall. intros d Hd. apply in_descs in Hd as [_ ->]. exact Hv.
  - intros d Hd Hin. destruct (in_descs _ _ Hd) as [Hn Hl]. destruct (Hr d Hin Hn) as (c' & [g Hc'] & Hd').
    destruct (same_name _ _ _ _ Hd Hd' eq_refl) as [_ Heq]. rewrite (Heq eq_refl) in Ec. congruence.
  - intros d d' Hd Hin Hn. destruct (in_descs _ _ Hd) as [Ho _]. destruct Hin as [Hin|Hin].
    + rewrite <- Hn in Ho. destruct (Hr d' Hin Ho) as (c' & _ & Hd'). exact (proj1 (same_name _ _ _ _ Hd' Hd Hn)).
    + exact (proj1 (same_name _ _ _ _ Hin Hd Hn)).
  - destruct (do_call_new c s r Ec E) as (s' & Ed & Es & Hs'). exists s'. split; [exact Ed|]. split.
    + intros c' g. rewrite Hs'. destruct (decide (c' = c)) as [->|]; [by intros [= <-]|apply Hg].
    + intros d Hd Hn. rewrite Es in Hd. apply Hh in Hd as [Hd|Hd].
      * exists c. split; [|exact Hd]. rewrite Hs', decide_True by done. by eexists.
      * destruct (Hr d Hd Hn) as (c' & [g Hc'] & Hd'). exists c'. split; [|exact Hd'].
        rewrite Hs'. destruct (decide _); [by eexists|by exists g].
Qed.

Lemma do_calls_ok l : forall s, consistent s -> Forall valid_call l ->
  exists s', do_calls l s = Some (map group_of l, s') /\ consistent s'.
Proof.
  induction l as [|c l IH]; intros s Hs Hv; [by exists s|].
  apply Forall_cons in Hv as [Hc Hv]. destruct (do_call_ok c s Hs Hc) as (s1 & E1 & Hs1).
  destruct (IH s1 Hs1 Hv) as (s2 & E2 & Hs2). exists s2. split; [|exact Hs2].
  cbn [do_calls map]. unfold mbind, M_bind. by rewrite E1, E2.
Qed.

Lemma group_of_inj c c' : group_of c = group_of c' -> c = c'.
Proof.
  destruct c, c'; cbv [group_of CacheGroup RateLimitGroup DBGroup]; intros E; congruence.
Qed.

(** In a process that registered none of these metrics elsewhere, and with
    label values the client takes, no sequence of calls panics on a duplicate
    registration, whatever names repeat: the calls answer, two calls answer the
    same group exactly when they ask for the same kind and name, and what is
    registered under these names is what belongs to the groups in memory. *)
Theorem registration_idempotent r l : (forall d, has r d -> d_name d ∉ own_names) -> Forall valid_call l ->
  exists gs s, do_calls l (start r) = Some (gs, s) /\ length gs = length l /\
    (forall i j c c' g g', l !! i = Some c -> l !! j = Some c' -> gs !! i = Some g -> gs !! j = Some g' ->
      g = g' <-> c = c') /\
    forall d, has (registry s) d -> d_name d ∈ own_names -> exists c g, cached c s = Some g /\ d ∈ group_descs g.
Proof.
  intros Hr Hv. destruct (do_calls_ok l _ (start_consistent r Hr) Hv) as (s & E & Hg & Hs).
  exists (map group_of l), s. split_and!; [exact E|apply length_map| |].
  - intros i j c c' g g' Hi Hj Hgi Hgj.
    rewrite list_lookup_fmap, Hi in Hgi. rewrite list_lookup_fmap, Hj in Hgj.
    injection Hgi as <-. injection Hgj as <-. split; [apply group_of_inj|congruence].
  - intros d Hd Hn. destruct (Hs d Hd Hn) as (c & [g Hc] & Hd'). exists c, g. split; [exact Hc|].
    by rewrite (Hg _ _ Hc).
Qed.
End metrics.
Arguments State : clear implicits.

(** A registry of descriptors, as the client keeps one: it refuses duplicates
    and other dimensions under a name, and takes ASCII label values. *)
Definition same_dimsb (d d' : desc) : bool :=
  bool_decide (d_help d = d_help d' /\ map fst (ConstLabels d) = map fst (ConstLabels d') /\ d_vars d = d_vars d').
Definition ascii_value (s : string) : bool := forallb (fun b => Z_of_byte b <? 128) (bytes_of s).

Definition list_register (d : desc) (r : list desc) : option (list desc) :=
  if forallb (fun l => ascii_value l.2) (ConstLabels d) && bool_decide (d ∉ r) &&
     forallb (fun d' => negb (String.eqb (d_name d') (d_name d)) || same_dimsb d' d) r
  then Some (d :: r) else None.

#[global] Program Instance list_registerer : Registerer (list desc) := {|
  register := list_register; has r d := d ∈ r; valid := ascii_value |}.
Next Obligation.
  intros d r Hv Hn Hd. exists (d :: r). split; [|intros d'; apply elem_of_cons]. unfold list_register.
  apply forallb_True in Hv. rewrite Hv, bool_decide_eq_true_2 by exact Hn.
  replace (forallb _ r) with true; [done|]. symmetry. apply forallb_True, Forall_forall. intros d' Hd'.
  destruct (String.eqb_spec (d_name d') (d_name d)) as [E|]; [|done]. cbn [negb orb].
  apply bool_decide_eq_true_2. exact (Hd d' Hd' E).
Qed.
Next Obligation.
  intros d r Hd. unfold list_register. rewrite bool_decide_eq_false_2 by tauto.
  by rewrite andb_false_r.
Qed.

Lemma registration_idempotent_witness :
  let l := [CCache "match"; CDB "mysql-main"; CCache "live"; CDegrade; CCache "match"; CDegrade; CHTTP] in
  exists gs s, do_calls l (start (R := list desc) [MkDesc "go_goroutines" "" [] []]) = Some (gs, s) /\ length gs = 7%nat /\
    (gs !! 0%nat = gs !! 4%nat) /\ length (registry s) = 17%nat.
Proof.
  intros l. unshelve epose proof (registration_idempotent (R := list desc) [MkDesc "go_goroutines" "" [] []] l _ _) as Hr.
  - intros d Hd. apply list_elem_of_singleton in Hd as ->. apply (bool_decide_unpack _). vm_compute. exact I.
  - repeat constructor.
  - destruct Hr as (gs & s & E & Hl & _). exists gs, s. split_and!; [exact E|exact Hl| |];
      vm_compute in E; injection E as <- <-; reflexivity.
Defined.

(** Without the groups kept in memory, the second call would panic. *)
Example second_registration_panics :
  promauto (R := list desc) (Mode DegradeGroup) (start [Mode DegradeGroup]) = None.
Proof. vm_compute. reflexivity. Qed.
End Metrics.
