(* ===== verification/Observe.v ===== *)
(** * Observability (src/common/observability)

    Request ids and the context that carries them (requestid.go), and the HTTP
    middlewares with the writer that records the status (middleware.go).  A
    handler is known by the calls it makes on its writer; what reaches the
    client is computed by a server's writer fed with these calls.  The metric
    groups are in [Metrics]. *)

From S2P Require Import Prelude GoStr Aes Codec Json Hub Sql Env.

Module Observe.

(** ** Request ids (requestid.go) *)

(** Context keys: the package's own [ctxKey{}], and those of others. *)
Inductive ctxkey : Type := ReqIDKey | OtherKey (name : string).
#[global] Instance ctxkey_eq_dec : EqDecision ctxkey.
Proof. solve_decision. Defined.

(** A [context.Context]: nil, or the values attached to it, last first. *)
Definition Ctx : Type := option (list (ctxkey * string)).

Definition Background : list (ctxkey * string) := [].

Fixpoint Value (k : ctxkey) (c : list (ctxkey * string)) : option string :=
  match c with
  | [] => None
  | (k', v) :: c => if decide (k = k') then Some v else Value k c
  end.

Definition RequestIDHeader : string := "X-Request-ID".

Definition NewRequestID : prog string :=
  r ← rand_read 8;
  mret (match r with Ok b => hex_encode b | Err _ => "0000000000000000" end).

Definition WithRequestID (ctx : Ctx) (id : string) : Ctx :=
  Some ((ReqIDKey, id) :: default Background ctx).

Definition RequestIDFromContext (ctx : Ctx) : string :=
  match ctx with None => "" | Some c => default "" (Value ReqIDKey c) end.

(** The parts of an [*http.Request] these files look at.  [Get] looks a header
    up, the empty string if it is absent. *)
Record Request : Type := MkRequest {
  r_ctx : Ctx; r_Header : string -> string; Method : string; Path : string; RemoteAddr : string }.

Definition WithContext (ctx : Ctx) (r : Request) : Request :=
  MkRequest ctx (r_Header r) (Method r) (Path r) (RemoteAddr r).

Definition RequestIDFromRequest (r : option Request) : string :=
  match r with
  | None => ""
  | Some r =>
    let id := RequestIDFromContext (r_ctx r) in
    if String.eqb id "" then r_Header r RequestIDHeader else id
  end.

(** ** Writing a response (net/http) *)

(** The calls a handler makes on its writer, in order. *)
Inductive wop : Type :=
| DoSet (name value : string)         (* Header().Set *)
| DoWriteHeader (code : Z)
| DoWrite (b : bytes).

(** A server's writer: the header map, the informational statuses sent, and
    the final status with the headers as they were when it was sent.  The body
    is left out. *)
Record Writer : Type := MkWriter {
  w_header : gmap string string; w_info : list Z; w_sent : option (Z * gmap string string) }.

Definition fresh_writer : Writer := MkWriter ∅ [] None.

Definition send (code : Z) (w : Writer) : Writer :=
  match w_sent w with
  | Some _ => w
  | None => MkWriter (w_header w) (w_info w) (Some (code, w_header w))
  end.

(** 1xx but 101 are sent at once and leave the final status open; a second
    final status is ignored; a code outside 100-999 panics. *)
Definition http_op (w : Writer) (o : wop) : option Writer :=
  match o with
  | DoSet k v => Some (MkWriter (<[k := v]> (w_header w)) (w_info w) (w_sent w))
  | DoWrite _ => Some (send 200 w)
  | DoWriteHeader code =>
    match w_sent w with
    | Some _ => Some w
    | None =>
      if (code <? 100) || (999 <? code) then None
      else if (code <=? 199) && negb (code =? 101)
      then Some (MkWriter (w_header w) (w_info w ++ [code]) None)
      else Some (send code w)
    end
  end.

Fixpoint http_ops (l : list wop) (w : Writer) : option Writer :=
  match l with [] => Some w | o :: l => w' ← http_op w o; http_ops l w' end.

(** What the client gets: the server sends 200 when the handler sent nothing. *)
Definition response (w : Writer) : Z * gmap string string := default (200, w_header w) (w_sent w).

(** ** statusRecorder (middleware.go) *)

(** The writer below is the list of calls that reached it. *)
Record statusRecorder : Type := MkRecorder { ResponseWriter : list wop; status : Z; wroteHeader : bool }.

Definition newStatusRecorder : statusRecorder := MkRecorder [] 200 false.

Definition WriteHeader (code : Z) (r : statusRecorder) : statusRecorder :=
  if wroteHeader r then r else MkRecorder (ResponseWriter r ++ [DoWriteHeader code]) code true.

Definition Write (b : bytes) (r : statusRecorder) : statusRecorder :=
  MkRecorder (ResponseWriter r ++ [DoWrite b]) (status r) true.

Definition rec_op (r : statusRecorder) (o : wop) : statusRecorder :=
  match o with
  | DoSet _ _ => MkRecorder (ResponseWriter r ++ [o]) (status r) (wroteHeader r)
  | DoWriteHeader c => WriteHeader c r
  | DoWrite b => Write b r
  end.

Definition record_ops (l : list wop) : statusRecorder := foldl rec_op newStatusRecorder l.

(** ** The middlewares *)

(** The arguments of the log line. *)
Record LogLine : Type := MkLog {
  l_method : string; l_path : string; l_status : Z; l_latency : Z; l_request_id : string; l_remote : string }.

(** What a handler leaves behind beside its response: log lines, and
    observations of the HTTP metrics (method, path, status, latency in ns). *)
Inductive note : Type := NLog (l : LogLine) | NHTTP (m p st : string) (latency : Z).

(** A handler that returns: the calls it makes on its writer, and its notes. *)
Definition HandlerFunc : Type := Request -> prog (list wop * list note).

Definition RequestIDMiddleware (next : HandlerFunc) : HandlerFunc := fun r =>
  let id := r_Header r RequestIDHeader in
  id ← (if String.eqb id "" then NewRequestID else mret id);
  o ← next (WithContext (WithRequestID (r_ctx r) id) r);
  mret (DoSet RequestIDHeader id :: o.1, o.2).

Definition LoggingMiddleware (next : HandlerFunc) : HandlerFunc := fun r =>
  start ← now;
  o ← next r;
  let rec := record_ops o.1 in
  stop ← now;
  let reqID := RequestIDFromContext (r_ctx r) in
  mret (ResponseWriter rec,
        o.2 ++ [NLog (MkLog (Method r) (Path r) (status rec) (stop - start) reqID (RemoteAddr r))]).

Definition HTTPMetricsMiddleware (next : HandlerFunc) : HandlerFunc := fun r =>
  start ← now;
  o ← next r;
  let rec := record_ops o.1 in
  stop ← now;
  mret (ResponseWriter rec, o.2 ++ [NHTTP (Method r) (Path r) (FormatInt (status rec)) (stop - start)]).

(** The labelled counters and the observed latencies. *)
Record HTTPMetrics : Type := MkHTTP {
  httpRequestsTotal : gmap (string * string * string) Z; httpRequestDuration : gmap (string * string) (list Z) }.

Definition observe (h : HTTPMetrics) (n : note) : HTTPMetrics :=
  match n with
  | NLog _ => h
  | NHTTP m p st d =>
    MkHTTP (<[(m, p, st) := default 0 (httpRequestsTotal h !! (m, p, st)) + 1]> (httpRequestsTotal h))
           (<[(m, p) := default [] (httpRequestDuration h !! (m, p)) ++ [d]]> (httpRequestDuration h))
  end.

(** ** What the recorder records *)

(** A final status: not informational. *)
Definition final_op (o : wop) : Prop :=
  match o with DoWriteHeader c => 200 <= c <= 999 \/ c = 101 | _ => True end.

Lemma http_ops_app l k w : http_ops (l ++ k) w = (w' ← http_ops l w; http_ops k w').
Proof.
  revert w. induction l as [|o l IH]; intros w; [done|]. cbn [app http_ops].
  destruct (http_op w o); [apply IH|done].
Qed.

(** The recorder and the server's writer agree at every moment. *)
Definition agree (r : statusRecorder) (w : Writer) : Prop :=
  match w_sent w with
  | Some (c, _) => wroteHeader r = true /\ status r = c
  | None => wroteHeader r = false /\ status r = 200
  end.

Lemma rec_op_agree o r w w0 : final_op o -> agree r w -> http_ops (ResponseWriter r) w0 = Some w ->
  exists w', http_op w o = Some w' /\ agree (rec_op r o) w' /\ http_ops (ResponseWriter (rec_op r o)) w0 = Some w'.
Proof.
  intros Ho Ha Hr. destruct r as [calls st wrote]. cbn [ResponseWriter] in Hr.
  unfold agree in *. cbn [status wroteHeader] in Ha.
  destruct o as [k v|c|b]; cbn [rec_op http_op].
  - eexists. split; [reflexivity|]. cbn [ResponseWriter status wroteHeader w_sent]. split; [exact Ha|].
    rewrite http_ops_app, Hr. reflexivity.
  - unfold WriteHeader. cbn [wroteHeader ResponseWriter status]. destruct (w_sent w) as [[c' h]|] eqn:E.
    + destruct Ha as [-> ->]. exists w. cbn [ResponseWriter]. rewrite E. by split_and!.
    + destruct Ha as [-> ->]. cbn [final_op] in Ho.
      replace ((c <? 100) || (999 <? c)) with false by lia.
      replace ((c <=? 199) && negb (c =? 101)) with false by lia.
      eexists. split; [reflexivity|]. unfold send. rewrite E. cbn [w_sent status wroteHeader ResponseWriter].
      split; [done|]. rewrite http_ops_app, Hr. cbn. rewrite E.
      replace ((c <? 100) || (999 <? c)) with false by lia.
      replace ((c <=? 199) && negb (c =? 101)) with false by lia. cbn. unfold send. by rewrite E.
  - eexists. split; [reflexivity|]. unfold Write. cbn [wroteHeader ResponseWriter status]. split.
    + unfold send. destruct (w_sent w) as [[c' h]|] eqn:E; cbn [w_sent]; rewrite ?E; by destruct Ha as [_ ->].
    + rewrite http_ops_app, Hr. reflexivity.
Qed.

Lemma record_agree ops : forall r w w0, Forall final_op ops -> agree r w -> http_ops (ResponseWriter r) w0 = Some w ->
  exists w', http_ops ops w = Some w' /\ agree (foldl rec_op r ops) w' /\
    http_ops (ResponseWriter (foldl rec_op r ops)) w0 = Some w'.
Proof.
  induction ops as [|o ops IH]; intros r w w0 Ho Ha Hr; [by exists w|].
  apply Forall_cons in Ho as [Ho Hs]. destruct (rec_op_agree o r w w0 Ho Ha Hr) as (w1 & E & Ha1 & Hr1).
  cbn [http_ops foldl]. rewrite E. exact (IH _ _ _ Hs Ha1 Hr1).
Qed.

Lemma record_spec ops w0 : Forall final_op ops -> w_sent w0 = None ->
  exists w, http_ops (ResponseWriter (record_ops ops)) w0 = Some w /\ http_ops ops w0 = Some w /\
    (response w).1 = status (record_ops ops).
Proof.
  intros Ho Hs. destruct (record_agree ops newStatusRecorder w0 w0 Ho) as (w & E & Ha & Hr);
    [unfold agree; by rewrite Hs|done|]. exists w. split_and!; [exact Hr|exact E|]. fold (record_ops ops) in *.
  unfold agree, response in *. destruct (w_sent w) as [[c h]|]; cbn; by destruct Ha.
Qed.

(** Only calls of the handler reach the writer below. *)
Lemma record_calls (P : wop -> Prop) ops : Forall P ops -> Forall P (ResponseWriter (record_ops ops)).
Proof.
  intros Ho. unfold record_ops. assert (Forall P (ResponseWriter newStatusRecorder)) as Hr by constructor.
  revert Hr. generalize newStatusRecorder as r. induction Ho as [|o ops Ho _ IH]; intros r Hr; [exact Hr|].
  cbn [foldl]. apply IH. assert (Forall P (ResponseWriter r ++ [o])) as Ha by (apply Forall_app; by repeat constructor).
  destruct o; cbn [rec_op]; [exact Ha| |exact Ha]. unfold WriteHeader. by destruct (wroteHeader r).
Qed.

(** A handler that leaves the request id header alone. *)
Definition keeps_id (o : wop) : Prop := match o with DoSet k _ => k <> RequestIDHeader | _ => True end.

(** The header set first is in whatever response is sent. *)
Definition has_id (id : string) (w : Writer) : Prop :=
  w_header w !! RequestIDHeader = Some id /\ (response w).2 !! RequestIDHeader = Some id.

Lemma http_op_id id o w w' : keeps_id o -> has_id id w -> http_op w o = Some w' -> has_id id w'.
Proof.
  intros Ho [Hh Hr] E. unfold has_id, response in *. destruct o as [k v|c|b]; cbn [http_op] in E.
  - injection E as <-. cbn in *. rewrite lookup_insert_ne by exact Ho. split; [exact Hh|].
    destruct (w_sent w) as [[c h]|]; [exact Hr|]. cbn. by rewrite lookup_insert_ne by exact Ho.
  - unfold send in E. destruct (w_sent w) as [[c' h]|] eqn:Es; [injection E as <-; by rewrite Es|].
    repeat case_match; simplify_eq/=; done.
  - unfold send in E. destruct (w_sent w) as [[c' h]|] eqn:Es; injection E as <-; cbn; by rewrite ?Es.
Qed.

Lemma http_ops_id id ops : forall w w', Forall keeps_id ops -> has_id id w -> http_ops ops w = Some w' -> has_id id w'.
Proof.
  induction ops as [|o ops IH]; intros w w' Ho Hw E; cbn [http_ops] in E; [by injection E as <-|].
  apply Forall_cons in Ho as [Ho Hs]. destruct (http_op w o) as [w1|] eqn:E1; [|discriminate E].
  exact (IH _ _ Hs (http_op_id _ _ _ _ Ho Hw E1) E).
Qed.

Section requests.
Context `{Laws W}.

(** A request id is never empty. *)
Lemma NewRequestID_nonempty w id w' : run NewRequestID w = (id, w') -> id <> "".
Proof.
  unfold NewRequestID. intros Hr. apply run_bind_inv in Hr as (r & w1 & E & Hr). rewrite run_ret in Hr.
  injection Hr as <- <-. destruct r as [b|e]; [|discriminate]. apply (hex_encode_nonempty _ 7).
  assert ((handle (RandRead 8) w).1 = Ok b) as Er.
  { unfold rand_read in E. cbn in E. by destruct (handle (RandRead 8) w) as [x w2]; injection E as -> ->. }
  exact (rand_law _ _ _ Er).
Qed.

Lemma now_run w t w' : run now w = (t, w') -> t = clock w' /\ clock w <= clock w'.
Proof.
  intros E. pose proof (run_clock_eq _ _ _ _ E) as Hc. split; [|exact Hc].
  pose proof (now_law w) as Hl. unfold now in E. cbn in E. destruct (handle Now w) as [x w1].
  injection E as <- <-. exact Hl.
Qed.

(** C38. The chain of the three middlewares, request id outermost.  Around a
    handler that sends a final status and leaves the id header alone, the
    request gets an id that is not empty, the client's own if it sent one; the
    response carries it, the handler finds it in its context, and the metrics
    and the log line, in this order, name the status the client receives, with
    latencies that are not negative. *)
Theorem chain_correlates next r w ops notes w' :
  (forall r w, Forall final_op (run (next r) w).1.1 /\ Forall keeps_id (run (next r) w).1.1) ->
  run (RequestIDMiddleware (LoggingMiddleware (HTTPMetricsMiddleware next)) r) w = ((ops, notes), w') ->
  exists id wr w1 w2 inner d1 d2,
    id <> "" /\ (r_Header r RequestIDHeader <> "" -> id = r_Header r RequestIDHeader) /\
    run (next (WithContext (WithRequestID (r_ctx r) id) r)) w1 = (inner, w2) /\
    RequestIDFromContext (WithRequestID (r_ctx r) id) = id /\
    http_ops ops fresh_writer = Some wr /\ (response wr).2 !! RequestIDHeader = Some id /\
    0 <= d1 <= d2 /\
    notes = inner.2 ++ [NHTTP (Method r) (Path r) (FormatInt (response wr).1) d1;
                        NLog (MkLog (Method r) (Path r) (response wr).1 d2 id (RemoteAddr r))].
Proof.
  intros Hn Hr. apply run_bind_inv in Hr as (id & wa & Eid & Hr).
  assert (id <> "" /\ (r_Header r RequestIDHeader <> "" -> id = r_Header r RequestIDHeader)) as [Hid Hsame].
  { destruct (String.eqb_spec (r_Header r RequestIDHeader) "") as [E|E].
    - split; [exact (NewRequestID_nonempty _ _ _ Eid)|done].
    - rewrite run_ret in Eid. by injection Eid as <- _. }
  apply run_bind_inv in Hr as (o & wb & Eo & Hr). rewrite run_ret in Hr. injection Hr as <- <- <-.
  unfold LoggingMiddleware, HTTPMetricsMiddleware in Eo.
  apply run_bind_inv in Eo as (t1 & v1 & E1 & Eo). apply run_bind_inv in Eo as (o1 & v2 & E2 & Eo).
  apply run_bind_inv in Eo as (t4 & v3 & E4 & Eo). rewrite run_ret in Eo. injection Eo as <- <-.
  apply run_bind_inv in E2 as (t2 & u1 & E2 & E3). apply run_bind_inv in E3 as (inner & u2 & Ei & E3).
  apply run_bind_inv in E3 as (t3 & u3 & E3 & E5). rewrite run_ret in E5. injection E5 as <- <-.
  pose proof (run_clock_eq _ _ _ _ Ei) as Hci.
  apply now_run in E1 as [-> H1]. apply now_run in E2 as [-> H2]. apply now_run in E3 as [-> H3]. apply now_run in E4 as [-> H4].
  set (r' := WithContext (WithRequestID (r_ctx r) id) r) in *.
  destruct (Hn r' u1) as [Hf Hk]. rewrite Ei in Hf, Hk. cbn [fst snd] in *.
  set (w0 := MkWriter (<[RequestIDHeader := id]> ∅) [] None).
  destruct (record_spec inner.1 w0 Hf eq_refl) as (wr & Ea & _ & Es1).
  destruct (record_spec _ w0 (record_calls _ _ Hf) eq_refl) as (wr' & Eb & Eb' & Es2).
  assert (wr' = wr) as -> by congruence.
  assert (has_id id wr) as [_ Hh].
  { refine (http_ops_id id _ w0 wr (record_calls _ _ Hk) _ Ea). split; exact (lookup_insert_eq ∅ RequestIDHeader id). }
  exists id, wr, u1, u2, inner, (clock u3 - clock u1), (clock v3 - clock v1).
  split_and!; [exact Hid|exact Hsame|exact Ei|reflexivity|exact Eb|exact Hh|lia|lia|].
  rewrite <- app_assoc. f_equal. cbn [app]. rewrite Es2 at 2. rewrite <- Es1. reflexivity.
Qed.
End requests.

(** A handler that answers 404 with a body, behind the three middlewares: the
    client's id comes back. *)
Definition not_found : HandlerFunc := fun _ => mret ([DoSet "Content-Type" "text/plain"; DoWriteHeader 404; DoWrite [Byte.x6e]], []).
Definition get_x (id : string) : Request :=
  MkRequest None (fun k => if String.eqb k RequestIDHeader then id else "") "GET" "/x" "10.0.0.1:5000".

Lemma chain_correlates_witness : exists wr,
  http_ops (run (RequestIDMiddleware (LoggingMiddleware (HTTPMetricsMiddleware not_found)) (get_x "abc")) (mini 5 ∅)).1.1
    fresh_writer = Some wr /\ (response wr).2 !! RequestIDHeader = Some "abc" /\ (response wr).1 = 404.
Proof.
  unshelve epose proof (chain_correlates not_found (get_x "abc") (mini 5 ∅) _ _ _ _ _) as Hc.
  4:{ intros r w. split; repeat constructor; discriminate. }
  4:{ rewrite <- surjective_pairing. apply surjective_pairing. }
  destruct Hc as (id & wr & _ & _ & _ & _ & _ & _ & Hid & _ & _ & Ho & Hh & _ & _).
  exists wr. rewrite (Hid ltac:(discriminate)) in Hh. split_and!; [exact Ho|exact Hh|].
  vm_compute in Ho. injection Ho as <-. reflexivity.
Defined.

(** An informational status hides the final one from the recorder's writer:
    after 103 the 404 is dropped, and the client gets 200. *)
Example early_hints_hide_status :
  let ops := [DoWriteHeader 103; DoWriteHeader 404; DoWrite [Byte.x6e]] in
  option_map response (http_ops ops fresh_writer) = Some (404, ∅) /\
  option_map response (http_ops (ResponseWriter (record_ops ops)) fresh_writer) = Some (200, ∅) /\
  status (record_ops ops) = 103.
Proof. split_and!; reflexivity. Qed.

End Observe.
