(* ===== verification/RateLimit.v ===== *)
(** * Rate limiting (src/common/ratelimit)

    [Limiter] is the per-IP sliding window of ratelimit.go, [MultiLimiter] the
    rule-driven limiter of multi.go.  Both keep all their state in Redis:
    a sorted set of request instants per sliding window, a counter per
    concurrency rule. *)

From S2P Require Import Prelude GoStr Json Degrade Hub Env.

(** ** ratelimit.go *)

(** [rdb] says whether a client is configured (non-nil). *)
Record Limiter : Type := MkLimiter { rdb : bool; perMin : Z; window : Z; keyPref : string }.

Definition New (rdb : bool) (perMinute : Z) (keyPrefix : string) : Limiter :=
  {| rdb := rdb; perMin := if perMinute <=? 0 then 120 else perMinute;
     window := Minute; keyPref := keyPrefix |}.

Definition limiter_key (l : Limiter) (id : string) : string := keyPref l +:+ ":rl:" +:+ id.

Definition Allow (l : option Limiter) (id : string) : prog bool :=
  match l with
  | None => mret true
  | Some l =>
    if negb (rdb l) then mret true
    else
      now ← now;
      let member := FormatInt now in
      let key := limiter_key l id in
      _ ← redis (RZremrangebyscore key 0 (int64 (now - window l)));
      cnt ← redis (RZcard key);
      match cnt with
      | Err _ => mret true
      | Ok cnt =>
        if perMin l <=? cnt then mret false
        else
          _ ← redis (RZadd key now member);
          _ ← redis (RExpire key (Seconds (window l) + 1));
          mret true
      end
  end.

(** The parts of a request the limiters look at. *)
Record Request : Type := MkRequest {
  h_XForwardedFor : string; h_XRealIP : string; RemoteAddr : string; Path : string }.

Fixpoint before_comma (s : string) : string :=
  match s with
  | EmptyString => EmptyString
  | String c s' => if Ascii.eqb c ","%char then EmptyString else String c (before_comma s')
  end.

(** Everything before the last colon; [None] when there is none. *)
Fixpoint before_last_colon (s : string) : option string :=
  match s with
  | EmptyString => None
  | String c s' =>
    match before_last_colon s' with
    | Some t => Some (String c t)
    | None => if Ascii.eqb c ":"%char then Some EmptyString else None
    end
  end.

Definition clientIP (r : Request) : string :=
  if negb (String.eqb (h_XForwardedFor r) "") then before_comma (h_XForwardedFor r)
  else if negb (String.eqb (h_XRealIP r) "") then h_XRealIP r
  else default (RemoteAddr r) (before_last_colon (RemoteAddr r)).

(** A request is answered by the next handler or refused with a
    Retry-After header and an error. *)
Inductive reply (R : Type) : Type :=
| Served (r : R)
| Refused (retry_after : string) (err : string).
Arguments Served {R} r.
Arguments Refused {R} _ _.

Definition HTTPMiddleware {R} (l : option Limiter) (next : Request -> prog R) (r : Request)
    : prog (reply R) :=
  let ip := clientIP r in
  ok ← Allow l ip;
  if negb ok then mret (Refused "60" ("rate limit exceeded for " +:+ ip))
  else x ← next r; mret (Served x).

(** ** multi.go *)
Definition Dimension : Type := string.
Definition DimIP : Dimension := "ip".
Definition DimUser : Dimension := "user".
Definition DimDevice : Dimension := "device".
Definition DimAPI : Dimension := "api".
Definition DimGlobal : Dimension := "global".
Definition DimConcurrent : Dimension := "concurrent".

Record Rule : Type := MkRule {
  dimension : Dimension; rkey : string; PerMinute : Z; MaxConcurrent : Z }.

Definition multiKeyPrefix : string := "apipro:rl".
Definition concurrentTTL : Z := 300.
Definition slidingWindowTTL : Z := 61.

Definition redisKey (dim : Dimension) (key : string) : string :=
  multiKeyPrefix +:+ ":" +:+ dim +:+ ":" +:+ key.
Definition rule_key (r : Rule) : string := redisKey (dimension r) (rkey r).

Definition is_concurrent (r : Rule) : bool := String.eqb (dimension r) DimConcurrent.

Definition active (r : Rule) : bool :=
  if is_concurrent r then 0 <? MaxConcurrent r else 0 <? PerMinute r.

(** The limiter: nil, or with or without a client. *)
Definition MultiLimiter : Type := option bool.
Definition unlimited (ml : MultiLimiter) : bool :=
  match ml with Some true => false | _ => true end.

Definition checkOne (r : Rule) : prog (res bool) :=
  let key := rule_key r in
  if is_concurrent r then
    v ← redis (RGet key);
    match v with
    | Err e => mret (Err e)
    | Ok v =>
      if String.eqb v "" then mret (Ok true)
      else match ParseInt v with
           | None => mret (Ok true)
           | Some n => mret (Ok (n <? MaxConcurrent r))
           end
    end
  else
    now ← now;
    z ← redis (RZremrangebyscore key 0 (int64 (now - Minute)));
    match z with
    | Err e => mret (Err e)
    | Ok _ =>
      cnt ← redis (RZcard key);
      match cnt with
      | Err e => mret (Err e)
      | Ok cnt => mret (Ok (cnt <? PerMinute r))
      end
    end.

Fixpoint check_rules (rules : list Rule) : prog (option Rule) :=
  match rules with
  | [] => mret None
  | r :: rules =>
    if negb (active r) then check_rules rules
    else
      ok ← checkOne r;
      match ok with
      | Err _ => mret None
      | Ok ok => if negb ok then mret (Some r) else check_rules rules
      end
  end.

Definition Check (ml : MultiLimiter) (rules : list Rule) : prog (option Rule) :=
  if unlimited ml then mret None else check_rules rules.

Definition acquireOne (r : Rule) : prog (option error) :=
  let key := rule_key r in
  if is_concurrent r then
    n ← redis (RIncr key);
    match n with
    | Err e => mret (Some e)
    | Ok n =>
      if n =? 1 then
        e ← redis (RExpire key concurrentTTL);
        match e with Err e => mret (Some e) | Ok _ => mret None end
      else mret None
    end
  else
    now ← now;
    z ← redis (RZremrangebyscore key 0 (int64 (now - Minute)));
    match z with
    | Err e => mret (Some e)
    | Ok _ =>
      a ← redis (RZadd key now (FormatInt now));
      match a with
      | Err e => mret (Some e)
      | Ok _ =>
        e ← redis (RExpire key slidingWindowTTL);
        match e with Err e => mret (Some e) | Ok _ => mret None end
      end
    end.

(** Rules whose slot [Release] and [rollback] give back. *)
Definition counted (r : Rule) : bool := is_concurrent r && (0 <? MaxConcurrent r).

(** [rollback(ctx, rules, untilIdx)] on the prefix [rules[0, untilIdx)]. *)
Fixpoint rollback (rules : list Rule) : prog unit :=
  match rules with
  | [] => mret tt
  | r :: rules =>
    if negb (counted r) then rollback rules
    else _ ← redis (RDecr (rule_key r)); rollback rules
  end.

(** Acquire's second loop, with the rules already taken. *)
Fixpoint acquire_rules (taken rules : list Rule) : prog unit :=
  match rules with
  | [] => mret tt
  | r :: rules =>
    if negb (active r) then acquire_rules (taken ++ [r]) rules
    else
      err ← acquireOne r;
      match err with
      | Some _ => rollback taken
      | None => acquire_rules (taken ++ [r]) rules
      end
  end.

Definition Acquire (ml : MultiLimiter) (rules : list Rule) : prog (bool * option Rule) :=
  if unlimited ml then mret (true, None)
  else
    d ← Check ml rules;
    match d with
    | Some d => mret (false, Some d)
    | None => _ ← acquire_rules [] rules; mret (true, None)
    end.

Fixpoint release_rules (rules : list Rule) : prog unit :=
  match rules with
  | [] => mret tt
  | r :: rules =>
    if negb (counted r) then release_rules rules
    else
      n ← redis (RDecr (rule_key r));
      match n with
      | Err _ => release_rules rules
      | Ok n =>
        _ ← (if n <? 0 then redis (RSet (rule_key r) "0") else mret (Ok tt));
        release_rules rules
      end
  end.

Definition Release (ml : MultiLimiter) (rules : list Rule) : prog unit :=
  if unlimited ml then mret tt else release_rules rules.

Definition MultiMiddleware {R} (ml : MultiLimiter) (ruleGen : Request -> list Rule)
    (next : Request -> prog R) (r : Request) : prog (reply R) :=
  let rules := ruleGen r in
  match rules with
  | [] => x ← next r; mret (Served x)
  | _ =>
    a ← Acquire ml rules;
    match a with
    | (true, _) =>
      x ← next r;
      _ ← Release ml rules;
      mret (Served x)
    | (false, Some d) =>
      mret (Refused "60" ("rate limit: " +:+ dimension d +:+ " " +:+ rkey d))
    | (false, None) => mret (Refused "60" "")     (* nil dereference; never returned *)
    end
  end.

Example allow_ex :
  let l := Some (New true 2 "api") in
  let w := mini 1000000000000 ∅ in
  let '(a, w) := run (Allow l "x") w in
  let '(b, w) := run (Allow l "x") (mini (m_clock w + 5) (m_keys w)) in
  let '(c, w) := run (Allow l "x") (mini (m_clock w + 5) (m_keys w)) in
  (a, b, c) = (true, true, false).
Proof. vm_compute. reflexivity. Qed.
Example clientIP_ex : clientIP (MkRequest "" "" "10.0.0.1:443" "/") = "10.0.0.1".
Proof. reflexivity. Qed.

(** ** Concurrency counters

    What a counter key says at time [t]; [None] when the key holds something
    that is not a number. *)
Definition count_of (t : Z) (m : kv) (k : string) : option Z :=
  match find t m k with
  | None => Some 0
  | Some (Entry (VStr s) _) =>
    n ← ParseInt s; if decide (FormatInt n = s) then Some n else None
  | Some _ => None
  end.

Lemma count_of_later t t' m k : t <= t' ->
  count_of t' m k = count_of t m k \/ count_of t' m k = Some 0.
Proof.
  intros Ht. unfold count_of. destruct (find t' m k) as [e|] eqn:E; [|by right].
  left. by rewrite (find_later t t' m k e Ht E).
Qed.

Lemma count_of_str t m k n d :
  m !! k = Some (Entry (VStr (FormatInt n)) d) -> int64_ok n = true ->
  live t (Entry (VStr (FormatInt n)) d) = true -> count_of t m k = Some n.
Proof.
  intros E Hn Hl. unfold count_of, find. rewrite E. cbn [mbind option_bind]. rewrite Hl.
  rewrite ParseInt_FormatInt by done. cbn [mbind option_bind]. by rewrite decide_True.
Qed.

(** [e] increments of [k] are outstanding between the keys [m0] and [m]: the
    counter is [e] higher under the same deadline, or it was zero (or has
    expired since) and stands at most at [e]. *)
Definition fresh (t : Z) (m0 m : kv) (k : string) (e : Z) : Prop :=
  count_of t m0 k = Some 0 /\ exists c, count_of t m k = Some c /\ 0 <= c <= e.
Definition kept (t : Z) (m0 m : kv) (k : string) (e : Z) : Prop :=
  exists n d, 0 <= n <= 2 ^ 62 /\
    m0 !! k = Some (Entry (VStr (FormatInt n)) d) /\
    m !! k = Some (Entry (VStr (FormatInt (n + e))) d) /\
    live t (Entry (VStr "") d) = true.
Definition outstanding t m0 m k e : Prop := kept t m0 m k e \/ fresh t m0 m k e.

Lemma int64_ok_small z : 0 <= z <= 2 ^ 62 + 2 ^ 62 - 1 -> int64_ok z = true.
Proof. intros. unfold int64_ok. apply andb_true_intro. split; [apply Z.leb_le|apply Z.ltb_lt]; lia. Qed.

Lemma fresh_later t t' m0 m k e : t <= t' -> 0 <= e -> fresh t m0 m k e -> fresh t' m0 m k e.
Proof.
  intros Ht He [H0 (c & Hc & Hb)]. split.
  - destruct (count_of_later t t' m0 k Ht) as [->| ->]; auto.
  - destruct (count_of_later t t' m k Ht) as [E|E]; [exists c|exists 0]; split; try lia; congruence.
Qed.

Lemma outstanding_later t t' m0 m k e : t <= t' -> 0 <= e ->
  outstanding t m0 m k e -> outstanding t' m0 m k e.
Proof.
  intros Ht He [(n & d & Hn & H0 & Hm & Hl)|Hf]; [|right; by eapply fresh_later].
  destruct (live t' (Entry (VStr "") d)) eqn:E; [left; by exists n, d|right].
  assert (forall s, live t' (Entry (VStr s) d) = false) as Hd by (intros; exact E).
  split; [|exists 0; split; [|lia]]; unfold count_of, find; rewrite ?H0, ?Hm;
    cbn [mbind option_bind]; by rewrite Hd.
Qed.

Lemma outstanding_refl t m k n : count_of t m k = Some n -> 0 <= n <= 2 ^ 62 -> outstanding t m m k 0.
Proof.
  unfold count_of. intros H Hn. destruct (find t m k) as [[v d]|] eqn:E.
  - left. destruct v as [s| | |]; try done. destruct (ParseInt s) as [z|]; [|done]. simpl in H.
    destruct (decide (FormatInt z = s)) as [<-|]; [|done]. injection H as ->.
    unfold find in E. destruct (m !! k) as [e|] eqn:Em; [|done]. simpl in E.
    destruct (live t e) eqn:Hl; [|done]. injection E as ->. exists n, d. rewrite Z.add_0_r. done.
  - right. injection H as <-. unfold fresh, count_of. rewrite E. split; [done|]. exists 0. by split; [|lia].
Qed.

Lemma incr_by_count d t m k c : count_of t m k = Some c -> int64_ok (c + d) = true -> int64_ok c = true ->
  exists m' dl, incr_by d t m k = (Ok (c + d), m') /\
    m' = <[k := Entry (VStr (FormatInt (c + d))) dl]> m /\
    live t (Entry (VStr "") dl) = true /\
    (forall s d', m !! k = Some (Entry (VStr s) d') -> live t (Entry (VStr s) d') = true -> dl = d').
Proof.
  unfold count_of, incr_by. intros H Hok Hc. destruct (find t m k) as [[v dl]|] eqn:E.
  - destruct v as [s| | |]; try done. destruct (ParseInt s) as [z|]; [|done]. simpl in H.
    destruct (decide (FormatInt z = s)) as [Ez|]; [|done]. injection H as ->.
    rewrite bool_decide_true, Hok by done. cbn [andb]. eexists _, dl.
    split_and!; [done|done| |].
    + unfold find in E. destruct (m !! k) as [e|]; [|done]. simpl in E.
      destruct (live t e) eqn:Hl; [|done]. by injection E as ->.
    + intros s' d' Hm Hl. unfold find in E. rewrite Hm in E. simpl in E. rewrite Hl in E. by injection E.
  - injection H as <-. eexists _, None. split_and!; [done|done|done|].
    intros s d' Hm Hl. unfold find in E. rewrite Hm in E. simpl in E. by rewrite Hl in E.
Qed.

Lemma count_of_insert t m k n d : int64_ok n = true -> live t (Entry (VStr "") d) = true ->
  count_of t (<[k := Entry (VStr (FormatInt n)) d]> m) k = Some n.
Proof. intros. eapply count_of_str; [by rewrite lookup_insert_eq|done|done]. Qed.

(** One more increment; when it is the first the counter may be given a new
    deadline. *)
Lemma outstanding_incr t m0 m k e : 0 <= e < 2 ^ 61 -> outstanding t m0 m k e ->
  exists n m', incr_by 1 t m k = (Ok n, m') /\ outstanding t m0 m' k (e + 1) /\
    (n = 1 -> fresh t m0 m' k (e + 1)) /\ forall k', k <> k' -> m' !! k' = m !! k'.
Proof.
  intros He [(n & d & Hn & H0 & Hm & Hl)|[H0 (c & Hc & Hb)]].
  - assert (int64_ok (n + e) = true) as Hk by (apply int64_ok_small; lia).
    assert (int64_ok (n + e + 1) = true) as Hk' by (apply int64_ok_small; lia).
    destruct (incr_by_count 1 t m k (n + e)) as (m' & dl & E & -> & Hl' & Hd); [|done|done|].
    { by eapply count_of_str. }
    rewrite (Hd _ _ Hm Hl) in *. eexists _, _. split; [done|]. split_and!.
    + left. exists n, d. rewrite lookup_insert_eq. split_and!; try done; try lia.
      by rewrite Z.add_assoc.
    + intros E1. assert (n = 0) as -> by lia. assert (e = 0) as -> by lia. split.
      * by eapply count_of_str.
      * exists 1. split; [by apply count_of_insert|lia].
    + intros k' Hne. by rewrite lookup_insert_ne.
  - destruct (incr_by_count 1 t m k c) as (m' & dl & E & -> & Hl' & Hd); [done| | |].
    1,2: apply int64_ok_small; lia.
    assert (fresh t m0 (<[k := Entry (VStr (FormatInt (c + 1))) dl]> m) k (e + 1)) as Hf.
    { split; [done|]. exists (c + 1). split; [|lia]. apply count_of_insert; [|done].
      apply int64_ok_small; lia. }
    eexists _, _. split; [done|]. split_and!; [by right|done|].
    intros k' Hne. by rewrite lookup_insert_ne.
Qed.

(** One decrement: it leaves one less outstanding, or shows that the counter
    has expired and takes it below zero. *)
Lemma outstanding_decr t m0 m k e : 1 <= e <= 2 ^ 61 -> outstanding t m0 m k e ->
  exists n m', incr_by (-1) t m k = (Ok n, m') /\
    (if n <? 0 then count_of t m0 k = Some 0 else outstanding t m0 m' k (e - 1)) /\
    forall k', k <> k' -> m' !! k' = m !! k'.
Proof.
  intros He [(n & d & Hn & H0 & Hm & Hl)|[H0 (c & Hc & Hb)]].
  - assert (int64_ok (n + e) = true) as Hk by (apply int64_ok_small; lia).
    assert (int64_ok (n + e + -1) = true) as Hk' by (apply int64_ok_small; lia).
    destruct (incr_by_count (-1) t m k (n + e)) as (m' & dl & E & -> & Hl' & Hd); [|done|done|].
    { by eapply count_of_str. }
    rewrite (Hd _ _ Hm Hl) in *. eexists _, _. split; [done|]. split.
    + replace (n + e + -1 <? 0) with false by lia. left. exists n, d. rewrite lookup_insert_eq.
      split_and!; try done; try lia. by replace (n + (e - 1)) with (n + e + -1) by lia.
    + intros k' Hne. by rewrite lookup_insert_ne.
  - destruct (incr_by_count (-1) t m k c) as (m' & dl & E & -> & Hl' & Hd); [done| | |].
    { unfold int64_ok. apply andb_true_intro. split; [apply Z.leb_le|apply Z.ltb_lt]; lia. }
    { apply int64_ok_small; lia. }
    eexists _, _. split; [done|]. split.
    + destruct (c + -1 <? 0) eqn:En; [done|]. bool_to_prop. right. split; [done|].
      exists (c + -1). split; [|lia]. apply count_of_insert; [|done]. apply int64_ok_small; lia.
    + intros k' Hne. by rewrite lookup_insert_ne.
Qed.

(** ** Acquire and Release in a Redis that is up *)
Definition dimensions : list Dimension := [DimIP; DimUser; DimDevice; DimAPI; DimGlobal; DimConcurrent].

(** What separates the keys of two dimensions: their first letter. *)
Definition first_letter (s : string) : option Ascii.ascii := String.get 0 s.

Lemma rule_key_letter r : dimension r ∈ dimensions ->
  String.get 10 (rule_key r) = first_letter (dimension r).
Proof.
  unfold rule_key, dimensions. rewrite !elem_of_cons, elem_of_nil.
  intros [->|[->|[->|[->|[->|[->|[]]]]]]]; reflexivity.
Qed.

Lemma rule_key_disjoint r r' :
  dimension r ∈ dimensions -> dimension r' ∈ dimensions ->
  is_concurrent r = true -> is_concurrent r' = false -> rule_key r <> rule_key r'.
Proof.
  unfold is_concurrent. intros Hd Hd' Hc Hc' E. bool_to_prop.
  apply (f_equal (String.get 10)) in E. rewrite !rule_key_letter, Hc in E by done.
  revert Hd' Hc' E. unfold dimensions. rewrite !elem_of_cons, elem_of_nil.
  intros [->|[->|[->|[->|[->|[->|[]]]]]]]; done.
Qed.

(** A sliding-window key holds a sorted set or nothing. *)
Definition zset_at (m : kv) (k : string) : Prop :=
  match m !! k with Some (Entry (VZset _) _) | None => True | _ => False end.

(** Close a goal about a program that has returned. *)
Ltac returned := eexists _, _; split; [reflexivity|eassumption].

Section balance.
Context `{Laws W} (all : list Rule) (m0 : kv).

(** Increments outstanding on [k] after the rules [l] were taken. *)
Definition held (k : string) (l : list Rule) : Z :=
  sumZ (fun r => if counted r && String.eqb (rule_key r) k then 1 else 0) l.

Lemma held_range k l : 0 <= held k l <= Z.of_nat (length l).
Proof.
  unfold held, sumZ. induction l as [|r l IH]; [done|].
  cbn [foldr length]. destruct (counted r && _); lia.
Qed.

(** What holds between the effects of a limiter call: the counters of the
    concurrency rules, and the types of the sliding-window keys. *)
Definition ledger (e : string -> Z) (w : W) : Prop :=
  healthy w /\
  (forall r, r ∈ all -> counted r = true -> outstanding (clock w) m0 (keys w) (rule_key r) (e (rule_key r))) /\
  (forall r, r ∈ all -> is_concurrent r = false -> zset_at (keys w) (rule_key r)).

Context (Hdims : Forall (fun r => dimension r ∈ dimensions) all).
Context (Hlen : Z.of_nat (length all) < 2 ^ 61).

Lemma counted_concurrent r : counted r = true -> is_concurrent r = true.
Proof. unfold counted. intros [? _]%andb_prop. done. Qed.

Lemma keys_disjoint r r' : r ∈ all -> r' ∈ all ->
  is_concurrent r = true -> is_concurrent r' = false -> rule_key r <> rule_key r'.
Proof.
  intros Hr Hr'. rewrite Forall_forall in Hdims. apply rule_key_disjoint; auto.
Qed.

(** The ledger after an effect that leaves the counters and types alone. *)
Lemma ledger_frame e w w' m : (forall k, 0 <= e k) ->
  ledger e w -> next_state w w' m ->
  (forall r, r ∈ all -> is_concurrent r = true -> m !! rule_key r = keys w !! rule_key r) ->
  (forall r, r ∈ all -> is_concurrent r = false -> zset_at m (rule_key r)) ->
  ledger e w'.
Proof.
  intros He (Hh & Hc & Hz) (<- & Ht & Hh') Hk Hz'. split_and!; [auto| |done].
  intros r Hr Hrc. specialize (Hc r Hr Hrc). apply (outstanding_later _ _ _ _ _ _ Ht (He _)) in Hc.
  specialize (Hk r Hr (counted_concurrent r Hrc)).
  destruct Hc as [(n & d & ? & ? & Hm & ?)|[? (c & Hcnt & ?)]].
  - left. exists n, d. by rewrite Hk.
  - right. split; [done|]. exists c. split; [|done].
    unfold count_of, find in *. by rewrite Hk.
Qed.

Lemma ledger_same e w w' : (forall k, 0 <= e k) ->
  ledger e w -> next_state w w' (keys w) -> ledger e w'.
Proof. intros He Hl Hn. eapply ledger_frame; eauto. by destruct Hl as (_ & _ & ?). Qed.

(** Commands on one sliding-window key. *)
Definition sliding (r : Rule) {A} (c : cmd A) : Prop :=
  match c in cmd A return Prop with
  | RZremrangebyscore k _ _ | RZcard k | RZadd k _ _ | RExpire k _ => k = rule_key r
  | _ => False
  end.

Lemma sliding_step r {A} (c : cmd A) t m : sliding r c -> zset_at m (rule_key r) ->
  let '(a, m') := redis_step dbl glob t c m in
  (exists v, a = Ok v) /\ zset_at m' (rule_key r) /\ (forall k, k <> rule_key r -> m' !! k = m !! k).
Proof.
  unfold zset_at. intros Hs Hz.
  assert (find t m (rule_key r) = None \/
          exists z d, find t m (rule_key r) = Some (Entry (VZset z) d)) as Hf.
  { unfold find. destruct (m !! rule_key r) as [[[] d]|]; try done; simpl; [|by left].
    destruct (live _ _); eauto. }
  destruct c; simpl in Hs; try done; subst k; cbn [redis_step];
    (destruct Hf as [->|(z & d & ->)]; [|repeat break_if]);
    repeat (split || case_decide);
    eauto; simpl; rewrite ?lookup_insert_eq, ?lookup_delete_eq; try done;
    intros k Hk; by rewrite ?lookup_insert_ne, ?lookup_delete_ne.
Qed.

Lemma run_sliding {A B} r (c : cmd A) (k : res A -> prog B) e w :
  (forall s, 0 <= e s) -> ledger e w -> r ∈ all -> is_concurrent r = false -> sliding r c ->
  exists w' v, run (redis c ≫= k) w = run (k (Ok v)) w' /\ ledger e w'.
Proof.
  intros He Hl Hr Hc Hs. pose proof Hl as (Hh & _ & Hz).
  assert (determined c = true) as Hd by (destruct c; try done).
  destruct (run_redis_up c k w Hh Hd) as (w' & Hrun).
  pose proof (sliding_step r c (clock w') (keys w) Hs (Hz r Hr Hc)) as Hst.
  destruct (redis_step _ _ _ _ _) as [a m]. destruct Hst as ((v & ->) & Hzm & Hm).
  destruct Hrun as [Hrun Hn]. exists w', v. split; [done|].
  eapply ledger_frame; [done|exact Hl|exact Hn| |].
  - intros r' Hr' Hc'. apply Hm. intros E. by apply (keys_disjoint r' r).
  - intros r' Hr' Hc'. destruct (decide (rule_key r' = rule_key r)) as [->|Hne]; [done|].
    unfold zset_at. rewrite Hm by done. by apply Hz.
Qed.

Lemma zero_nonneg (s : string) : 0 <= (fun _ : string => 0) s.
Proof. done. Qed.

Lemma check_rules_ledger rules w : (forall r, r ∈ rules -> r ∈ all) ->
  ledger (fun _ => 0) w -> exists d w', run (check_rules rules) w = (d, w') /\ ledger (fun _ => 0) w'.
Proof.
  revert w. induction rules as [|r rules IH]; intros w Hin Hl; [by exists None, w|].
  assert (forall w, ledger (fun _ => 0) w ->
    exists d w', run (check_rules rules) w = (d, w') /\ ledger (fun _ => 0) w') as IH'.
  { intros w' Hl'. apply IH; [|done]. set_solver. }
  cbn [check_rules]. destruct (active r); [|auto]. cbn [negb]. rewrite run_bind.
  enough (exists a w', run (checkOne r) w = (a, w') /\ ledger (fun _ => 0) w') as (a & w' & -> & Hl').
  { cbn [fst snd]. destruct a as [[]|]; simpl; eauto. }
  assert (r ∈ all) as Hr by set_solver.
  unfold checkOne. destruct (is_concurrent r) eqn:Hc.
  - destruct (run_redis_up (RGet (rule_key r)) (fun v => match v with
      | Err e => mret (Err e)
      | Ok v => if String.eqb v "" then mret (Ok true)
                else match ParseInt v with None => mret (Ok true)
                     | Some n => mret (Ok (n <? MaxConcurrent r)) end end) w ltac:(apply Hl) eq_refl)
      as (w' & Hrun).
    assert (exists a, redis_step dbl glob (clock w') (RGet (rule_key r)) (keys w) = (a, keys w)) as (a & Ea).
    { simpl. repeat case_match; eauto. }
    rewrite Ea in Hrun. destruct Hrun as [-> Hn].
    apply (ledger_same _ _ _ zero_nonneg Hl) in Hn.
    destruct a as [v|]; [|returned].
    destruct (String.eqb v ""); [returned|]. destruct (ParseInt v); returned.
  - match goal with |- context [run (now ≫= ?k) w] => destruct (run_now k w) as (w1 & -> & Hn) end.
    apply (ledger_same _ _ _ zero_nonneg Hl) in Hn.
    match goal with |- context [run (redis ?c ≫= ?k) ?w] =>
      destruct (run_sliding r c k (fun _ => 0) w zero_nonneg Hn Hr Hc eq_refl) as (w2 & v & -> & Hl2) end.
    match goal with |- context [run (redis ?c ≫= ?k) ?w] =>
      destruct (run_sliding r c k (fun _ => 0) w zero_nonneg Hl2 Hr Hc eq_refl) as (w3 & v3 & -> & Hl3) end.
    returned.
Qed.

Definition bump (e : string -> Z) (k : string) (d : Z) (k' : string) : Z :=
  if String.eqb k k' then e k' + d else e k'.

Lemma ledger_ext e e' w : (forall k, e k = e' k) -> ledger e w -> ledger e' w.
Proof. intros He (? & Hc & ?). split_and!; [done| |done]. intros r ??. rewrite <- He. auto. Qed.

(** An effect on one counter. *)
Lemma ledger_counter e d w w' m r : (forall k, 0 <= e k) ->
  ledger e w -> next_state w w' m -> r ∈ all -> is_concurrent r = true ->
  (forall k, rule_key r <> k -> m !! k = keys w !! k) ->
  outstanding (clock w') m0 m (rule_key r) (e (rule_key r) + d) ->
  ledger (bump e (rule_key r) d) w'.
Proof.
  intros He (Hh & Hc & Hz) (<- & Ht & Hh') Hr Hrc Hm Ho. split_and!; [auto| |].
  - intros r' Hr' Hc'. unfold bump. destruct (String.eqb (rule_key r) (rule_key r')) eqn:E; bool_to_prop.
    + by rewrite <- E.
    + specialize (Hc r' Hr' Hc'). apply (outstanding_later _ _ _ _ _ _ Ht (He _)) in Hc.
      destruct Hc as [(n & dl & ? & ? & Hm' & ?)|[? (c & Hcnt & ?)]].
      * left. exists n, dl. by rewrite Hm.
      * right. split; [done|]. exists c. split; [|done]. unfold count_of, find in *. by rewrite Hm.
  - intros r' Hr' Hc'. unfold zset_at. rewrite Hm by (by apply keys_disjoint). by apply Hz.
Qed.

Lemma run_incr {B} (k : res Z -> prog B) e w r : (forall s, 0 <= e s < 2 ^ 61) ->
  ledger e w -> r ∈ all -> counted r = true ->
  exists w' n, run (redis (RIncr (rule_key r)) ≫= k) w = run (k (Ok n)) w' /\
    ledger (bump e (rule_key r) 1) w' /\
    (n = 1 -> fresh (clock w') m0 (keys w') (rule_key r) (e (rule_key r) + 1)).
Proof.
  intros He Hl Hr Hc. pose proof Hl as (Hh & Ho & _).
  destruct (run_redis_up (RIncr (rule_key r)) k w Hh eq_refl) as (w' & Hrun). cbn [redis_step] in Hrun.
  destruct (outstanding_incr (clock w') m0 (keys w) (rule_key r) (e (rule_key r)) (He _))
    as (n & m & E & Ho' & Hf & Hm).
  { destruct (incr_by _ _ _ _) in Hrun. destruct Hrun as [_ (_ & Ht & _)].
    eapply outstanding_later; [exact Ht| |by apply Ho]. apply He. }
  rewrite E in Hrun. destruct Hrun as [Hrun Hn]. exists w', n. split; [done|]. split.
  - eapply ledger_counter; eauto using counted_concurrent. intros s. apply He.
  - by destruct Hn as (-> & _ & _).
Qed.

Lemma run_expire {B} (k : res unit -> prog B) e w r sec : (forall s, 0 <= e s) -> 0 < sec ->
  ledger e w -> r ∈ all -> is_concurrent r = true ->
  fresh (clock w) m0 (keys w) (rule_key r) (e (rule_key r)) ->
  exists w', run (redis (RExpire (rule_key r) sec) ≫= k) w = run (k (Ok tt)) w' /\ ledger e w'.
Proof.
  intros He Hs Hl Hr Hc Hf. pose proof Hl as (Hh & _ & _).
  destruct (run_redis_up (RExpire (rule_key r) sec) k w Hh eq_refl) as (w' & Hrun).
  assert (exists m, redis_step dbl glob (clock w') (RExpire (rule_key r) sec) (keys w) = (Ok tt, m) /\
    (forall s, rule_key r <> s -> m !! s = keys w !! s) /\
    count_of (clock w') m (rule_key r) = count_of (clock w') (keys w) (rule_key r)) as (m & E & Hm & Hcnt).
  { simpl. destruct (find _ _ _) as [[v d]|] eqn:Ef; [|eauto].
    replace (sec <=? 0) with false by lia. eexists. split; [done|]. split.
    - intros s Hne. by rewrite lookup_insert_ne.
    - unfold count_of. rewrite Ef, find_insert_eq. unfold live, after, deadline.
      assert ((clock w' <? clock w' + sec * Second) = true) as -> by (apply Z.ltb_lt; unfold Second; lia).
      done. }
  rewrite E in Hrun. destruct Hrun as [Hrun Hn]. exists w'. split; [done|].
  eapply ledger_ext; [|eapply (ledger_counter e 0); eauto].
  - intros s. unfold bump. destruct (String.eqb _ _); lia.
  - rewrite Z.add_0_r. right. destruct Hn as (_ & Ht & _).
    destruct (fresh_later _ _ _ _ _ _ Ht (He _) Hf) as [? (c & ? & ?)].
    split; [done|]. exists c. by rewrite Hcnt.
Qed.

Lemma held_snoc k l r : held k (l ++ [r]) =
  held k l + (if counted r && String.eqb (rule_key r) k then 1 else 0).
Proof. unfold held. rewrite sumZ_app. cbn [sumZ foldr]. lia. Qed.

Lemma acquire_rules_ledger rules taken w : taken ++ rules = all ->
  ledger (fun k => held k taken) w ->
  exists w', run (acquire_rules taken rules) w = (tt, w') /\ ledger (fun k => held k all) w'.
Proof.
  revert taken w. induction rules as [|r rules IH]; intros taken w Eall Hl.
  { rewrite app_nil_r in Eall. subst taken. by exists w. }
  assert (r ∈ all) as Hr by (rewrite <- Eall; set_solver).
  assert (forall k, 0 <= held k taken < 2 ^ 61) as He.
  { intros k. pose proof (held_range k taken). rewrite <- Eall, length_app in Hlen. lia. }
  assert (forall w, ledger (fun k => held k (taken ++ [r])) w ->
    exists w', run (acquire_rules (taken ++ [r]) rules) w = (tt, w') /\ ledger (fun k => held k all) w')
    as IH' by (intros w' Hl'; apply IH; [by rewrite <- app_assoc|done]).
  cbn [acquire_rules]. destruct (active r) eqn:Ha; cbn [negb].
  2:{ apply IH'. eapply ledger_ext; [|exact Hl]. intros k. rewrite held_snoc.
      unfold active in Ha. unfold counted. destruct (is_concurrent r); simpl; [rewrite Ha|]; simpl; lia. }
  rewrite run_bind.
  enough (exists w', run (acquireOne r) w = (None, w') /\ ledger (fun k => held k (taken ++ [r])) w')
    as (w' & -> & Hl'); [exact (IH' w' Hl')|].
  unfold acquireOne. destruct (is_concurrent r) eqn:Hc.
  - assert (counted r = true) as Hcr by (unfold counted; unfold active in Ha; by rewrite Hc in *).
    match goal with |- context [run (redis _ ≫= ?k) w] =>
      destruct (run_incr k _ w r He Hl Hr Hcr) as (w1 & n & -> & Hl1 & Hf) end.
    assert (ledger (fun k => held k (taken ++ [r])) w1) as Hl2.
    { eapply ledger_ext; [|exact Hl1]. intros k. rewrite held_snoc, Hcr. unfold bump. cbn [andb].
      destruct (String.eqb _ _); lia. }
    cbv beta iota. destruct (n =? 1) eqn:En; bool_to_prop; [|by exists w1].
    match goal with |- context [run (redis _ ≫= ?k) w1] =>
      destruct (run_expire k _ w1 r concurrentTTL ltac:(intros s; apply held_range) ltac:(done) Hl2 Hr Hc)
        as (w2 & -> & Hl3) end; [|by exists w2].
    rewrite held_snoc, Hcr, String.eqb_refl. by apply Hf.
  - assert (forall w, ledger (fun k => held k taken) w -> ledger (fun k => held k (taken ++ [r])) w) as Hsame.
    { intros w'. apply ledger_ext. intros k. rewrite held_snoc. unfold counted. rewrite Hc. simpl. lia. }
    assert (forall k, 0 <= (fun k => held k taken) k) as He' by (intros k; apply He).
    match goal with |- context [run (now ≫= ?k) w] => destruct (run_now k w) as (w1 & -> & Hn) end.
    apply (ledger_same _ _ _ He' Hl) in Hn as Hl1.
    do 3 match goal with Hl : ledger _ ?w |- context [run (redis ?c ≫= ?k) ?w] =>
      let w' := fresh "w" in let v := fresh "v" in let Hl' := fresh "Hl" in
      destruct (run_sliding r c k _ w He' Hl Hr Hc eq_refl) as (w' & v & -> & Hl') end.
    eexists. split; [reflexivity|]. by apply Hsame.
Qed.

(** One iteration of Release, with the reset to zero it may do. *)
Lemma run_decr {B} (k : prog B) e w r :
  (forall s, 0 <= e s) -> 1 <= e (rule_key r) <= 2 ^ 61 ->
  ledger e w -> r ∈ all -> counted r = true ->
  exists w', run (n ← redis (RDecr (rule_key r));
                  match n with
                  | Err _ => k
                  | Ok n => _ ← (if n <? 0 then redis (RSet (rule_key r) "0") else mret (Ok tt)); k
                  end) w = run k w' /\ ledger (bump e (rule_key r) (-1)) w'.
Proof.
  intros He Hk Hl Hr Hc. pose proof Hl as (Hh & Ho & _).
  match goal with |- context [run (redis _ ≫= ?k) w] =>
    destruct (run_redis_up (RDecr (rule_key r)) k w Hh eq_refl) as (w1 & Hrun) end.
  cbn [redis_step] in Hrun.
  destruct (outstanding_decr (clock w1) m0 (keys w) (rule_key r) (e (rule_key r)) Hk)
    as (n & m & E & Hcase & Hm).
  { destruct (incr_by _ _ _ _) in Hrun. destruct Hrun as [_ (_ & Ht & _)].
    eapply outstanding_later; [exact Ht| |by apply Ho]. apply He. }
  rewrite E in Hrun. destruct Hrun as [-> Hn].
  destruct (n <? 0).
  - assert (healthy w1) as Hh1 by (by apply Hn).
    match goal with |- context [run (redis _ ≫= ?k) w1] =>
      destruct (run_redis_up (RSet (rule_key r) "0") k w1 Hh1 eq_refl) as (w2 & Hrun2) end.
    destruct Hrun2 as [-> Hn2]. exists w2. split; [done|].
    pose proof Hn as (Ek & _ & _). pose proof Hn2 as (_ & Ht2 & _). rewrite Ek in Hn2.
    eapply ledger_counter; [done|exact Hl|by eapply next_state_trans|done|by apply counted_concurrent| |].
    + intros s Hs. by rewrite lookup_insert_ne, Hm.
    + right. split.
      * destruct (count_of_later (clock w1) (clock w2) m0 (rule_key r) Ht2) as [->| ->]; done.
      * exists 0. split; [|lia]. by apply (count_of_insert (clock w2) m (rule_key r) 0 None).
  - exists w1. split; [done|].
    eapply ledger_counter; [done|exact Hl|exact Hn|done|by apply counted_concurrent|done|].
    by replace (e (rule_key r) + -1) with (e (rule_key r) - 1) by lia.
Qed.

Lemma release_rules_ledger rules w : (forall r, r ∈ rules -> r ∈ all) ->
  Z.of_nat (length rules) <= 2 ^ 61 ->
  ledger (fun k => held k rules) w ->
  exists w', run (release_rules rules) w = (tt, w') /\ ledger (fun _ => 0) w'.
Proof.
  revert w. induction rules as [|r rules IH]; intros w Hin Hlr Hl; [by exists w|].
  assert (forall w, ledger (fun k => held k rules) w ->
    exists w', run (release_rules rules) w = (tt, w') /\ ledger (fun _ => 0) w') as IH'.
  { intros w' Hl'. cbn [length] in Hlr. apply IH; [set_solver|lia|done]. }
  cbn [release_rules]. destruct (counted r) eqn:Hc; cbn [negb].
  - assert (held (rule_key r) (r :: rules) = 1 + held (rule_key r) rules) as Eh.
    { unfold held, sumZ. cbn [foldr]. by rewrite Hc, String.eqb_refl. }
    pose proof (held_range (rule_key r) rules) as Hhr. cbn [length] in Hlr.
    destruct (run_decr (release_rules rules) (fun k => held k (r :: rules)) w r) as (w1 & -> & Hl1);
      [intros s; apply held_range|cbv beta; lia|done|set_solver|done|].
    apply IH'. eapply ledger_ext; [|exact Hl1]. intros k. unfold bump, held, sumZ. cbn [foldr].
    rewrite Hc. cbn [andb]. destruct (String.eqb _ _); lia.
  - apply IH'. eapply ledger_ext; [|exact Hl]. intros k. unfold held, sumZ. cbn [foldr].
    rewrite Hc. cbn [andb]. lia.
Qed.

Lemma ledger_zero w : ledger (fun _ => 0) w -> forall r, r ∈ all -> counted r = true ->
  count_of (clock w) (keys w) (rule_key r) = count_of (clock w) m0 (rule_key r).
Proof.
  intros (_ & Hc & _) r Hr Hcr. destruct (Hc r Hr Hcr) as [(n & d & Hn & Hm0 & Hm & Hl)|[Hm0 (c & Hcnt & Hb)]].
  - rewrite Z.add_0_r in Hm. unfold count_of, find. by rewrite Hm0, Hm.
  - rewrite Hm0, Hcnt. f_equal. lia.
Qed.
End balance.

(** What others did to the counter [k] between [m1] and [m2] while [e] of its
    slots were held: nothing, or they moved it by [d], under its deadline,
    which is still to come at [t]; the slots held are all on it, and the others
    gave back no more than what was theirs. *)
Definition moved (t d e : Z) (m1 m2 : kv) (k : string) : Prop :=
  (d = 0 /\ m2 !! k = m1 !! k) \/
  exists c dl, m1 !! k = Some (Entry (VStr (FormatInt c)) dl) /\
    m2 !! k = Some (Entry (VStr (FormatInt (c + d))) dl) /\ live t (Entry (VStr "") dl) = true /\
    e <= c <= 2 ^ 62 /\ e <= c + d <= 2 ^ 62.

Lemma FormatInt_inj a b : int64_ok a = true -> int64_ok b = true -> FormatInt a = FormatInt b -> a = b.
Proof. intros Ha Hb E. apply (f_equal ParseInt) in E. rewrite !ParseInt_FormatInt in E by done. by injection E. Qed.

Lemma live_earlier t t' d : t <= t' -> live t' (Entry (VStr "") d) = true -> live t (Entry (VStr "") d) = true.
Proof. unfold live, after. destruct d; cbn [deadline]; [|done]. intros. bool_to_prop. lia. Qed.

(** After others have moved a counter, it is as if it had been theirs all along. *)
Lemma outstanding_moved t t2 t' m0 m1 m2 k e d : outstanding t m0 m1 k e -> t <= t2 -> t2 <= t' ->
  0 <= e <= 2 ^ 61 -> moved t' d e m1 m2 k ->
  exists o, forall m0', m0' !! k = o ->
    outstanding t2 m0' m2 k e /\ count_of t' m0' k = Z.add d <$> count_of t' m0 k.
Proof.
  intros Ho Ht Ht' He [[-> Hm]|(c & dl & Hm1 & Hm2 & Hl & Hc & Hcd)].
  - exists (m0 !! k). intros m0' Hm0. apply (outstanding_later _ t2) in Ho; [|lia..]. split.
    + unfold outstanding, kept, fresh, count_of, find in *. by rewrite Hm, Hm0.
    + assert (count_of t' m0' k = count_of t' m0 k) as -> by (unfold count_of, find; by rewrite Hm0).
      by destruct (count_of t' m0 k).
  - exists (Some (Entry (VStr (FormatInt (c + d - e))) dl)). intros m0' Hm0'.
    assert (count_of t' m0' k = Some (c + d - e)) as ->
      by (eapply count_of_str; [exact Hm0'|apply int64_ok_small; lia|exact Hl]).
    split.
    + left. exists (c + d - e), dl. replace (c + d - e + e) with (c + d) by lia.
      split_and!; [lia|lia|done|done|]. by eapply live_earlier.
    + destruct Ho as [(n & d' & Hn & H0 & Hm & Hl')|[H0 (c' & Hc' & Hb)]].
      * rewrite Hm1 in Hm. injection Hm as E <-. apply FormatInt_inj in E as ->; [|apply int64_ok_small; lia..].
        rewrite (count_of_str t' m0 k n dl H0); [cbn; f_equal; lia|apply int64_ok_small; lia|exact Hl].
      * rewrite (count_of_str t m1 k c dl Hm1) in Hc'; [|apply int64_ok_small; lia|].
        2:{ apply (live_earlier t t'); [lia|exact Hl]. }
        injection Hc' as <-. destruct (count_of_later t t' m0 k ltac:(lia)) as [->| ->]; rewrite ?H0; cbn; f_equal; lia.
Qed.

(** A map with a value of a kind at each key of a list. *)
Lemma map_of_keys {V} (P : string -> option V -> Prop) (l : list string) :
  (forall k, k ∈ l -> exists o, P k o) -> exists m : gmap string V, forall k, k ∈ l -> P k (m !! k).
Proof.
  induction l as [|k l IH]; intros Hl; [exists ∅; intros k Hk; by apply not_elem_of_nil in Hk|].
  destruct IH as [m Hm]; [intros k' Hk'; apply Hl; by right|]. destruct (Hl k) as [o Ho]; [by left|].
  exists (partial_alter (fun _ => o) k m). intros k' Hk'. destruct (decide (k = k')) as [<-|Hne].
  - by rewrite lookup_partial_alter_eq.
  - rewrite lookup_partial_alter_ne by done. apply Hm. apply elem_of_cons in Hk' as [->|]; [done|assumption].
Qed.

Lemma ledger_moved `{Laws W} all m0 w1 w2 t' (d : string -> Z) :
  Z.of_nat (length all) < 2 ^ 61 ->
  ledger all m0 (fun k => held k all) w1 -> healthy w2 -> clock w1 <= clock w2 -> clock w2 <= t' ->
  (forall r, r ∈ all -> is_concurrent r = false -> zset_at (keys w2) (rule_key r)) ->
  (forall r, r ∈ all -> counted r = true ->
     moved t' (d (rule_key r)) (held (rule_key r) all) (keys w1) (keys w2) (rule_key r)) ->
  exists m0', ledger all m0' (fun k => held k all) w2 /\
    forall r, r ∈ all -> counted r = true ->
      count_of t' m0' (rule_key r) = Z.add (d (rule_key r)) <$> count_of t' m0 (rule_key r).
Proof.
  intros Hlen (_ & Hc & _) Hh Ht Ht' Hz Hm.
  set (P k o := forall m0' : kv, m0' !! k = o ->
    outstanding (clock w2) m0' (keys w2) k (held k all) /\ count_of t' m0' k = Z.add (d k) <$> count_of t' m0 k).
  destruct (map_of_keys P (rule_key <$> filter (fun r => counted r = true) all)) as [m0' Hm0'].
  - intros k Hk. apply list_elem_of_fmap in Hk as (r & -> & Hr). apply list_elem_of_filter in Hr as [Hcr Hr].
    unfold P. pose proof (held_range (rule_key r) all) as Hhr.
    apply (outstanding_moved (clock w1) _ _ m0 (keys w1)); [by apply Hc|done|done|lia|by apply Hm].
  - assert (forall r, r ∈ all -> counted r = true -> P (rule_key r) (m0' !! rule_key r)) as HP.
    { intros r Hr Hcr. apply Hm0'. apply list_elem_of_fmap. exists r. split; [done|]. by apply list_elem_of_filter. }
    exists m0'. split; [split_and!; [done| |done]|]; intros r Hr Hcr; by apply (HP r Hr Hcr).
Qed.

(** C13. Slots are given back exactly, others coming and going meanwhile: with
    Redis up, whatever the rules of a request are (repeated keys, any mix of
    the six dimensions), once the middleware returns every concurrency counter
    has moved by what others did to it while the request was served, and by
    nothing else; after a refusal it reads what it did.  Assumed: the counters
    held numbers and the sliding-window keys sorted sets (or nothing); nobody
    writes the counters between the limiter's own commands; and while the
    request is served each counter is left alone (then it may also expire), or
    moved by others while it lives, past the end of the request, no further
    down than the slots this request holds.  A counter that expires and is
    taken by others is not in this claim ([release_after_expiry]). *)
Theorem MultiMiddleware_balanced `{Laws W} {R} (ruleGen : Request -> list Rule)
    (next : Request -> prog R) (req : Request) (d : string -> Z) (w w' : W) (a : reply R)
    (Hrun : run (MultiMiddleware (Some true) ruleGen next req) w = (a, w'))
    (Hh : healthy w)
    (Hdims : Forall (fun r => dimension r ∈ dimensions) (ruleGen req))
    (Hlen : Z.of_nat (length (ruleGen req)) < 2 ^ 61)
    (Hcount : forall r, r ∈ ruleGen req -> counted r = true ->
       exists n, count_of (clock w) (keys w) (rule_key r) = Some n /\ 0 <= n <= 2 ^ 62)
    (Hzset : forall r, r ∈ ruleGen req -> is_concurrent r = false -> zset_at (keys w) (rule_key r))
    (Hnext : forall w1 w2 x, run (Acquire (Some true) (ruleGen req)) w = ((true, None), w1) ->
       run (next req) w1 = (x, w2) ->
       healthy w2 /\
       (forall r, r ∈ ruleGen req -> is_concurrent r = false -> zset_at (keys w2) (rule_key r)) /\
       forall r, r ∈ ruleGen req -> counted r = true ->
         moved (clock w') (d (rule_key r)) (held (rule_key r) (ruleGen req)) (keys w1) (keys w2) (rule_key r)) :
  forall r, r ∈ ruleGen req -> counted r = true ->
    count_of (clock w') (keys w') (rule_key r) =
      (match a with Served _ => Z.add (d (rule_key r)) | Refused _ _ => id end)
        <$> count_of (clock w') (keys w) (rule_key r).
Proof.
  set (rules := ruleGen req) in *.
  assert (ledger rules (keys w) (fun _ => 0) w) as Hl0.
  { split_and!; [done| |done]. intros r Hr Hc. destruct (Hcount r Hr Hc) as (n & ? & ?).
    by eapply outstanding_refl. }
  unfold MultiMiddleware in Hrun. fold rules in Hrun.
  destruct rules as [|r0 rs] eqn:Er.
  { intros r Hr. by apply not_elem_of_nil in Hr. }
  rewrite <- Er in *. apply run_bind_inv in Hrun as ([ok dn] & w2 & Ea & Hrun). pose proof Ea as Ea'.
  unfold Acquire in Ea. cbn [unlimited] in Ea. unfold Check in Ea. cbn [unlimited] in Ea.
  destruct (check_rules_ledger rules (keys w) Hdims Hlen rules w ltac:(done) Hl0) as (dn' & w1 & Ec & Hl1).
  rewrite run_bind, Ec in Ea. cbn [fst snd] in Ea. destruct dn' as [dn'|].
  { rewrite run_ret in Ea. injection Ea as <- <- <-. rewrite run_ret in Hrun. injection Hrun as <- <-.
    intros r Hr Hc. rewrite (ledger_zero rules (keys w) w1 Hl1 r Hr Hc). by destruct (count_of _ _ _). }
  destruct (acquire_rules_ledger rules (keys w) Hdims Hlen rules [] w1 eq_refl Hl1) as (w2' & Eq & Hl2).
  rewrite run_bind, Eq in Ea. cbn [fst snd] in Ea. rewrite run_ret in Ea. injection Ea as <- <- <-.
  apply run_bind_inv in Hrun as (x & w3 & En & Hrun). pose proof (run_clock_eq _ _ _ _ Hrun) as Ht3.
  destruct (Hnext w2' w3 x Ea' En) as (Hh3 & Hz3 & Hm3).
  destruct (ledger_moved rules (keys w) w2' w3 (clock w') d Hlen Hl2 Hh3 (run_clock_eq _ _ _ _ En) Ht3 Hz3 Hm3)
    as (m0' & Hl3 & Hcnt).
  apply run_bind_inv in Hrun as ([] & w4 & Ed & Hrun). rewrite run_ret in Hrun. injection Hrun as <- <-.
  unfold Release in Ed. cbn [unlimited] in Ed.
  destruct (release_rules_ledger rules m0' Hdims Hlen rules w3 ltac:(done) ltac:(lia) Hl3) as (w4' & Ed' & Hl4).
  rewrite Ed in Ed'. injection Ed' as <-. intros r Hr Hc.
  rewrite (ledger_zero rules m0' w4 Hl4 r Hr Hc). by apply Hcnt.
Qed.

(** Two slots are taken; while the request is served another one comes. *)
Lemma MultiMiddleware_balanced_witness :
  let rules := [MkRule DimConcurrent "/login" 0 5; MkRule DimIP "1.2.3.4" 60 0] in
  let k := "apipro:rl:concurrent:/login" in
  let w := mini 1000000000000 {[ k := Entry (VStr "2") None ]} in
  let r := run (MultiMiddleware (Some true) (fun _ => rules) (fun _ => _ ← redis (RIncr k); mret 7)
                   (MkRequest "" "" "" "/login")) w in
  r.1 = Served 7 /\ count_of (clock r.2) (keys r.2) k = Some 3.
Proof.
  intros rules k w r. split; [vm_compute; reflexivity|].
  rewrite (MultiMiddleware_balanced (fun _ => rules) (fun _ => _ ← redis (RIncr k); mret 7) (MkRequest "" "" "" "/login")
            (fun _ => 1) w r.2 r.1 (surjective_pairing _)) with (r := MkRule DimConcurrent "/login" 0 5).
  - vm_compute. reflexivity.
  - constructor.
  - repeat constructor; vm_compute; by eauto 20.
  - done.
  - intros r' Hr Hc. exists 2. apply list_elem_of_In in Hr as [<-|[<-|[]]]; by vm_compute.
  - intros r' Hr Hc. apply list_elem_of_In in Hr as [<-|[<-|[]]]; by vm_compute.
  - intros w1 w2 x E1 E2. apply (f_equal snd) in E1. cbn [snd] in E1. subst w1.
    apply (f_equal snd) in E2. cbn [snd] in E2. subst w2. split_and!.
    + vm_compute. constructor.
    + intros r' Hr Hc. apply list_elem_of_In in Hr as [<-|[<-|[]]]; vm_compute; first [exact I|discriminate Hc].
    + intros r' Hr Hc. apply list_elem_of_In in Hr as [<-|[<-|[]]]; [|discriminate Hc].
      right. exists 3, None. split_and!; vm_compute; first [reflexivity|discriminate].
  - by left.
  - done.
Defined.

(** A counter that expires while its request is served, and is then taken by
    another: the first one's Release gives back the other's slot, and a third
    request is let in beside the second though the limit is one. *)
Example release_after_expiry :
  let rule := MkRule DimConcurrent "/slow" 0 1 in
  let k := "apipro:rl:concurrent:/slow" in
  let first := run (Acquire (Some true) [rule]) (mini 0 ∅) in
  let second := run (Acquire (Some true) [rule]) (mini (m_clock first.2 + 301 * Second) (m_keys first.2)) in
  let back := run (Release (Some true) [rule]) second.2 in
  let third := run (Acquire (Some true) [rule]) back.2 in
  let early := run (Acquire (Some true) [rule]) second.2 in
  first.1 = (true, None) /\ second.1 = (true, None) /\ early.1 = (false, Some rule) /\
  count_of (clock back.2) (keys back.2) k = Some 0 /\ third.1 = (true, None).
Proof. vm_compute. split_and!; reflexivity. Qed.

(** ** The sliding window *)
Section sliding_window.
Context `{Laws W} (p : Z) (pref id : string).
Let l : Limiter := New true p pref.
Let key : string := limiter_key l id.

(** The sorted set at time [t] with its deadline; [None] when the key holds
    something else. *)
Definition content (t : Z) (m : kv) : option (gmap string Z * option Z) :=
  match find t m key with
  | None => Some (∅, None)
  | Some (Entry (VZset z) d) => Some (z, d)
  | _ => None
  end.

Lemma content_later t t' m z d : t <= t' -> content t m = Some (z, d) ->
  content t' m = Some (z, d) \/ (content t' m = Some (∅, None) /\ exists dl, d = Some dl /\ dl <= t').
Proof.
  unfold content, find. intros Ht Hc. destruct (m !! key) as [[v dl]|]; simpl in *; [|by left].
  unfold live in *. simpl in *. destruct dl as [dl|]; [|by left].
  destruct (t <? dl) eqn:E1.
  - destruct v; try done. injection Hc as -> <-.
    destruct (t' <? dl) eqn:E2; [by left|]. bool_to_prop. right. split; [done|]. by exists dl.
  - replace (t' <? dl) with false by lia. by left.
Qed.

Lemma content_clear t m z d lo hi : content t m = Some (z, d) ->
  exists n m' d', redis_step dbl glob t (RZremrangebyscore key lo hi) m = (Ok n, m') /\
    content t m' = Some (filter (fun p => ~ (dbl lo <= p.2 <= dbl hi)) z, d') /\
    (forall dl, d' = Some dl -> d = Some dl /\
       filter (fun p : string * Z => ~ (dbl lo <= p.2 <= dbl hi)) z <> ∅).
Proof.
  unfold content. cbn [redis_step]. intros Hc.
  destruct (find t m key) as [[v dl]|] eqn:E.
  - destruct v; try done. injection Hc as -> ->. case_decide as Hz.
    + eexists _, _, None. split; [done|]. by rewrite find_delete_eq, Hz.
    + eexists _, _, d. split; [done|]. rewrite find_insert_eq.
      unfold find in E. destruct (m !! key) as [e|]; [|done]. simpl in E.
      destruct (live t e) eqn:Hl; [|done]. injection E as ->. unfold live in *. simpl in *. by rewrite Hl.
  - injection Hc as <- <-. eexists _, _, None. split; [done|]. rewrite E. split; [|done].
    by rewrite map_filter_empty.
Qed.

Lemma content_card t m z d : content t m = Some (z, d) ->
  redis_step dbl glob t (RZcard key) m = (Ok (Z.of_nat (size z)), m).
Proof.
  unfold content. cbn [redis_step]. destruct (find t m key) as [[[] dl]|]; intros [=]; by subst.
Qed.

Lemma content_add t m z d score member : content t m = Some (z, d) ->
  exists r m', redis_step dbl glob t (RZadd key score member) m = (Ok r, m') /\
    content t m' = Some (<[member := dbl score]> z, d).
Proof.
  unfold content. cbn [redis_step]. intros Hc. destruct (find t m key) as [[v dl]|] eqn:E.
  - destruct v; try done. injection Hc as -> ->. eexists _, _. split; [done|]. rewrite find_insert_eq.
    unfold find in E. destruct (m !! key) as [e|]; [|done]. simpl in E.
    destruct (live t e) eqn:Hl; [|done]. injection E as ->. unfold live in *. simpl in *. by rewrite Hl.
  - injection Hc as <- <-. eexists _, _. split; [done|]. by rewrite find_insert_eq.
Qed.

Lemma content_expire t m z d sec : content t m = Some (z, d) -> z <> ∅ -> 0 < sec ->
  exists m', redis_step dbl glob t (RExpire key sec) m = (Ok tt, m') /\
    content t m' = Some (z, Some (t + sec * Second)).
Proof.
  unfold content. cbn [redis_step]. intros Hc Hz Hs. destruct (find t m key) as [[v dl]|] eqn:E.
  - destruct v; try done. injection Hc as -> ->. eexists. split; [done|].
    replace (sec <=? 0) with false by lia. rewrite find_insert_eq. unfold live, after. simpl.
    assert ((t <? t + sec * Second) = true) as -> by (apply Z.ltb_lt; unfold Second; lia). done.
  - by injection Hc as <- <-.
Qed.

(** The set holds admitted instants, each kept for over a minute, and every
    admitted instant is in it or older than the window. *)
Definition windowed (adm : list Z) (t : Z) (m : kv) : Prop :=
  NoDup adm /\ (forall x, x ∈ adm -> 0 <= x <= t) /\
  exists z d, content t m = Some (z, d) /\ (d = None \/ z <> ∅) /\
    (forall s x, z !! s = Some x -> exists u, u ∈ adm /\ s = FormatInt u /\ x = dbl u /\
       forall dl, d = Some dl -> u + 61 * Second <= dl) /\
    (forall u, u ∈ adm -> z !! FormatInt u = Some (dbl u) \/ dbl u <= dbl (t - Minute)).

(** Distinct instants in the set are distinct members. *)
Lemma members_bound adm (z : gmap string Z) : NoDup adm ->
  (forall t, t ∈ adm -> int64_ok t = true /\ is_Some (z !! FormatInt t)) ->
  Z.of_nat (length adm) <= Z.of_nat (size z).
Proof.
  intros Hnd Hin.
  assert (NoDup (map FormatInt adm)) as Hnd'.
  { clear -Hnd Hin. induction Hnd as [|t l Hni _ IH]; simpl; [constructor|]. constructor.
    - rewrite list_elem_of_fmap. intros (t' & E & Ht'). apply Hni.
      rewrite (FormatInt_inj t t'); [done|apply Hin; set_solver|apply Hin; set_solver|done].
    - apply IH. set_solver. }
  rewrite <- (length_map FormatInt adm).
  rewrite <- (size_list_to_set (C := gset string) (map FormatInt adm) Hnd').
  rewrite <- size_dom. apply inj_le, subseteq_size. intros s.
  rewrite elem_of_list_to_set, list_elem_of_fmap, elem_of_dom.
  intros (t & -> & Ht). by apply Hin.
Qed.

Lemma windowed_later adm t t' m : t <= t' -> t' < 2 ^ 63 -> windowed adm t m -> windowed adm t' m.
Proof.
  intros Ht H63 (Hnd & Hb & z & d & Hc & Hne & Hz & Ha). split_and!; [done|intros x Hx; specialize (Hb x Hx); lia|].
  assert (dbl (t - Minute) <= dbl (t' - Minute)) as Hd by (apply dbl_mono; lia).
  destruct (content_later t t' m z d Ht Hc) as [Hc'|[Hc' (dl & -> & Hdl)]].
  - exists z, d. split_and!; [done|done|done|]. intros u Hu. destruct (Ha u Hu) as [?|?]; [by left|right; lia].
  - exists ∅, None. split_and!; [done|by left|intros s x; by rewrite lookup_empty|].
    intros u Hu. right. destruct (Ha u Hu) as [Hin|?]; [|lia].
    destruct (Hz _ _ Hin) as (u' & Hu' & E & _ & Hdu). apply dbl_mono.
    apply FormatInt_inj in E; [|unfold int64_ok; specialize (Hb u Hu); apply andb_true_intro; split; lia
      |unfold int64_ok; specialize (Hb u' Hu'); apply andb_true_intro; split; lia]. subst u'.
    specialize (Hdu dl eq_refl). unfold Minute, Second in *. lia.
Qed.

Lemma windowed_clear adm t m hi : windowed adm t m -> hi <= t - Minute -> t < 2 ^ 63 ->
  exists n m', redis_step dbl glob t (RZremrangebyscore key 0 hi) m = (Ok n, m') /\ windowed adm t m' /\
    forall z d, content t m' = Some (z, d) -> forall s x, z !! s = Some x -> dbl hi < x.
Proof.
  intros (Hnd & Hb & z & d & Hc & Hne & Hz & Ha) Hhi H63.
  destruct (content_clear t m z d 0 hi Hc) as (n & m' & d' & E & Hc' & Hd').
  exists n, m'. split; [done|]. split; [split_and!; [done|done|]|].
  - eexists _, d'. split_and!; [done| | |].
    + destruct d' as [dl|]; [right|by left]. by apply (Hd' dl).
    + intros s x [Hs _]%map_lookup_filter_Some. destruct (Hz s x Hs) as (u & ? & ? & ? & Hdl).
      exists u. split_and!; try done. intros dl Hdl'. apply Hdl. by apply Hd'.
    + intros u Hu. destruct (Ha u Hu) as [Hin|?]; [|by right].
      destruct (decide (dbl u <= dbl hi)) as [Hle|Hgt].
      * right. pose proof (dbl_mono hi (t - Minute) Hhi). lia.
      * left. apply map_lookup_filter_Some. split; [done|]. simpl. lia.
  - intros z' d'' Hc'' s x Hs. rewrite Hc' in Hc''. injection Hc'' as <- <-.
    apply map_lookup_filter_Some in Hs as [Hs Hn]. simpl in Hn.
    destruct (Hz s x Hs) as (u & Hu & _ & -> & _). pose proof (dbl_mono 0 u (proj1 (Hb u Hu))). lia.
Qed.

(** The state between an admitted call's ZADD and its EXPIRE, and after. *)
Lemma windowed_admit adm now t t' m hi :
  windowed adm t m -> t <= t' -> t' < 2 ^ 63 -> (forall u, u ∈ adm -> u < now) -> 0 <= now <= t ->
  now - Minute <= hi -> t' < now + Second ->
  (forall z d, content t m = Some (z, d) -> forall s x, z !! s = Some x -> dbl hi < x) ->
  exists r m1 m2, redis_step dbl glob t (RZadd key now (FormatInt now)) m = (Ok r, m1) /\
    redis_step dbl glob t' (RExpire key 61) m1 = (Ok tt, m2) /\ windowed (now :: adm) t' m2.
Proof.
  intros (Hnd & Hb & z & d & Hc & Hne & Hz & Ha) Ht H63 Hlt Hnow Hhi Hshort Hnew.
  destruct (content_add t m z d now (FormatInt now) Hc) as (r & m1 & E1 & Hc1).
  assert (content t' m1 = Some (<[FormatInt now := dbl now]> z, d)) as Hc1'.
  { destruct (content_later t t' m1 _ d Ht Hc1) as [?|[_ (dl & -> & Hdl)]]; [done|exfalso].
    destruct Hne as [?|Hne]; [done|]. apply map_choose in Hne as (s & x & Hs).
    destruct (Hz s x Hs) as (u & Hu & _ & -> & Hdu). specialize (Hnew z _ Hc s _ Hs).
    specialize (Hdu dl eq_refl).
    assert (~ u <= hi) by (intros Hle; pose proof (dbl_mono u hi Hle); lia).
    unfold Minute, Second in *. lia. }
  destruct (content_expire t' m1 _ d 61 Hc1' (insert_non_empty _ _ _) ltac:(lia)) as (m2 & E2 & Hc2).
  exists r, m1, m2. split_and!; [done|done|].
  assert (forall u, u ∈ adm -> FormatInt now <> FormatInt u) as Hfmt.
  { intros u Hu Heq. specialize (Hb u Hu). specialize (Hlt u Hu).
    apply FormatInt_inj in Heq; [lia| |]; unfold int64_ok; apply andb_true_intro; split; lia. }
  split_and!.
  - constructor; [|done]. intros Hin. specialize (Hlt now Hin). lia.
  - intros u [->|Hu]%elem_of_cons; [lia|]. specialize (Hb u Hu). lia.
  - eexists _, _. split_and!; [done|right; apply insert_non_empty| |].
    + intros s x [[<- <-]|[_ Hs]]%lookup_insert_Some.
      * exists now. split_and!; [set_solver|done|done|]. intros dl [= <-]. lia.
      * destruct (Hz s x Hs) as (u & Hu & -> & -> & _). exists u. split_and!; [set_solver|done|done|].
        intros dl [= <-]. specialize (Hb u Hu). lia.
    + intros u [->|Hu]%elem_of_cons; [left; by rewrite lookup_insert_eq|].
      rewrite lookup_insert_ne by auto. destruct (Ha u Hu) as [?|Hold]; [by left|right].
      pose proof (dbl_mono (t - Minute) (t' - Minute)). lia.
Qed.

Definition recent (s : Z) (adm : list Z) : list Z := filter (fun u => s <= u) adm.

Lemma recent_bound adm t m z d s : windowed adm t m -> t < 2 ^ 63 -> content t m = Some (z, d) ->
  dbl (t - Minute) < dbl s -> Z.of_nat (length (recent s adm)) <= Z.of_nat (size z).
Proof.
  intros (Hnd & Hb & z' & d' & Hc' & _ & _ & Ha) H63 Hc Hs. rewrite Hc in Hc'. injection Hc' as <- <-.
  apply members_bound; [by apply NoDup_filter|].
  intros u [Hle Hu]%list_elem_of_filter. specialize (Hb u Hu). split.
  - unfold int64_ok. apply andb_true_intro. split; lia.
  - destruct (Ha u Hu) as [->|Hold]; [done|]. pose proof (dbl_mono s u Hle). lia.
Qed.

(** What one call does, spelled out. *)
Lemma Allow_unfold : Allow (Some l) id =
  (now ← now;
   _ ← redis (RZremrangebyscore key 0 (int64 (now - Minute)));
   cnt ← redis (RZcard key);
   match cnt with
   | Err _ => mret true
   | Ok cnt =>
     if perMin l <=? cnt then mret false
     else _ ← redis (RZadd key now (FormatInt now)); _ ← redis (RExpire key 61); mret true
   end).
Proof. reflexivity. Qed.

(** The two commands that enter an admitted request. *)
Lemma run_admit adm t0 w b w' : healthy w -> windowed adm (clock w) (keys w) ->
  (forall u, u ∈ adm -> u < t0) -> 0 <= t0 <= clock w ->
  (forall t z d, clock w <= t -> content t (keys w) = Some (z, d) -> forall s x, z !! s = Some x -> dbl (t0 - Minute) < x) ->
  run (_ ← redis (RZadd key t0 (FormatInt t0)); _ ← redis (RExpire key 61); mret true) w = (b, w') ->
  clock w' < 2 ^ 63 -> clock w' < t0 + Second ->
  healthy w' /\ b = true /\ windowed (t0 :: adm) (clock w') (keys w').
Proof.
  intros Hh Hw Hlt Ht0 Hnew Hrun H63 Hshort.
  match type of Hrun with run (redis ?c ≫= ?k) w = _ =>
    destruct (run_redis c k w Hh eq_refl) as (w4 & Ht4 & Hh4 & He4 & Hr4) end.
  rewrite Hrun in He4. cbn [snd] in He4.
  assert (windowed adm (clock w4) (keys w)) as Hw4 by (eapply windowed_later; [| |exact Hw]; lia).
  pose proof Hw4 as (_ & _ & z4 & d4 & Hc4 & _).
  destruct (content_add _ _ _ _ t0 (FormatInt t0) Hc4) as (r4 & m4 & E4 & _).
  destruct (Hr4 _ _ E4) as [E4' Hk4]. rewrite E4' in Hrun. clear Hr4 E4'.
  match type of Hrun with run (redis ?c ≫= ?k) w4 = _ =>
    destruct (run_redis c k w4 Hh4 eq_refl) as (w5 & Ht5 & Hh5 & He5 & Hr5) end.
  rewrite Hrun in He5. cbn [snd] in He5.
  destruct (windowed_admit adm t0 (clock w4) (clock w5) (keys w) (t0 - Minute) Hw4)
    as (r' & m4' & m5 & E4' & E5 & Hw5); [lia|lia|exact Hlt|lia|lia|lia| |].
  { intros z d. apply Hnew. lia. }
  rewrite E4 in E4'. injection E4' as _ <-. rewrite <- Hk4 in E5.
  destruct (Hr5 _ _ E5) as [E5' Hk5]. rewrite E5' in Hrun. injection Hrun as <- <-.
  split_and!; [done|done|by rewrite Hk5].
Qed.

(** One call. *)
Lemma Allow_step adm w b w' : healthy w -> windowed adm (clock w) (keys w) ->
  (forall u, u ∈ adm -> u < clock w) -> Minute <= clock w ->
  run (Allow (Some l) id) w = (b, w') -> clock w' < 2 ^ 63 -> clock w' < clock w + Second ->
  healthy w' /\ clock w <= clock w' /\ exists now, clock w <= now <= clock w' /\
    windowed (if b then now :: adm else adm) (clock w') (keys w') /\
    (b = true -> forall s, dbl (clock w' - Minute) < dbl s ->
       Z.of_nat (length (recent s adm)) < perMin l).
Proof.
  intros Hh Hw Hlt Hmin Hrun H63 Hshort. rewrite Allow_unfold in Hrun.
  match type of Hrun with run (now ≫= ?k) w = _ => destruct (run_now k w) as (w1 & E & Hk1 & Ht1 & Hh1) end.
  rewrite E in Hrun. clear E. specialize (Hh1 Hh). set (now := clock w1) in *.
  pose proof (run_clock_eq _ _ _ _ Hrun) as Hend.
  assert (int64 (now - Minute) = now - Minute) as Ei by (apply wraps_id; unfold now, Minute, Second in *; lia).
  rewrite Ei in Hrun. clear Ei.
  match type of Hrun with run (redis ?c ≫= ?k) w1 = _ =>
    destruct (run_redis c k w1 Hh1 eq_refl) as (w2 & Ht2 & Hh2 & He2 & Hr2) end.
  rewrite Hrun in He2. cbn [snd] in He2.
  destruct (windowed_clear adm (clock w2) (keys w1) (now - Minute)) as (n2 & m2 & E2 & Hw2 & Hnew2);
    [rewrite Hk1; eapply windowed_later; [| |exact Hw]; lia|unfold now; lia|lia|].
  destruct (Hr2 _ _ E2) as [E2' Hk2]. rewrite E2' in Hrun. clear Hr2 E2 E2'. rewrite <- Hk2 in Hw2, Hnew2.
  match type of Hrun with run (redis ?c ≫= ?k) w2 = _ =>
    destruct (run_redis c k w2 Hh2 eq_refl) as (w3 & Ht3 & Hh3 & He3 & Hr3) end.
  rewrite Hrun in He3. cbn [snd] in He3.
  assert (windowed adm (clock w3) (keys w2)) as Hw3 by (eapply windowed_later; [| |exact Hw2]; lia).
  pose proof Hw3 as (_ & _ & z3 & d3 & Hc3 & _).
  destruct (Hr3 _ _ (content_card _ _ _ _ Hc3)) as [E3 Hk3]. rewrite E3 in Hrun. clear Hr3 E3.
  destruct (perMin l <=? Z.of_nat (size z3)) eqn:Hfull; bool_to_prop.
  { injection Hrun as <- <-. split_and!; [done|unfold now in *; lia|]. exists now. rewrite Hk3.
    split_and!; [done|done|done|done]. }
  destruct (run_admit adm now w3 b w') as (Hh' & -> & Hw'); try assumption; [| |unfold now, Minute, Second in *; lia| |unfold now in *; lia|].
  { by rewrite Hk3. }
  { intros u Hu. specialize (Hlt u Hu). unfold now in *. lia. }
  { intros t z d Ht Hc s x Hs. rewrite Hk3 in Hc. destruct Hw2 as (_ & _ & z2 & d2 & Hc2 & _).
    assert (clock w2 <= t) as Ht24 by lia.
    destruct (content_later _ _ _ _ _ Ht24 Hc2) as [E|[E _]]; rewrite E in Hc; injection Hc as <- <-.
    - by apply (Hnew2 _ _ Hc2 s). - by rewrite lookup_empty in Hs. }
  split_and!; [done|unfold now in *; lia|]. exists now. split_and!; [unfold now in *; lia|lia|exact Hw'|].
  intros _ s Hs. eapply Z.le_lt_trans; [|exact Hfull].
  eapply recent_bound; [exact Hw3|lia|exact Hc3|].
  eapply Z.le_lt_trans; [|exact Hs]. apply dbl_mono. lia.
Qed.

(** A run of calls one after the other.  Between two calls time passes and
    other clients may use other keys.  Each call is recorded with the instants
    it started and ended at and its answer. *)
Inductive calls : W -> list (Z * Z * bool) -> W -> Prop :=
| calls_nil w : calls w [] w
| calls_cons w w1 b w2 tr w3 :
    clock w < clock w1 -> keys w1 !! key = keys w !! key -> (healthy w -> healthy w1) ->
    run (Allow (Some l) id) w1 = (b, w2) -> clock w2 < clock w1 + Second ->
    calls w2 tr w3 -> calls w ((clock w1, clock w2, b) :: tr) w3.

Definition admitted (tr : list (Z * Z * bool)) : Z := sumZ (fun c : Z * Z * bool => if c.2 then 1 else 0) tr.

Lemma windowed_frame adm t m m' : m' !! key = m !! key -> windowed adm t m -> windowed adm t m'.
Proof. unfold windowed, content, find. by intros ->. Qed.

Lemma calls_clock w tr w' : calls w tr w' -> clock w <= clock w'.
Proof.
  induction 1 as [|w w1 b w2 tr w3 Ht _ _ Hrun _ _ IH]; [lia|]. apply run_clock_eq in Hrun. lia.
Qed.

Lemma calls_windowed w tr w' s adm : calls w tr w' -> healthy w -> windowed adm (clock w) (keys w) ->
  Minute <= clock w -> clock w' < 2 ^ 63 ->
  healthy w' /\ (exists adm', windowed adm' (clock w') (keys w')) /\
  (dbl (clock w' - Minute) < dbl s -> (forall c, c ∈ tr -> s <= c.1.1) ->
   Z.of_nat (length (recent s adm)) <= perMin l ->
   Z.of_nat (length (recent s adm)) + admitted tr <= perMin l).
Proof.
  intros Hc. revert adm. induction Hc as [w|w w1 b w2 tr w3 Ht Hk Hhh Hrun Hsh Hc IH];
    intros adm Hh Hw Hmin H63.
  { split_and!; [done|by exists adm|]. unfold admitted. simpl. lia. }
  apply calls_clock in Hc as Ht'. pose proof (run_clock_eq _ _ _ _ Hrun) as Ht12.
  destruct (Allow_step adm w1 b w2) as (Hh2 & _ & now & Hnow & Hw2 & Hb); try done; try lia; auto.
  { apply (windowed_frame _ _ (keys w)); [done|]. eapply windowed_later; [| |exact Hw]; lia. }
  { intros u Hu. destruct Hw as (_ & Hin & _). specialize (Hin u Hu). lia. }
  destruct (IH _ Hh2 Hw2 ltac:(lia) H63) as (Hh3 & Ha3 & Hcount).
  split_and!; [done|done|]. intros Hs Hstart Hle.
  specialize (Hcount Hs ltac:(intros; apply Hstart; set_solver)).
  specialize (Hstart (clock w1, clock w2, b) ltac:(set_solver)). cbn [fst] in Hstart.
  unfold admitted in *. unfold sumZ in *. cbn [foldr snd].
  destruct b; [|lia].
  specialize (Hb eq_refl s). unfold recent in *. rewrite filter_cons_True in Hcount by lia.
  cbn [length] in Hcount. pose proof (dbl_mono (clock w2 - Minute) (clock w3 - Minute)). lia.
Qed.

(** C12. The sliding window holds: with Redis up, calls that follow one
    another (each within a second) and a key that starts empty, any stretch of
    consecutive calls that takes less than a minute admits at most [perMin]
    requests of one identifier.  "Less than a minute" is judged on the instants
    as doubles, the form the sorted set keeps them in. *)
Theorem Allow_window w0 pre w1 s e b seg w2 :
  healthy w0 -> keys w0 !! key = None -> Minute <= clock w0 -> clock w2 < 2 ^ 63 ->
  calls w0 pre w1 -> calls w1 ((s, e, b) :: seg) w2 ->
  dbl (clock w2 - Minute) < dbl s ->
  admitted ((s, e, b) :: seg) <= perMin l.
Proof.
  intros Hh Hk Hmin H63 Hpre Hseg Hs.
  pose proof (calls_clock _ _ _ Hpre). pose proof (calls_clock _ _ _ Hseg).
  assert (windowed [] (clock w0) (keys w0)) as Hw0.
  { split_and!; [constructor|by intros ? ?%not_elem_of_nil|].
    exists ∅, None. split_and!; [|by left|intros ??; by rewrite lookup_empty|by intros ? ?%not_elem_of_nil].
    unfold content, find. by rewrite Hk. }
  destruct (calls_windowed _ _ _ s [] Hpre Hh Hw0 Hmin ltac:(lia)) as (Hh1 & (adm & Hw1) & _).
  destruct (calls_windowed _ _ _ s adm Hseg Hh1 Hw1 ltac:(lia) H63) as (_ & _ & Hcount).
  assert (clock w1 < s) as Hs1 by (by inversion Hseg; subst).
  assert (recent s adm = []) as Er.
  { unfold recent. destruct Hw1 as (_ & Hb & _). clear -Hb Hs1.
    induction adm as [|u adm IH]; [done|]. rewrite filter_cons_False by (specialize (Hb u); set_solver by lia).
    apply IH. set_solver. }
  rewrite Er in Hcount. specialize (Hcount Hs).
  enough (forall c, c ∈ (s, e, b) :: seg -> s <= c.1.1) as Hst.
  { specialize (Hcount Hst). simpl in Hcount. apply Hcount. unfold l, New, perMin. break_if; bool_to_prop; lia. }
  clear -Hseg. remember ((s, e, b) :: seg) as tr eqn:Etr.
  assert (forall w tr w', calls w tr w' -> forall c, c ∈ tr -> clock w < c.1.1) as Hlt.
  { clear. induction 1 as [|w w1 b w2 tr w3 Ht _ _ Hrun _ _ IH]; intros c Hc; [by apply not_elem_of_nil in Hc|].
    apply elem_of_cons in Hc as [->|Hc]; [done|]. specialize (IH c Hc). apply run_clock_eq in Hrun. lia. }
  inversion Hseg as [|w w1' b' w2' tr' w3 Ht _ _ Hrun _ Hc]; subst; [done|].
  injection Etr as <- <- <- <-. intros c [->|Hin]%elem_of_cons; [simpl; lia|].
  specialize (Hlt _ _ _ Hc c Hin). apply run_clock_eq in Hrun. lia.
Qed.
End sliding_window.

Lemma Allow_window_witness :
  let at_ t m := mini t m in
  let w0 := mini 1000000000000 ∅ in
  let k := limiter_key (New true 1 "api") "u" in
  let w1 := mini 1000000000001 ∅ in
  let w2 := (run (Allow (Some (New true 1 "api")) "u") w1).2 in
  let w3 := mini 1000000000002 (keys w2) in
  let w4 := (run (Allow (Some (New true 1 "api")) "u") w3).2 in
  admitted [(clock w1, clock w2, true); (clock w3, clock w4, false)] <= 1.
Proof.
  intros at_ w0 k w1 w2 w3 w4.
  refine (Allow_window 1 "api" "u" w0 [] w0 (clock w1) (clock w2) true
            [(clock w3, clock w4, false)] w4 _ _ _ _ _ _ _).
  - constructor.
  - done.
  - done.
  - vm_compute; done.
  - constructor.
  - eapply (calls_cons _ _ _ w0 w1 true w2); [done|done|done|by vm_compute|by vm_compute|].
    eapply (calls_cons _ _ _ w2 w3 false w4); [by vm_compute|by vm_compute|constructor|by vm_compute|by vm_compute|].
    constructor.
  - by vm_compute.
Defined.

(** ** When Redis fails *)

(** Redis answers every command with an error. *)
Definition redis_down `{World W} (down : W -> Prop) : Prop :=
  forall w, down w ->
    (forall A (c : cmd A), down (handle (Redis c) w).2 /\ exists e, (handle (Redis c) w).1 = Err e) /\
    down (handle Now w).2.

(** The limiters fail open: while Redis answers only errors, Allow lets
    every request through, Check denies no rule, Acquire succeeds, and the
    middleware serves the request. *)
Theorem limiters_fail_open `{World W} (down : W -> Prop) (Hd : redis_down down) {R}
    (l : option Limiter) (id : string) (rules : list Rule) (next : Request -> prog R)
    (req : Request) (w : W) (Hw : down w) :
  (run (Allow l id) w).1 = true /\
  (run (Check (Some true) rules) w).1 = None /\
  (run (Acquire (Some true) rules) w).1 = (true, None) /\
  exists x, (run (MultiMiddleware (Some true) (fun _ => rules) next req) w).1 = Served x.
Proof.
  assert (forall A B (c : cmd A) (k : res A -> prog B) w, down w ->
    exists e w', run (redis c ≫= k) w = run (k (Err e)) w' /\ down w') as Hr.
  { intros A B c k w1 H1. destruct (Hd w1 H1) as [Hc _]. destruct (Hc A c) as [H2 [e He]].
    exists e, (handle (Redis c) w1).2. split; [|done].
    change (run (redis c ≫= k) w1) with (let '(x, w') := handle (Redis c) w1 in run (k x) w').
    destruct (handle (Redis c) w1). simpl in *. by subst. }
  assert (forall B (k : Z -> prog B) w, down w ->
    exists t w', run (now ≫= k) w = run (k t) w' /\ down w') as Hn.
  { intros B k w1 H1. destruct (Hd w1 H1) as [_ H2]. exists (handle Now w1).1, (handle Now w1).2.
    split; [|done].
    change (run (now ≫= k) w1) with (let '(x, w') := handle Now w1 in run (k x) w').
    by destruct (handle Now w1). }
  assert (forall rules w, down w -> (run (check_rules rules) w).1 = None /\ down (run (check_rules rules) w).2) as Hcheck.
  { clear rules w Hw. intros rules. induction rules as [|r rules IH]; intros w Hw; [done|].
    cbn [check_rules]. destruct (active r); cbn [negb]; [|auto]. rewrite run_bind. unfold checkOne.
    destruct (is_concurrent r).
    - match goal with |- context [run (redis ?c ≫= ?k) w] => destruct (Hr _ _ c k w Hw) as (e & w' & -> & ?) end.
      done.
    - match goal with |- context [run (now ≫= ?k) w] => destruct (Hn _ k w Hw) as (t & w' & -> & Hw') end.
      match goal with |- context [run (redis ?c ≫= ?k) w'] => destruct (Hr _ _ c k w' Hw') as (e & w2 & -> & ?) end.
      done. }
  assert ((run (Acquire (Some true) rules) w).1 = (true, None)) as Ha.
  { unfold Acquire. cbn [unlimited]. rewrite run_bind. unfold Check. cbn [unlimited].
    destruct (Hcheck rules w Hw) as [-> _]. by rewrite run_bind. }
  split_and!; [|by apply Hcheck|done|].
  - unfold Allow. destruct l as [l|]; [|done]. destruct (rdb l); [|done]. cbn [negb].
    match goal with |- context [run (now ≫= ?k) w] => destruct (Hn _ k w Hw) as (t & w' & -> & Hw') end.
    match goal with |- context [run (redis ?c ≫= ?k) w'] => destruct (Hr _ _ c k w' Hw') as (e & w2 & -> & Hw2) end.
    match goal with |- context [run (redis ?c ≫= ?k) w2] => destruct (Hr _ _ c k w2 Hw2) as (e' & w3 & -> & Hw3) end.
    done.
  - unfold MultiMiddleware. destruct rules as [|r rs] eqn:Er.
    + rewrite run_bind. by eexists.
    + rewrite <- Er in *. rewrite run_bind, Ha. rewrite !run_bind. by eexists.
Qed.

(** A world without Redis. *)
Definition dead_handle {X} (e : ev X) (w : unit) : X * unit :=
  (match e in ev X return X with
   | Redis _ => Err (ErrMsg "dial tcp: connection refused")
   | Now => 0
   | RandRead _ => Err (ErrMsg "entropy source failed")
   | HttpGet _ => Err (ErrMsg "no route to host")
   | L1 c => match c in l1cmd A return A with
             | LGet _ | LSet _ _ _ => Err (ErrMsg "Entry not found") | LDel _ => false | LClear => tt end
   | BreakerAsk _ => BAccept
   | BreakerMark _ _ | AtomicAdd _ => tt
   | AtomicLoad _ => 0
   | Dgr m => evalSt m Degrade.New
   | SqlQuery _ _ => Err (ErrMsg "dial tcp: connection refused")
   | SqlExec _ _ => Err (ErrMsg "dial tcp: connection refused")
   | HubOp o => (Chat.hub_step o Chat.empty_hub).1
   | SemAcquire => None
   | SemRelease => tt
   | Pick _ => O
   | FlightAsk _ _ => None
   end, w).

Lemma limiters_fail_open_witness :
  let _ : World unit := @dead_handle in
  let rules := [MkRule DimConcurrent "/login" 0 5; MkRule DimIP "1.2.3.4" 60 0] in
  (run (Allow (Some (New true 1 "api")) "u") tt).1 = true /\
  (run (Check (Some true) rules) tt).1 = None /\
  (run (Acquire (Some true) rules) tt).1 = (true, None) /\
  exists x, (run (MultiMiddleware (Some true) (fun _ => rules) (fun _ => mret 7)
                    (MkRequest "" "" "" "/")) tt).1 = Served x.
Proof.
  intros dead rules.
  apply (@limiters_fail_open unit dead (fun _ => True)); [|done].
  intros w _. split; [|done]. intros A c. split; [done|]. by eexists.
Defined.

(** Check-then-take is not atomic: two calls of Acquire on the same
    concurrency rule with a limit of one, interleaved by the scheduler, both
    succeed and leave the counter at two. *)
Theorem Acquire_not_atomic :
  let r := MkRule DimConcurrent "/login" 0 1 in
  let c0 := Pool (mini 1000000000000 ∅) [Acquire (Some true) [r]; Acquire (Some true) [r]] [] in
  exists c, rtc (sched (fun _ _ => False)) c0 c /\
    threads c = [Ret (true, None); Ret (true, None)] /\
    count_of (clock (shared c)) (keys (shared c)) (rule_key r) = Some 2.
Proof.
  intros r c0.
  assert (match run_schedule [0; 1; 0; 0; 1]%nat c0 with
          | Some c =>
            match threads c with
            | [Ret (true, None); Ret (true, None)] =>
              bool_decide (count_of (clock (shared c)) (keys (shared c)) (rule_key r) = Some 2)
            | _ => false
            end
          | None => false
          end = true) as E by (vm_compute; reflexivity).
  destruct (run_schedule _ c0) as [c|] eqn:Er; [|done].
  exists c. split; [by eapply run_schedule_sound|]. clear Er. clearbody c0 r.
  destruct (threads c) as [|[[[] []]| |] [|[[[] []]| |] []]]; try discriminate E.
  split; [reflexivity|]. by apply bool_decide_eq_true_1 in E.
Qed.

(** A failure after the first slot is taken gives the slot back twice:
    with one request already in flight (counter 1), a second request whose
    later rule hits a Redis error is still served, but rollback and the
    deferred Release each decrement, and the counter ends at zero while the
    first request is still running. *)
Theorem middleware_double_release :
  let rules := [MkRule DimConcurrent "/login" 0 5; MkRule DimIP "1.2.3.4" 60 0] in
  let k := "apipro:rl:concurrent:/login" in
  let w := MkMini {[ k := Entry (VStr "1") None ]} 1000000000000 0
             [false; false; false; false; true] [] (fun _ => Err ErrCanceled) in
  let '(a, w') := run (MultiMiddleware (Some true) (fun _ => rules) (fun _ => mret 7)
                        (MkRequest "" "" "" "/login")) w in
  a = Served 7 /\ count_of (clock w') (keys w') k = Some 0.
Proof. vm_compute. done. Qed.
