(* ===== verification/Auth.v ===== *)
(** * Passwords, sessions and SMS codes

    [Pwd] is src/common/auth/pwd.go, [Session] is src/common/auth/session.go
    and [Sms] is src/cmd/rpc/internal/svc/sms_store.go.  All three keep what
    they issue in Redis or draw it from crypto/rand, so they are programs over
    [Env]. *)

From S2P Require Import Prelude GoStr Md5 Json Env.

Module Pwd.

Definition PwdTypeMD5 : Z := 2.
Definition ErrUnsupportedPwdType :=
  ErrSentinel "auth.ErrUnsupportedPwdType" "auth: pwd_type=1 is unsupported; use pwd_type=2".
Definition ErrEmptyPassword := ErrSentinel "auth.ErrEmptyPassword" "auth: empty password".

Definition MD5Hex (s : string) : string := hex_encode (md5_Sum (bytes_of s)).

Definition ClientPassword (plain : string) (pwdType : Z) : res string :=
  if negb (pwdType =? PwdTypeMD5) then Err ErrUnsupportedPwdType
  else if String.eqb plain "" then Err ErrEmptyPassword
  else Ok (MD5Hex plain).

Definition DBPassword (clientMd5 salt : string) : string := MD5Hex (clientMd5 +:+ salt).

Definition RandomSalt : prog (res string) :=
  raw ← rand_read 32;
  match raw with
  | Err e => mret (Err e)
  | Ok raw => mret (Ok (base64_encode raw))
  end.

Definition HashPassword (plainMd5 : string) : prog (res (string * string)) :=
  if String.eqb plainMd5 "" then mret (Err ErrEmptyPassword)
  else
    salt ← RandomSalt;
    match salt with
    | Err e => mret (Err e)
    | Ok salt => mret (Ok (DBPassword plainMd5 salt, salt))
    end.

(** [subtle.ConstantTimeCompare(a, b) == 1] is equality of the contents. *)
Definition VerifyPassword (plainMd5 storedHash salt : string) : bool :=
  if String.eqb plainMd5 "" || String.eqb storedHash "" then false
  else String.eqb (DBPassword plainMd5 salt) storedHash.

Lemma MD5Hex_length s : String.length (MD5Hex s) = 32%nat.
Proof. unfold MD5Hex. by rewrite hex_encode_length, length_md5_Sum. Qed.

Lemma base64_length b n : length b = (3 * n + 2)%nat ->
  String.length (base64_encode b) = (4 * n + 4)%nat.
Proof.
  revert b. induction n as [|n IH]; intros b Hb.
  - destruct b as [|x [|y [|]]]; simpl in Hb; try lia. reflexivity.
  - destruct b as [|x [|y [|z b]]]; simpl in Hb; try lia.
    cbn [base64_encode String.length]. rewrite IH by lia. lia.
Qed.

Example vector1 : MD5Hex "qwe123" = "200820e3227815ed1756a6b531e7e0d2".
Proof. vm_compute. reflexivity. Qed.
Example vector2 :
  DBPassword "200820e3227815ed1756a6b531e7e0d2" "7Whd1U2T1pjeDP4HcSVDxwBMF5Vf6NWx"
  = "8ec733b6de4825a437faee2c01ddd309".
Proof. vm_compute. reflexivity. Qed.

(** A password that HashPassword stored verifies: it fails only for the
    empty password or when the random source fails; otherwise the salt has 44
    characters, the stored hash 32, VerifyPassword accepts the same client
    hash, and it accepts another one exactly when the two salted MD5s agree. *)
Theorem HashPassword_verifies `{Laws W} (p : string) (w : W) :
  match (run (HashPassword p) w).1 with
  | Ok (h, salt) =>
    p <> "" /\ String.length salt = 44%nat /\ String.length h = 32%nat /\
    VerifyPassword p h salt = true /\
    forall q, VerifyPassword q h salt = true <-> q <> "" /\ MD5Hex (q +:+ salt) = MD5Hex (p +:+ salt)
  | Err e => (p = "" /\ e = ErrEmptyPassword) \/ (p <> "" /\ exists n, (handle (RandRead n) w).1 = Err e)
  end.
Proof.
  unfold HashPassword. destruct (String.eqb p "") eqn:Ep; bool_to_prop; [by left|].
  rewrite run_bind. unfold RandomSalt.
  pose proof (fun b => rand_law 32 w b) as Hr.
  change (rand_read 32) with (Vis (RandRead 32) Ret).
  cbn [mbind prog_mbind prog_bind run]. destruct (handle (RandRead 32) w) as [[raw|e] w1] eqn:Eh.
  - pose proof (Hr raw eq_refl) as Hlen. cbn [run mret prog_mret fst snd].
    assert (DBPassword p (base64_encode raw) <> "") as Hne.
    { intros E. apply (f_equal String.length) in E. unfold DBPassword in E. rewrite MD5Hex_length in E. done. }
    assert (forall q, VerifyPassword q (DBPassword p (base64_encode raw)) (base64_encode raw) = true <->
      q <> "" /\ MD5Hex (q +:+ base64_encode raw) = MD5Hex (p +:+ base64_encode raw)) as Hv.
    { intros q. unfold VerifyPassword. destruct (String.eqb q "") eqn:Eq; bool_to_prop; [by subst; split; [|intros []]|].
      destruct (String.eqb (DBPassword p _) "") eqn:Ed; bool_to_prop; [done|].
      cbn [orb]. rewrite String.eqb_eq. unfold DBPassword. split; [by split|by intros [_ ?]]. }
    split_and!; [done|by apply (base64_length _ 10)|apply MD5Hex_length|by apply Hv|done].
  - right. split; [done|]. exists 32%nat. by rewrite Eh.
Qed.

End Pwd.

Module Session.

Definition sessKeyPrefix : string := "yuyan:sess:v2:".
Definition refreshKeyPrefix : string := "yuyan:refresh:v2:".
Definition DefaultUserAccessTTL : Z := 30 * Minute.
Definition DefaultUserRefreshTTL : Z := 30 * 24 * Hour.
Definition DefaultGuestAccessTTL : Z := 24 * Hour.

Record Session : Type := MkSession {
  AccessToken : string;
  RefreshToken : string;
  UID : Z;               (* int64 *)
  NickName : string;
  Icon : string;
  UserType : Z;          (* int *)
  DeviceType : string;
  Plat : Z;
  IsGuest : bool;
  AccessExpireAt : Z;    (* unix seconds *)
  RefreshExpireAt : Z;
}.

Definition zero : Session := MkSession "" "" 0 "" "" 0 "" 0 false 0 0.

Definition ErrSessionNotFound := ErrSentinel "auth.ErrSessionNotFound" "auth: session not found".
Definition ErrRefreshDenied :=
  ErrSentinel "auth.ErrRefreshDenied" "auth: refresh denied (guest or expired)".
Definition ErrUserBanned := ErrSentinel "auth.ErrUserBanned" "auth: user banned".

(** The JSON form of the struct. *)
Definition to_json (s : Session) : json :=
  JObj ([("accessToken", JStr (AccessToken s))]
    ++ omitempty (String.eqb (RefreshToken s) "") "refreshToken" (JStr (RefreshToken s))
    ++ [("uid", jint (UID s)); ("nickName", JStr (NickName s)); ("icon", JStr (Icon s));
        ("userType", jint (UserType s)); ("deviceType", JStr (DeviceType s));
        ("plat", jint (Plat s)); ("isGuest", JBool (IsGuest s));
        ("accessExpireAt", jint (AccessExpireAt s))]
    ++ omitempty (RefreshExpireAt s =? 0) "refreshExpireAt" (jint (RefreshExpireAt s))).

Definition fields : list (field Session) :=
  let f := @Field Session in [
  f "accessToken" (fun j s => v ← as_string j; Some (MkSession v (RefreshToken s) (UID s) (NickName s)
     (Icon s) (UserType s) (DeviceType s) (Plat s) (IsGuest s) (AccessExpireAt s) (RefreshExpireAt s)));
  f "refreshToken" (fun j s => v ← as_string j; Some (MkSession (AccessToken s) v (UID s) (NickName s)
     (Icon s) (UserType s) (DeviceType s) (Plat s) (IsGuest s) (AccessExpireAt s) (RefreshExpireAt s)));
  f "uid" (fun j s => v ← as_int j; Some (MkSession (AccessToken s) (RefreshToken s) v (NickName s)
     (Icon s) (UserType s) (DeviceType s) (Plat s) (IsGuest s) (AccessExpireAt s) (RefreshExpireAt s)));
  f "nickName" (fun j s => v ← as_string j; Some (MkSession (AccessToken s) (RefreshToken s) (UID s) v
     (Icon s) (UserType s) (DeviceType s) (Plat s) (IsGuest s) (AccessExpireAt s) (RefreshExpireAt s)));
  f "icon" (fun j s => v ← as_string j; Some (MkSession (AccessToken s) (RefreshToken s) (UID s) (NickName s)
     v (UserType s) (DeviceType s) (Plat s) (IsGuest s) (AccessExpireAt s) (RefreshExpireAt s)));
  f "userType" (fun j s => v ← as_int j; Some (MkSession (AccessToken s) (RefreshToken s) (UID s) (NickName s)
     (Icon s) v (DeviceType s) (Plat s) (IsGuest s) (AccessExpireAt s) (RefreshExpireAt s)));
  f "deviceType" (fun j s => v ← as_string j; Some (MkSession (AccessToken s) (RefreshToken s) (UID s)
     (NickName s) (Icon s) (UserType s) v (Plat s) (IsGuest s) (AccessExpireAt s) (RefreshExpireAt s)));
  f "plat" (fun j s => v ← as_int j; Some (MkSession (AccessToken s) (RefreshToken s) (UID s) (NickName s)
     (Icon s) (UserType s) (DeviceType s) v (IsGuest s) (AccessExpireAt s) (RefreshExpireAt s)));
  f "isGuest" (fun j s => v ← as_bool j; Some (MkSession (AccessToken s) (RefreshToken s) (UID s) (NickName s)
     (Icon s) (UserType s) (DeviceType s) (Plat s) v (AccessExpireAt s) (RefreshExpireAt s)));
  f "accessExpireAt" (fun j s => v ← as_int j; Some (MkSession (AccessToken s) (RefreshToken s) (UID s)
     (NickName s) (Icon s) (UserType s) (DeviceType s) (Plat s) (IsGuest s) v (RefreshExpireAt s)));
  f "refreshExpireAt" (fun j s => v ← as_int j; Some (MkSession (AccessToken s) (RefreshToken s) (UID s)
     (NickName s) (Icon s) (UserType s) (DeviceType s) (Plat s) (IsGuest s) (AccessExpireAt s) v))].

Record SessionStore : Type := MkStore {
  rdb : bool;                        (* a client is configured *)
  userAccessTTL : Z; userRefreshTTL : Z; guestAccessTTL : Z }.

Definition NewSessionStore (rdb : bool) : SessionStore :=
  {| rdb := rdb; userAccessTTL := DefaultUserAccessTTL;
     userRefreshTTL := DefaultUserRefreshTTL; guestAccessTTL := DefaultGuestAccessTTL |}.

Definition randomHex (n : nat) : prog (res string) :=
  b ← rand_read n;
  match b with Err e => mret (Err e) | Ok b => mret (Ok (hex_encode b)) end.

Definition upper_hex_char (c : Ascii.ascii) : Ascii.ascii :=
  let n := Ascii.nat_of_ascii c in
  if (97 <=? n)%nat && (n <=? 102)%nat then Ascii.ascii_of_nat (n - 32) else c.
Fixpoint map_chars (f : Ascii.ascii -> Ascii.ascii) (s : string) : string :=
  match s with EmptyString => EmptyString | String c s => String (f c) (map_chars f s) end.
Definition upperHex (b : bytes) : string := map_chars upper_hex_char (hex_encode b).

(** The buffer stays zero when the random source fails. *)
Definition GuestNickName : prog string :=
  b ← rand_read 3;
  mret (upperHex (match b with Ok b => b | Err _ => replicate 3 Byte.x00 end)).

Definition platToDevice (plat : Z) : string :=
  if plat =? 1 then "android" else if plat =? 2 then "ios"
  else if plat =? 3 then "pc" else if plat =? 4 then "h5" else "h5".

(** [t.Unix()] of an instant in nanoseconds. *)
Definition Unix (t : Z) : Z := t / Second.

Definition persist (st : SessionStore) (sess : Session) : prog (option error) :=
  if negb (rdb st) then mret (Some (ErrMsg "auth: redis unavailable"))
  else
    let body := json_text (to_json sess) in
    let ttl := if IsGuest sess then Seconds (guestAccessTTL st) else Seconds (userRefreshTTL st) in
    let ttl := if ttl <=? 0 then Seconds DefaultUserRefreshTTL else ttl in
    r ← redis (RSetex (sessKeyPrefix +:+ AccessToken sess) body ttl);
    match r with
    | Err e => mret (Some (ErrWrap "auth: set sess: " e))
    | Ok _ =>
      if negb (IsGuest sess) && negb (String.eqb (RefreshToken sess) "") then
        r ← redis (RSetex (refreshKeyPrefix +:+ RefreshToken sess) (AccessToken sess) ttl);
        match r with
        | Err e => mret (Some (ErrWrap "auth: set refresh: " e))
        | Ok _ => mret None
        end
      else mret None
    end.

Definition IssueUser (st : SessionStore) (uid : Z) (nickName icon : string) (userType plat : Z)
    : prog (res Session) :=
  access ← randomHex 24;
  match access with
  | Err e => mret (Err e)
  | Ok access =>
    refresh ← randomHex 32;
    match refresh with
    | Err e => mret (Err e)
    | Ok refresh =>
      now ← now;
      let sess := {| AccessToken := access; RefreshToken := refresh; UID := uid;
        NickName := nickName; Icon := icon; UserType := userType;
        DeviceType := platToDevice plat; Plat := plat; IsGuest := false;
        AccessExpireAt := Unix (now + userAccessTTL st);
        RefreshExpireAt := Unix (now + userRefreshTTL st) |} in
      e ← persist st sess;
      match e with Some e => mret (Err e) | None => mret (Ok sess) end
    end
  end.

Definition IssueGuest (st : SessionStore) (plat : Z) : prog (res Session) :=
  access ← randomHex 24;
  match access with
  | Err e => mret (Err e)
  | Ok access =>
    now ← now;
    nick ← GuestNickName;
    let sess := {| AccessToken := access; RefreshToken := ""; UID := 0;
      NickName := nick; Icon := ""; UserType := 1;
      DeviceType := platToDevice plat; Plat := plat; IsGuest := true;
      AccessExpireAt := Unix (now + guestAccessTTL st); RefreshExpireAt := 0 |} in
    e ← persist st sess;
    match e with Some e => mret (Err e) | None => mret (Ok sess) end
  end.

Definition Get (st : SessionStore) (accessToken : string) : prog (res Session) :=
  if negb (rdb st) || String.eqb accessToken "" then mret (Err ErrSessionNotFound)
  else
    raw ← redis (RGet (sessKeyPrefix +:+ accessToken));
    match raw with
    | Err _ => mret (Err ErrSessionNotFound)
    | Ok raw =>
      if String.eqb raw "" then mret (Err ErrSessionNotFound)
      else
        let '(sess, ok) := Unmarshal fields zero raw in
        if negb ok then mret (Err ErrSessionNotFound)
        else if 0 <? AccessExpireAt sess then
          now ← now;
          if AccessExpireAt sess <? Unix now then mret (Err ErrSessionNotFound)
          else mret (Ok sess)
        else mret (Ok sess)
    end.

(** The unexported [revoke]. *)
Definition revoke (st : SessionStore) (access refresh : string) : prog unit :=
  if negb (rdb st) then mret tt
  else
    _ ← redis (RDel [sessKeyPrefix +:+ access]);
    if negb (String.eqb refresh "") then
      _ ← redis (RDel [refreshKeyPrefix +:+ refresh]); mret tt
    else mret tt.

Definition Revoke (st : SessionStore) (accessToken : string) : prog (option error) :=
  if negb (rdb st) || String.eqb accessToken "" then mret None
  else
    sess ← Get st accessToken;
    match sess with
    | Err _ => mret None
    | Ok sess => _ ← revoke st accessToken (RefreshToken sess); mret None
    end.

Definition RevokeAllForUID (st : SessionStore) (uid : Z) : prog (option error) := mret None.

Definition Refresh (st : SessionStore) (refreshToken : string)
    (userStatusFn : option (Z -> prog (res Z))) : prog (res Session) :=
  if negb (rdb st) || String.eqb refreshToken "" then mret (Err ErrRefreshDenied)
  else
    access ← redis (RGet (refreshKeyPrefix +:+ refreshToken));
    match access with
    | Err _ => mret (Err ErrRefreshDenied)
    | Ok access =>
      if String.eqb access "" then mret (Err ErrRefreshDenied)
      else
        old ← Get st access;
        match old with
        | Err _ => mret (Err ErrRefreshDenied)
        | Ok old =>
          if IsGuest old then mret (Err ErrRefreshDenied)
          else
            expired ← (if 0 <? RefreshExpireAt old
                       then now ← now; mret (RefreshExpireAt old <? Unix now) else mret false);
            if (expired : bool) then
              _ ← revoke st access (RefreshToken old); mret (Err ErrRefreshDenied)
            else
              banned ← (match userStatusFn with
                | None => mret false
                | Some f =>
                  r ← f (UID old);
                  mret (match r with Err _ => true | Ok n => negb (n =? 1) end)
                end);
              if (banned : bool) then
                _ ← RevokeAllForUID st (UID old); mret (Err ErrUserBanned)
              else
                _ ← revoke st access (RefreshToken old);
                IssueUser st (UID old) (NickName old) (Icon old) (UserType old) (Plat old)
        end
    end.

Example guest_ex :
  let w := MkMini ∅ (1700000000 * Second) 0 [] (replicate 24 Byte.x41 ++ [Byte.xa1; Byte.xf4; Byte.xc9])
             (fun _ => Err ErrCanceled) in
  let '(r, w') := run (IssueGuest (NewSessionStore true) 2) w in
  match r with
  | Ok s => NickName s = "A1F4C9" /\ AccessExpireAt s = 1700086400 /\
      (run (Get (NewSessionStore true) (AccessToken s)) w').1 = Ok s
  | Err _ => False
  end.
Proof. vm_compute. done. Qed.

(** ** The stored form round-trips *)
Definition sess_ok (s : Session) : bool :=
  valid_utf8 (AccessToken s) && valid_utf8 (RefreshToken s) && valid_utf8 (NickName s) &&
  valid_utf8 (Icon s) && valid_utf8 (DeviceType s) && int64_ok (UID s) && int64_ok (UserType s) &&
  int64_ok (Plat s) && int64_ok (AccessExpireAt s) && int64_ok (RefreshExpireAt s).

Lemma Unmarshal_session s : sess_ok s = true ->
  Unmarshal fields zero (json_text (to_json s)) = (s, true).
Proof.
  unfold sess_ok. intros H. repeat (apply andb_prop in H as [H ?]).
  destruct s as [a r u n ic ut d p g ax rx].
  cbn [AccessToken RefreshToken UID NickName Icon UserType
    DeviceType Plat IsGuest AccessExpireAt RefreshExpireAt] in *.
  rewrite Unmarshal_text.
  - unfold to_json, decode_struct, omitempty, jint.
    cbn [AccessToken RefreshToken UID NickName Icon UserType
      DeviceType Plat IsGuest AccessExpireAt RefreshExpireAt].
    destruct (String.eqb r "") eqn:Er; destruct (rx =? 0) eqn:Erx; bool_to_prop; subst;
      cbn [app]; decode_members.
  - assert (forall a b c e : list (string * json), forallb (fun '(k, x) => valid_utf8 k && json_wf x)
      (a ++ b ++ c ++ e) = forallb (fun '(k, x) => valid_utf8 k && json_wf x) a &&
        (forallb (fun '(k, x) => valid_utf8 k && json_wf x) b &&
        (forallb (fun '(k, x) => valid_utf8 k && json_wf x) c &&
         forallb (fun '(k, x) => valid_utf8 k && json_wf x) e))) as Happ
      by (intros; by rewrite !forallb_app).
    unfold to_json. cbn [json_wf]. rewrite Happ. unfold omitempty.
    cbn [AccessToken RefreshToken UID NickName Icon UserType
      DeviceType Plat IsGuest AccessExpireAt RefreshExpireAt].
    destruct (String.eqb r ""); destruct (rx =? 0); cbn [forallb];
      repeat first [apply json_wf_jint | reflexivity | eassumption | apply andb_true_intro; split].
Qed.

(** ** What Get sees *)

(** The session a token names: read from Redis at [t1], its expiry judged at
    [t2]. *)
Definition lookup_session (t1 t2 : Z) (m : kv) (tok : string) : res Session :=
  match find t1 m (sessKeyPrefix +:+ tok) with
  | Some (Entry (VStr raw) _) =>
    if String.eqb raw "" then Err ErrSessionNotFound
    else
      let '(s, ok) := Unmarshal fields zero raw in
      if negb ok then Err ErrSessionNotFound
      else if (0 <? AccessExpireAt s) && (AccessExpireAt s <? Unix t2) then Err ErrSessionNotFound
      else Ok s
  | _ => Err ErrSessionNotFound
  end.

Lemma Unix_mono a b : a <= b -> Unix a <= Unix b.
Proof. intros. apply Z.div_le_mono; [done|lia]. Qed.

(** A session that is gone stays gone while its key is not written. *)
Lemma lookup_session_gone t1 t2 t1' t2' m m' tok e : t1 <= t1' -> t2 <= t2' ->
  m' !! (sessKeyPrefix +:+ tok) = m !! (sessKeyPrefix +:+ tok) ->
  lookup_session t1 t2 m tok = Err e -> lookup_session t1' t2' m' tok = Err ErrSessionNotFound.
Proof.
  intros H1 H2 Hk. unfold lookup_session.
  destruct (find t1' m' _) as [[v d]|] eqn:E; [|done].
  assert (find t1 m (sessKeyPrefix +:+ tok) = Some (Entry v d)) as ->.
  { eapply find_later; [exact H1|]. unfold find in *. by rewrite <- Hk. }
  destruct v; try done. destruct (String.eqb s ""); [done|].
  destruct (Unmarshal fields zero s) as [se []]; [|done]. cbn [negb].
  destruct (0 <? AccessExpireAt se) eqn:E1; [|done].
  destruct (AccessExpireAt se <? Unix t2) eqn:E2; [|done]. bool_to_prop.
  pose proof (Unix_mono t2 t2' H2). by replace (AccessExpireAt se <? Unix t2') with true by lia.
Qed.

Section laws.
Context `{Laws W}.

Lemma run_Get st tok w :
  healthy w -> rdb st = true -> tok <> "" ->
  exists w' t1 t2, run (Get st tok) w = (lookup_session t1 t2 (keys w) tok, w') /\
    next_state w w' (keys w) /\ clock w <= t1 /\ t1 <= t2 /\ t2 <= clock w'.
Proof.
  intros Hh Hr Ht. unfold Get. rewrite Hr.
  destruct (String.eqb tok "") eqn:E; bool_to_prop; [done|]. cbn [negb orb].
  match goal with |- context [redis ?c ≫= ?k] =>
    destruct (run_redis c k w Hh eq_refl) as (w1 & Ht1 & Hh1 & _ & Hrun) end.
  assert (exists a, redis_step dbl glob (clock w1) (RGet (sessKeyPrefix +:+ tok)) (keys w) = (a, keys w) /\
    (forall v d, find (clock w1) (keys w) (sessKeyPrefix +:+ tok) = Some (Entry (VStr v) d) -> a = Ok v) /\
    (forall t2, (forall v d, find (clock w1) (keys w) (sessKeyPrefix +:+ tok) <> Some (Entry (VStr v) d)) ->
       lookup_session (clock w1) t2 (keys w) tok = Err ErrSessionNotFound /\ (a = Ok "" \/ exists e, a = Err e)))
    as (a & Ea & Hstr & Hno).
  { unfold lookup_session. cbn [redis_step].
    destruct (find (clock w1) (keys w) _) as [[v d]|]; [destruct v|]; eexists; (split; [reflexivity|]);
      (split; [intros v' d' Hv; by inversion Hv|]); intros t2 Hn;
      try (exfalso; by eapply Hn); unfold wrongtype; eauto. }
  destruct (Hrun _ _ Ea) as [-> Hk1].
  assert (next_state w w1 (keys w)) as Hn1 by (by split_and!).
  destruct (find (clock w1) (keys w) (sessKeyPrefix +:+ tok)) as [[[v| | |] d]|] eqn:Ef;
    try (destruct (Hno (clock w1)) as [Hl [->|[e ->]]]; [by intros|..];
         exists w1, (clock w1), (clock w1); rewrite Hl;
         (split; [reflexivity|split_and!; try done; lia])).
  rewrite (Hstr v d eq_refl).
  assert (forall t2, lookup_session (clock w1) t2 (keys w) tok =
    if String.eqb v "" then Err ErrSessionNotFound
    else let '(s, ok) := Unmarshal fields zero v in
      if negb ok then Err ErrSessionNotFound
      else if (0 <? AccessExpireAt s) && (AccessExpireAt s <? Unix t2) then Err ErrSessionNotFound
      else Ok s) as Hl by (intros t2; unfold lookup_session; by rewrite Ef).
  assert (forall r, r = lookup_session (clock w1) (clock w1) (keys w) tok ->
    exists w' t1 t2, run (mret r) w1 = (lookup_session t1 t2 (keys w) tok, w') /\
      next_state w w' (keys w) /\ clock w <= t1 /\ t1 <= t2 /\ t2 <= clock w') as Hdone.
  { intros r ->. exists w1, (clock w1), (clock w1). split; [done|split_and!; try done; lia]. }
  destruct (String.eqb v "") eqn:Ev.
  { apply Hdone. by rewrite Hl. }
  destruct (Unmarshal fields zero v) as [se []] eqn:Eu; cbn [negb] in *.
  2:{ apply Hdone. by rewrite Hl. }
  destruct (0 <? AccessExpireAt se) eqn:E0; cbn [andb] in *.
  2:{ apply Hdone. by rewrite Hl. }
  match goal with |- context [now ≫= ?k] =>
    destruct (run_now k w1) as (w2 & -> & Hk2 & Ht2 & Hh2) end.
  exists w2, (clock w1), (clock w2). rewrite Hl.
  split; [by destruct (AccessExpireAt se <? Unix (clock w2))|].
  unfold next_state. split_and!; first [lia | congruence | by intros; apply Hh2].
Qed.

(** C11. Get returns only what Redis holds: in any state of the services, a
    session that Get returns is the decoded form of the text stored under the
    token's key, which had not expired in Redis, and its own expiry had not
    passed when Get was called. *)
Theorem Get_sound st tok s w w' : run (Get st tok) w = (Ok s, w') ->
  rdb st = true /\ tok <> "" /\ exists t raw d, clock w <= t /\
    find t (keys w) (sessKeyPrefix +:+ tok) = Some (Entry (VStr raw) d) /\
    Unmarshal fields zero raw = (s, true) /\
    (0 < AccessExpireAt s -> Unix (clock w) <= AccessExpireAt s).
Proof.
  unfold Get. destruct (negb (rdb st) || String.eqb tok "") eqn:E0; [done|]. bool_to_prop.
  match goal with |- context [redis ?c ≫= ?k] =>
    destruct (run_redis_any c k w eq_refl) as (w1 & r & -> & Ht1 & Hr) end.
  cbn [redis_step] in Hr. destruct r as [raw|e]; [|done].
  destruct (String.eqb raw "") eqn:Ev; [done|].
  assert (exists d, find (clock w1) (keys w) (sessKeyPrefix +:+ tok) = Some (Entry (VStr raw) d)) as (d & Hd).
  { destruct (find _ _ _) as [[[v| | |] d]|]; destruct Hr as [[Hr _]|[[e Hr] _]]; try discriminate Hr.
    - injection Hr as ->. by exists d.
    - injection Hr as ->. done. }
  destruct (Unmarshal fields zero raw) as [se []] eqn:Eu; [|done]. cbn [negb].
  destruct (0 <? AccessExpireAt se) eqn:Ep; bool_to_prop.
  - match goal with |- context [now ≫= ?k] => destruct (run_now k w1) as (w2 & -> & _ & Ht2 & _) end.
    destruct (AccessExpireAt se <? Unix (clock w2)) eqn:Ee; [done|]. intros [= <- <-]. bool_to_prop.
    split_and!; [done|done|]. exists (clock w1), raw, d. split_and!; [done|done|done|].
    intros _. etrans; [|exact Ee]. apply Unix_mono. lia.
  - intros [= <- <-]. split_and!; [done|done|]. exists (clock w1), raw, d. split_and!; [done|done|done|lia].
Qed.

Lemma run_revoke st access refresh w : healthy w -> rdb st = true ->
  exists w', run (revoke st access refresh) w = (tt, w') /\ clock w <= clock w' /\ healthy w' /\
    keys w' !! (sessKeyPrefix +:+ access) = None /\
    (refresh <> "" -> keys w' !! (refreshKeyPrefix +:+ refresh) = None) /\
    forall k, k <> sessKeyPrefix +:+ access -> k <> refreshKeyPrefix +:+ refresh -> keys w' !! k = keys w !! k.
Proof.
  intros Hh Hr. unfold revoke. rewrite Hr. cbn [negb].
  match goal with |- context [redis ?c ≫= ?k] =>
    destruct (run_redis c k w Hh eq_refl) as (w1 & Ht1 & Hh1 & _ & Hrun) end.
  destruct (Hrun _ _ eq_refl) as [-> Hk1]. clear Hrun. cbn in Hk1.
  destruct (String.eqb refresh "") eqn:E; bool_to_prop; cbn [negb].
  - exists w1. split_and!; try done; rewrite Hk1; [by rewrite lookup_delete_eq|].
    intros k Hk _. by rewrite lookup_delete_ne.
  - match goal with |- context [redis ?c ≫= ?k] =>
      destruct (run_redis c k w1 Hh1 eq_refl) as (w2 & Ht2 & Hh2 & _ & Hrun) end.
    destruct (Hrun _ _ eq_refl) as [-> Hk2]. cbn in Hk2.
    exists w2. rewrite Hk2, Hk1. split_and!; try done; try lia.
    + destruct (decide (refreshKeyPrefix +:+ refresh = sessKeyPrefix +:+ access)) as [->|].
      * by rewrite lookup_delete_eq.
      * by rewrite lookup_delete_ne, lookup_delete_eq.
    + intros _. by rewrite lookup_delete_eq.
    + intros k Hk Hk'. by rewrite !lookup_delete_ne by done.
Qed.

(** After Revoke, Get has nothing to find. *)
Lemma Revoke_gone st tok w e w1 w2 :
  rdb st = true -> healthy w -> run (Revoke st tok) w = (e, w1) ->
  healthy w2 -> clock w1 <= clock w2 ->
  keys w2 !! (sessKeyPrefix +:+ tok) = keys w1 !! (sessKeyPrefix +:+ tok) ->
  e = None /\ (run (Get st tok) w2).1 = Err ErrSessionNotFound.
Proof.
  intros Hr Hh Hrun Hh2 Ht Hk. unfold Revoke in Hrun. rewrite Hr in Hrun. cbn [negb orb] in Hrun.
  destruct (String.eqb tok "") eqn:E; bool_to_prop.
  { injection Hrun as <- <-. split; [done|]. unfold Get. by rewrite Hr, E. }
  rewrite run_bind in Hrun.
  destruct (run_Get st tok w Hh Hr E) as (w0 & t1 & t2 & Eg & (Hk0 & Ht0 & Hh0) & Ht1 & Ht12 & Ht2).
  rewrite Eg in Hrun. cbn [fst snd] in Hrun.
  destruct (run_Get st tok w2 Hh2 Hr E) as (w3 & t1' & t2' & -> & _ & Ht1' & Ht12' & _). cbn [fst].
  destruct (lookup_session t1 t2 (keys w) tok) as [s|er] eqn:El.
  - rewrite run_bind in Hrun.
    destruct (run_revoke st tok (RefreshToken s) w0 (Hh0 Hh) Hr) as (w4 & Er & _ & _ & Hgone & _).
    rewrite Er in Hrun. injection Hrun as <- <-. split; [done|].
    unfold lookup_session, find. by rewrite Hk, Hgone.
  - injection Hrun as <- <-. split; [done|].
    eapply lookup_session_gone; [| | |exact El]; [lia|lia|congruence].
Qed.

(** C14. Logout is final: with Redis up, Revoke reports no error and from then
    on, as long as nothing writes the token's key again, Get finds no session
    for the token. *)
Theorem Revoke_final st tok w e w1 w2 :
  rdb st = true -> healthy w -> run (Revoke st tok) w = (e, w1) ->
  healthy w2 -> clock w1 <= clock w2 ->
  keys w2 !! (sessKeyPrefix +:+ tok) = keys w1 !! (sessKeyPrefix +:+ tok) ->
  e = None /\ (run (Get st tok) w2).1 = Err ErrSessionNotFound.
Proof. apply Revoke_gone. Qed.

Lemma run_persist sess w : healthy w -> IsGuest sess = false -> RefreshToken sess <> "" ->
  exists w' t1 t2, run (persist (NewSessionStore true) sess) w = (None, w') /\
    clock w <= t1 /\ t1 <= t2 /\ t2 <= clock w' /\ healthy w' /\
    keys w' = <[refreshKeyPrefix +:+ RefreshToken sess :=
                  Entry (VStr (AccessToken sess)) (after t2 2592000)]>
              (<[sessKeyPrefix +:+ AccessToken sess :=
                  Entry (VStr (json_text (to_json sess))) (after t1 2592000)]> (keys w)).
Proof.
  intros Hh Hg Hr. unfold persist. cbn [rdb NewSessionStore negb]. rewrite Hg.
  apply String.eqb_neq in Hr. rewrite Hr. cbn [negb andb].
  change (Seconds (userRefreshTTL _)) with 2592000. cbv iota zeta.
  match goal with |- context [redis ?c ≫= ?k] =>
    destruct (run_redis c k w Hh eq_refl) as (w1 & Ht1 & Hh1 & _ & Hrun1) end.
  destruct (Hrun1 _ _ eq_refl) as [-> Hk1].
  match goal with |- context [redis ?c ≫= ?k] =>
    destruct (run_redis c k w1 Hh1 eq_refl) as (w2 & Ht2 & Hh2 & _ & Hrun2) end.
  destruct (Hrun2 _ _ eq_refl) as [-> Hk2]. rewrite Hk1 in Hk2.
  exists w2, (clock w1), (clock w2). split_and!; try done; lia.
Qed.

(** What a successful IssueUser leaves behind. *)
Lemma run_IssueUser uid nick icon ut plat w s w' :
  healthy w -> run (IssueUser (NewSessionStore true) uid nick icon ut plat) w = (Ok s, w') ->
  exists b1 b2 now t1 t2,
    s = MkSession (hex_encode b1) (hex_encode b2) uid nick icon ut (platToDevice plat) plat false
          (Unix (now + DefaultUserAccessTTL)) (Unix (now + DefaultUserRefreshTTL)) /\
    length b1 = 24%nat /\ length b2 = 32%nat /\
    clock w <= now /\ now <= t1 /\ t1 <= t2 /\ t2 <= clock w' /\ healthy w' /\
    keys w' = <[refreshKeyPrefix +:+ RefreshToken s :=
                  Entry (VStr (AccessToken s)) (after t2 2592000)]>
              (<[sessKeyPrefix +:+ AccessToken s :=
                  Entry (VStr (json_text (to_json s))) (after t1 2592000)]> (keys w)).
Proof.
  intros Hh Hrun. unfold IssueUser, randomHex in Hrun. rewrite run_bind in Hrun.
  match type of Hrun with context [rand_read 24 ≫= ?k] =>
    destruct (run_rand 24 k w) as (w1 & r1 & E1 & (Hk1 & Ht1 & Hh1) & Hl1) end.
  rewrite E1 in Hrun. destruct r1 as [b1|]; [|done]. cbn [run mret prog_mret fst snd] in Hrun.
  rewrite run_bind in Hrun.
  match type of Hrun with context [rand_read 32 ≫= ?k] =>
    destruct (run_rand 32 k w1) as (w2 & r2 & E2 & (Hk2 & Ht2 & Hh2) & Hl2) end.
  rewrite E2 in Hrun. destruct r2 as [b2|]; [|done]. cbn [run mret prog_mret fst snd] in Hrun.
  match type of Hrun with context [now ≫= ?k] =>
    destruct (run_now k w2) as (w3 & E3 & Hk3 & Ht3 & Hh3) end.
  rewrite E3 in Hrun. clear E1 E2 E3. cbv zeta in Hrun. rewrite run_bind in Hrun.
  cbn [NewSessionStore userAccessTTL userRefreshTTL] in Hrun.
  set (sess := MkSession _ _ _ _ _ _ _ _ _ _ _) in Hrun.
  destruct (run_persist sess w3) as (w4 & t1 & t2 & E & ? & ? & ? & ? & Hk4);
    [by auto|done|eapply hex_encode_nonempty; by apply Hl2|].
  change (MkStore true _ _ _) with (NewSessionStore true) in Hrun.
  rewrite E in Hrun. injection Hrun as <- <-.
  exists b1, b2, (clock w3), t1, t2. rewrite Hk3, Hk2, Hk1 in Hk4.
  split_and!; auto; lia.
Qed.

Lemma sess_key_ne_refresh_key a b : sessKeyPrefix +:+ a <> refreshKeyPrefix +:+ b.
Proof. intros E. by apply (f_equal (String.get 6)) in E. Qed.

Lemma stored_nonempty s : sess_ok s = true -> String.eqb (json_text (to_json s)) "" = false.
Proof.
  intros Hs. apply String.eqb_neq. intros E. pose proof (Unmarshal_session s Hs) as Hu.
  by rewrite E in Hu.
Qed.

(** What a stored session answers. *)
Lemma lookup_stored t1 t2 m s dl : sess_ok s = true ->
  m !! (sessKeyPrefix +:+ AccessToken s) = Some (Entry (VStr (json_text (to_json s))) dl) ->
  lookup_session t1 t2 m (AccessToken s) =
    if negb (live t1 (Entry (VStr "") dl)) || ((0 <? AccessExpireAt s) && (AccessExpireAt s <? Unix t2))
    then Err ErrSessionNotFound else Ok s.
Proof.
  intros Hs Hm. unfold lookup_session, find. rewrite Hm. cbn [mbind option_bind].
  change (live t1 (Entry (VStr (json_text (to_json s))) dl)) with (live t1 (Entry (VStr "") dl)).
  destruct (live t1 _); [|done]. by rewrite stored_nonempty, Unmarshal_session.
Qed.

Lemma issued_sess_ok b1 b2 uid nick icon ut plat now :
  valid_utf8 nick = true -> valid_utf8 icon = true -> int64_ok uid = true -> int64_ok ut = true ->
  int64_ok plat = true -> 0 <= now < 2 ^ 63 ->
  sess_ok (MkSession (hex_encode b1) (hex_encode b2) uid nick icon ut (platToDevice plat) plat false
          (Unix (now + DefaultUserAccessTTL)) (Unix (now + DefaultUserRefreshTTL))) = true.
Proof.
  intros. unfold sess_ok. cbn [AccessToken RefreshToken NickName Icon DeviceType UID UserType Plat
    AccessExpireAt RefreshExpireAt].
  assert (forall d, 0 <= d < 2 ^ 62 -> int64_ok (Unix (now + d)) = true) as Hu.
  { intros d Hd. unfold int64_ok, Unix, Second. apply andb_true_intro.
    pose proof (Z.div_pos (now + d) 1000000000 ltac:(lia) ltac:(lia)).
    split; [lia|]. apply Z.ltb_lt, Z.div_lt_upper_bound; lia. }
  assert (valid_utf8 (platToDevice plat) = true) as Hp by (unfold platToDevice; repeat case_match; done).
  rewrite !valid_utf8_hex, Hp, !Hu by (vm_compute; done). 
  repeat match goal with Hb : _ = true |- _ => rewrite Hb end. reflexivity.
Qed.

(** Refresh denies the token of a session whose access expiry has passed. *)
Lemma Refresh_expired s w d1 d2 f : healthy w -> sess_ok s = true -> AccessToken s <> "" -> RefreshToken s <> "" ->
  0 < AccessExpireAt s < Unix (clock w) ->
  keys w !! (sessKeyPrefix +:+ AccessToken s) = Some (Entry (VStr (json_text (to_json s))) d1) ->
  keys w !! (refreshKeyPrefix +:+ RefreshToken s) = Some (Entry (VStr (AccessToken s)) d2) ->
  (run (Refresh (NewSessionStore true) (RefreshToken s) f) w).1 = Err ErrRefreshDenied.
Proof.
  intros Hh Hs Ha Hr Hexp Hks Hkr. unfold Refresh. cbn [rdb NewSessionStore negb orb].
  rewrite (proj2 (String.eqb_neq _ _) Hr).
  match goal with |- context [redis ?c ≫= ?k] =>
    destruct (run_redis c k w Hh eq_refl) as (w4 & Ht4 & Hh4 & _ & Hrun) end.
  cbn [redis_step] in Hrun. unfold find in Hrun. rewrite Hkr in Hrun. cbn [mbind option_bind] in Hrun.
  destruct (live (clock w4) _); destruct (Hrun _ _ eq_refl) as [-> Hk4]; [|done].
  rewrite (proj2 (String.eqb_neq _ _) Ha), run_bind.
  destruct (run_Get (NewSessionStore true) (AccessToken s) w4 Hh4 eq_refl Ha)
    as (w5 & v1 & v2 & Eg & _ & Hv1 & Hv12 & _).
  change (MkStore true _ _ _) with (NewSessionStore true). rewrite Eg, Hk4. cbn [fst snd].
  rewrite (lookup_stored _ _ _ _ _ Hs Hks). assert (clock w <= v2) as Hwv by lia. apply Unix_mono in Hwv.
  replace (0 <? AccessExpireAt s) with true by lia.
  replace (AccessExpireAt s <? Unix v2) with true by lia. by rewrite orb_true_r.
Qed.

(** The session IssueUser returns and the entry it leaves, in one piece. *)
Lemma issued_session uid nick icon ut plat w s w1 :
  healthy w -> 0 <= clock w -> run (IssueUser (NewSessionStore true) uid nick icon ut plat) w = (Ok s, w1) ->
  valid_utf8 nick = true -> valid_utf8 icon = true ->
  int64_ok uid = true -> int64_ok ut = true -> int64_ok plat = true -> clock w1 < 2 ^ 63 ->
  (UID s = uid /\ NickName s = nick /\ Icon s = icon /\ IsGuest s = false) /\
  sess_ok s = true /\ AccessToken s <> "" /\ RefreshToken s <> "" /\
  exists now t1 t2, clock w <= now <= t1 /\ t1 <= t2 <= clock w1 /\ AccessExpireAt s = Unix now + 1800 /\
    keys w1 !! (sessKeyPrefix +:+ AccessToken s)
      = Some (Entry (VStr (json_text (to_json s))) (after t1 2592000)) /\
    keys w1 !! (refreshKeyPrefix +:+ RefreshToken s) = Some (Entry (VStr (AccessToken s)) (after t2 2592000)).
Proof.
  intros Hh H0' Hi Hn Hic Hu Hut Hp H63.
  destruct (run_IssueUser _ _ _ _ _ _ _ _ Hh Hi) as
    (b1 & b2 & now & t1 & t2 & Es & Hb1 & Hb2 & Hnow & Hnt1 & Ht12 & Ht2 & Hh1 & Hk1).
  assert (sess_ok s = true) as Hs by (subst s; apply issued_sess_ok; auto; lia).
  split_and!; [by subst s..|done|subst s; by eapply hex_encode_nonempty|subst s; by eapply hex_encode_nonempty|].
  exists now, t1, t2. rewrite Hk1. split_and!; try lia.
  - subst s. cbn [AccessExpireAt]. unfold Unix. change DefaultUserAccessTTL with (1800 * Second).
    by rewrite Z.div_add.
  - rewrite lookup_insert_ne, lookup_insert_eq; [done|]. apply not_eq_sym, sess_key_ne_refresh_key.
  - by rewrite lookup_insert_eq.
Qed.

(** Until its access expiry, a session stored for thirty days is found. *)
Lemma stored_found s now t1 w2 r w3 : healthy w2 -> sess_ok s = true -> AccessToken s <> "" ->
  0 <= now -> now <= t1 -> AccessExpireAt s = Unix now + 1800 ->
  keys w2 !! (sessKeyPrefix +:+ AccessToken s)
    = Some (Entry (VStr (json_text (to_json s))) (after t1 2592000)) ->
  run (Get (NewSessionStore true) (AccessToken s)) w2 = (r, w3) -> Unix (clock w3) <= AccessExpireAt s ->
  r = Ok s /\ next_state w2 w3 (keys w2).
Proof.
  intros Hh2 Hs Ha H0' Hnt1 Eexp Hk2s Hg Hle.
  destruct (run_Get (NewSessionStore true) (AccessToken s) w2 Hh2 eq_refl Ha)
    as (w3' & u1 & u2 & Eg & Hn & Hu1 & Hu12 & Hu2).
  rewrite Hg in Eg. injection Eg as -> <-. split; [|done]. rewrite (lookup_stored _ _ _ _ _ Hs Hk2s).
  assert (0 <= Unix now) as Hun by (apply Z.div_pos; [lia|done]).
  assert ((0 <? AccessExpireAt s) = true) as -> by (apply Z.ltb_lt; lia).
  pose proof (Unix_mono u2 (clock w3) Hu2).
  replace (AccessExpireAt s <? Unix u2) with false by lia.
  assert (live u1 (Entry (VStr "") (after t1 2592000)) = true) as ->; [|done].
  unfold live, after. cbn [deadline]. apply Z.ltb_lt. unfold Unix in *.
  pose proof (Z.div_mod (clock w3) Second ltac:(done)).
  pose proof (Z.mod_pos_bound (clock w3) Second ltac:(done)).
  pose proof (Z.div_mod now Second ltac:(done)).
  pose proof (Z.mod_pos_bound now Second ltac:(done)). unfold Second in *. lia.
Qed.

(** The life of a user session: after IssueUser (Redis up, the session's
    two keys not written since), Get returns exactly the issued session until
    its access expiry, which is thirty minutes after it was issued; once that
    instant has passed Get finds no session, and the refresh token, though
    stored for thirty days, is denied as well. *)
Theorem IssueUser_lifetime uid nick icon ut plat w s w1 w2 r w3 f :
  healthy w -> 0 <= clock w -> run (IssueUser (NewSessionStore true) uid nick icon ut plat) w = (Ok s, w1) ->
  valid_utf8 nick = true -> valid_utf8 icon = true ->
  int64_ok uid = true -> int64_ok ut = true -> int64_ok plat = true ->
  healthy w2 -> clock w1 <= clock w2 ->
  (forall k, k = sessKeyPrefix +:+ AccessToken s \/ k = refreshKeyPrefix +:+ RefreshToken s ->
     keys w2 !! k = keys w1 !! k) ->
  run (Get (NewSessionStore true) (AccessToken s)) w2 = (r, w3) -> clock w3 < 2 ^ 63 ->
  Unix (clock w) + 1800 <= AccessExpireAt s <= Unix (clock w1) + 1800 /\
  (Unix (clock w3) <= AccessExpireAt s -> r = Ok s) /\
  (AccessExpireAt s < Unix (clock w2) -> r = Err ErrSessionNotFound /\
     (run (Refresh (NewSessionStore true) (RefreshToken s) f) w2).1 = Err ErrRefreshDenied).
Proof.
  intros Hh H0' Hi Hn Hic Hu Hut Hp Hh2 Ht Hk Hg H63. pose proof (run_clock_eq _ _ _ _ Hg) as Ht23.
  destruct (issued_session _ _ _ _ _ _ _ _ Hh H0' Hi Hn Hic Hu Hut Hp ltac:(lia))
    as (_ & Hs & Ha & Hr & now & t1 & t2 & Hnt1 & Ht12 & Eexp & Hks & Hkr).
  rewrite <- (Hk _ (or_introl eq_refl)) in Hks. rewrite <- (Hk _ (or_intror eq_refl)) in Hkr.
  assert (0 <= Unix now) as Hun by (apply Z.div_pos; [lia|done]).
  split_and!.
  - rewrite Eexp. pose proof (Unix_mono (clock w) now). lia.
  - rewrite Eexp. pose proof (Unix_mono now (clock w1)). lia.
  - intros Hle. by destruct (stored_found s now t1 w2 r w3 Hh2 Hs Ha ltac:(lia) ltac:(lia) Eexp Hks Hg Hle).
  - intros Hlt. split; [|apply (Refresh_expired s w2 (after t1 2592000) (after t2 2592000)); try assumption; lia].
    destruct (run_Get (NewSessionStore true) (AccessToken s) w2 Hh2 eq_refl Ha)
      as (w3' & u1 & u2 & Eg & _ & Hu1 & Hu12 & _).
    rewrite Hg in Eg. injection Eg as -> <-. rewrite (lookup_stored _ _ _ _ _ Hs Hks).
    assert (clock w2 <= u2) as Hwu by lia. apply Unix_mono in Hwu.
    replace (0 <? AccessExpireAt s) with true by lia. replace (AccessExpireAt s <? Unix u2) with true by lia.
    by rewrite orb_true_r.
Qed.

(** The two checks of Refresh leave Redis alone. *)
Lemma run_expired old w : exists x w',
  run (if 0 <? RefreshExpireAt old then now ← now; mret (RefreshExpireAt old <? Unix now) else mret false) w = (x, w') /\
  next_state w w' (keys w).
Proof.
  destruct (0 <? RefreshExpireAt old).
  - match goal with |- context [now ≫= ?k] => destruct (run_now k w) as (w' & -> & Hn) end. by eexists _, w'.
  - eexists _, w. split; [reflexivity|by split_and!].
Qed.

(** A status function that leaves Redis alone. *)
Definition aloof (f : option (Z -> prog (res Z))) : Prop :=
  forall g uid w0, f = Some g -> keys (run (g uid) w0).2 = keys w0 /\ (healthy w0 -> healthy (run (g uid) w0).2).

Lemma run_status f uid w : aloof f -> exists b w',
  run (match f with
       | None => mret false
       | Some g => r ← g uid; mret (match r with Err _ => true | Ok n => negb (n =? 1) end)
       end) w = (b, w') /\ next_state w w' (keys w) /\
  (b = false -> forall g, f = Some g -> exists w0, (run (g uid) w0).1 = Ok 1).
Proof.
  intros Hf. destruct f as [g|]; [|by exists false, w; split_and!].
  rewrite run_bind. destruct (Hf g uid w eq_refl) as [Hk Hh]. pose proof (run_clock (g uid) w) as Hc.
  destruct (run (g uid) w) as [r w'] eqn:Er. cbn [fst snd] in *.
  eexists _, w'. split; [reflexivity|]. split; [by split_and!|].
  intros Hb g' [= <-]. exists w. rewrite Er. destruct r as [n|]; [|done]. bool_to_prop. by subst.
Qed.

(** A Refresh that succeeds, up to the point where the new session is issued. *)
Lemma Refresh_ok_inv tok f w s' w' : healthy w -> aloof f ->
  run (Refresh (NewSessionStore true) tok f) w = (Ok s', w') ->
  exists t t1 t2 access d old w5,
    (clock w <= t /\ t <= t1 /\ t1 <= t2) /\
    find t (keys w) (refreshKeyPrefix +:+ tok) = Some (Entry (VStr access) d) /\
    lookup_session t1 t2 (keys w) access = Ok old /\ IsGuest old = false /\
    (forall g, f = Some g -> exists w0, (run (g (UID old)) w0).1 = Ok 1) /\
    healthy w5 /\ clock w <= clock w5 /\
    keys w5 !! (sessKeyPrefix +:+ access) = None /\
    (RefreshToken old <> "" -> keys w5 !! (refreshKeyPrefix +:+ RefreshToken old) = None) /\
    run (IssueUser (NewSessionStore true) (UID old) (NickName old) (Icon old) (UserType old) (Plat old)) w5 = (Ok s', w').
Proof.
  intros Hh Hf Hrun. unfold Refresh in Hrun. cbn [rdb NewSessionStore negb orb] in Hrun.
  change (MkStore true _ _ _) with (NewSessionStore true) in Hrun.
  destruct (String.eqb tok "") eqn:Etok; [done|].
  match type of Hrun with run (redis ?c ≫= ?k) w = _ =>
    destruct (run_redis c k w Hh eq_refl) as (w1 & Ht1 & Hh1 & _ & Hr1) end.
  cbn [redis_step] in Hr1.
  destruct (find (clock w1) (keys w) (refreshKeyPrefix +:+ tok)) as [[[access| | |] d]|] eqn:Ef;
    destruct (Hr1 _ _ eq_refl) as [E1 Hk1]; rewrite E1 in Hrun; try done; clear Hr1 E1.
  destruct (String.eqb access "") eqn:Eacc; [done|]. bool_to_prop.
  rewrite run_bind in Hrun.
  destruct (run_Get (NewSessionStore true) access w1 Hh1 eq_refl Eacc)
    as (w2 & u1 & u2 & Eg & (Hk2 & Ht2 & Hh2) & Hu1 & Hu12 & Hu2).
  rewrite Eg, Hk1 in Hrun. cbn [fst snd] in Hrun. specialize (Hh2 Hh1).
  destruct (lookup_session u1 u2 (keys w) access) as [old|] eqn:El; [|done].
  destruct (IsGuest old) eqn:Egu; [done|]. rewrite run_bind in Hrun.
  destruct (run_expired old w2) as (expired & w3 & E3 & Hk3 & Ht3 & Hh3).
  rewrite E3 in Hrun. cbn [fst snd] in Hrun. specialize (Hh3 Hh2).
  destruct expired; [rewrite run_bind in Hrun; done|]. rewrite run_bind in Hrun.
  destruct (run_status f (UID old) w3 Hf) as (banned & w4 & E4 & (Hk4 & Ht4 & Hh4) & Hst).
  rewrite E4 in Hrun. cbn [fst snd] in Hrun. specialize (Hh4 Hh3).
  destruct banned; [rewrite run_bind in Hrun; done|]. specialize (Hst eq_refl). rewrite run_bind in Hrun.
  destruct (run_revoke (NewSessionStore true) access (RefreshToken old) w4 Hh4 eq_refl)
    as (w5 & E5 & Ht5 & Hh5 & Hgone & Hgone2 & _).
  rewrite E5 in Hrun. cbn [fst snd] in Hrun.
  exists (clock w1), u1, u2, access, d, old, w5. split_and!; try done; lia.
Qed.

(** C10. Refresh rotates: when it succeeds (Redis up, the status function
    leaves Redis alone), the token named a stored, unexpired, non-guest
    session; the status function, if given, said 1; the new session carries the
    old one's user, name, icon, type and platform; the old access token and the
    old session's refresh token are gone from Redis (unless drawn again), the
    new session is stored; and its refresh expiry is a full thirty days from
    now: each refresh opens a new window, which the source's comment on this
    step ("refresh window NOT extended") denies. *)
Theorem Refresh_rotates tok f w s' w' :
  healthy w -> run (Refresh (NewSessionStore true) tok f) w = (Ok s', w') ->
  (forall g uid w0, f = Some g ->
     keys (run (g uid) w0).2 = keys w0 /\ (healthy w0 -> healthy (run (g uid) w0).2)) ->
  exists t t1 t2 access d old,
    clock w <= t /\ t <= t1 /\ t1 <= t2 /\
    find t (keys w) (refreshKeyPrefix +:+ tok) = Some (Entry (VStr access) d) /\
    lookup_session t1 t2 (keys w) access = Ok old /\ IsGuest old = false /\
    (forall g, f = Some g -> exists w0, (run (g (UID old)) w0).1 = Ok 1) /\
    UID s' = UID old /\ NickName s' = NickName old /\ Icon s' = Icon old /\
    UserType s' = UserType old /\ Plat s' = Plat old /\
    (AccessToken s' <> access -> keys w' !! (sessKeyPrefix +:+ access) = None) /\
    (RefreshToken old <> "" -> RefreshToken s' <> RefreshToken old ->
       keys w' !! (refreshKeyPrefix +:+ RefreshToken old) = None) /\
    (exists dl, keys w' !! (sessKeyPrefix +:+ AccessToken s')
                = Some (Entry (VStr (json_text (to_json s'))) dl)) /\
    Unix (clock w) + 2592000 <= RefreshExpireAt s'.
Proof.
  intros Hh Hrun Hf.
  destruct (Refresh_ok_inv tok f w s' w' Hh Hf Hrun) as
    (t & u1 & u2 & access & d & old & w5 & (Ht & Hu1 & Hu2) & Ef & El & Eg & Hst & Hh5 & Ht5 & Hgone & Hgone2 & Hi).
  destruct (run_IssueUser _ _ _ _ _ _ _ _ Hh5 Hi)
    as (b1 & b2 & now & t1 & t2 & Es & _ & _ & Hnow & Hnt1 & Ht12 & Htw & Hh' & Hk').
  exists t, u1, u2, access, d, old. split_and!; try done; try (by subst s').
  - intros Hne. rewrite Hk', lookup_insert_ne, lookup_insert_ne; [done| |].
    + by intros E%append_inj_l.
    + apply not_eq_sym, sess_key_ne_refresh_key.
  - intros Hr Hne. rewrite Hk', lookup_insert_ne, lookup_insert_ne; [auto| |].
    + apply sess_key_ne_refresh_key.
    + by intros E%append_inj_l.
  - rewrite Hk', lookup_insert_ne, lookup_insert_eq; [by eexists|].
    apply not_eq_sym, sess_key_ne_refresh_key.
  - rewrite Es. cbn [RefreshExpireAt]. unfold Unix. change DefaultUserRefreshTTL with (2592000 * Second).
    rewrite Z.div_add by done. enough (clock w / Second <= now / Second) by lia.
    apply Z.div_le_mono; [done|lia].
Qed.

(** A banned user keeps the session: when the status function never
    says 1 and Refresh answers ErrUserBanned, nothing has been deleted
    (revoking all of a user's sessions does nothing), so every session that
    could be looked up before still can. *)
Theorem banned_session_survives st tok g w w' old access t1 t2 :
  rdb st = true -> healthy w -> run (Refresh st tok (Some g)) w = (Err ErrUserBanned, w') ->
  (forall uid w0, keys (run (g uid) w0).2 = keys w0 /\
     (healthy w0 -> healthy (run (g uid) w0).2) /\ (run (g uid) w0).1 <> Ok 1) ->
  lookup_session t1 t2 (keys w) access = Ok old -> lookup_session t1 t2 (keys w') access = Ok old.
Proof.
  intros Hr Hh Hrun Hf. enough (keys w' = keys w) as -> by done.
  unfold Refresh in Hrun. rewrite Hr in Hrun. cbn [negb orb] in Hrun.
  destruct (String.eqb tok "") eqn:Etok; [done|].
  match type of Hrun with run (redis ?c ≫= ?k) w = _ =>
    destruct (run_redis c k w Hh eq_refl) as (w1 & Ht1 & Hh1 & _ & Hr1) end.
  assert (exists a, redis_step dbl glob (clock w1) (RGet (refreshKeyPrefix +:+ tok)) (keys w) = (a, keys w))
    as (a & Ea) by (cbn [redis_step]; repeat case_match; eauto).
  destruct (Hr1 _ _ Ea) as [E1 Hk1]. rewrite E1 in Hrun. clear Hr1 E1.
  destruct a as [acc|]; [|done]. destruct (String.eqb acc "") eqn:Eacc; [done|]. bool_to_prop.
  rewrite run_bind in Hrun.
  destruct (run_Get st acc w1 Hh1 Hr Eacc) as (w2 & u1 & u2 & Eg & (Hk2 & Ht2 & Hh2) & _).
  rewrite Eg in Hrun. cbn [fst snd] in Hrun. specialize (Hh2 Hh1).
  destruct (lookup_session u1 u2 _ _) as [o|]; [|done]. destruct (IsGuest o); [done|].
  rewrite run_bind in Hrun.
  match type of Hrun with context [run (if ?b then ?p else ?q) w2] =>
    assert (exists x w3, run (if b then p else q) w2 = (x, w3) /\ next_state w2 w3 (keys w2))
      as (expired & w3 & E3 & Hk3 & Ht3 & Hh3) end.
  { destruct (0 <? RefreshExpireAt o).
    - match goal with |- context [now ≫= ?k] => destruct (run_now k w2) as (w3 & -> & Hn) end.
      eexists _, w3. split; [reflexivity|done].
    - eexists _, w2. split; [reflexivity|by split_and!]. }
  rewrite E3 in Hrun. cbn [fst snd] in Hrun. specialize (Hh3 Hh2).
  destruct expired; [rewrite run_bind in Hrun; done|]. rewrite run_bind in Hrun.
  rewrite run_bind in Hrun. destruct (Hf (UID o) w3) as (Hk4 & _ & Hne).
  destruct (run (g (UID o)) w3) as [r w4]. cbn [fst snd run mret prog_mret] in *.
  assert (match r with Ok n => negb (n =? 1) | Err _ => true end = true) as Eb.
  { destruct r as [n|]; [|done]. apply negb_true_iff, Z.eqb_neq. congruence. }
  rewrite Eb in Hrun. injection Hrun as <-. congruence.
Qed.
End laws.

Lemma Get_sound_witness :
  let w := mini (1700000000 * Second)
    {[ "yuyan:sess:v2:ab" := Entry (VStr (json_text (to_json
         (MkSession "ab" "" 7 "n" "" 1 "pc" 3 false 1700000900 0)))) None ]} in
  exists s, (run (Get (NewSessionStore true) "ab") w).1 = Ok s /\ UID s = 7 /\
    Unix (clock w) <= AccessExpireAt s.
Proof.
  intros w.
  destruct (run (Get (NewSessionStore true) "ab") w) as [r w'] eqn:E.
  destruct r as [s|e]; [|vm_compute in E; discriminate E].
  pose proof (Get_sound (NewSessionStore true) "ab" s w w' E) as (_ & _ & t & raw & d & Ht & Hf & Hu & He).
  exists s.
  assert (s = MkSession "ab" "" 7 "n" "" 1 "pc" 3 false 1700000900 0) as Es.
  { apply (f_equal fst) in E. vm_compute in E. by injection E as <-. }
  split_and!; [done|by rewrite Es|]. apply He. by rewrite Es.
Defined.

Lemma Revoke_final_witness :
  let w := mini (1700000000 * Second)
    {[ "yuyan:sess:v2:ab" := Entry (VStr (json_text (to_json
         (MkSession "ab" "" 7 "n" "" 1 "pc" 3 false 1700000900 0)))) None ]} in
  let w1 := (run (Revoke (NewSessionStore true) "ab") w).2 in
  (run (Get (NewSessionStore true) "ab") w1).1 = Err ErrSessionNotFound.
Proof.
  intros w w1.
  refine (proj2 (Revoke_final (NewSessionStore true) "ab" w _ w1 w1 eq_refl _ (surjective_pairing _) _ _ _)).
  - constructor.
  - vm_compute. constructor.
  - lia.
  - done.
Defined.

Definition demo_world : MiniWorld :=
  MkMini ∅ (1700000000 * Second) 0 [] (concat (replicate 5 (map (fun n => byte_of_Z (Z.of_nat n)) (seq 1 56))))
    (fun _ => Err ErrCanceled).

Lemma IssueUser_lifetime_witness :
  let st := NewSessionStore true in
  let w1 := (run (IssueUser st 7 "n" "" 1 3) demo_world).2 in
  let s := match (run (IssueUser st 7 "n" "" 1 3) demo_world).1 with Ok s => s | Err _ => zero end in
  let w2 := mini (1700001801 * Second) (keys w1) in
  (run (Refresh st (RefreshToken s) None) w2).1 = Err ErrRefreshDenied.
Proof.
  intros st w1 s w2.
  assert (run (IssueUser st 7 "n" "" 1 3) demo_world = (Ok s, w1)) as E by (vm_compute; reflexivity).
  refine (proj2 (proj2 (proj2 (IssueUser_lifetime 7 "n" "" 1 3 demo_world s w1 w2
    _ _ None _ _ E _ _ _ _ _ _ _ _ (surjective_pairing _) _)) _)).
  - constructor.
  - by vm_compute.
  - reflexivity.
  - reflexivity.
  - reflexivity.
  - reflexivity.
  - reflexivity.
  - constructor.
  - by vm_compute.
  - reflexivity.
  - by vm_compute.
  - by vm_compute.
Defined.

(** A world with one stored user session. *)
Definition stored_session : Session :=
  MkSession "ab" "cd" 7 "n" "" 1 "pc" 3 false 1700000900 1702592000.
Definition session_world : MiniWorld :=
  MkMini (<[ "yuyan:sess:v2:ab" := Entry (VStr (json_text (to_json stored_session))) None ]>
          {[ "yuyan:refresh:v2:cd" := Entry (VStr "ab") None ]})
    (1700000000 * Second) 0 [] (replicate 56 Byte.x41) (fun _ => Err ErrCanceled).

Lemma Refresh_rotates_witness :
  let st := NewSessionStore true in
  let w' := (run (Refresh st "cd" (Some (fun _ => mret (Ok 1)))) session_world).2 in
  let s' := match (run (Refresh st "cd" (Some (fun _ => mret (Ok 1)))) session_world).1 with
            | Ok s => s | Err _ => zero end in
  Unix (clock session_world) + 2592000 <= RefreshExpireAt s'.
Proof.
  intros st w' s'.
  assert (run (Refresh st "cd" (Some (fun _ => mret (Ok 1)))) session_world = (Ok s', w')) as E
    by (vm_compute; reflexivity).
  assert (healthy session_world) as Hh by constructor.
  destruct (Refresh_rotates "cd" (Some (fun _ => mret (Ok 1))) session_world s' w' Hh E)
    as (t & t1 & t2 & access & d & old & H).
  - intros g uid w0 Eg. injection Eg as <-. split; [reflexivity|intros Hw; exact Hw].
  - do 15 destruct H as [_ H]. exact H.
Defined.

Lemma banned_session_survives_witness :
  let st := NewSessionStore true in
  let w' := (run (Refresh st "cd" (Some (fun _ => mret (Ok 2)))) session_world).2 in
  lookup_session (1700000000 * Second) (1700000000 * Second) (keys w') "ab" = Ok stored_session.
Proof.
  intros st w'.
  assert (run (Refresh st "cd" (Some (fun _ => mret (Ok 2)))) session_world = (Err ErrUserBanned, w')) as E
    by (vm_compute; reflexivity).
  refine (banned_session_survives st "cd" (fun _ => mret (Ok 2)) session_world w' stored_session "ab"
            _ _ eq_refl _ E _ _).
  - constructor.
  - intros uid w0. split_and!; [reflexivity|intros Hw; exact Hw|discriminate].
  - vm_compute. reflexivity.
Defined.

End Session.

Module Sms.

Definition smsKeyPrefix : string := "yuyan:sms:".
Definition smsTTL : Z := 5 * Minute.

Record SmsStore : Type := MkSms { rdb : bool; mode : string; bypass : string }.

Definition NewSmsStore (rdb : bool) (mode bypass : string) : SmsStore :=
  {| rdb := rdb; mode := ToLower (TrimSpace mode); bypass := TrimSpace bypass |}.

Definition key (cc phone : string) (smsType : Z) : string :=
  let cc := TrimPrefix (TrimSpace cc) "+" in
  let phone := TrimSpace phone in
  smsKeyPrefix +:+ cc +:+ ":" +:+ phone +:+ ":" +:+ FormatInt smsType.

(** One decimal digit per random byte; the buffer stays zero when the source
    fails. *)
Definition randomDigit : prog string :=
  b ← rand_read 1;
  let b := match b with Ok [b] => b | _ => Byte.x00 end in
  mret (String (Ascii.ascii_of_nat (48 + Z.to_nat (Z_of_byte b mod 10))) EmptyString).
Fixpoint randomDigits (n : nat) : prog string :=
  match n with
  | O => mret ""
  | S n => d ← randomDigit; r ← randomDigits n; mret (d +:+ r)
  end.

Definition Issue (s : SmsStore) (cc phone : string) (smsType : Z) : prog (res string) :=
  code ← randomDigits 4;
  r ← redis (RSetex (key cc phone smsType) code (Seconds smsTTL));
  match r with
  | Err e => mret (Err (ErrWrap "sms: set: " e))
  | Ok _ => mret (Ok code)
  end.

Definition Verify (s : SmsStore) (cc phone : string) (smsType : Z) (input : string) : prog bool :=
  if String.eqb input "" then mret false
  else if String.eqb (mode s) "dev" && negb (String.eqb (bypass s) "") && String.eqb input (bypass s)
  then mret true
  else if negb (rdb s) then mret false
  else
    stored ← redis (RGet (key cc phone smsType));
    match stored with
    | Err _ => mret false
    | Ok stored =>
      if String.eqb stored "" then mret false
      else if negb (String.eqb stored input) then mret false
      else _ ← redis (RDel [key cc phone smsType]); mret true
    end.

Example issue_ex :
  (run (Issue (NewSmsStore true " Prod" "") "+86" "139" 1)
     (MkMini ∅ 0 0 [] [Byte.x0b; Byte.x02; Byte.xff; Byte.x09] (fun _ => Err ErrCanceled))).1 = Ok "1259".
Proof. vm_compute. reflexivity. Qed.

Section laws.
Context `{Laws W}.

(** The dev bypass applies. *)
Definition bypassed (s : SmsStore) (input : string) : bool :=
  negb (String.eqb input "") &&
  (String.eqb (mode s) "dev" && negb (String.eqb (bypass s) "") && String.eqb input (bypass s)).

(** C15. SMS codes are checked against what is stored: with Redis up and
    outside the dev bypass, Verify accepts exactly when the input is not empty
    and equals the unexpired code under the key of this number and type; an
    accepted code is deleted (a second Verify that runs afterwards is
    refused), a refused one is left for another try.  With the dev bypass,
    which needs mode dev, the answer is yes and nothing is consumed. *)
Theorem Verify_one_shot (s : SmsStore) (cc phone : string) (ty : Z) (input : string) (w w' : W) (b : bool) :
  rdb s = true -> healthy w -> run (Verify s cc phone ty input) w = (b, w') ->
  if bypassed s input then b = true /\ w' = w else
  exists t, clock w <= t /\
  (b = true <-> input <> "" /\
     exists d, find t (keys w) (key cc phone ty) = Some (Entry (VStr input) d)) /\
  (b = true -> keys w' = delete (key cc phone ty) (keys w) /\ healthy w' /\
     forall input', bypassed s input' = false -> (run (Verify s cc phone ty input') w').1 = false) /\
  (b = false -> keys w' = keys w).
Proof.
  intros Hr Hh. unfold bypassed, Verify. rewrite Hr. cbn [negb].
  destruct (String.eqb input "") eqn:Ei; cbn [negb andb].
  { intros [= <- <-]. bool_to_prop. exists (clock w). split_and!; [lia|by split; [|intros []]|done|done]. }
  destruct (String.eqb (mode s) "dev" && negb (String.eqb (bypass s) "") && String.eqb input (bypass s)).
  { by intros [= <- <-]. }
  match goal with |- context [redis ?c ≫= ?k] =>
    destruct (run_redis c k w Hh eq_refl) as (w1 & Ht1 & Hh1 & _ & Hr1) end.
  cbn [redis_step] in Hr1. intros Hrun. exists (clock w1). split; [done|].
  destruct (find (clock w1) (keys w) (key cc phone ty)) as [[[v| | |] d]|] eqn:Ef;
    destruct (Hr1 _ _ eq_refl) as [E1 Hk1]; rewrite E1 in Hrun; clear E1 Hr1; bool_to_prop;
    try (injection Hrun as <- <-; split_and!; try done; by split; [|intros [_ [? ?]]]).
  destruct (String.eqb v "") eqn:Ev.
  { injection Hrun as <- <-. bool_to_prop. subst v. split_and!; try done. split; [done|]. by intros [? [? [= ? ?]]]. }
  destruct (String.eqb v input) eqn:Ein; cbn [negb] in Hrun; bool_to_prop.
  2:{ injection Hrun as <- <-. split_and!; try done. split; [done|]. by intros [_ [? [= ? ?]]]. }
  subst v.
  match type of Hrun with run (redis ?c ≫= ?k) w1 = _ =>
    destruct (run_redis c k w1 Hh1 eq_refl) as (w2 & Ht2 & Hh2 & _ & Hr2) end.
  destruct (Hr2 _ _ eq_refl) as [E2 Hk2]. rewrite E2 in Hrun. injection Hrun as <- <-. cbn in Hk2.
  rewrite Hk1 in Hk2. split; [|split; [|done]].
  - split; [intros _|done]. split; [done|]. by exists d.
  - intros _. split_and!; [done|done|]. intros i' Hi'.
    destruct (String.eqb i' "") eqn:Ei'; [done|]. cbn [negb andb] in Hi'. rewrite Hi'.
    match goal with |- context [redis ?c ≫= ?k] =>
      destruct (run_redis c k w2 Hh2 eq_refl) as (w3 & _ & _ & _ & Hr3) end.
    cbn [redis_step] in Hr3. rewrite Hk2, find_delete_eq in Hr3.
    destruct (Hr3 _ _ eq_refl) as [-> _]. done.
Qed.

Lemma run_randomDigits n w : exists code w', run (randomDigits n) w = (code, w') /\
  String.length code = n /\ next_state w w' (keys w).
Proof.
  revert w. induction n as [|n IH]; intros w.
  { exists "", w. split_and!; [done|done|apply next_state_refl]. }
  cbn [randomDigits]. rewrite run_bind.
  assert (exists d w1, run randomDigit w = (d, w1) /\ String.length d = 1%nat /\ next_state w w1 (keys w))
    as (d & w1 & -> & Hd & Hk1 & Ht1 & Hh1).
  { unfold randomDigit.
    match goal with |- context [rand_read 1 ≫= ?k] =>
      destruct (run_rand 1 k w) as (w1 & r & -> & Hn & _) end.
    eexists _, w1. split_and!; [reflexivity|done|done]. }
  cbn [fst snd]. rewrite run_bind. destruct (IH w1) as (code & w2 & -> & Hc & Hk2 & Ht2 & Hh2).
  cbn [fst snd]. exists (d +:+ code), w2. split_and!; [done|by rewrite append_length, Hd, Hc|].
  rewrite <- Hk1. eapply (next_state_trans w w1); by split.
Qed.

(** What Issue sends, Verify accepts: with Redis up, the four-character
    code that Issue returns is accepted for the same number and type during
    the next five minutes, as long as the key is not written in between. *)
Theorem Issue_Verify (s : SmsStore) (cc phone : string) (ty : Z) (code : string) (w w1 w2 w3 : W) (b : bool) :
  rdb s = true -> healthy w -> run (Issue s cc phone ty) w = (Ok code, w1) ->
  healthy w2 -> keys w2 !! key cc phone ty = keys w1 !! key cc phone ty ->
  run (Verify s cc phone ty code) w2 = (b, w3) -> clock w3 < clock w + 300 * Second ->
  String.length code = 4%nat /\ b = true.
Proof.
  intros Hr Hh Hi Hh2 Hk Hv H300. unfold Issue in Hi. rewrite run_bind in Hi.
  destruct (run_randomDigits 4 w) as (c & w0 & Ec & Hlen & Hk0 & Ht0 & Hh0). rewrite Ec in Hi.
  cbn [fst snd] in Hi.
  match type of Hi with run (redis ?c ≫= ?k) w0 = _ =>
    destruct (run_redis c k w0 (Hh0 Hh) eq_refl) as (w1' & Ht1 & Hh1 & _ & Hr1) end.
  destruct (Hr1 _ _ eq_refl) as [E1 Hk1]. rewrite E1 in Hi. injection Hi as -> ->. split; [done|].
  assert (String.eqb code "" = false) as Ene by (destruct code; [discriminate Hlen|done]).
  unfold Verify in Hv. rewrite Ene, Hr in Hv. cbn [negb] in Hv.
  destruct (_ && _ && _) in Hv; [by injection Hv|].
  match type of Hv with run (redis ?c ≫= ?k) w2 = _ =>
    destruct (run_redis c k w2 Hh2 eq_refl) as (w4 & Ht4 & Hh4 & He4 & Hr4) end.
  rewrite Hv in He4. cbn [snd] in He4.
  assert (find (clock w4) (keys w2) (key cc phone ty) =
          Some (Entry (VStr code) (after (clock w1) (Seconds smsTTL)))) as Hf.
  { unfold find. rewrite Hk, Hk1, lookup_insert_eq. cbn [mbind option_bind]. unfold live, after.
    cbn [deadline]. change (Seconds smsTTL) with 300.
    by replace (clock w4 <? clock w1 + 300 * Second) with true by lia. }
  cbn [redis_step] in Hr4. rewrite Hf in Hr4. destruct (Hr4 _ _ eq_refl) as [E4 Hk4]. rewrite E4 in Hv.
  rewrite Ene, String.eqb_refl in Hv. cbn [negb] in Hv. rewrite run_bind in Hv. by injection Hv.
Qed.
End laws.

Lemma Verify_one_shot_witness :
  let s := NewSmsStore true "prod" "" in
  let w := mini 0 {[ "yuyan:sms:86:139:1" := Entry (VStr "4711") None ]} in
  let w' := (run (Verify s "+86" "139" 1 "4711") w).2 in
  (run (Verify s "+86" "139" 1 "4711") w').1 = false.
Proof.
  intros s w w'.
  assert (run (Verify s "+86" "139" 1 "4711") w = (true, w')) as E by (vm_compute; reflexivity).
  assert (healthy w) as Hh by constructor.
  destruct (Verify_one_shot s "+86" "139" 1 "4711" w w' true eq_refl Hh E) as (t & _ & _ & H & _).
  exact (proj2 (proj2 (H eq_refl)) "4711" eq_refl).
Defined.

Lemma Issue_Verify_witness :
  let s := NewSmsStore true "prod" "" in
  let w := Session.demo_world in
  let w1 := (run (Issue s "+86" "139" 1) w).2 in
  let w2 := mini (1700000299 * Second) (keys w1) in
  (run (Verify s "86" "139" 1 "1234") w2).1 = true.
Proof.
  intros s w w1 w2.
  assert (run (Issue s "+86" "139" 1) w = (Ok "1234", w1)) as E by (vm_compute; reflexivity).
  refine (proj2 (Issue_Verify s "86" "139" 1 "1234" w w1 w2 _ _ eq_refl _ E _ _ (surjective_pairing _) _)).
  - constructor.
  - constructor.
  - reflexivity.
  - by vm_compute.
Defined.

(** One code can be used twice at once: reading and deleting are two
    commands, so two concurrent calls of Verify with the same code can both be
    accepted. *)
Theorem Verify_races :
  let v := Verify (NewSmsStore true "prod" "") "+86" "139" 1 "4711" in
  let c0 := Pool (mini 0 {[ "yuyan:sms:86:139:1" := Entry (VStr "4711") None ]}) [v; v] [] in
  exists c, rtc (sched (fun _ _ => False)) c0 c /\ threads c = [Ret true; Ret true].
Proof.
  intros v c0.
  assert (match run_schedule [0; 1; 0; 1]%nat c0 with
          | Some c => match threads c with [Ret true; Ret true] => true | _ => false end
          | None => false
          end = true) as E by (vm_compute; reflexivity).
  destruct (run_schedule _ c0) as [c|] eqn:Er; [|done].
  exists c. split; [by eapply run_schedule_sound|]. clear Er. clearbody c0 v.
  by destruct (threads c) as [|[[]| |] [|[[]| |] []]].
Qed.
End Sms.
