(* ===== verification/Cache.v ===== *)
(** * The cache layer (src/common/cache)

    [Fallback] is fallback.go, [Legacy] the Redis read-through cache of
    cache.go, [Multi] the two-level manager of manager.go.  Cached types are a
    type parameter with its JSON form.  A goroutine the code starts is a
    [Fork]; whether singleflight's Do runs its function (the caller leads) or
    hands over another call's result is an effect ([FlightAsk]); the circuit
    breaker's decision is an effect ([BreakerAsk]), its accounting
    another.  Of the Prometheus metrics the updates are counted. *)

From S2P Require Import Prelude GoStr Json Degrade Env.

(** [buildKey]. *)
Definition buildKey (family key : string) : string :=
  "apipro:" +:+ family +:+ ":" +:+ TrimSpace key.

Module Fallback.

Definition ErrNoFallback :=
  ErrSentinel "cache.ErrNoFallback" "cache: all fallback sources exhausted".

(** The interface: [Get] returns the data, whether it hit, and an error. *)
Record FallbackSource : Type := MkSource {
  Name : string;
  Get : string -> string -> prog (string * bool * option error);
}.

(** A nil entry is skipped. *)
Record FallbackManager : Type := MkFallback { sources : list (option FallbackSource) }.

Definition NewFallbackManager (l : list (option FallbackSource)) : FallbackManager := MkFallback l.

Fixpoint walk (l : list (option FallbackSource)) (family key : string) : prog (res (string * string)) :=
  match l with
  | [] => mret (Err ErrNoFallback)
  | None :: l => walk l family key
  | Some src :: l =>
    r ← Get src family key;
    match r with
    | (_, _, Some _) => _ ← atomic_add (FbErr (Name src)); walk l family key
    | (d, true, None) => _ ← atomic_add (FbHit (Name src)); mret (Ok (d, Name src))
    | (_, false, None) => _ ← atomic_add (FbMiss (Name src)); walk l family key
    end
  end.

Definition GetOrError (fm : FallbackManager) (family key : string) : prog (res (string * string)) :=
  walk (sources fm) family key.

Fixpoint names (l : list (option FallbackSource)) : list string :=
  match l with
  | [] => []
  | None :: l => names l
  | Some s :: l => Name s :: names l
  end.
Definition Sources (fm : FallbackManager) : list string := names (sources fm).

Fixpoint stats_of (l : list string) (out : gmap string (Z * Z * Z)) : prog (gmap string (Z * Z * Z)) :=
  match l with
  | [] => mret out
  | n :: l =>
    h ← atomic_load (FbHit n); m ← atomic_load (FbMiss n); e ← atomic_load (FbErr n);
    stats_of l (<[n := (h, m, e)]> out)
  end.
Definition Stats (fm : FallbackManager) : prog (gmap string (Z * Z * Z)) := stats_of (Sources fm) ∅.

(** ** The built-in sources *)

(** The key is not trimmed here. *)
Definition l1_Get (configured : bool) (family key : string) : prog (string * bool * option error) :=
  if negb configured then mret ("", false, None)
  else
    r ← l1 (LGet ("apipro:" +:+ family +:+ ":" +:+ key));
    match r with
    | Err _ => mret ("", false, None)          (* no data comes with an error *)
    | Ok data => if String.eqb data "" then mret ("", false, None) else mret (data, true, None)
    end.
Definition NewL1StaleSource (configured : bool) : FallbackSource := MkSource "l1_stale" (l1_Get configured).

Definition snapshot_url (baseURL family key : string) : string :=
  baseURL +:+ "/" +:+ family +:+ "/" +:+ ReplaceAll_colon_slash key +:+ ".json".

Definition oss_Get (baseURL family key : string) : prog (string * bool * option error) :=
  if String.eqb baseURL "" then mret ("", false, None)
  else
    let url := snapshot_url baseURL family key in
    resp ← http_get url;
    match resp with
    | Err e => mret ("", false, Some e)
    | Ok (status, body) =>
      if status =? 200 then
        match body with
        | Err e => mret ("", false, Some e)
        | Ok [] => mret ("", false, None)
        | Ok body => mret (string_of body, true, None)
        end
      else if status =? 404 then mret ("", false, None)
      else mret ("", false, Some (ErrMsg ("oss snapshot " +:+ url +:+ ": unexpected status "
                                          +:+ FormatInt status)))
    end.
Definition NewOSSSnapshotSource (baseURL : string) : FallbackSource :=
  MkSource "oss" (oss_Get (TrimRight_slash baseURL)).

Definition dquote : string := String (Ascii.ascii_of_nat 34) EmptyString.
Definition cdn_payload (baseURL family key : string) : string :=
  "{" +:+ dquote +:+ "cdn_redirect" +:+ dquote +:+ ":" +:+ dquote
  +:+ snapshot_url baseURL family key +:+ dquote +:+ "}".
Definition cdn_Get (baseURL family key : string) : prog (string * bool * option error) :=
  mret (cdn_payload baseURL family key, true, None).
Definition NewCDNSource (baseURL : string) : FallbackSource :=
  MkSource "cdn" (cdn_Get (TrimRight_slash baseURL)).

(** The chain answers with the first source that hits: every source
    before it was asked and missed or failed (an error does not stop the chain,
    a nil entry is skipped), and ErrNoFallback means that every source was asked
    and none hit. *)
Theorem GetOrError_first_hit `{World W} (fm : FallbackManager) (family key : string) (w w' : W) r :
  run (GetOrError fm family key) w = (r, w') ->
  let no_hit (o : option FallbackSource) :=
    match o with
    | None => True
    | Some s => exists v v' d h e, run (Get s family key) v = ((d, h, e), v') /\ (e <> None \/ h = false)
    end in
  match r with
  | Ok (d, name) => exists pre src post v v', sources fm = pre ++ Some src :: post /\ name = Name src /\
      run (Get src family key) v = ((d, true, None), v') /\ Forall no_hit pre
  | Err e => e = ErrNoFallback /\ Forall no_hit (sources fm)
  end.
Proof.
  intros Hrun no_hit. unfold GetOrError in Hrun. revert w Hrun. generalize (sources fm) as l. intros l.
  induction l as [|[src|] l IH]; intros w Hrun; cbn [walk] in Hrun.
  - injection Hrun as <- <-. by split; [|constructor].
  - rewrite run_bind in Hrun. destruct (run (Get src family key) w) as [[[d h] e] w1] eqn:Eg.
    cbn [fst snd] in Hrun.
    assert (forall c w2, (e <> None \/ h = false) ->
      run (_ ← atomic_add c; walk l family key) w2 = (r, w') ->
      match r with
      | Ok (d, name) => exists pre src0 post v v', Some src :: l = pre ++ Some src0 :: post /\ name = Name src0 /\
          run (Get src0 family key) v = ((d, true, None), v') /\ Forall no_hit pre
      | Err e => e = ErrNoFallback /\ Forall no_hit (Some src :: l)
      end) as Hnext.
    { intros c w2 Hno Hr. rewrite run_bind in Hr. apply IH in Hr.
      assert (no_hit (Some src)) as Hs by (by eexists w, w1, d, h, e).
      destruct r as [[d' n]|e']; [|by destruct Hr; split; [|constructor]].
      destruct Hr as (pre & s0 & post & v & v' & -> & ? & ? & ?).
      exists (Some src :: pre), s0, post, v, v'. split_and!; [done|done|done|by constructor]. }
    destruct e as [e|]; [by apply (Hnext (FbErr (Name src)) w1); [left|destruct h]|].
    destruct h; [|by apply (Hnext (FbMiss (Name src)) w1); [right|]].
    rewrite run_bind in Hrun. injection Hrun as <- <-.
    exists [], src, l, w, w1. by split_and!.
  - apply IH in Hrun. destruct r as [[d n]|e].
    + destruct Hrun as (pre & s0 & post & v & v' & -> & ? & ? & ?).
      exists (None :: pre), s0, post, v, v'. split_and!; [done|done|done|by constructor].
    + destruct Hrun. by split; [|constructor].
Qed.

Lemma GetOrError_first_hit_witness :
  let fm := NewFallbackManager [Some (NewL1StaleSource true); None; Some (NewCDNSource "http://c/")] in
  let w := mini 0 ∅ in
  exists d name, (run (GetOrError fm "m" "a:1") w).1 = Ok (d, name) /\
    exists pre src post, sources fm = pre ++ Some src :: post /\ name = Name src.
Proof.
  intros fm w.
  destruct (run (GetOrError fm "m" "a:1") w) as [[[d name]|e] w'] eqn:E;
    [|apply (f_equal (fun p => is_ok p.1)) in E; vm_compute in E; discriminate E].
  exists d, name. split; [done|].
  destruct (GetOrError_first_hit fm "m" "a:1" w w' _ E) as (pre & src & post & v & v' & H1 & H2 & _).
  by exists pre, src, post.
Defined.

End Fallback.

(** ** cache.go *)
Module Legacy.
Section legacy.
(** The cached type with json.Marshal and json.Unmarshal for it. *)
Context {T : Type} (marshal : T -> res string) (unmarshal : string -> T * bool).

(** A nil cache or one without a client. *)
Definition Cache : Type := option bool.
Definition no_redis (c : Cache) : bool := match c with Some true => false | _ => true end.

Definition write_back (redisKey : string) (ttl : Z) (v : T) : prog unit :=
  match marshal v with
  | Err _ => mret tt
  | Ok b => _ ← redis (RSetex redisKey b (Seconds ttl)); mret tt
  end.

(** The singleflight function, run by the call that leads: check again, else
    load and store. *)
Definition load (redisKey : string) (ttl : Z) (loader : prog (res T)) : prog (res T) :=
  raw ← redis (RGet redisKey);
  let run_loader :=
    loaded ← loader;
    match loaded with
    | Err e => mret (Err e)
    | Ok v => _ ← go (write_back redisKey ttl v); mret (Ok v)
    end in
  match raw with
  | Ok raw =>
    if negb (String.eqb raw "") && (unmarshal raw).2 then mret (Ok (unmarshal raw).1) else run_loader
  | Err _ => run_loader
  end.

(** A call that shares another's flight gets its result; a result of another
    type ([None]) becomes the type's zero value. *)
Definition share (zero : T) (redisKey : string) (ttl : Z) (loader : prog (res T)) : prog (res T) :=
  shared ← Vis (FlightAsk (V := option T) "cache" redisKey) Ret;
  match shared with
  | None => load redisKey ttl loader
  | Some (Err e) => mret (Err e)
  | Some (Ok v) => mret (Ok (default zero v))
  end.

Definition GetOrLoad (zero : T) (c : Cache) (family key : string) (ttl : Z) (loader : prog (res T)) : prog (res T) :=
  if no_redis c then loader
  else
    let redisKey := buildKey family key in
    raw ← redis (RGet redisKey);
    let miss := _ ← atomic_add (CMiss family); share zero redisKey ttl loader in
    match raw with
    | Ok raw =>
      if negb (String.eqb raw "") then
        _ ← atomic_add (CHit family);
        if (unmarshal raw).2 then mret (Ok (unmarshal raw).1) else miss
      else miss
    | Err _ => miss
    end.

Definition Refresh (c : Cache) (family key : string) (ttl : Z) (loader : prog (res T))
    : prog (option error) :=
  v ← loader;
  match v with
  | Err e => mret (Some e)
  | Ok v =>
    if no_redis c then mret None
    else match marshal v with
    | Err e => mret (Some e)
    | Ok b =>
      r ← redis (RSetex (buildKey family key) b (Seconds ttl));
      mret (match r with Err e => Some e | Ok _ => None end)
    end
  end.
End legacy.

Definition Invalidate (c : Cache) (family key : string) : prog (option error) :=
  if no_redis c then mret None
  else r ← redis (RDel [buildKey family key]);
       mret (match r with Err e => Some e | Ok _ => None end).

(** Delete every key that matches a pattern. *)
Definition delete_matching (pattern : string) : prog (res Z) :=
  keys ← redis (RKeys pattern);
  match keys with
  | Err e => mret (Err e)
  | Ok [] => mret (Ok 0)
  | Ok ks =>
    n ← redis (RDel ks);
    mret n
  end.

Definition InvalidateFamily (c : Cache) (family : string) : prog (res Z) :=
  if no_redis c then mret (Ok 0) else delete_matching ("apipro:" +:+ family +:+ ":*").

Definition count_matching (c : Cache) (pattern : string) : prog Z :=
  if no_redis c then mret 0
  else keys ← redis (RKeys pattern);
       mret (match keys with Err _ => 0 | Ok ks => Z.of_nat (length ks) end).
Definition CountKeys (c : Cache) : prog Z := count_matching c "apipro:*".
Definition CountFamily (c : Cache) (family : string) : prog Z :=
  count_matching c ("apipro:" +:+ family +:+ ":*").

(** [Stats.Snapshot]: the counters of the families in the two maps, those that
    were counted so far. *)
Fixpoint load_counters (c : string -> counter) (families : list string) : prog (gmap string Z) :=
  match families with
  | [] => mret ∅
  | f :: fs => v ← atomic_load (c f); m ← load_counters c fs; mret (<[f := v]> m)
  end.
Definition Snapshot (hit_families miss_families : list string) : prog (gmap string Z * gmap string Z) :=
  hits ← load_counters CHit hit_families;
  misses ← load_counters CMiss miss_families;
  mret (hits, misses).

Lemma run_load_counters `{Laws W} c fs : forall w m w', run (load_counters c fs) w = (m, w') ->
  counts w' = counts w /\ forall f, m !! f = if decide (f ∈ fs) then Some (counts w (c f)) else None.
Proof.
  induction fs as [|f fs IH]; intros w m w' Hr; cbn [load_counters] in Hr.
  - rewrite run_ret in Hr. injection Hr as <- <-. split; [done|]. intros f. by rewrite decide_False by apply not_elem_of_nil.
  - apply run_bind_inv in Hr as (v & w1 & E1 & Hr). apply run_bind_inv in Hr as (m1 & w2 & E2 & Hr).
    rewrite run_ret in Hr. injection Hr as <- <-. apply IH in E2 as [Hc Hm].
    assert (counts w1 = counts w /\ v = counts w (c f)) as [Hc1 ->].
    { pose proof (load_law (c f) w) as Hl. pose proof (proj2 (own_quiet (AtomicLoad (c f)) w)) as Hq.
      unfold atomic_load in E1. cbn [run] in E1. destruct (handle (AtomicLoad (c f)) w) as [x w3].
      injection E1 as <- <-. by split. }
    split; [congruence|]. intros g. destruct (decide (g = f)) as [->|Hne].
    + by rewrite lookup_insert_eq, decide_True by (by left).
    + rewrite lookup_insert_ne by congruence. rewrite Hm, Hc1.
      destruct (decide (g ∈ fs)); [by rewrite decide_True by (by right)|].
      by rewrite decide_False by (intros [?|?]%elem_of_cons; done).
Qed.

(** The refresh scheduler's job list. *)
Record RefreshJob : Type := MkJob { Family : string; Run : prog (option error); Every : Z }.
Definition Add (jobs : list RefreshJob) (job : RefreshJob) : list RefreshJob :=
  if Every job <=? 0 then jobs else jobs ++ [job].
End Legacy.

(** ** manager.go *)
Module Multi.

Definition ErrDegradeClosed :=
  ErrSentinel "cache.ErrDegradeClosed" "cache: degrade mode closed for this level".
Definition ErrCircuitOpen :=
  ErrSentinel "cache.ErrCircuitOpen" "cache: circuit breaker open and no fallback".

(** *** Decoding into [any]

    A decoded number is a float64 and a decoded object a map, whose keys the
    encoder writes sorted.  [float_lit] is the text the encoder writes for the
    float64 nearest to a literal; [None] when the literal is out of range. *)
Fixpoint str_leb (a b : string) : bool :=
  match a, b with
  | EmptyString, _ => true
  | _, EmptyString => false
  | String x a, String y b =>
    let n := Ascii.nat_of_ascii x in let m := Ascii.nat_of_ascii y in
    (n <? m)%nat || ((n =? m)%nat && str_leb a b)
  end.

(** Insert into an association list sorted by key, replacing an equal key. *)
Fixpoint set_key (k : string) (v : json) (l : list (string * json)) : list (string * json) :=
  match l with
  | [] => [(k, v)]
  | (k', v') :: l' =>
    if String.eqb k k' then (k, v) :: l'
    else if str_leb k k' then (k, v) :: l
    else (k', v') :: set_key k v l'
  end.

Fixpoint all_some {A} (l : list (option A)) : option (list A) :=
  match l with
  | [] => Some []
  | x :: l => x ← x; l ← all_some l; Some (x :: l)
  end.

Section any.
Context (float_lit : string -> option string).

Fixpoint as_any (j : json) : option json :=
  match j with
  | JNum lit => lit ← float_lit lit; Some (JNum lit)
  | JArr l => l ← all_some (map as_any l); Some (JArr l)
  | JObj ms =>
    ms ← all_some (map (fun '(k, v) => v ← as_any v; Some (k, v)) ms);
    Some (JObj (foldl (fun acc m => set_key m.1 m.2 acc) [] ms))
  | j => Some j
  end.

Definition jsonUnmarshalAny (raw : string) : res json :=
  if String.eqb raw "" then Ok JNull
  else match json_parse raw with
  | None => Err (ErrWrap "cache: unmarshal: " (ErrMsg "invalid JSON"))
  | Some j => match as_any j with
    | None => Err (ErrWrap "cache: unmarshal: " (ErrMsg "number out of range"))
    | Some j => Ok j
    end
  end.
End any.

Record Manager : Type := MkManager {
  has_l1 : bool;
  has_rdb : bool;
  fb : option Fallback.FallbackManager;
  l1TTLMin : Z;
  l1TTLMax : Z;
}.

(** The size only dimensions the in-process cache; the degrade manager is the
    process's. *)
Definition NewManager (rdb : bool) (fb : option Fallback.FallbackManager) : Manager :=
  {| has_l1 := true; has_rdb := rdb; fb := fb; l1TTLMin := 5 * Second; l1TTLMax := 60 * Second |}.

Section manager.
(** The cached type: its encoder, its decoder, and the float64 formatting. *)
Context {T : Type} (marshal : T -> res string) (unmarshal : string -> T * bool).
Context (float_lit : string -> option string).

(** What GetOrLoad returns: a loader's own value, or decoded JSON; a value of
    another type, which another call may have loaded for the key, stands as the
    JSON it is marshalled to. *)
Inductive any : Type := Loaded (t : T) | Decoded (j : json).

Record Options : Type := MkOptions {
  Family : string; Key : string; TTL : Z; level : Level; BreakerName : string;
  Loader : option (prog (res T)) }.

Definition l1TTLOf (m : Manager) (l2TTL : Z) : prog Z :=
  let half := Z.quot l2TTL 2 in
  let half := if half <? l1TTLMin m then l1TTLMin m else half in
  let half := if l1TTLMax m <? half then l1TTLMax m else half in
  let jitter := Z.quot half 10 in
  if 0 <? jitter then now ← now; mret (half - jitter + Z.rem now (jitter * 2))
  else mret half.

Definition l1_set (m : Manager) (k v : string) (ttl : Z) : prog unit :=
  if negb (has_l1 m) then mret tt
  else t ← l1TTLOf m ttl; _ ← l1 (LSet k v (Seconds t)); mret tt.

Definition store_both (m : Manager) (k v : string) (ttl : Z) : prog unit :=
  _ ← l1_set m k v ttl;
  if has_rdb m then _ ← redis (RSetex k v (Seconds ttl)); mret tt else mret tt.

Definition writeBack (m : Manager) (opts : Options) (v : T) : prog unit :=
  match marshal v with
  | Err _ => mret tt
  | Ok b => store_both m (buildKey (Family opts) (Key opts)) b (TTL opts)
  end.

Definition closed_error (e : error) : error :=
  if errors_Is e ErrServiceUnavailable then ErrCircuitOpen else e.

Definition tryFallback (m : Manager) (opts : Options) (originalErr : error) : prog error :=
  match fb m with
  | None => mret (closed_error originalErr)
  | Some f =>
    r ← Fallback.GetOrError f (Family opts) (Key opts);
    match r with
    | Err _ => mret (closed_error originalErr)
    | Ok (data, _) =>
      _ ← go (store_both m (buildKey (Family opts) (Key opts)) data (TTL opts));
      mret (closed_error originalErr)
    end
  end.

Definition acceptable (e : option error) : bool :=
  match e with
  | None => true
  | Some e => errors_Is e ErrRedisNil || errors_Is e Fallback.ErrNoFallback
  end.

(** [latency] in nanoseconds. *)
Definition observeMetrics (family : string) (hit failed : bool) (latency : Z) : prog unit :=
  _ ← atomic_add (if hit then PmHit family else PmMiss family);
  _ ← (if failed then atomic_add (PmError family) else mret tt);
  if 0 <? latency then atomic_add (PmLatency family) else mret tt.

Definition breaker_name (opts : Options) : string :=
  if String.eqb (BreakerName opts) "" then Family opts else BreakerName opts.
Definition sfKey (opts : Options) : string := breaker_name opts +:+ ":" +:+ Key opts.

(** The function of the flight, run by the call that leads: the value, its
    write-back left to a goroutine. *)
Definition lead (m : Manager) (opts : Options) (loader : prog (res T)) : prog (res any) :=
  loaded ← loader;
  match loaded with
  | Err e => mret (Err e)
  | Ok t => _ ← go (writeBack m opts t); mret (Ok (Loaded t))
  end.

(** [group.Do(sfKey, ..)]: lead, or take the result of the call that leads. *)
Definition fly (m : Manager) (opts : Options) (loader : prog (res T)) : prog (res any) :=
  shared ← Vis (FlightAsk "manager" (sfKey opts)) Ret;
  match shared with
  | Some r => mret r
  | None => lead m opts loader
  end.

(** The breaker's call: an error is the one it returns. *)
Definition through_breaker (m : Manager) (opts : Options) (loader : prog (res T)) : prog (res any) :=
  v ← Vis (BreakerAsk (breaker_name opts)) Ret;
  match v with
  | BCtxDone e => mret (Err e)
  | BAccept =>
    r ← fly m opts loader;
    _ ← Vis (BreakerMark (breaker_name opts)
               (acceptable (match r with Err e => Some e | Ok _ => None end))) Ret;
    mret r
  | BReject =>
    if level opts =? LevelWrite
    then mret (Err (closed_error ErrServiceUnavailable))
    else e ← tryFallback m opts ErrServiceUnavailable; mret (Err e)
  end.

Definition loadThroughBreaker (m : Manager) (opts : Options) (loader : prog (res T)) : prog (res any) :=
  startTime ← now;
  r ← through_breaker m opts loader;
  stop ← now;
  _ ← observeMetrics (Family opts) (is_ok r) (negb (is_ok r)) (stop - startTime);
  mret r.

Definition decoded (raw : string) : res any :=
  match jsonUnmarshalAny float_lit raw with Err e => Err e | Ok j => Ok (Decoded j) end.

Definition GetOrLoad (m : Manager) (opts : Options) : prog (res any) :=
  match Loader opts with
  | None => mret (Err (ErrMsg "cache: loader is nil"))
  | Some loader =>
    if String.eqb (Family opts) "" then mret (Err (ErrMsg "cache: family is empty"))
    else
      served ← dgr (gets (fun mg => CanServeLevel mg (level opts)));
      if negb served then mret (Err ErrDegradeClosed)
      else if level opts =? LevelWrite then loadThroughBreaker m opts loader
      else
        let redisKey := buildKey (Family opts) (Key opts) in
        let miss := _ ← atomic_add (CMiss (Family opts)); loadThroughBreaker m opts loader in
        let try_l2 :=
          if has_rdb m then
            raw ← redis (RGet redisKey);
            match raw with
            | Ok raw =>
              if negb (String.eqb raw "") then
                _ ← atomic_add (CHit (Family opts +:+ ":l2"));
                _ ← observeMetrics (Family opts) true false 0;
                _ ← go (l1_set m redisKey raw (TTL opts));
                mret (decoded raw)
              else miss
            | Err _ => miss
            end
          else miss in
        if has_l1 m then
          raw ← l1 (LGet redisKey);
          match raw with
          | Ok raw =>
            if negb (String.eqb raw "") then
              _ ← atomic_add (CHit (Family opts +:+ ":l1"));
              _ ← observeMetrics (Family opts) true false 0;
              mret (decoded raw)
            else try_l2
          | Err _ => try_l2
          end
        else try_l2
  end.

Definition typed_options (family key : string) (ttl : Z) (lvl : Level) (loader : prog (res T)) : Options :=
  {| Family := family; Key := key; TTL := ttl; level := lvl; BreakerName := ""; Loader := Some loader |}.
Definition GetOrLoadT (m : Manager) (family key : string) (ttl : Z) (lvl : Level)
    (loader : prog (res T)) : prog (res T) :=
  v ← GetOrLoad m (typed_options family key ttl lvl loader);
  match v with
  | Err e => mret (Err e)
  | Ok (Loaded t) => mret (Ok t)
  | Ok (Decoded j) =>
    let '(t, ok) := unmarshal (json_text j) in
    if ok then mret (Ok t)
    else mret (Err (ErrWrap "cache: unmarshal to T: " (ErrMsg "type mismatch")))
  end.
End manager.

Definition Invalidate (m : Manager) (family key : string) : prog (option error) :=
  let redisKey := buildKey family key in
  _ ← (if has_l1 m then l1 (LDel redisKey) else mret false);
  if has_rdb m then
    r ← redis (RDel [redisKey]);
    mret (match r with Err e => Some e | Ok _ => None end)
  else mret None.

Definition InvalidateFamily (m : Manager) (family : string) : prog (res Z) :=
  _ ← (if has_l1 m then l1 LClear else mret tt);
  if negb (has_rdb m) then mret (Ok 0)
  else Legacy.delete_matching ("apipro:" +:+ family +:+ ":*").

Definition SelfTest (m : Manager) : prog (bool * bool * bool) :=
  l2 ← (if has_rdb m then
          now ← now;
          let testKey := "apipro:_selftest:" +:+ FormatInt now in
          s ← redis (RSetex testKey "ok" 5);
          match s with
          | Err _ => mret false
          | Ok _ =>
            v ← redis (RGet testKey);
            _ ← redis (RDel [testKey]);
            mret (match v with Ok v => String.eqb v "ok" | Err _ => false end)
          end
        else mret false);
  mret (has_l1 m, l2,
        match fb m with Some f => negb (match Fallback.Sources f with [] => true | _ => false end)
                      | None => false end).

(** ** What the manager guarantees *)
Section laws.
Context `{Laws W} {T : Type} (marshal : T -> res string) (unmarshal : string -> T * bool).
Context (float_lit : string -> option string).

Lemma run_dgr_served {B} lvl (k : bool -> prog B) w :
  exists w', run (dgr (gets (fun mg => CanServeLevel mg lvl)) ≫= k) w
             = run (k (CanServeLevel (mode_of w) lvl)) w' /\
    next_state w w' (keys w) /\ mode_of w' = mode_of w /\ l1map w' ⊆ l1map w /\ counts w' = counts w.
Proof. exact (run_dgr (gets (fun mg => CanServeLevel mg lvl)) k w). Qed.

(** The degrade gate is closed first: when the current mode does not
    serve the level, GetOrLoadT answers ErrDegradeClosed without running the
    loader, reading or writing a cache, or counting; Redis, the mode and the
    counters are as before. *)
Theorem GetOrLoadT_gate m family key ttl lvl (loader : prog (res T)) w w' r :
  family <> "" -> CanServeLevel (mode_of w) lvl = false ->
  run (GetOrLoadT marshal unmarshal float_lit m family key ttl lvl loader) w = (r, w') ->
  r = Err ErrDegradeClosed /\ keys w' = keys w /\ mode_of w' = mode_of w /\ counts w' = counts w.
Proof.
  intros Hf Hs Hrun. unfold GetOrLoadT in Hrun. rewrite run_bind in Hrun. unfold GetOrLoad in Hrun.
  unfold typed_options in Hrun. cbn [Loader Family level] in Hrun. rewrite (proj2 (String.eqb_neq _ _) Hf) in Hrun.
  match type of Hrun with context [dgr _ ≫= ?k] =>
    destruct (run_dgr_served lvl k w) as (w1 & E & (Hk & _) & Hm & _ & Hc) end.
  rewrite E, Hs in Hrun. injection Hrun as <- <-. done.
Qed.

(** The raw text under a key of either cache level. *)
Definition cached (w : W) (k raw : string) : Prop :=
  l1map w !! k = Some raw \/ exists t d, find t (keys w) k = Some (Entry (VStr raw) d).

Lemma cached_later w w' k raw : l1map w' ⊆ l1map w -> keys w' = keys w -> cached w' k raw -> cached w k raw.
Proof.
  intros Hl Hk [?|Hr]; [left; by eapply lookup_weaken|right; by rewrite <- Hk].
Qed.

(** Counting and reading the clock: everything else stays. *)
Definition still (w w' : W) : Prop := next_state w w' (keys w) /\ mode_of w' = mode_of w /\ l1map w' ⊆ l1map w.

Lemma still_refl w : still w w.
Proof. by split_and!. Qed.

Lemma still_trans w1 w2 w3 : still w1 w2 -> still w2 w3 -> still w1 w3.
Proof.
  intros ((Hk & Ht & Hh) & Hm & Hl) ((Hk' & Ht' & Hh') & Hm' & Hl').
  unfold still, next_state. split_and!; [congruence|lia|auto|congruence|by etrans].
Qed.

Lemma atomic_still c w u w' : run (atomic_add c) w = (u, w') -> still w w'.
Proof.
  intros E. destruct (run_count c mret w) as (w1 & E1 & Hn & Hm & Hl & _).
  assert (run (atomic_add c ≫= mret) w = run (atomic_add c) w) as Er
    by (rewrite run_bind; by destruct (run (atomic_add c) w)).
  rewrite Er, E, run_ret in E1. injection E1 as _ ->. by split_and!.
Qed.

Lemma now_still w t w' : run now w = (t, w') -> still w w'.
Proof.
  intros E. pose proof (quiet_law Now w eq_refl) as (Hk & Ht & Hh). pose proof (l1_quiet Now w eq_refl) as Hl.
  pose proof (proj1 (own_quiet Now w)) as Hm. unfold now in E. cbn [run] in E.
  destruct (handle Now w) as [x w1]. injection E as _ <-. by split_and!.
Qed.

Lemma observe_still family hit failed latency w u w' : run (observeMetrics family hit failed latency) w = (u, w') -> still w w'.
Proof.
  unfold observeMetrics. intros Hr. apply run_bind_inv in Hr as (u1 & w1 & E1 & Hr). apply atomic_still in E1.
  apply run_bind_inv in Hr as (u2 & w2 & E2 & E3). eapply still_trans; [exact E1|]. apply (still_trans _ w2).
  - destruct failed; [by eapply atomic_still|]. rewrite run_ret in E2. injection E2 as _ <-. apply still_refl.
  - destruct (0 <? latency); [by eapply atomic_still|]. rewrite run_ret in E3. injection E3 as _ <-. apply still_refl.
Qed.

(** Around the breaker's call there are only observations. *)
Lemma loadThroughBreaker_inv m opts (loader : prog (res T)) w r w' :
  run (loadThroughBreaker marshal m opts loader) w = (r, w') ->
  exists v v', still w v /\ run (through_breaker marshal m opts loader) v = (r, v') /\ still v' w'.
Proof.
  unfold loadThroughBreaker. intros Hr. apply run_bind_inv in Hr as (t1 & v & E1 & Hr).
  apply run_bind_inv in Hr as (r1 & v' & E2 & Hr). apply run_bind_inv in Hr as (t2 & v2 & E3 & Hr).
  apply run_bind_inv in Hr as (u & v3 & E4 & Hr). rewrite run_ret in Hr. injection Hr as <- <-.
  exists v, v'. split_and!; [by eapply now_still|exact E2|].
  eapply still_trans; [by eapply now_still|by eapply observe_still].
Qed.

(** The flights under a key are what singleflight documents when every result
    handed over was returned, before, by the loader of a call under it. *)
Definition flights (flying : prog (res (any (T := T))) -> Prop) (key : string) : Prop :=
  forall v r v', handle (FlightAsk "manager" key) v = (Some r, v') ->
    exists l v1 v2, flying l /\ run l v1 = (r, v2) /\ later v2 v'.

(** Where a loaded value comes from: the call's own loader, run during the
    call, or the loader of the call whose flight it joined. *)
Definition sourced (flying : prog (res (any (T := T))) -> Prop) (loader : prog (res T)) (w w' : W) (a : any) : Prop :=
  (exists t v1 v2, a = Loaded t /\ later w v1 /\ run loader v1 = (Ok t, v2) /\ later v2 w') \/
  (exists l v1 v2, flying l /\ run l v1 = (Ok a, v2) /\ later v2 w').

Lemma sourced_around flying loader w v v' w' a : later w v -> later v' w' ->
  sourced flying loader v v' a -> sourced flying loader w w' a.
Proof.
  intros H1 H2 [(t & v1 & v2 & -> & Ha & Hr & Hb)|(l & v1 & v2 & Hl & Hr & Hb)].
  - left. exists t, v1, v2. split_and!; [done|by etrans|done|by etrans].
  - right. exists l, v1, v2. split_and!; [done|done|by etrans].
Qed.

(** The breaker path returns a loader's value, or an error. *)
Lemma run_loadThroughBreaker flying m opts (loader : prog (res T)) w r w' :
  flights flying (sfKey opts) ->
  run (loadThroughBreaker marshal m opts loader) w = (Ok r, w') -> sourced flying loader w w' r.
Proof.
  intros Hf Hrun. unfold loadThroughBreaker in Hrun. apply run_bind_inv in Hrun as (t1 & v & E1 & Hrun).
  apply run_bind_inv in Hrun as (r1 & v' & E2 & Hrun).
  assert (later v' w') as Hend by (by eapply run_later).
  assert (r1 = Ok r) as -> by (by run_inv). clear Hrun.
  apply (sourced_around flying loader w v v' w'); [by eapply run_later|done|]. clear E1 Hend.
  unfold through_breaker in E2. apply run_bind_inv in E2 as (vd & v1 & Ea & E2).
  destruct vd as [| |e]; [| |by run_inv].
  2:{ destruct (level opts =? LevelWrite); [by run_inv|]. by apply run_bind_inv in E2 as (e & ? & _ & [=]). }
  apply run_bind_inv in E2 as (r1 & v2 & E2 & Em). assert (later v2 v') as Hend by (by eapply run_later).
  apply run_bind_inv in Em as (u & v3 & _ & Em). rewrite run_ret in Em. injection Em as -> _.
  apply (sourced_around flying loader v v1 v2 v'); [by eapply run_later|done|]. clear Ea Hend v3 u v v' t1.
  unfold fly in E2. apply run_bind_inv in E2 as (sh & v & Es & E2).
  destruct sh as [r2|].
  - rewrite run_ret in E2. injection E2 as -> ->. right. apply (Hf v1).
    cbn [run] in Es. by destruct (handle _ v1).
  - unfold lead in E2. pose proof (run_later _ _ _ _ Es) as Hv. apply run_bind_inv in E2 as ([t|e] & v3 & El & E2); [|by run_inv].
    assert (later v3 v2) as Hend by (by eapply run_later). apply run_bind_inv in E2 as (u & v4 & _ & E2).
    rewrite run_ret in E2. injection E2 as <- _. left. by exists t, v, v3.
Qed.

Lemma decoded_inv raw v : decoded (T := T) float_lit raw = Ok v ->
  exists j, v = Decoded j /\ jsonUnmarshalAny float_lit raw = Ok j.
Proof. unfold decoded. destruct (jsonUnmarshalAny _ _) as [j|]; [|done]. intros [= <-]. by exists j. Qed.

(** A miss answers with what the loader answers. *)
Lemma run_miss_ok flying m opts loader c w r w' : flights flying (sfKey opts) ->
  run (_ ← atomic_add c; loadThroughBreaker marshal m opts loader) w = (Ok r, w') -> sourced flying loader w w' r.
Proof.
  intros Hf Hrun. apply run_bind_inv in Hrun as (u & v & E & Hrun).
  apply (sourced_around _ _ w v w' w'); [by eapply run_later|reflexivity|by eapply run_loadThroughBreaker].
Qed.

(** A text read from Redis, in any state of it, is stored there. *)
Lemma redis_get_found k w raw w' : run (redis (RGet k)) w = (Ok raw, w') -> raw <> "" ->
  exists t d, find t (keys w) k = Some (Entry (VStr raw) d).
Proof.
  intros E Hraw. destruct (run_redis_any (RGet k) mret w eq_refl) as (w3 & a & Hr & _ & Ha).
  change (redis (RGet k) ≫= mret) with (redis (RGet k)) in Hr. rewrite E, run_ret in Hr. injection Hr as <- <-.
  cbn [redis_step] in Ha. exists (clock w').
  destruct (find (clock w') (keys w) k) as [[[v| | |] d]|]; destruct Ha as [[Ha _]|[[e Ha] _]];
    try discriminate Ha; injection Ha as ->; [|done]. by exists d.
Qed.

(** Reading the second level: its text under the key, or a miss. *)
Lemma run_l2_ok flying m opts loader key w r w' : flights flying (sfKey opts) ->
  run (if has_rdb m then
            raw ← redis (RGet key);
            match raw with
            | Ok raw =>
              if negb (String.eqb raw "") then
                _ ← atomic_add (CHit (Family opts +:+ ":l2"));
                _ ← observeMetrics (Family opts) true false 0;
                _ ← go (l1_set m key raw (TTL opts));
                mret (decoded float_lit raw)
              else _ ← atomic_add (CMiss (Family opts)); loadThroughBreaker marshal m opts loader
            | Err _ => _ ← atomic_add (CMiss (Family opts)); loadThroughBreaker marshal m opts loader
            end
          else _ ← atomic_add (CMiss (Family opts)); loadThroughBreaker marshal m opts loader) w = (Ok r, w') ->
  sourced flying loader w w' r \/
  (exists raw j t d, r = Decoded j /\ raw <> "" /\ find t (keys w) key = Some (Entry (VStr raw) d) /\
     jsonUnmarshalAny float_lit raw = Ok j).
Proof.
  intros Hf. destruct (has_rdb m); [|by intros ?%(run_miss_ok flying); [left|]].
  intros Hrun. apply run_bind_inv in Hrun as (a & w3 & E & Hrun).
  assert (run (_ ← atomic_add (CMiss (Family opts)); loadThroughBreaker marshal m opts loader) w3 = (Ok r, w') ->
    sourced flying loader w w' r) as Hmiss.
  { intros Hm. apply (sourced_around _ _ w w3 w' w'); [by eapply run_later|reflexivity|by eapply run_miss_ok]. }
  destruct a as [raw|]; [|left; by apply Hmiss].
  destruct (String.eqb raw "") eqn:Er; cbn [negb] in Hrun; [left; by apply Hmiss|]. bool_to_prop. right.
  do 3 apply run_bind_inv in Hrun as (? & ? & _ & Hrun). rewrite run_ret in Hrun. injection Hrun as Hd _.
  apply decoded_inv in Hd as (j & -> & Hj). destruct (redis_get_found _ _ _ _ E Er) as (t & d & Ht).
  by exists raw, j, t, d.
Qed.

Lemma run_GetOrLoad_ok flying m opts loader w r w' : flights flying (sfKey opts) -> Loader opts = Some loader ->
  run (GetOrLoad marshal float_lit m opts) w = (Ok r, w') ->
  CanServeLevel (mode_of w) (level opts) = true /\
  (sourced flying loader w w' r \/
   (level opts <> LevelWrite /\ exists raw j, r = Decoded j /\ cached w (buildKey (Family opts) (Key opts)) raw /\
      jsonUnmarshalAny float_lit raw = Ok j)).
Proof.
  intros Hfl Hl. unfold GetOrLoad. rewrite Hl. destruct (String.eqb (Family opts) ""); [by rewrite run_ret|].
  intros Hrun. apply run_bind_inv in Hrun as (served & w1 & E & Hrun). pose proof (run_later _ _ _ _ E) as Hw1.
  apply dgr_inv in E as (-> & _ & (Hk1 & _) & Hl1). unfold evalSt, gets in Hrun. cbn [runSt fst] in Hrun.
  destruct (CanServeLevel (mode_of w) (level opts)); cbn [negb] in Hrun; [|by rewrite run_ret in Hrun].
  split; [done|]. destruct (level opts =? LevelWrite) eqn:Elv; bool_to_prop.
  { left. apply (sourced_around _ _ w w1 w' w'); [done|reflexivity|by eapply run_loadThroughBreaker]. }
  cbv zeta in Hrun. set (key := buildKey _ _) in *.
  match type of Hrun with run (if has_l1 m then l1 _ ≫= ?f else ?p) w1 = _ => set (try_l2 := p) in * end.
  assert (forall w2, later w1 w2 -> keys w2 = keys w1 -> run try_l2 w2 = (Ok r, w') ->
    sourced flying loader w w' r \/ (level opts <> LevelWrite /\
      exists raw j, r = Decoded j /\ cached w key raw /\ jsonUnmarshalAny float_lit raw = Ok j)) as Hl2.
  { intros w2 Hw2 Hk2 Hr. apply (run_l2_ok flying) in Hr as [Hs|(raw & j & t & d & -> & _ & Hf & Hj)]; [| |done].
    - left. apply (sourced_around _ _ w w2 w' w'); [by etrans|reflexivity|done].
    - right. split; [done|]. exists raw, j. split_and!; [done| |done]. right. exists t, d. congruence. }
  destruct (has_l1 m); [|by apply (Hl2 w1)].
  apply run_bind_inv in Hrun as (a & w2 & E & Hrun). pose proof (run_later _ _ _ _ E) as Hw2.
  apply l1_get_inv in E as ((Hk2 & _) & _ & Ha). destruct a as [raw|e]; [|by apply (Hl2 w2)].
  destruct (String.eqb raw ""); cbn [negb] in Hrun; [by apply (Hl2 w2)|].
  do 2 apply run_bind_inv in Hrun as (? & ? & _ & Hrun). rewrite run_ret in Hrun. injection Hrun as Hd _.
  apply decoded_inv in Hd as (j & -> & Hj). right. split; [done|]. exists raw, j. split_and!; [done| |done].
  left. eapply lookup_weaken; [by apply Ha|exact Hl1].
Qed.

(** The value a loaded answer gives the caller: itself, or, from another type,
    what its JSON decodes to. *)
Definition converts (a : any (T := T)) (t : T) : Prop :=
  a = Loaded t \/ exists j, a = Decoded j /\ unmarshal (json_text j) = (t, true).

(** C24. Every answer has a source: in any state of the services, a value that
    GetOrLoadT returns was either produced by the call's own loader while the
    call ran; or, the call having joined a flight for the family and key, by
    the loader of the call that led it (singleflight handing over, as
    documented, what a loader under the same flight key returned before;
    [flying] are those loaders); or it decodes a text that one of the two cache
    levels held under the trimmed key when the call began, which is never so
    at the write level; and the mode served the level. *)
Theorem GetOrLoadT_provenance flying m family key ttl lvl (loader : prog (res T)) w t w' :
  flights flying (family +:+ ":" +:+ key) ->
  run (GetOrLoadT marshal unmarshal float_lit m family key ttl lvl loader) w = (Ok t, w') ->
  CanServeLevel (mode_of w) lvl = true /\
  ((exists w1 w2, later w w1 /\ run loader w1 = (Ok t, w2) /\ later w2 w') \/
   (exists l a w1 w2, flying l /\ run l w1 = (Ok a, w2) /\ later w2 w' /\ converts a t) \/
   (lvl <> LevelWrite /\ exists raw j, cached w (buildKey family key) raw /\
      jsonUnmarshalAny float_lit raw = Ok j /\ unmarshal (json_text j) = (t, true))).
Proof.
  intros Hfl Hrun. apply run_bind_inv in Hrun as ([a|e] & w1 & Eg & Hrun); [|by run_inv].
  apply (run_GetOrLoad_ok flying _ _ loader) in Eg as [Hs Hr]; [|exact Hfl|reflexivity]. split; [exact Hs|].
  assert (later w1 w' /\ converts a t) as [Hend Hconv].
  { split; [by eapply run_later|]. destruct a as [t'|j].
    - left. by run_inv.
    - right. exists j. destruct (unmarshal (json_text j)) as [t' []]; by run_inv. }
  destruct Hr as [[(t' & v1 & v2 & -> & Ha & Hr & Hb)|(l & v1 & v2 & Hl & Hr & Hb)]|(Hlv & raw & j & -> & Hc & Hj)].
  - left. exists v1, v2. destruct Hconv as [[= ->]|(? & ? & _)]; [|done]. split_and!; [done|done|by etrans].
  - right. left. exists l, a, v1, v2. split_and!; [done|done|by etrans|done].
  - right. right. split; [exact Hlv|]. exists raw, j. destruct Hconv as [?|(? & [= <-] & Hu)]; [done|]. done.
Qed.

(** *** Filling both levels, and hitting them *)
Lemma run_l1TTLOf m ttl w : exists t w', run (l1TTLOf m ttl) w = (t, w') /\
  next_state w w' (keys w) /\ l1map w' ⊆ l1map w /\ mode_of w' = mode_of w.
Proof.
  unfold l1TTLOf. destruct (0 <? _).
  - destruct (run_quiet Now (fun n => mret (A := Z) (n + 0)) w eq_refl) as (w' & _ & Hw & Hn).
    pose proof (l1_quiet Now w eq_refl) as Hl. pose proof (own_quiet Now w) as [Hm _].
    rewrite Hw in Hl, Hm. cbn [snd] in *.
    eexists _, w'. split; [|by split_and!].
    unfold now. cbn [mbind prog_mbind prog_bind run]. rewrite Hw. reflexivity.
  - eexists _, w. split_and!; [reflexivity|apply next_state_refl|done|done].
Qed.

Lemma run_l1_set m k v ttl w : has_l1 m = true ->
  exists w', run (l1_set m k v ttl) w = (tt, w') /\ next_state w w' (keys w) /\
    l1map w' ⊆ <[k := v]> (l1map w) /\ mode_of w' = mode_of w.
Proof.
  intros Hl1. unfold l1_set. rewrite Hl1. cbn [negb]. rewrite run_bind.
  destruct (run_l1TTLOf m ttl w) as (t1 & w1 & -> & Hn1 & Hm1 & Hd1). cbn [fst snd].
  match goal with |- context [l1 ?c ≫= ?k] =>
    destruct (run_l1 c k w1) as (w2 & r & -> & Hn2 & Hd2 & Hm2) end.
  exists w2. split; [done|]. split.
  - rewrite <- (proj1 Hn1). by eapply next_state_trans.
  - split; [|congruence]. etrans; [exact Hm2|]. by apply insert_mono.
Qed.

Lemma run_store_both m k v ttl w : has_l1 m = true -> has_rdb m = true -> 0 < Seconds ttl -> healthy w ->
  exists t w', run (store_both m k v ttl) w = (tt, w') /\ clock w <= t /\ t <= clock w' /\ healthy w' /\
    keys w' = <[k := Entry (VStr v) (after t (Seconds ttl))]> (keys w) /\
    l1map w' ⊆ <[k := v]> (l1map w) /\ mode_of w' = mode_of w.
Proof.
  intros Hl1 Hr Hs Hh. unfold store_both. rewrite run_bind, Hr.
  destruct (run_l1_set m k v ttl w Hl1) as (w2 & -> & (Hk2 & Ht2 & Hh2) & Hm2 & Hd2). cbn [fst snd].
  match goal with |- context [redis ?c ≫= ?k] =>
    destruct (run_redis_full c k w2 (Hh2 Hh) eq_refl) as (w3 & Ht3 & Hh3 & _ & Hm3 & Hd3 & Hr3) end.
  cbn [redis_step] in Hr3. replace (Seconds ttl <=? 0) with false in Hr3 by lia.
  destruct (Hr3 _ _ eq_refl) as [-> Hk3]. exists (clock w3), w3. rewrite Hk3, Hk2.
  split_and!; try done; try lia; [|congruence].
  by etrans.
Qed.

(** A hit: the stored text is found, decoded twice, and the loader is not
    needed. *)
(** With [b] stored, read from either layer. *)
Lemma GetOrLoad_stored m opts (loader : prog (res T)) w r w' b j dl :
  healthy w -> has_l1 m = true -> has_rdb m = true -> Loader opts = Some loader -> Family opts <> "" ->
  level opts <> LevelWrite -> CanServeLevel (mode_of w) (level opts) = true -> b <> "" ->
  let k := buildKey (Family opts) (Key opts) in
  (l1map w !! k = None \/ l1map w !! k = Some b) ->
  keys w !! k = Some (Entry (VStr b) (Some dl)) -> jsonUnmarshalAny float_lit b = Ok j ->
  run (GetOrLoad marshal float_lit m opts) w = (r, w') -> clock w' < dl -> r = Ok (Decoded j).
Proof.
  intros Hh Hl1 Hrdb Hl Hf Hlv Hs Hb k Hm Hk Hj Hrun Hexp. unfold GetOrLoad in Hrun.
  rewrite Hl, (proj2 (String.eqb_neq _ _) Hf), Hl1, Hrdb in Hrun.
  apply run_bind_inv in Hrun as (served & w1 & E & Hrun).
  apply dgr_inv in E as (-> & _ & (Hk1 & Ht1 & Hh1) & Hm1). cbn [evalSt gets runSt fst] in Hrun.
  unfold evalSt, gets in Hrun. cbn [runSt fst] in Hrun. rewrite Hs in Hrun. cbn [negb] in Hrun.
  rewrite (proj2 (Z.eqb_neq _ _) Hlv) in Hrun. cbv zeta in Hrun. fold k in Hrun.
  apply run_bind_inv in Hrun as (a & w2 & E & Hrun). apply l1_get_inv in E as ((Hk2 & Ht2 & Hh2) & Hm2 & Ha).
  assert (decoded (T := T) float_lit b = Ok (Decoded j)) as Hd by (unfold decoded; by rewrite Hj).
  apply String.eqb_neq in Hb. destruct a as [raw|e].
  - specialize (Ha _ eq_refl). apply (lookup_weaken _ (l1map w)) in Ha; [|done].
    assert (raw = b) as -> by (destruct Hm; congruence). rewrite Hb in Hrun. cbn [negb] in Hrun. run_inv. done.
  - apply run_bind_inv in Hrun as (raw & w3 & E & Hrun). pose proof (run_clock_eq _ _ _ _ Hrun) as Hend.
    apply redis_inv in E as (Hs3 & Ht3 & _); [|auto|done]. cbn [redis_step] in Hs3. unfold find in Hs3.
    rewrite Hk2, Hk1, Hk in Hs3. cbn in Hs3. replace (clock w3 <? dl) with true in Hs3 by lia.
    injection Hs3 as <- _. rewrite Hb in Hrun. cbn [negb] in Hrun. run_inv. done.
Qed.

Lemma GetOrLoadT_stored m family key ttl lvl (loader : prog (res T)) w r w' b j dl :
  healthy w -> has_l1 m = true -> has_rdb m = true -> family <> "" -> lvl <> LevelWrite ->
  CanServeLevel (mode_of w) lvl = true -> b <> "" ->
  (l1map w !! buildKey family key = None \/ l1map w !! buildKey family key = Some b) ->
  keys w !! buildKey family key = Some (Entry (VStr b) (Some dl)) ->
  jsonUnmarshalAny float_lit b = Ok j ->
  run (GetOrLoadT marshal unmarshal float_lit m family key ttl lvl loader) w = (r, w') -> clock w' < dl ->
  r = match unmarshal (json_text j) with
      | (t, true) => Ok t
      | (_, false) => Err (ErrWrap "cache: unmarshal to T: " (ErrMsg "type mismatch"))
      end.
Proof.
  intros Hh Hl1 Hrdb Hf Hlv Hs Hb Hm Hk Hj Hrun Hexp.
  apply run_bind_inv in Hrun as (v & w1 & E & Hrun). pose proof (run_clock_eq _ _ _ _ Hrun) as Hend.
  eapply GetOrLoad_stored in E; try done; [|lia]. subst v.
  destruct (unmarshal (json_text j)) as [t []]; by run_inv.
Qed.

Lemma GetOrLoadT_hit m family key ttl lvl (loader : prog (res T)) w r w' b j t t0 sec :
  healthy w -> has_l1 m = true -> has_rdb m = true -> family <> "" -> lvl <> LevelWrite ->
  CanServeLevel (mode_of w) lvl = true -> b <> "" ->
  (l1map w !! buildKey family key = None \/ l1map w !! buildKey family key = Some b) ->
  keys w !! buildKey family key = Some (Entry (VStr b) (after t0 sec)) ->
  jsonUnmarshalAny float_lit b = Ok j -> unmarshal (json_text j) = (t, true) ->
  run (GetOrLoadT marshal unmarshal float_lit m family key ttl lvl loader) w = (r, w') ->
  clock w' < t0 + sec * Second -> r = Ok t.
Proof.
  intros Hh Hl1 Hrdb Hf Hlv Hs Hb Hm Hk Hj Hu Hrun Hexp.
  eapply GetOrLoadT_stored in Hrun; try done. by rewrite Hrun, Hu.
Qed.

(** The write-back, once it has run. *)
Lemma writeBack_stores m opts t b v v1 : healthy v -> has_l1 m = true -> has_rdb m = true ->
  0 < Seconds (TTL opts) -> marshal t = Ok b -> run (writeBack marshal m opts t) v = (tt, v1) ->
  let k := buildKey (Family opts) (Key opts) in
  exists t0, clock v <= t0 /\ keys v1 !! k = Some (Entry (VStr b) (after t0 (Seconds (TTL opts)))) /\
    (l1map v1 !! k = None \/ l1map v1 !! k = Some b).
Proof.
  intros Hh Hl1 Hrdb Hsec Hmar Hrun k. unfold writeBack in Hrun. rewrite Hmar in Hrun.
  destruct (run_store_both m k b (TTL opts) v Hl1 Hrdb Hsec Hh) as (t0 & v2 & E & Ht0 & _ & _ & Hk & Hm & _).
  fold k in Hrun. rewrite E in Hrun. injection Hrun as <-. exists t0. rewrite Hk, lookup_insert_eq.
  split_and!; [done|done|]. destruct (l1map v2 !! k) as [x|] eqn:Ex; [right|by left].
  eapply lookup_weaken in Ex; [|exact Hm]. by rewrite lookup_insert_eq in Ex.
Qed.

(** Between [w] and [w'] a flight was joined, which handed over [a]. *)
Definition joined (key : string) (a : any (T := T)) (w w' : W) : Prop :=
  exists v v', later w v /\ handle (FlightAsk "manager" key) v = (Some (Ok a), v') /\ later v' w'.

Lemma joined_around key a w v v' w' : later w v -> later v' w' -> joined key a v v' -> joined key a w w'.
Proof. intros H1 H2 (u & u' & Ha & Hj & Hb). exists u, u'. split_and!; [by etrans|done|by etrans]. Qed.

(** The call led: its loader gave [t], and it left the write-back of [t]. *)
Definition led m opts (loader : prog (res T)) (gs : list (prog unit)) (t : T) : Prop :=
  (exists v v' g, detach loader v = (Ok t, v', g)) /\ writeBack marshal m opts t ∈ gs.

Lemma detach_fly m opts (loader : prog (res T)) w a w' gs :
  detach (fly marshal m opts loader) w = (Ok a, w', gs) ->
  (exists t, a = Loaded t /\ led m opts loader gs t) \/ joined (sfKey opts) a w w'.
Proof.
  intros Hd. unfold fly in Hd. apply detach_bind_inv in Hd as (sh & w1 & g1 & g2 & E & Hd & ->).
  apply detach_vis_inv in E as [E ->]. destruct sh as [r|].
  - injection Hd as -> <- _. right. exists w, w1. cbn [run] in E. split_and!; [reflexivity|by destruct (handle _ w)|reflexivity].
  - unfold lead in Hd. apply detach_bind_inv in Hd as ([t|e] & w2 & g3 & g4 & El & Hd & ->); [|done].
    injection Hd as <- _ <-. left. exists t. split; [done|]. split; [by exists w1, w2, g3|].
    apply elem_of_app. right. apply elem_of_app. right. by left.
Qed.

Lemma detach_loadThroughBreaker m opts (loader : prog (res T)) w a w' gs :
  detach (loadThroughBreaker marshal m opts loader) w = (Ok a, w', gs) ->
  (exists t, a = Loaded t /\ led m opts loader gs t) \/ joined (sfKey opts) a w w'.
Proof.
  intros Hd. unfold loadThroughBreaker in Hd.
  apply detach_bind_inv in Hd as (t1 & w1 & g1 & g2 & E1 & Hd & ->). apply detach_later in E1.
  apply detach_bind_inv in Hd as (r & w2 & g3 & g4 & E & Hd & ->). pose proof (detach_later _ _ _ _ _ Hd) as E2.
  apply detach_bind_inv in Hd as (t2 & w3 & g5 & g6 & _ & Hd & ->).
  apply detach_bind_inv in Hd as (u & w4 & g7 & g8 & _ & Hd & ->).
  injection Hd as -> _ <-. clear w3 u t2 t1.
  assert (forall t, led m opts loader g3 t -> led m opts loader (g1 ++ g3 ++ g5 ++ g7 ++ []) t) as Hin.
  { intros t [Hl Hw]. split; [done|]. rewrite !elem_of_app. auto. }
  enough ((exists t, a = Loaded t /\ led m opts loader g3 t) \/ joined (sfKey opts) a w1 w2) as [(t & -> & Ht)|Hj];
    [left; exists t; auto|right; by apply (joined_around _ _ w w1 w2)|].
  unfold through_breaker in E. apply detach_bind_inv in E as (vd & v1 & h1 & h2 & Ea & E & ->).
  pose proof (detach_later _ _ _ _ _ Ea) as E3. apply detach_vis_inv in Ea as [_ ->]. cbn [app]. destruct vd as [| |e]; [| |done].
  - apply detach_bind_inv in E as (r & v2 & h3 & h4 & E & Em & ->).
    pose proof (detach_later _ _ _ _ _ Em) as E4.
    apply detach_bind_inv in Em as (u & v3 & h5 & h6 & Em & Er & ->). apply detach_vis_inv in Em as [_ ->].
    injection Er as -> _ <-. cbn [app]. rewrite app_nil_r.
    apply detach_fly in E as [Hl|Hj]; [by left|right; by apply (joined_around _ _ w1 v1 v2)].
  - destruct (level opts =? LevelWrite); [done|]. by apply detach_bind_inv in E as (? & ? & ? & ? & _ & ? & _).
Qed.

(** On a cold key a call gets as far as the breaker. *)
Lemma detach_cold m opts (loader : prog (res T)) w a w' gs :
  healthy w -> has_l1 m = true -> has_rdb m = true -> Loader opts = Some loader -> level opts <> LevelWrite ->
  l1map w !! buildKey (Family opts) (Key opts) = None -> keys w !! buildKey (Family opts) (Key opts) = None ->
  detach (GetOrLoad marshal float_lit m opts) w = (Ok a, w', gs) ->
  (exists t, a = Loaded t /\ led m opts loader gs t) \/ joined (sfKey opts) a w w'.
Proof.
  intros Hh Hl1 Hrdb Hl Hlv Hml Hmk Hd. unfold GetOrLoad in Hd. rewrite Hl in Hd.
  destruct (String.eqb (Family opts) ""); [done|].
  apply detach_bind_inv in Hd as (served & w1 & g1 & g2 & E & Hd & ->). pose proof (detach_later _ _ _ _ _ E) as L1.
  apply detach_vis_inv in E as [E ->].
  apply dgr_inv in E as (_ & _ & (Hk1 & Ht1 & Hh1) & Hm1). cbn [app]. destruct served; [|done]. cbn [negb] in Hd.
  rewrite (proj2 (Z.eqb_neq _ _) Hlv), Hl1, Hrdb in Hd. cbv zeta in Hd.
  apply detach_bind_inv in Hd as (raw & w2 & g3 & g4 & E & Hd & ->). pose proof (detach_later _ _ _ _ _ E) as L2.
  apply detach_vis_inv in E as [E ->].
  apply l1_get_inv in E as ((Hk2 & Ht2 & Hh2) & Hm2 & Ha). cbn [app]. destruct raw as [raw|e].
  { specialize (Ha _ eq_refl). eapply lookup_weaken in Ha; [|exact Hm1]. congruence. }
  apply detach_bind_inv in Hd as (raw & w3 & g5 & g6 & E & Hd & ->). pose proof (detach_later _ _ _ _ _ E) as L3.
  apply detach_vis_inv in E as [E ->].
  apply redis_inv in E as (Hs & _); [|auto|done]. cbn [redis_step] in Hs. unfold find in Hs.
  rewrite Hk2, Hk1, Hmk in Hs. injection Hs as <- _. cbn [String.eqb negb app] in *.
  apply detach_bind_inv in Hd as (u & w4 & g7 & g8 & E & Hd & ->). pose proof (detach_later _ _ _ _ _ E) as L4.
  apply detach_vis_inv in E as [_ ->].
  apply detach_loadThroughBreaker in Hd as [Hl'|Hj]; [by left|right].
  apply (joined_around _ _ w w4 w' w'); [do 3 (etrans; [eassumption|]); exact L4|reflexivity|exact Hj].
Qed.

(** C25. Read-through: on a cold key (Redis up, a read level, a TTL of at
    least a second), a call that returns a value either led, and then the value
    is its loader's and the call leaves behind a goroutine that writes it back,
    or it joined a flight, which handed it the value.  And once such a
    write-back has finished, with Redis up, a later call for the same key
    returns the same value, whatever its loader would return, until the TTL
    has passed since the write-back began, provided the value survives its own
    JSON form, nothing else writes the key, and the mode serves the level.  The
    in-process level may have dropped the entry in between.  Before the
    write-back has finished nothing is claimed: a call then loads for itself. *)
Theorem GetOrLoadT_read_through m family key ttl lvl (loader loader2 : prog (res T)) w t w1 gs b j :
  let k := buildKey family key in
  let opts := typed_options family key ttl lvl loader in
  healthy w -> has_l1 m = true -> has_rdb m = true -> Second <= ttl -> lvl <> LevelWrite ->
  l1map w !! k = None -> keys w !! k = None ->
  detach (GetOrLoadT marshal unmarshal float_lit m family key ttl lvl loader) w = (Ok t, w1, gs) ->
  marshal t = Ok b -> b <> "" -> jsonUnmarshalAny float_lit b = Ok j -> unmarshal (json_text j) = (t, true) ->
  (led m opts loader gs t \/ (exists a, joined (family +:+ ":" +:+ key) a w w1 /\ converts a t)) /\
  forall v v1 w2 r w3, healthy v -> run (writeBack marshal m opts t) v = (tt, v1) ->
    healthy w2 -> keys w2 !! k = keys v1 !! k -> (l1map w2 !! k = None \/ l1map w2 !! k = l1map v1 !! k) ->
    CanServeLevel (mode_of w2) lvl = true ->
    run (GetOrLoadT marshal unmarshal float_lit m family key ttl lvl loader2) w2 = (r, w3) ->
    clock w3 < clock v + Seconds ttl * Second -> r = Ok t.
Proof.
  intros k opts Hh Hl1 Hrdb Httl Hlv Hml Hmk Hd Hmar Hb Hj Hu.
  assert (family <> "") as Hf by (intros ->; discriminate Hd). split.
  - apply detach_bind_inv in Hd as ([a|e] & v & g1 & g2 & E & Hd & ->); [|done].
    eapply (detach_cold m opts loader) in E; try done. destruct E as [(t' & -> & Hl)|Hjn].
    + left. injection Hd as -> _ <-. rewrite app_nil_r. exact Hl.
    + pose proof (detach_later _ _ _ _ _ Hd) as Hend. right. exists a.
      split; [by apply (joined_around _ _ w w v w1)|]. destruct a as [t'|j'].
      * injection Hd as -> _ _. by left.
      * right. exists j'. destruct (unmarshal (json_text j')) as [t' []]; [by injection Hd as ->|discriminate Hd].
  - intros v v1 w2 r w3 Hhv Hwb Hh2 Hk2 Hm2 Hs2 Hrun2 Hexp.
    assert (0 < Seconds ttl) as Hsec by (apply Z.div_str_pos; unfold Second in *; lia).
    destruct (writeBack_stores m opts t b v v1 Hhv Hl1 Hrdb Hsec Hmar Hwb) as (t0 & Ht0 & Hk1 & Hm1).
    apply (GetOrLoadT_hit m family key ttl lvl loader2 w2 r w3 b j t t0 (Seconds ttl)); try done; [| |lia].
    + destruct Hm2 as [?|Hm2]; [by left|]. fold k. rewrite Hm2. exact Hm1.
    + fold k. rewrite Hk2. exact Hk1.
Qed.

(** The in-process TTL: for the manager's settings it lies between four
    and a half and sixty-six seconds whatever the Redis TTL is, and within ten
    percent of half the Redis TTL when that half is between five and sixty
    seconds. *)
Theorem l1TTLOf_bounds rdb fbk ttl w :
  0 <= clock w ->
  let t := (run (l1TTLOf (NewManager rdb fbk) ttl) w).1 in
  4500000000 <= t < 66 * Second /\
  (10 * Second <= ttl <= 120 * Second -> 9 * ttl <= 20 * t + 9 /\ 20 * t < 11 * ttl).
Proof.
  intros Hc t. subst t. unfold l1TTLOf. cbn [l1TTLMin l1TTLMax NewManager].
  set (h0 := Z.quot ttl 2). set (h := if h0 <? 5 * Second then _ else _).
  set (half := if 60 * Second <? h then _ else _).
  assert (5 * Second <= half <= 60 * Second) as Hhalf.
  { unfold half, h. destruct (h0 <? 5 * Second) eqn:E1; destruct (60 * Second <? _) eqn:E2;
      bool_to_prop; unfold Second in *; lia. }
  assert (10 * Second <= ttl <= 120 * Second -> 2 * half <= ttl < 2 * half + 2) as Hex.
  { intros Ht. assert (h0 = ttl / 2) as E0 by (apply Z.quot_div_nonneg; unfold Second in *; lia).
    assert (half = h0) as ->.
    { pose proof (Z.div_mod ttl 2). pose proof (Z.mod_pos_bound ttl 2).
      unfold half, h. destruct (h0 <? 5 * Second) eqn:E1; destruct (60 * Second <? _) eqn:E2;
        bool_to_prop; unfold Second in *; lia. }
    pose proof (Z.div_mod ttl 2). pose proof (Z.mod_pos_bound ttl 2). lia. }
  set (jitter := Z.quot half 10).
  assert (jitter = half / 10) as Ej by (apply Z.quot_div_nonneg; unfold Second in *; lia).
  pose proof (Z.div_mod half 10). pose proof (Z.mod_pos_bound half 10).
  assert (0 < jitter) as Hj by (unfold Second in *; lia).
  rewrite (proj2 (Z.ltb_lt _ _) Hj).
  match goal with |- context [now ≫= ?k] => destruct (run_now k w) as (w' & -> & _ & Ht & _) end.
  cbn [run mret prog_mret fst].
  assert (0 <= clock w') as Hc' by lia. assert (0 < jitter * 2) as Hj2 by lia.
  pose proof (Z.rem_bound_pos _ _ Hc' Hj2).
  unfold Second in *. split; [lia|]. intros Hr. specialize (Hex Hr). lia.
Qed.

Lemma subseteq_empty (m m' : gmap string string) : m ⊆ m' -> m' = ∅ -> m = ∅.
Proof. intros Hm ->. apply (anti_symm (⊆)); [done|apply map_empty_subseteq]. Qed.

Definition plain (s : string) : bool :=
  forallb (fun c => negb (Ascii.eqb c "*" || Ascii.eqb c "?" || Ascii.eqb c "[" || Ascii.eqb c "\"))
          (String.list_ascii_of_string s).

(** The live keys of a family at time [t]. *)
Definition family_keys (family : string) (t : Z) (m : kv) : list string :=
  filter (fun k => HasPrefix k ("apipro:" +:+ family +:+ ":") = true /\ find t m k <> None) (map fst (map_to_list m)).

Lemma elem_of_family_keys family t m k : k ∈ family_keys family t m <->
  HasPrefix k ("apipro:" +:+ family +:+ ":") = true /\ is_Some (find t m k).
Proof.
  unfold family_keys. rewrite list_elem_of_filter, list_elem_of_fmap. split.
  - intros [[Hp Hf] _]. split; [done|]. by destruct (find t m k).
  - intros [Hp [e Hf]]. split; [split; [done|congruence]|]. unfold find in Hf.
    destruct (m !! k) as [e'|] eqn:E; [|done]. exists (k, e'). split; [done|]. by apply elem_of_map_to_list.
Qed.

(** A live key is among those listed before; the keys of DEL that were alive. *)
Lemma deleted_count family t t' m l : t <= t' -> NoDup l ->
  (forall k, k ∈ l <-> HasPrefix k ("apipro:" +:+ family +:+ ":") = true /\ is_Some (find t m k)) ->
  (foldl (del_one t') (0, m) l).1 = Z.of_nat (length (family_keys family t' m)).
Proof.
  intros Ht Hnd Hl. rewrite del_one_count by done. rewrite Z.add_0_l. f_equal.
  apply Permutation_length, NoDup_Permutation.
  - by apply NoDup_filter.
  - apply NoDup_filter, NoDup_fst_map_to_list.
  - intros k. rewrite elem_of_family_keys, list_elem_of_filter, Hl. split.
    + intros [Hf [Hp _]]. split; [done|]. by destruct (find t' m k).
    + intros [Hp [e Hf]]. split_and!; [congruence|done|]. exists e. by apply (find_later t t').
Qed.

(** C26. InvalidateFamily: with Redis up and a family name without pattern
    characters, it succeeds, empties the in-process cache, removes every live
    key of the family, and leaves every key of another family as it was; the
    number it reports is that of the family's keys that were alive at some
    instant during the call. *)
Theorem InvalidateFamily_exact m family w r w' :
  has_l1 m = true -> has_rdb m = true -> healthy w -> plain ("apipro:" +:+ family +:+ ":") = true ->
  run (InvalidateFamily m family) w = (r, w') ->
  (exists t, clock w <= t /\ t <= clock w' /\ r = Ok (Z.of_nat (length (family_keys family t (keys w))))) /\
  l1map w' = ∅ /\
  (forall k, HasPrefix k ("apipro:" +:+ family +:+ ":") = true -> find (clock w') (keys w') k = None) /\
  (forall k, HasPrefix k ("apipro:" +:+ family +:+ ":") = false -> keys w' !! k = keys w !! k).
Proof.
  intros Hl1 Hr Hh Hp Hrun. unfold InvalidateFamily in Hrun. rewrite Hl1, Hr in Hrun. cbn [negb] in Hrun.
  match type of Hrun with context [l1 ?c ≫= ?k] =>
    destruct (run_l1 c k w) as (w1 & x & E1 & (Hk1 & Ht1 & Hh1) & _ & Hm1) end.
  rewrite E1 in Hrun. unfold Legacy.delete_matching in Hrun.
  match type of Hrun with run (redis ?c ≫= ?k) w1 = _ =>
    destruct (run_keys ("apipro:" +:+ family +:+ ":*") k w1 (Hh1 Hh))
      as (w2 & l & E2 & Hk2 & Ht2 & Hh2 & Hm2 & Hnd & Hin) end.
  rewrite E2 in Hrun.
  assert (forall k, k ∈ l <-> HasPrefix k ("apipro:" +:+ family +:+ ":") = true /\ is_Some (find (clock w2) (keys w) k)) as Hl.
  { intros k. rewrite Hin, Hk1, <- glob_prefix by exact Hp. by rewrite !append_assoc. }
  assert (l1map w2 = ∅) as Hm2' by (by eapply subseteq_empty).
  destruct l as [|k0 l].
  - injection Hrun as <- <-. split_and!; [|done| |congruence].
    + exists (clock w2). split_and!; [lia|lia|]. rewrite <- (deleted_count family (clock w2) _ _ []); done.
    + intros k Hk. rewrite Hk2, Hk1. destruct (find (clock w2) (keys w) k) eqn:Ef; [|done].
      assert (k ∈ []) as []%not_elem_of_nil. apply Hl. rewrite Ef. by split.
  - match type of Hrun with context [redis ?c ≫= ?k] =>
      destruct (run_redis_full c k w2 Hh2 eq_refl) as (w3 & Ht3 & Hh3 & _ & Hm3 & _ & Hr3) end.
    cbn [redis_step] in Hr3. pose proof (del_one_spec (clock w3) (k0 :: l) 0 (keys w2)) as Hdel.
    pose proof (deleted_count family (clock w2) (clock w3) (keys w) (k0 :: l) Ht3 Hnd Hl) as Hcnt.
    rewrite <- Hk1, <- Hk2 in Hcnt at 1. destruct (foldl (del_one (clock w3)) (0, keys w2) (k0 :: l)) as [n m'].
    destruct (Hr3 _ _ eq_refl) as [E3 Hk3]. rewrite E3 in Hrun. injection Hrun as <- <-. cbn [fst snd] in Hdel, Hcnt.
    split_and!; [|by eapply subseteq_empty| |].
    + exists (clock w3). split_and!; [lia|lia|]. by rewrite Hcnt.
    + intros k Hk. unfold find. rewrite Hk3, Hdel. destruct (decide (k ∈ k0 :: l)) as [|Hni]; [done|].
      destruct (keys w2 !! k) as [e|] eqn:Ee; [|done]. cbn [mbind option_bind].
      destruct (live (clock w3) e) eqn:Hlv; [|done]. exfalso. apply Hni. apply Hl. split; [done|].
      exists e. apply (find_later (clock w2) (clock w3)); [done|]. unfold find. rewrite <- Hk1, <- Hk2, Ee.
      cbn [mbind option_bind]. by rewrite Hlv.
    + intros k Hk. rewrite Hk3, Hdel, Hk2, Hk1. destruct (decide (k ∈ k0 :: l)) as [Hi|]; [|done].
      apply Hl in Hi as [Hi _]. congruence.
Qed.
End laws.

(** ** Concrete runs *)

(** A cached struct with one string field, [title]. *)
Definition page_marshal (t : string) : res string := Ok (json_text (JObj [("title", JStr t)])).
Definition page_unmarshal (raw : string) : string * bool :=
  Unmarshal [Field "title" (fun j _ => as_string j)] "" raw.
Definition load_page (m : Manager) (title : string) : prog (res string) :=
  GetOrLoadT page_marshal page_unmarshal Some m "match" "detail:1" (60 * Second) LevelDisplay
    (mret (Ok title)).
Definition chain : Fallback.FallbackManager :=
  Fallback.NewFallbackManager
    [Some (Fallback.NewL1StaleSource true); Some (Fallback.NewOSSSnapshotSource "");
     Some (Fallback.NewCDNSource "https://cdn")].

(** A rejected request poisons the cache: when the breaker rejects a read
    and the chain ends in the CDN source, the caller gets ErrCircuitOpen and the
    CDN's redirect hint is stored in both levels under the key as if it were
    the payload; the next read, with the breaker closed and a loader that
    works, returns the zero value decoded from the hint, without an error. *)
Theorem fallback_poisons_cache :
  let m := NewManager true (Some chain) in
  let w := set_verdicts [BReject] (mini (1700000000 * Second) ∅) in
  let '(r1, w1) := run (load_page m "final") w in
  let '(r2, _) := run (load_page m "final") w1 in
  r1 = Err ErrCircuitOpen /\ r2 = Ok "" /\
  l1map w1 !! "apipro:match:detail:1" = Some (Fallback.cdn_payload "https://cdn" "match" "detail:1").
Proof. vm_compute. done. Qed.

(** The L1 source of the chain misses entries stored under a trimmed key. *)
Example stale_source_misses_trimmed_key :
  let w := set_l1 {["apipro:match:a" := ("x", None)]} (mini 0 ∅) in
  buildKey "match" " a" = "apipro:match:a" /\
  (run (Fallback.l1_Get true "match" " a") w).1 = ("", false, None).
Proof. vm_compute. done. Qed.

Lemma GetOrLoadT_gate_witness :
  let w := set_dgr (Degrade.MkManager ModeEmergency []) (mini 0 ∅) in
  (run (load_page (NewManager true None) "final") w).1 = Err ErrDegradeClosed.
Proof.
  intros w.
  exact (proj1 (GetOrLoadT_gate page_marshal page_unmarshal Some (NewManager true None) "match" "detail:1"
    (60 * Second) LevelDisplay (mret (Ok "final")) w _ _ ltac:(discriminate) eq_refl (surjective_pairing _))).
Defined.

Lemma GetOrLoadT_provenance_witness :
  let w := mini (1700000000 * Second) ∅ in
  exists t, (run (load_page (NewManager true None) "final") w).1 = Ok t /\
    ((exists w1 w2 : MiniWorld, run (mret (Ok "final")) w1 = (Ok t, w2)) \/
     exists raw, cached w "apipro:match:detail:1" raw).
Proof.
  intros w. exists "final". split; [reflexivity|].
  set (flying := fun l : prog (res (any (T := string))) => l = mret (Ok (Loaded "final"))).
  assert ((run (load_page (NewManager true None) "final") w).1 = Ok "final") as E1 by (vm_compute; reflexivity).
  pose proof (surjective_pairing (run (load_page (NewManager true None) "final") w)) as E. rewrite E1 in E.
  assert (flights (W := MiniWorld) (T := string) flying ("match" +:+ ":" +:+ "detail:1")) as Hfl.
  { intros v r v' E0. unfold handle, mini_world, mini_handle in E0. discriminate E0. }
  destruct (GetOrLoadT_provenance page_marshal page_unmarshal Some flying (NewManager true None) "match" "detail:1"
    (60 * Second) LevelDisplay (mret (Ok "final")) w "final" _ Hfl E)
    as [_ [(w1 & w2 & _ & H & _)|[(l & a & w1 & w2 & _ & _)|(_ & raw & j & H & _)]]].
  - left. by exists w1, w2.
  - left. by exists w1, w1.
  - right. by exists raw.
Defined.

(** The first call leaves its write-back; when that has run, a minute less a
    second later the page is still the one it loaded. *)
Lemma GetOrLoadT_read_through_witness :
  let m := NewManager true None in
  let w := mini (1700000000 * Second) ∅ in
  let d := detach (load_page m "final") w in
  let v1 := (run (writeBack page_marshal m (typed_options "match" "detail:1" (60 * Second) LevelDisplay
                    (mret (Ok "final"))) "final") d.1.2).2 in
  let w2 := mini (1700000059 * Second) (keys v1) in
  length d.2 = 1%nat /\ (run (load_page m "other") w2).1 = Ok "final".
Proof.
  intros m w d v1 w2. split; [vm_compute; reflexivity|].
  refine (proj2 (GetOrLoadT_read_through page_marshal page_unmarshal Some m "match" "detail:1" (60 * Second)
    LevelDisplay (mret (Ok "final")) (mret (Ok "other")) w "final" d.1.2 d.2
    (json_text (JObj [("title", JStr "final")])) (JObj [("title", JStr "final")])
    _ eq_refl eq_refl _ _ eq_refl eq_refl _ eq_refl _ _ _)
    d.1.2 v1 w2 _ _ _ _ _ _ _ _ (surjective_pairing _) _).
  - constructor.
  - by vm_compute.
  - discriminate.
  - assert (d.1.1 = Ok "final") as E1 by (vm_compute; reflexivity). change (d = (Ok "final", d.1.2, d.2)).
    rewrite <- E1. by destruct d as [[? ?] ?].
  - discriminate.
  - vm_compute; reflexivity.
  - vm_compute; reflexivity.
  - vm_compute; constructor.
  - assert ((run (writeBack page_marshal m (typed_options "match" "detail:1" (60 * Second) LevelDisplay
                    (mret (Ok "final"))) "final") d.1.2).1 = tt) as E1 by (vm_compute; reflexivity).
    rewrite <- E1. apply surjective_pairing.
  - constructor.
  - reflexivity.
  - left; reflexivity.
  - reflexivity.
  - by vm_compute.
Defined.

Lemma l1TTLOf_bounds_witness :
  let w := mini (1700000007 * Second + 7) ∅ in
  4500000000 <= (run (l1TTLOf (NewManager true None) (60 * Second)) w).1 < 66 * Second.
Proof.
  intros w. assert (0 <= clock w) as Hc by (vm_compute; discriminate).
  exact (proj1 (l1TTLOf_bounds true None (60 * Second) w Hc)).
Defined.

Lemma InvalidateFamily_exact_witness :
  let w := mini 0 (<[ "apipro:m:1" := Entry (VStr "a") None ]> (<[ "apipro:m:2" := Entry (VStr "c") None ]>
             {[ "apipro:n:1" := Entry (VStr "b") None ]})) in
  let r := run (InvalidateFamily (NewManager true None) "m") w in
  let w' := r.2 in
  r.1 = Ok 2 /\ find (clock w') (keys w') "apipro:m:1" = None /\ keys w' !! "apipro:n:1" = keys w !! "apipro:n:1".
Proof.
  intros w r w'.
  assert (healthy w) as Hh by constructor.
  destruct (InvalidateFamily_exact (NewManager true None) "m" w r.1 w' eq_refl eq_refl Hh
    ltac:(vm_compute; reflexivity) (surjective_pairing _)) as ((t & _ & _ & Hr) & _ & H1 & H2).
  split_and!; [rewrite Hr; vm_compute; reflexivity|by apply H1|by apply H2].
Defined.
End Multi.
