(* ===== verification/Registry.v ===== *)
(** * Objects made on first use (src/common/cache)

    The breakers of the cache manager, kept in a sync.Map, the hit and miss
    counters of [Stats] and the metric groups of the manager, kept in maps
    under a mutex.  The rest of the development speaks of "the breaker of a
    name" and "the counter of a family": here is why it may.  Concurrent callers
    interleave by their atomic accesses; an object made by a caller is
    identified by the caller's number. *)

From S2P Require Import Prelude GoStr Metrics.

(** One entry of a list of callers replaced. *)
Lemma insert_cases {A} (l : list A) i j x y : <[i := x]> l !! j = Some y ->
  (i = j /\ y = x) \/ (i <> j /\ l !! j = Some y).
Proof.
  intros E. destruct (decide (i = j)) as [->|Hne]; [left|right; by rewrite list_lookup_insert_ne in E].
  apply list_lookup_insert_Some in E as [(_ & -> & _)|[Hne _]]; [done|by destruct Hne].
Qed.

(** ** getOrCreateBreaker (manager.go) *)
Module Breakers.

(** Before [Load]; before [LoadOrStore], its own breaker made; with the breaker
    that caller [maker] made. *)
Inductive pc : Type := AtLoad | AtStore | Got (maker : nat).
Record caller : Type := MkCaller { name : string; at_ : pc }.
Record sys : Type := MkSys { breakers : gmap string nat; callers : list caller }.

(** The next atomic access of caller [i]. *)
Definition getOrCreateBreaker (i : nat) (c : caller) (m : gmap string nat) : option (pc * gmap string nat) :=
  match at_ c with
  | AtLoad => Some (match m !! name c with Some j => Got j | None => AtStore end, m)
  | AtStore => Some (match m !! name c with Some j => (Got j, m) | None => (Got i, <[name c := i]> m) end)
  | Got _ => None
  end.

Definition act (i : nat) (s : sys) : option sys :=
  c ← callers s !! i;
  '(p, m) ← getOrCreateBreaker i c (breakers s);
  Some (MkSys m (<[i := MkCaller (name c) p]> (callers s))).
Definition step (s s' : sys) : Prop := exists i, act i s = Some s'.

Definition start (names : list string) : sys := MkSys ∅ (map (fun n => MkCaller n AtLoad) names).

(** A stored breaker was made by a caller for that name, and whoever has a
    breaker has the stored one. *)
Definition inv (s : sys) : Prop :=
  (forall n j, breakers s !! n = Some j -> exists c, callers s !! j = Some c /\ name c = n) /\
  (forall i c j, callers s !! i = Some c -> at_ c = Got j -> breakers s !! name c = Some j).

Lemma breakers_start names : inv (start names).
Proof.
  split; cbn; [intros n j; by rewrite lookup_empty|]. intros i c j. rewrite list_lookup_fmap.
  destruct (names !! i); [|discriminate]. by intros [= <-].
Qed.

(** Names never change. *)
Lemma names_kept (l : list caller) i c p j c' : l !! i = Some c -> l !! j = Some c' ->
  exists c2, <[i := MkCaller (name c) p]> l !! j = Some c2 /\ name c2 = name c'.
Proof.
  intros Hi Hj. destruct (decide (i = j)) as [->|Hne].
  - rewrite Hi in Hj. injection Hj as ->. exists (MkCaller (name c') p). split; [|reflexivity].
    apply list_lookup_insert_eq, lookup_lt_is_Some. by exists c'.
  - exists c'. by rewrite list_lookup_insert_ne.
Qed.

Lemma breakers_step s s' : step s s' -> inv s -> inv s'.
Proof.
  intros (i & E) [Hmade Hgot]. unfold act in E. destruct (callers s !! i) as [c|] eqn:Hi; [|discriminate E].
  cbn [mbind option_bind] in E. destruct (getOrCreateBreaker i c (breakers s)) as [[p m]|] eqn:Eg; [|discriminate E].
  injection E as <-. unfold getOrCreateBreaker in Eg.
  assert (forall n j, breakers s !! n = Some j -> m !! n = Some j) as Hgrow.
  { destruct (at_ c); [injection Eg as _ <-; auto| |discriminate Eg].
    destruct (breakers s !! name c) eqn:En; injection Eg as _ <-; [auto|]. intros n j Hn.
    rewrite lookup_insert_ne; [exact Hn|]. by intros <-; congruence. }
  split; cbn [breakers callers].
  - intros n j Hj. assert (breakers s !! n = Some j \/ (n = name c /\ j = i)) as [Hold|[-> ->]].
    { destruct (at_ c); [injection Eg as _ <-; auto| |discriminate Eg].
      destruct (breakers s !! name c) eqn:En; injection Eg as _ <-; [auto|].
      destruct (decide (name c = n)) as [<-|Hne]; [rewrite lookup_insert_eq in Hj; injection Hj as <-; auto|].
      rewrite lookup_insert_ne in Hj by done. auto. }
    + destruct (Hmade n j Hold) as (c' & Hc' & <-). exact (names_kept _ _ _ _ _ _ Hi Hc').
    + destruct (names_kept (callers s) i c p i c Hi Hi) as (c2 & Hc2 & En). by exists c2.
  - intros j c' b Hj Hb. apply insert_cases in Hj as [[<- ->]|[_ Hj]]; [|exact (Hgrow _ _ (Hgot j c' b Hj Hb))].
    cbn [at_ name] in *. subst p. destruct (at_ c); [| |discriminate Eg].
    + destruct (breakers s !! name c) eqn:En; [|discriminate Eg]. injection Eg as <- <-. exact En.
    + destruct (breakers s !! name c) eqn:En; injection Eg as <- <-; [exact En|by rewrite lookup_insert_eq].
Qed.

Lemma breakers_reachable names s : rtc step (start names) s -> inv s.
Proof. intros Hr. exact (rtc_invariant step inv _ _ breakers_step Hr (breakers_start names)). Qed.

(** One breaker per name: however the calls interleave, two callers that have a
    breaker have the same one exactly when they asked for the same name; so
    what one of them reports to its breaker counts for all. *)
Theorem one_breaker (names : list string) (s : sys) (i i' j j' : nat) (c c' : caller)
    (Hreach : rtc step (start names) s) (Hi : callers s !! i = Some c) (Hi' : callers s !! i' = Some c')
    (Hgot : at_ c = Got j) (Hgot' : at_ c' = Got j') :
  j = j' <-> name c = name c'.
Proof.
  destruct (breakers_reachable names s Hreach) as [Hmade Hall].
  pose proof (Hall i c j Hi Hgot) as Hj. pose proof (Hall i' c' j' Hi' Hgot') as Hj'. split.
  - intros <-. destruct (Hmade _ _ Hj) as (d & Hd & <-). destruct (Hmade _ _ Hj') as (d' & Hd' & <-). congruence.
  - intros E. rewrite E in Hj. congruence.
Qed.

(** A call takes at most two accesses of its own, whatever the others do. *)
Lemma never_blocked i s c : callers s !! i = Some c ->
  match at_ c with
  | Got _ => act i s = None
  | AtStore => exists s' c' j, act i s = Some s' /\ callers s' !! i = Some c' /\ at_ c' = Got j
  | AtLoad => exists s' c', act i s = Some s' /\ callers s' !! i = Some c' /\ at_ c' <> AtLoad
  end.
Proof.
  intros Hi. assert (forall x, <[i := x]> (callers s) !! i = Some x) as Hx
    by (intros x; apply list_lookup_insert_eq, lookup_lt_is_Some; by exists c).
  unfold act. rewrite Hi. cbn [mbind option_bind]. unfold getOrCreateBreaker. destruct (at_ c).
  - destruct (breakers s !! name c); (eexists _, _; split; [reflexivity|split; [apply Hx|discriminate]]).
  - destruct (breakers s !! name c); (eexists _, _, _; split; [reflexivity|split; [apply Hx|reflexivity]]).
  - reflexivity.
Qed.

(** Two callers that both make a breaker: the second drops its own. *)
Example both_make : (s ← act 0 (start ["m"; "m"]); s ← act 1 s; s ← act 1 s; act 0 s) =
  Some (MkSys {["m" := 1%nat]} [MkCaller "m" (Got 1); MkCaller "m" (Got 1)]).
Proof. vm_compute. reflexivity. Qed.
End Breakers.

(** How many entries satisfy [P], after one was replaced. *)
Lemma count_insert {A} (P : A -> Prop) `{!forall x, Decision (P x)} (l : list A) i x y : l !! i = Some x ->
  (length (filter P (<[i := y]> l)) + (if decide (P x) then 1 else 0) =
   length (filter P l) + (if decide (P y) then 1 else 0))%nat.
Proof.
  intros Hi. rewrite (insert_take_drop _ _ _ (lookup_lt_Some _ _ _ Hi)).
  rewrite <- (take_drop_middle _ _ _ Hi) at 3. rewrite !filter_app, !filter_cons, !length_app.
  destruct (decide (P x)), (decide (P y)); cbn [length]; lia.
Qed.

(** ** Stats (cache.go) *)
Module Tallies.

Inductive side : Type := Hits | Misses.
#[global] Instance side_eq_dec : EqDecision side.
Proof. solve_decision. Defined.

(** A call of Hit or Miss: before [s.counter], which runs under the mutex;
    before the atomic addition to the counter it got; done. *)
Inductive pc : Type := AtCounter | AtAdd (a : nat) | Counted.
#[global] Instance pc_eq_dec : EqDecision pc.
Proof. solve_decision. Defined.
Record call : Type := MkCall { on : side; family : string; at_ : pc }.

(** The two maps of counter addresses, and the counters. *)
Record Stats : Type := MkStats { hits : gmap string nat; misses : gmap string nat; heap : gmap nat Z }.
Definition newStats : Stats := MkStats ∅ ∅ ∅.

Definition side_map (d : side) (st : Stats) : gmap string nat := match d with Hits => hits st | Misses => misses st end.
Definition with_map (d : side) (m : gmap string nat) (st : Stats) : Stats :=
  match d with Hits => MkStats m (misses st) (heap st) | Misses => MkStats (hits st) m (heap st) end.
Definition with_heap (h : gmap nat Z) (st : Stats) : Stats := MkStats (hits st) (misses st) h.

(** [new]: the address a fresh counter gets. *)
Definition counter (new : nat) (d : side) (f : string) (st : Stats) : nat * Stats :=
  match side_map d st !! f with
  | Some a => (a, st)
  | None => (new, with_heap (<[new := 0]> (heap st)) (with_map d (<[f := new]> (side_map d st)) st))
  end.

Definition AddInt64 (a : nat) (st : Stats) : option Stats :=
  v ← heap st !! a; Some (with_heap (<[a := int64 (v + 1)]> (heap st)) st).

(** [Snapshot]'s two maps. *)
Definition Snapshot (d : side) (st : Stats) : gmap string Z := omap (fun a => heap st !! a) (side_map d st).

Record sys : Type := MkSys { stats : Stats; calls : list call }.

Definition act (i : nat) (s : sys) : option sys :=
  c ← calls s !! i;
  '(p, st) ← (match at_ c with
    | AtCounter => let '(a, st) := counter i (on c) (family c) (stats s) in Some (AtAdd a, st)
    | AtAdd a => st ← AddInt64 a (stats s); Some (Counted, st)
    | Counted => None
    end);
  Some (MkSys st (<[i := MkCall (on c) (family c) p]> (calls s))).
Definition step (s s' : sys) : Prop := exists i, act i s = Some s'.

Definition start (l : list (side * string)) : sys := MkSys newStats (map (fun x => MkCall x.1 x.2 AtCounter) l).

(** The calls that have been counted for a family. *)
Definition counts (d : side) (f : string) (c : call) : Prop := on c = d /\ family c = f /\ at_ c = Counted.
#[global] Instance counts_dec d f c : Decision (counts d f c).
Proof. unfold counts. apply _. Defined.
Definition counted (d : side) (f : string) (l : list call) : Z := Z.of_nat (length (filter (counts d f) l)).

(** The counter of a family was made by a call for it and holds the number of
    calls counted; a call that adds adds to its family's counter. *)
Record inv (s : sys) : Prop := {
  inv_made : forall d f a, side_map d (stats s) !! f = Some a ->
    exists c, calls s !! a = Some c /\ on c = d /\ family c = f /\ at_ c <> AtCounter;
  inv_value : forall d f a, side_map d (stats s) !! f = Some a ->
    heap (stats s) !! a = Some (int64 (counted d f (calls s)));
  inv_pending : forall i c, calls s !! i = Some c ->
    match at_ c with
    | AtCounter => True
    | AtAdd a => side_map (on c) (stats s) !! family c = Some a
    | Counted => is_Some (side_map (on c) (stats s) !! family c)
    end;
}.

Lemma tallies_start l : inv (start l).
Proof.
  split; cbn.
  - intros [] f a; cbn; by rewrite lookup_empty.
  - intros [] f a; cbn; by rewrite lookup_empty.
  - intros i c. rewrite list_lookup_fmap. destruct (l !! i); [|discriminate]. by intros [= <-].
Qed.

Lemma side_map_with d d' m st : side_map d (with_map d' m st) = if decide (d = d') then m else side_map d st.
Proof. by destruct d, d'. Qed.
Lemma side_map_heap d h st : side_map d (with_heap h st) = side_map d st.
Proof. by destruct d. Qed.

Lemma counted_insert d f (l : list call) i c p : l !! i = Some c -> at_ c <> Counted ->
  counted d f (<[i := MkCall (on c) (family c) p]> l) =
  counted d f l + (if decide (on c = d /\ family c = f /\ p = Counted) then 1 else 0).
Proof.
  intros Hi Hc. unfold counted.
  pose proof (count_insert (counts d f) l i c (MkCall (on c) (family c) p) Hi) as Hn.
  rewrite (decide_False (P := counts d f c)) in Hn by (by intros (_ & _ & ?)).
  unfold counts at 3 in Hn. cbn [on family at_] in Hn. destruct (decide _) as [Hd|Hd] in Hn;
    [rewrite (decide_True _ _ Hd)|rewrite (decide_False _ _ Hd)]; lia.
Qed.

Lemma none_counted s d f : inv s -> side_map d (stats s) !! f = None -> counted d f (calls s) = 0.
Proof.
  intros Hinv Hno. unfold counted. destruct (filter (counts d f) (calls s)) as [|c l] eqn:E; [reflexivity|].
  assert (c ∈ filter (counts d f) (calls s)) as Hin by (rewrite E; left).
  apply list_elem_of_filter in Hin as [(<- & <- & Hc) Hin]. apply list_elem_of_lookup in Hin as [i Hi].
  pose proof (inv_pending s Hinv i c Hi) as Hp. rewrite Hc, Hno in Hp. by destruct Hp.
Qed.

(** A call at its first access is nobody's counter yet. *)
Lemma fresh_address s i c d f : inv s -> calls s !! i = Some c -> at_ c = AtCounter -> side_map d (stats s) !! f <> Some i.
Proof.
  intros Hinv Hi Hc Hm. destruct (inv_made s Hinv d f i Hm) as (c' & Hi' & _ & _ & Hne). congruence.
Qed.

(** The map [counter] leaves, and the counters it leaves. *)
Lemma counter_spec i d f st a st' : counter i d f st = (a, st') ->
  (side_map d st !! f = Some a /\ st' = st) \/
  (side_map d st !! f = None /\ a = i /\ heap st' = <[i := 0]> (heap st) /\
   forall d', side_map d' st' = if decide (d' = d) then <[f := i]> (side_map d st) else side_map d' st).
Proof.
  unfold counter. destruct (side_map d st !! f) eqn:E; intros [= <- <-]; [by left|right].
  split_and!; [reflexivity..|]. intros d'. by rewrite side_map_heap, side_map_with.
Qed.

Lemma at_inserted (l : list call) i c p a c' : l !! i = Some c -> l !! a = Some c' ->
  at_ c' <> AtCounter -> p <> AtCounter ->
  exists c2, <[i := MkCall (on c) (family c) p]> l !! a = Some c2 /\ on c2 = on c' /\ family c2 = family c' /\ at_ c2 <> AtCounter.
Proof.
  intros Hi Ha Hne Hp. destruct (decide (i = a)) as [->|Hia].
  - rewrite Hi in Ha. injection Ha as ->. exists (MkCall (on c') (family c') p). split_and!; [|reflexivity..|exact Hp].
    apply list_lookup_insert_eq, lookup_lt_is_Some. by exists c'.
  - exists c'. rewrite list_lookup_insert_ne by done. by split_and!.
Qed.

Lemma counter_keeps_inv s i c a st' : inv s -> calls s !! i = Some c -> at_ c = AtCounter ->
  counter i (on c) (family c) (stats s) = (a, st') ->
  inv (MkSys st' (<[i := MkCall (on c) (family c) (AtAdd a)]> (calls s))).
Proof.
  intros Hinv Hi Hc Eg. assert (at_ c <> Counted) as Hnc by (by rewrite Hc).
  assert (forall d f, counted d f (<[i := MkCall (on c) (family c) (AtAdd a)]> (calls s)) = counted d f (calls s)) as Hcount.
  { intros d f. rewrite (counted_insert d f _ i c _ Hi Hnc), decide_False by (by intros (_ & _ & ?)). lia. }
  assert (forall d f x, side_map d (stats s) !! f = Some x -> side_map d st' !! f = Some x) as Hgrow.
  { intros d f x Hx. destruct (counter_spec _ _ _ _ _ _ Eg) as [[_ ->]|(Hno & _ & _ & Hm)]; [exact Hx|].
    rewrite Hm. destruct (decide (d = on c)) as [->|]; [|exact Hx].
    rewrite lookup_insert_ne; [exact Hx|]. by intros <-; congruence. }
  assert (forall d f x, side_map d st' !! f = Some x ->
    side_map d (stats s) !! f = Some x \/ (side_map d (stats s) !! f = None /\ d = on c /\ f = family c /\ x = i /\ a = i)) as Hold.
  { intros d f x Hx. destruct (counter_spec _ _ _ _ _ _ Eg) as [[_ ->]|(Hno & -> & _ & Hm)]; [by left|].
    rewrite Hm in Hx. destruct (decide (d = on c)) as [->|]; [|by left].
    destruct (decide (f = family c)) as [->|Hne]; [rewrite lookup_insert_eq in Hx; injection Hx as <-; right; by split_and!|].
    rewrite lookup_insert_ne in Hx by done. by left. }
  assert (side_map (on c) st' !! family c = Some a) as Hown.
  { destruct (counter_spec _ _ _ _ _ _ Eg) as [[Hs ->]|(_ & -> & _ & Hm)]; [exact Hs|].
    by rewrite Hm, decide_True, lookup_insert_eq by done. }
  split; cbn [stats calls].
  - intros d f x Hx. destruct (Hold d f x Hx) as [Hx0|(_ & -> & -> & -> & _)].
    + destruct (inv_made s Hinv d f x Hx0) as (c' & Ha & <- & <- & Hne). by apply at_inserted.
    + exists (MkCall (on c) (family c) (AtAdd a)). split_and!; [|done..].
      apply list_lookup_insert_eq, lookup_lt_is_Some. by exists c.
  - intros d f x Hx. rewrite Hcount. destruct (Hold d f x Hx) as [Hx0|(Hno & -> & -> & -> & ->)].
    + pose proof (inv_value s Hinv d f x Hx0) as Hv.
      destruct (counter_spec _ _ _ _ _ _ Eg) as [[_ ->]|(_ & _ & Hh & _)]; [exact Hv|].
      rewrite Hh, lookup_insert_ne; [exact Hv|]. intros <-. exact (fresh_address s i c d f Hinv Hi Hc Hx0).
    + destruct (counter_spec _ _ _ _ _ _ Eg) as [[Hs _]|(_ & _ & Hh & _)]; [congruence|].
      rewrite Hh, lookup_insert_eq, (none_counted s _ _ Hinv Hno). reflexivity.
  - intros j c' Hj. apply insert_cases in Hj as [[<- ->]|[_ Hj]]; [exact Hown|].
    pose proof (inv_pending s Hinv j c' Hj) as Hp. destruct (at_ c'); [exact I|exact (Hgrow _ _ _ Hp)|].
    destruct Hp as [x Hx]. exists x. exact (Hgrow _ _ _ Hx).
Qed.

Lemma add_keeps_inv s i c a st' : inv s -> calls s !! i = Some c -> at_ c = AtAdd a ->
  AddInt64 a (stats s) = Some st' ->
  inv (MkSys st' (<[i := MkCall (on c) (family c) Counted]> (calls s))).
Proof.
  intros Hinv Hi Hc Ea. assert (at_ c <> Counted) as Hnc by (by rewrite Hc).
  pose proof (inv_pending s Hinv i c Hi) as Hown. rewrite Hc in Hown.
  pose proof (inv_value s Hinv _ _ _ Hown) as Hv. unfold AddInt64 in Ea. rewrite Hv in Ea.
  cbn [mbind option_bind] in Ea. injection Ea as <-.
  split; cbn [stats calls].
  - intros d f x. rewrite side_map_heap. intros Hx. destruct (inv_made s Hinv d f x Hx) as (c' & Ha & <- & <- & Hne).
    by apply at_inserted.
  - intros d f x. rewrite side_map_heap. intros Hx. cbn [heap with_heap].
    rewrite (counted_insert d f _ i c _ Hi Hnc). destruct (decide (_ /\ _)) as [(<- & <- & _)|Hne].
    + rewrite Hown in Hx. injection Hx as <-. rewrite lookup_insert_eq. f_equal. by apply wraps_add.
    + rewrite Z.add_0_r, lookup_insert_ne; [exact (inv_value s Hinv d f x Hx)|]. intros <-. apply Hne.
      destruct (inv_made s Hinv _ _ _ Hx) as (c1 & H1 & <- & <- & _).
      destruct (inv_made s Hinv _ _ _ Hown) as (c2 & H2 & E1 & E2 & _).
      rewrite H1 in H2. injection H2 as <-. by rewrite E1, E2.
  - intros j c' Hj. apply insert_cases in Hj as [[<- ->]|[_ Hj]]; cbn [at_ on family].
    + rewrite side_map_heap. by exists a.
    + pose proof (inv_pending s Hinv j c' Hj) as Hp. by destruct (at_ c'); rewrite ?side_map_heap.
Qed.

Lemma tallies_step s s' : step s s' -> inv s -> inv s'.
Proof.
  intros (i & E) Hinv. unfold act in E. destruct (calls s !! i) as [c|] eqn:Hi; [|discriminate E].
  cbn [mbind option_bind] in E. destruct (at_ c) as [|a|] eqn:Hc; [| |discriminate E].
  - destruct (counter i (on c) (family c) (stats s)) as [a st'] eqn:Eg. injection E as <-.
    exact (counter_keeps_inv s i c a st' Hinv Hi Hc Eg).
  - destruct (AddInt64 a (stats s)) as [st'|] eqn:Ea; [|discriminate E]. injection E as <-.
    exact (add_keeps_inv s i c a st' Hinv Hi Hc Ea).
Qed.

(** The counters are exact: however calls of Hit and Miss interleave, no
    addition is lost or lands on another counter, and what Snapshot shows for a
    family is the number of calls counted for it on that side, as an int64;
    a family it does not show has none. *)
Theorem Snapshot_exact (l : list (side * string)) (s : sys) (d : side) (f : string)
    (Hreach : rtc step (start l) s) :
  match Snapshot d (stats s) !! f with
  | Some v => v = int64 (counted d f (calls s))
  | None => counted d f (calls s) = 0
  end.
Proof.
  pose proof (rtc_invariant step inv _ _ tallies_step Hreach (tallies_start l)) as Hinv.
  unfold Snapshot. rewrite lookup_omap. destruct (side_map d (stats s) !! f) as [a|] eqn:E; cbn.
  - by rewrite (inv_value s Hinv d f a E).
  - exact (none_counted s d f Hinv E).
Qed.

(** Three hits of one family, interleaved, and a miss of another. *)
Example interleaved_hits :
  let turns := [0; 1; 1; 3; 2; 0; 2; 3]%nat in
  option_map (fun s => (Snapshot Hits (stats s), Snapshot Misses (stats s)))
    (foldl (fun s i => s ← s; act i s) (Some (start [(Hits, "m"); (Hits, "m"); (Hits, "m"); (Misses, "l")])) turns)
  = Some ({["m" := 3]}, {["l" := 1]}).
Proof. vm_compute. reflexivity. Qed.
End Tallies.

(** ** getOrCreateMetrics (manager.go), under the manager's mutex *)
Module Groups.
Section groups.
Context {R : Type} `{Metrics.Registerer R}.

Definition getOrCreateMetrics (f : string) (known : gmap string Metrics.CacheMetrics) (s : Metrics.State R)
    : option (Metrics.CacheMetrics * gmap string Metrics.CacheMetrics * Metrics.State R) :=
  match known !! f with
  | Some mm => Some (mm, known, s)
  | None =>
    '(mm, s') ← Metrics.NewCacheMetrics f s; Some (mm, <[f := mm]> known, s')
  end.

(** The manager's map holds the group of each family it knows. *)
Definition known_ok (known : gmap string Metrics.CacheMetrics) : Prop :=
  forall f mm, known !! f = Some mm -> mm = Metrics.CacheGroup f.

(** The calls that come one after the other. *)
Fixpoint requests (fs : list string) (known : gmap string Metrics.CacheMetrics) (s : Metrics.State R)
    : option (list Metrics.CacheMetrics * gmap string Metrics.CacheMetrics * Metrics.State R) :=
  match fs with
  | [] => Some ([], known, s)
  | f :: fs =>
    '(mm, known, s) ← getOrCreateMetrics f known s;
    '(mms, known, s) ← requests fs known s;
    Some (mm :: mms, known, s)
  end.

Lemma getOrCreateMetrics_ok f known s : known_ok known -> Metrics.consistent s -> Metrics.valid f = true ->
  exists known' s', getOrCreateMetrics f known s = Some (Metrics.CacheGroup f, known', s') /\
    known_ok known' /\ Metrics.consistent s'.
Proof.
  intros Hk Hs Hf. unfold getOrCreateMetrics. destruct (known !! f) as [mm|] eqn:Ek.
  { rewrite (Hk f mm Ek). by exists known, s. }
  destruct (Metrics.do_call_ok (Metrics.CCache f) s Hs) as (s2 & E2 & Hs2); [constructor; [exact Hf|constructor]|].
  cbn [Metrics.do_call Metrics.group_of] in E2. unfold mbind, Metrics.M_bind, mret, Metrics.M_ret in E2.
  destruct (Metrics.NewCacheMetrics f s) as [[mm s3]|]; [|discriminate E2]. injection E2 as -> ->.
  exists (<[f := Metrics.CacheGroup f]> known), s2. split_and!; [reflexivity| |exact Hs2].
  intros f' mm'. destruct (decide (f = f')) as [<-|]; [rewrite lookup_insert_eq; by intros [= <-]|].
  rewrite lookup_insert_ne by done. apply Hk.
Qed.

(** Asked for any families, in any order and with repeats, the manager never
    panics and always answers the family's own group. *)
Theorem groups_of_families (fs : list string) : forall known (s : Metrics.State R),
  known_ok known -> Metrics.consistent s -> Forall (fun f => Metrics.valid f = true) fs ->
  exists known' s', requests fs known s = Some (map Metrics.CacheGroup fs, known', s') /\
    known_ok known' /\ Metrics.consistent s'.
Proof.
  induction fs as [|f fs IH]; intros known s Hk Hs Hv; [by exists known, s|].
  apply Forall_cons in Hv as [Hf Hv]. destruct (getOrCreateMetrics_ok f known s Hk Hs Hf) as (k1 & s1 & E & Hk1 & Hs1).
  destruct (IH k1 s1 Hk1 Hs1 Hv) as (k2 & s2 & E2 & H2). exists k2, s2. split; [|exact H2].
  cbn [requests]. rewrite E. cbn [mbind option_bind]. rewrite E2. reflexivity.
Qed.
End groups.
End Groups.
