(* ===== verification/Scheduler.v ===== *)
(** * The refresh scheduler (src/common/cache/cache.go)

    [Start] gives each job a goroutine with a ticker: it runs the job once and
    then on every tick, until [Stop] closes the channel they all select on.
    The goroutines, the tickers and the passing of time interleave freely; an
    action is what one of them does at once.  A ticker holds at most one tick
    for its reader; a tick that finds it full is dropped. *)

From S2P Require Import Prelude GoStr Aes Codec Json Degrade Semaphore Hub Sql Env Cache.

Module Scheduler.

(** ** Goroutines *)
Inductive phase : Type :=
| Launching          (* go func() has been called *)
| Running            (* in j.Run() *)
| Selecting          (* at the select *)
| Returned.
#[global] Instance phase_eq_dec : EqDecision phase.
Proof. solve_decision. Defined.

(** A job's goroutine: its period, where it is, whether its ticker's channel
    holds a tick, when the ticker fires next, how many runs were started and
    how many have returned. *)
Record worker : Type := MkWorker { every : Z; at_ : phase; tick : bool; next : Z; runs : nat; ended : nat }.

Record sys : Type := MkSys { clock_ : Z; stopped : bool; workers : list worker }.

(** The goroutines [Start] makes of the jobs added before. *)
Definition Start (t : Z) (jobs : list Cache.Legacy.RefreshJob) : sys :=
  MkSys t false (map (fun j => MkWorker (Cache.Legacy.Every j) Launching false 0 0 0) jobs).

(** ** Actions *)
Inductive label : Type :=
| Pass (d : Z)        (* time passes *)
| Launch (i : nat)    (* time.NewTicker, and into the first run *)
| Fire (i : nat)      (* the ticker's timer *)
| Finish (i : nat)    (* j.Run() returns *)
| Take (i : nat)      (* case <-ticker.C *)
| Exit (i : nat)      (* case <-s.stop *)
| Stop.               (* close(s.stop) *)

(** A timer that fires late skips the instants it missed. *)
Definition fire (t : Z) (w : worker) : worker :=
  MkWorker (every w) (at_ w) true (next w + every w * (1 + (t - next w) / every w)) (runs w) (ended w).

(** One goroutine's part of an action, [None] when it cannot do it now. *)
Definition worker_act (l : label) (t : Z) (stop : bool) (w : worker) : option worker :=
  match l, at_ w with
  | Launch _, Launching => Some (MkWorker (every w) Running false (t + every w) 1 0)
  | Fire _, (Running | Selecting) => if next w <=? t then Some (fire t w) else None
  | Finish _, Running => Some (MkWorker (every w) Selecting (tick w) (next w) (runs w) (S (ended w)))
  | Take _, Selecting => if tick w then Some (MkWorker (every w) Running false (next w) (S (runs w)) (ended w)) else None
  | Exit _, Selecting => if stop then Some (MkWorker (every w) Returned (tick w) (next w) (runs w) (ended w)) else None
  | _, _ => None
  end.

Definition on_worker (l : label) (i : nat) (s : sys) : option sys :=
  w ← workers s !! i;
  w' ← worker_act l (clock_ s) (stopped s) w;
  Some (MkSys (clock_ s) (stopped s) (<[i := w']> (workers s))).

(** Closing twice would panic. *)
Definition act (l : label) (s : sys) : option sys :=
  match l with
  | Pass d => if 0 <=? d then Some (MkSys (clock_ s + d) (stopped s) (workers s)) else None
  | Stop => if stopped s then None else Some (MkSys (clock_ s) true (workers s))
  | Launch i | Fire i | Finish i | Take i | Exit i => on_worker l i s
  end.

Definition step (s s' : sys) : Prop := exists l, act l s = Some s'.

(** A sequence of actions. *)
Fixpoint act_all (ls : list label) (s : sys) : option sys :=
  match ls with [] => Some s | l :: ls => s' ← act l s; act_all ls s' end.

Lemma act_all_steps ls : forall s s', act_all ls s = Some s' -> rtc step s s'.
Proof.
  induction ls as [|l ls IH]; intros s s' E; cbn [act_all] in E; [injection E as ->; constructor|].
  destruct (act l s) as [s1|] eqn:E1; [|discriminate E]. eapply rtc_l; [by exists l|by apply IH].
Qed.

(** ** The invariant *)

(** The runs begun and not returned. *)
Definition under_way (w : worker) : nat := match at_ w with Running => 1 | _ => 0 end.

(** Launched at [t0 + n * every] steps ago: between launch and now the ticker
    came to at most [k - 1] instants, and each run but the first took a tick. *)
Definition worker_ok (t0 t : Z) (stop : bool) (w : worker) : Prop :=
  0 < every w /\ (at_ w = Returned -> stop = true) /\ runs w = (ended w + under_way w)%nat /\
  if decide (at_ w = Launching) then runs w = 0%nat
  else exists launched k, t0 <= launched /\ 1 <= k /\ next w = launched + k * every w /\
    launched + (k - 1) * every w <= t /\
    1 <= Z.of_nat (runs w) /\ Z.of_nat (runs w) + (if tick w then 1 else 0) <= k.

Definition sys_ok (t0 : Z) (s : sys) : Prop :=
  t0 <= clock_ s /\ Forall (worker_ok t0 (clock_ s) (stopped s)) (workers s).

Lemma worker_later t0 t t' stop stop' w : t <= t' -> (stop = true -> stop' = true) ->
  worker_ok t0 t stop w -> worker_ok t0 t' stop' w.
Proof.
  intros Ht Hs (He & Hr & Hen & Hw). split; [exact He|]. split; [auto|]. split; [exact Hen|]. destruct (decide _); [exact Hw|].
  destruct Hw as (la & k & ? & ? & ? & ? & ? & ?). exists la, k. split_and!; try done. lia.
Qed.

Lemma worker_act_ok t0 t stop l w w' : t0 <= t -> worker_ok t0 t stop w -> worker_act l t stop w = Some w' ->
  worker_ok t0 t stop w'.
Proof.
  intros Ht (He & Hr & Hen & Hw) E. unfold worker_act in E. unfold under_way in Hen.
  destruct l as [d|i|i|i|i|i|]; destruct (at_ w) eqn:Ea; try discriminate E; cbn in Hen.
  - injection E as <-. split_and!; [done|done|unfold under_way; cbn; lia|]. cbn [at_]. rewrite decide_False by done.
    exists t, 1. cbn [next every tick runs]. split_and!; lia.
  - destruct (next w <=? t) eqn:En; [|discriminate E]. injection E as <-. bool_to_prop. unfold fire.
    split_and!; [done|by cbn; rewrite Ea|unfold under_way; cbn; rewrite Ea; cbn; lia|]. cbn [at_ next every tick runs]. rewrite Ea, decide_False in * by done.
    destruct Hw as (la & k & ? & ? & Hn & ? & ? & Hk).
    exists la, (k + (1 + (t - next w) / every w)).
    pose proof (Z.div_pos (t - next w) (every w) ltac:(lia) ltac:(lia)).
    pose proof (Z.mul_div_le (t - next w) (every w) ltac:(lia)).
    split_and!; first [lia | nia | destruct (tick w); lia].
  - destruct (next w <=? t) eqn:En; [|discriminate E]. injection E as <-. bool_to_prop. unfold fire.
    split_and!; [done|by cbn; rewrite Ea|unfold under_way; cbn; rewrite Ea; cbn; lia|]. cbn [at_ next every tick runs]. rewrite Ea, decide_False in * by done.
    destruct Hw as (la & k & ? & ? & Hn & ? & ? & Hk).
    exists la, (k + (1 + (t - next w) / every w)).
    pose proof (Z.div_pos (t - next w) (every w) ltac:(lia) ltac:(lia)).
    pose proof (Z.mul_div_le (t - next w) (every w) ltac:(lia)).
    split_and!; first [lia | nia | destruct (tick w); lia].
  - injection E as <-. split_and!; [done|done|unfold under_way; cbn; lia|]. exact Hw.
  - destruct (tick w) eqn:Etk; [|discriminate E]. injection E as <-. split_and!; [done|done|unfold under_way; cbn; lia|].
    cbn [at_ next every tick runs]. rewrite decide_False in * by done.
    destruct Hw as (la & k & ? & ? & Hn & ? & ? & Hk). exists la, k. split_and!; try done; lia.
  - destruct stop; [|discriminate E]. injection E as <-. split_and!; [done|done|unfold under_way; cbn; lia|].
    cbn [at_ next every tick runs]. rewrite decide_False in * by done. exact Hw.
Qed.

Lemma step_ok t0 s s' : step s s' -> sys_ok t0 s -> sys_ok t0 s'.
Proof.
  intros [l E] [Ht Hw].
  assert (forall i, on_worker l i s = Some s' -> sys_ok t0 s') as Hon.
  { intros i Ei. unfold on_worker in Ei. destruct (workers s !! i) as [w|] eqn:Ew; [|discriminate Ei]. cbn in Ei.
    destruct (worker_act _ _ _ w) as [w'|] eqn:Ea; [|discriminate Ei]. injection Ei as <-.
    split; [exact Ht|]. cbn [workers clock_ stopped]. apply Forall_insert; [exact Hw|].
    eapply worker_act_ok; [exact Ht| |exact Ea]. by eapply Forall_lookup in Hw. }
  destruct l as [d|i|i|i|i|i|]; cbn [act] in E; try (by eapply Hon).
  - destruct (0 <=? d) eqn:Ed; [|discriminate E]. injection E as <-. bool_to_prop. split; cbn; [lia|].
    eapply Forall_impl; [exact Hw|]. intros w. apply worker_later; [lia|done].
  - destruct (stopped s); [discriminate E|]. injection E as <-. split; [exact Ht|]. cbn.
    eapply Forall_impl; [exact Hw|]. intros w. by apply worker_later.
Qed.

(** Only jobs with a positive period are added. *)
Definition added (js : list Cache.Legacy.RefreshJob) : list Cache.Legacy.RefreshJob := foldl Cache.Legacy.Add [] js.

Lemma added_positive js : Forall (fun j => 0 < Cache.Legacy.Every j) (added js).
Proof.
  unfold added. assert (Forall (fun j => 0 < Cache.Legacy.Every j) []) as Hn by constructor.
  revert Hn. generalize (@nil Cache.Legacy.RefreshJob) as acc. induction js as [|j js IH]; intros acc Ha; [exact Ha|].
  cbn [foldl]. apply IH. unfold Cache.Legacy.Add. destruct (Cache.Legacy.Every j <=? 0) eqn:E; [exact Ha|].
  bool_to_prop. apply Forall_app; split; [exact Ha|]. constructor; [exact E|constructor].
Qed.

Lemma start_ok t js : sys_ok t (Start t (added js)).
Proof.
  split; [cbn; lia|]. cbn [Start workers clock_ stopped]. apply Forall_fmap. eapply Forall_impl; [apply added_positive|].
  intros j Hj. split_and!; [exact Hj|discriminate|reflexivity|]. cbn. reflexivity.
Qed.

(** C36. How often a job runs: in every state that the scheduler, its goroutines
    and time can reach, a job with period [p] has been started at most once per
    period that passed since Start, and once more; it is never in two runs at a
    time: of the runs started all have returned but one when its goroutine is
    in the job, all when it is not; and its goroutine returns only after Stop. *)
Theorem runs_bound t0 js s i w : rtc step (Start t0 (added js)) s -> workers s !! i = Some w ->
  0 < every w /\ Z.of_nat (runs w) <= (clock_ s - t0) / every w + 1 /\
  runs w = (ended w + match at_ w with Running => 1 | _ => 0 end)%nat /\
  (runs w = 0%nat <-> at_ w = Launching) /\ (at_ w = Returned -> stopped s = true).
Proof.
  intros Hs Hi. assert (sys_ok t0 s) as [Ht Hw].
  { eapply rtc_invariant; [intros a b; apply step_ok|exact Hs|apply start_ok]. }
  apply (Forall_lookup_1 _ _ _ _ Hw) in Hi as (He & Hr & Hen & Hok). split; [exact He|].
  destruct (decide (at_ w = Launching)) as [El|El].
  - split_and!; [|exact Hen|tauto|exact Hr]. rewrite Hok.
    pose proof (Z.div_pos (clock_ s - t0) (every w) ltac:(lia) ltac:(lia)). lia.
  - destruct Hok as (la & k & ? & ? & ? & Hk & ? & ?). split_and!; [|exact Hen|split; [lia|tauto]|exact Hr].
    assert (k - 1 <= (clock_ s - t0) / every w) by (apply Z.div_le_lower_bound; [lia|nia]).
    destruct (tick w); lia.
Qed.

(** ** Shutting down *)

(** Each goroutine that was launched can finish its run and return without
    starting another; one that was not has its first run before that. *)
Definition way_out (i : nat) (p : phase) : list label :=
  match p with Launching => [Launch i; Finish i; Exit i] | Running => [Finish i; Exit i] | Selecting => [Exit i] | Returned => [] end.

Definition out (t : Z) (w : worker) : worker :=
  match at_ w with
  | Launching => MkWorker (every w) Returned false (t + every w) 1 1
  | Running => MkWorker (every w) Returned (tick w) (next w) (runs w) (S (ended w))
  | _ => MkWorker (every w) Returned (tick w) (next w) (runs w) (ended w)
  end.

Lemma way_out_works i s w : stopped s = true -> workers s !! i = Some w ->
  act_all (way_out i (at_ w)) s = Some (MkSys (clock_ s) true (<[i := out (clock_ s) w]> (workers s))).
Proof.
  intros Hs Hi. assert (forall w', <[i := w']> (workers s) !! i = Some w') as Hl.
  { intros w'. apply list_lookup_insert_eq, lookup_lt_is_Some. by exists w. }
  destruct w as [ev ph tk nx rn en]. destruct ph; cbn [way_out at_ act_all act]; unfold on_worker, out;
    cbn [at_ every tick next runs ended]; rewrite ?Hi; cbn;
    repeat (first [rewrite list_insert_insert_eq | rewrite Hl | rewrite Hs]; cbn); try reflexivity.
  rewrite (list_insert_id _ _ _ Hi). by destruct s; cbn in *; subst.
Qed.

Lemma all_out n : forall s, stopped s = true -> (n <= length (workers s))%nat ->
  exists s', rtc step s s' /\ stopped s' = true /\ clock_ s' = clock_ s /\
    workers s' = map (out (clock_ s)) (take n (workers s)) ++ drop n (workers s).
Proof.
  induction n as [|n IH]; intros s Hs Hn.
  - exists s. split_and!; [constructor|done|done|done].
  - destruct (IH s Hs ltac:(lia)) as (s1 & H1 & Hs1 & Hc1 & Hw1).
    destruct (lookup_lt_is_Some_2 (workers s) n ltac:(lia)) as [w Hw].
    assert (length (map (out (clock_ s)) (take n (workers s))) = n) as Hlen by (rewrite length_map, length_take; lia).
    assert (workers s1 !! n = Some w) as Hw'.
    { rewrite Hw1, lookup_app_r by lia. rewrite Hlen, Nat.sub_diag, lookup_drop, Nat.add_0_r. exact Hw. }
    eexists. split_and!; [etrans; [exact H1|]; eapply act_all_steps, (way_out_works n s1 w Hs1 Hw')| | |].
    + reflexivity.
    + exact Hc1.
    + cbn [workers]. rewrite Hw1, Hc1. rewrite insert_app_r_alt by lia. rewrite Hlen, Nat.sub_diag.
      rewrite (drop_S _ _ _ Hw). cbn [insert list_insert].
      rewrite (take_S_r _ _ _ Hw), map_app, <- app_assoc. reflexivity.
Qed.

(** After Stop, every goroutine can return with no further run of a job that
    was launched: nothing in the scheduler keeps the process from ending. *)
Theorem stop_returns s : stopped s = true ->
  exists s', rtc step s s' /\ Forall (fun w => at_ w = Returned) (workers s') /\
    forall i w, workers s !! i = Some w -> at_ w <> Launching ->
      exists w', workers s' !! i = Some w' /\ runs w' = runs w.
Proof.
  intros Hs. destruct (all_out (length (workers s)) s Hs (le_n _)) as (s' & H1 & _ & _ & Hw).
  rewrite firstn_all, drop_all, app_nil_r in Hw. exists s'. split_and!; [exact H1| |].
  - rewrite Hw. apply Forall_fmap, Forall_forall. intros w _. unfold out; cbn. by destruct (at_ w).
  - intros i w Hi Hl. exists (out (clock_ s) w). rewrite Hw. split; [by rewrite list_lookup_fmap, Hi|].
    unfold out. by destruct (at_ w).
Qed.

(** Two jobs, every 60 and every 0 seconds (not added): the first has run
    twice when 61 seconds passed. *)
Definition demo_job (every : Z) : Cache.Legacy.RefreshJob := Cache.Legacy.MkJob "match" (mret None) every.

Lemma runs_bound_witness : exists s w,
  act_all [Launch 0; Finish 0; Pass 61; Fire 0; Take 0] (Start 0 (added [demo_job 60; demo_job 0])) = Some s /\
  workers s !! 0%nat = Some w /\ runs w = 2%nat /\ Z.of_nat (runs w) <= (clock_ s - 0) / every w + 1.
Proof.
  exists (MkSys 61 false [MkWorker 60 Running false 120 2 1]), (MkWorker 60 Running false 120 2 1).
  split; [vm_compute; reflexivity|]. split; [reflexivity|]. split; [reflexivity|].
  refine (proj1 (proj2 (runs_bound 0 [demo_job 60; demo_job 0] _ 0 _ _ _))); [|reflexivity].
  apply (act_all_steps [Launch 0; Finish 0; Pass 61; Fire 0; Take 0]). vm_compute. reflexivity.
Defined.
End Scheduler.
