(* ===== verification/Models.v ===== *)
(** * The data models (src/common/model/)

    One Module per table: its row type, the statements it sends and how a row
    is scanned.  The text of each statement is the source's.  The database
    behind [sql_query] and [sql_exec] is a service; what it answers to a
    statement is the world's.  [Schema] is the package state that decides
    whether a table name is qualified. *)

From S2P Require Import Prelude GoStr Json Hub Sql Env.

(** ** schema.go *)

(** [schemaPrefix] and [useSchemaPrefix]. *)
Record Schema : Type := MkSchema { schemaPrefix : string; useSchemaPrefix : bool }.

Definition defaultSchemaPrefix : string := "zb_".
Definition initial_schema : Schema :=
  {| schemaPrefix := defaultSchemaPrefix; useSchemaPrefix := true |}.

Definition tableSchema : list (string * string) :=
  [("user", "user"); ("user_grow", "user"); ("room_gift_rank", "user"); ("uid_pool", "user");
   ("account", "user"); ("attention_compere", "user"); ("login_log", "user"); ("reg_info", "user");
   ("live_type", "live"); ("live_room", "live"); ("anchors", "live"); ("match_schedule", "live");
   ("match_schedule_room", "live"); ("live_hot_recommend", "live"); ("high_light", "live");
   ("live_stat", "live");
   ("chat_room_message", "chat");
   ("gift", "gift");
   ("admin_user", "admin");
   ("advertising", "sys"); ("article", "sys"); ("system_chat_message", "sys");
   ("system_notice_message", "sys");
   ("rooms", "live"); ("room_ranks", "user")].

(** A Go map of strings: an absent key reads as the empty string. *)
Definition str_lookup (m : list (string * string)) (k : string) : string :=
  match List.find (fun e => String.eqb e.1 k) m with Some (_, v) => v | None => "" end.

Definition SetSchemaPrefix (p : string) (s : Schema) : Schema :=
  {| schemaPrefix := TrimSpace p; useSchemaPrefix := useSchemaPrefix s |}.
Definition SetNoSchemaPrefix (s : Schema) : Schema :=
  {| schemaPrefix := schemaPrefix s; useSchemaPrefix := false |}.

Definition SchemaForTable (s : Schema) (table : string) : string :=
  if negb (useSchemaPrefix s) then "" else
  let short := str_lookup tableSchema table in
  if String.eqb short "" then "" else schemaPrefix s +:+ short.

Definition Tbl (s : Schema) (table : string) : string :=
  if negb (useSchemaPrefix s) then table else
  let sch := SchemaForTable s table in
  if String.eqb sch "" then table else sch +:+ "." +:+ table.

Definition SchemaUser (s : Schema) : string := SchemaForTable s "user".
Definition SchemaLive (s : Schema) : string := SchemaForTable s "live_room".
Definition SchemaChat (s : Schema) : string := SchemaForTable s "chat_room_message".
Definition SchemaGift (s : Schema) : string := SchemaForTable s "gift".
Definition SchemaAdmin (s : Schema) : string := SchemaForTable s "admin_user".
Definition SchemaSys (s : Schema) : string := SchemaForTable s "article".

Definition ErrNotFound := ErrSentinel "model.ErrNotFound" "record not found".
Definition ErrDuplicate := ErrSentinel "model.ErrDuplicate" "duplicate record".

(** [s[i:]] holds [sub] at its start for the first such [i]; -1 when none. *)
Fixpoint indexOf_from (i : Z) (s sub : string) : Z :=
  if String.prefix sub s then i else
  match s with
  | EmptyString => -1
  | String _ s' => indexOf_from (i + 1) s' sub
  end.
Definition indexOf (s sub : string) : Z := indexOf_from 0 s sub.
Definition contains (s sub : string) : bool :=
  (String.length sub <=? String.length s)%nat && (0 <=? indexOf s sub).

Definition isDup (err : option error) : bool :=
  match err with
  | None => false
  | Some e => contains (Error e) "Duplicate entry" || contains (Error e) "UNIQUE constraint failed"
  end.

(** sql.ErrNoRows becomes [ErrNotFound] in the single-row lookups. *)
Definition not_found {A} (r : res A) : res A :=
  match r with
  | Err e => if decide (e = Sql.ErrNoRows) then Err ErrNotFound else Err e
  | Ok a => Ok a
  end.

(** A query that failed gives no rows; else what the scan loop gave. *)
Definition rows_of {A} (p : Sql.scan A) (a : res Sql.answer) : list A * option error :=
  match a with
  | Err e => ([], Some e)
  | Ok ans => Sql.scan_all p ans
  end.

(** [if limit <= 0 { limit = n }] *)
Definition at_least (n limit : Z) : Z := if limit <=? 0 then n else limit.

(** ** user_model.go *)
Module User.

Record User : Type := MkUser {
  UID : Z; LoginName : string; NickName : string; Phone : string; CountryCode : string;
  Password : string; Salt : string; PwdType : Z; UserType : Z; Score : Z; Grow : Z;
  Status : Z; Icon : string; Gender : Z; Birthday : option Z; Plat : Z;
  CreatedAt : Z; UpdatedAt : Z }.

Definition userCols : string := "uid, login_name, nick_name, phone, country_code, password, salt, pwd_type, user_type, score, grow, status, icon, gender, birthday, plat, created_at, updated_at".

Definition with_times (c u : Z) (x : User) : User :=
  MkUser (UID x) (LoginName x) (NickName x) (Phone x) (CountryCode x) (Password x) (Salt x)
    (PwdType x) (UserType x) (Score x) (Grow x) (Status x) (Icon x) (Gender x) (Birthday x) (Plat x) c u.

(** The bound arguments of the INSERT, in order. *)
Definition insert_args (u : User) : list Sql.sqlval :=
  [Sql.SInt (UID u); Sql.SText (LoginName u); Sql.SText (NickName u); Sql.SText (Phone u);
   Sql.SText (CountryCode u); Sql.SText (Password u); Sql.SText (Salt u); Sql.SInt (PwdType u);
   Sql.SInt (UserType u); Sql.SInt (Score u); Sql.SInt (Grow u); Sql.SInt (Status u);
   Sql.SText (Icon u); Sql.SInt (Gender u);
   match Birthday u with Some t => Sql.STime t | None => Sql.SNull end;
   Sql.SInt (Plat u); Sql.SInt (CreatedAt u); Sql.SInt (UpdatedAt u)].

Definition scanUser : Sql.scan User :=
  uid ← Sql.int64_col; login ← Sql.str_col; nick ← Sql.str_col; phone ← Sql.str_col;
  cc ← Sql.str_col; pw ← Sql.str_col; salt ← Sql.str_col; pt ← Sql.int32_col; ut ← Sql.int32_col;
  score ← Sql.int64_col; grow ← Sql.int64_col; st ← Sql.int32_col; icon ← Sql.str_col;
  gender ← Sql.int32_col; bd ← Sql.null_time_col; plat ← Sql.int32_col; ca ← Sql.int64_col;
  ua ← Sql.int64_col;
  mret (MkUser uid login nick phone cc pw salt pt ut score grow st icon gender bd plat ca ua).

Record UserGrow : Type := MkGrow {
  ID : Z; Name : string; MinGrow : Z; Sort : Z; GStatus : Z; NextMinGrow : Z }.

Definition scanGrow : Sql.scan UserGrow :=
  id ← Sql.int64_col; name ← Sql.str_col; mg ← Sql.int64_col; sort ← Sql.int32_col;
  st ← Sql.int32_col; nx ← Sql.int64_col;
  mret (MkGrow id name mg sort st nx).

Section queries.
Context (sch : Schema).

Definition insert_sql : string :=
  "INSERT INTO " +:+ Tbl sch "user" +:+ "
                (uid, login_name, nick_name, phone, country_code, password, salt, pwd_type, user_type, score, grow, status, icon, gender, birthday, plat, created_at, updated_at)
                VALUES (?,?,?,?,?,?,?,?,?,?,?,?,?,?,?,?,?,?)".

(** The caller's User is stamped in place: the result says how. *)
Definition Insert (u : User) : prog (option error * User) :=
  t ← now;
  let u := with_times (if CreatedAt u =? 0 then t / Second else CreatedAt u) (t / Second) u in
  r ← sql_exec insert_sql (insert_args u);
  match r with
  | Err e => if isDup (Some e) then mret (Some ErrDuplicate, u) else mret (Some e, u)
  | Ok _ => mret (None, u)
  end.

Definition FindByUid (uid : Z) : prog (res User) :=
  a ← sql_query ("SELECT " +:+ userCols +:+ " FROM " +:+ Tbl sch "user" +:+ " WHERE uid=?") [Sql.SInt uid];
  mret (not_found (Sql.scan_one scanUser a)).

Definition FindByPhone (cc phone : string) : prog (res User) :=
  a ← sql_query ("SELECT " +:+ userCols +:+ " FROM " +:+ Tbl sch "user" +:+ " WHERE country_code=? AND phone=?")
       [Sql.SText cc; Sql.SText phone];
  mret (not_found (Sql.scan_one scanUser a)).

Definition FindByLoginName (loginName : string) : prog (res User) :=
  a ← sql_query ("SELECT " +:+ userCols +:+ " FROM " +:+ Tbl sch "user" +:+ " WHERE login_name=?")
       [Sql.SText loginName];
  mret (not_found (Sql.scan_one scanUser a)).

(** The scan's error is ignored: [maxUID] then stays 0. *)
Definition NextUID : prog (res Z) :=
  a ← sql_query ("SELECT COALESCE(MAX(uid), 1000) FROM " +:+ Tbl sch "user") [];
  let maxUID := match Sql.scan_one Sql.int64_col a with Ok z => z | Err _ => 0 end in
  if maxUID <? 5000 then mret (Ok 5001) else mret (Ok (int64 (maxUID + 1))).

Definition MaxUID : prog (res Z) :=
  a ← sql_query ("SELECT MAX(uid) FROM " +:+ Tbl sch "user") [];
  match Sql.scan_one Sql.null_int_col a with
  | Err e => if decide (e = Sql.ErrNoRows) then mret (Ok 0) else mret (Err e)
  | Ok z => mret (Ok z)
  end.

Definition FindUserGrowForValue (value : Z) : prog (res UserGrow) :=
  a ← sql_query ("
                SELECT g.id, g.name, g.min_grow, g.sort, g.status,
                       COALESCE((SELECT MIN(g2.min_grow) FROM " +:+ Tbl sch "user_grow" +:+ " g2 WHERE g2.min_grow > g.min_grow AND g2.status=1), 0)
                FROM " +:+ Tbl sch "user_grow" +:+ " g
                WHERE g.status=1 AND g.min_grow <= ?
                ORDER BY g.min_grow DESC LIMIT 1") [Sql.SInt value];
  match Sql.scan_one scanGrow a with
  | Err e => if decide (e = Sql.ErrNoRows) then mret (Ok (MkGrow 0 "LV.1" 0 0 0 100)) else mret (Err e)
  | Ok g => mret (Ok g)
  end.
End queries.

Definition DebugString (u : User) : string :=
  "uid=" +:+ FormatInt (UID u) +:+ " nick=" +:+ NickName u +:+ " type=" +:+ FormatInt (UserType u) +:+
  " status=" +:+ FormatInt (Status u).
End User.

(** ** live_room_model.go *)
Module LiveRoom.

Record LiveRoom : Type := MkLiveRoom {
  UID : Z; RoomNum : string; Title : string; Contact : string; Cover : string;
  CustomCover : string; Notice : string; Detail : string; LiveFLV : string; LiveM3U8 : string;
  LiveStatus : Z; RoomStatus : Z; LiveType : Z; LiveTypeParent : Z;
  FocusCount : Z; FictitiousFocusCount : Z; VisitCount : Z; FictitiousVisitCount : Z;
  MarkType : Z; AssistantUID : Z; HD : Z; StreamType : Z; PushContent : string;
  AnchorNickName : string; AnchorIcon : string; AssistantNickName : string; AssistantIcon : string }.

Definition liveRoomCols : string := "r.uid, r.room_num, r.title, r.contact, r.cover, r.custom_cover, r.notice, r.detail,
        r.live_flv, r.live_m3u8, r.live_status, r.room_status, r.live_type, r.live_type_parent,
        r.focus_count, r.fictitious_focus_count, r.visit_count, r.fictitious_visit_count,
        r.mark_type, r.assistant_uid, r.hd, r.stream_type, r.push_content".

Definition scanLiveRoom : Sql.scan LiveRoom :=
  uid ← Sql.int64_col; num ← Sql.str_col; title ← Sql.str_col; contact ← Sql.str_col;
  cover ← Sql.str_col; custom ← Sql.str_col; notice ← Sql.str_col; detail ← Sql.str_col;
  flv ← Sql.str_col; m3u8 ← Sql.str_col; live ← Sql.int64_col; room ← Sql.int64_col;
  lt ← Sql.int64_col; ltp ← Sql.int64_col; fc ← Sql.int64_col; ffc ← Sql.int64_col;
  vc ← Sql.int64_col; fvc ← Sql.int64_col; mark ← Sql.int64_col; asst ← Sql.int64_col;
  hd ← Sql.int64_col; stream ← Sql.int64_col; push ← Sql.str_col;
  anchorNick ← Sql.null_str_col; anchorIcon ← Sql.null_str_col;
  asstNick ← Sql.null_str_col; asstIcon ← Sql.null_str_col;
  mret (MkLiveRoom uid num title contact cover custom notice detail flv m3u8 live room lt ltp
          fc ffc vc fvc mark asst hd stream push anchorNick anchorIcon asstNick asstIcon).

Section queries.
Context (sch : Schema).

Definition FindByRoomNum (roomNum : string) : prog (res LiveRoom) :=
  a ← sql_query ("
                SELECT " +:+ liveRoomCols +:+ ",
                       u.nick_name, u.icon,
                       u2.nick_name, u2.icon
                FROM " +:+ Tbl sch "live_room" +:+ " r
                LEFT JOIN " +:+ Tbl sch "user" +:+ " u  ON u.uid  = r.uid
                LEFT JOIN " +:+ Tbl sch "user" +:+ " u2 ON u2.uid = r.assistant_uid
                WHERE r.room_num=?") [Sql.SText roomNum];
  mret (not_found (Sql.scan_one scanLiveRoom a)).

Definition ListHot (limit : Z) : prog (list LiveRoom * option error) :=
  let limit := at_least 50 limit in
  a ← sql_query ("
                SELECT " +:+ liveRoomCols +:+ ",
                       u.nick_name, u.icon,
                       u2.nick_name, u2.icon
                FROM " +:+ Tbl sch "live_room" +:+ " r
                LEFT JOIN " +:+ Tbl sch "user" +:+ " u  ON u.uid  = r.uid
                LEFT JOIN " +:+ Tbl sch "user" +:+ " u2 ON u2.uid = r.assistant_uid
                WHERE r.live_status=1 AND r.room_status=1
                ORDER BY r.mark_type DESC, (r.visit_count + r.fictitious_visit_count) DESC, r.uid ASC
                LIMIT ?") [Sql.SInt limit];
  mret (rows_of scanLiveRoom a).

Definition ListByType (parentID limit : Z) : prog (list LiveRoom * option error) :=
  let limit := at_least 50 limit in
  a ← sql_query ("
                SELECT " +:+ liveRoomCols +:+ ",
                       u.nick_name, u.icon,
                       u2.nick_name, u2.icon
                FROM " +:+ Tbl sch "live_room" +:+ " r
                LEFT JOIN " +:+ Tbl sch "user" +:+ " u  ON u.uid  = r.uid
                LEFT JOIN " +:+ Tbl sch "user" +:+ " u2 ON u2.uid = r.assistant_uid
                WHERE r.room_status=1 AND r.live_type_parent=?
                ORDER BY r.mark_type DESC, (r.visit_count + r.fictitious_visit_count) DESC, r.uid ASC
                LIMIT ?") [Sql.SInt parentID; Sql.SInt limit];
  mret (rows_of scanLiveRoom a).

Definition ListAllVisible (limit : Z) : prog (list LiveRoom * option error) :=
  let limit := at_least 200 limit in
  a ← sql_query ("
                SELECT " +:+ liveRoomCols +:+ ",
                       u.nick_name, u.icon,
                       u2.nick_name, u2.icon
                FROM " +:+ Tbl sch "live_room" +:+ " r
                LEFT JOIN " +:+ Tbl sch "user" +:+ " u  ON u.uid  = r.uid
                LEFT JOIN " +:+ Tbl sch "user" +:+ " u2 ON u2.uid = r.assistant_uid
                WHERE r.room_status=1
                ORDER BY r.mark_type DESC, (r.visit_count + r.fictitious_visit_count) DESC, r.uid ASC
                LIMIT ?") [Sql.SInt limit];
  mret (rows_of scanLiveRoom a).

Definition BumpVisitCount (roomNum : string) (delta : Z) : prog (option error) :=
  r ← sql_exec ("UPDATE " +:+ Tbl sch "live_room" +:+ " SET visit_count = visit_count + ?, updated_at = strftime('%s','now') WHERE room_num=?")
       [Sql.SInt delta; Sql.SText roomNum];
  mret (match r with Err e => Some e | Ok _ => None end).
End queries.

Definition DebugString (r : LiveRoom) : string :=
  "room=" +:+ RoomNum r +:+ " title=" +:+ Title r +:+ " live=" +:+ FormatInt (LiveStatus r) +:+
  " parent=" +:+ FormatInt (LiveTypeParent r).
End LiveRoom.

(** ** chat_room_message_model.go *)
Module ChatMsg.

(** [SendTime] in ns since the epoch. *)
Record ChatRoomMessage : Type := MkMessage {
  ID : Z; SendUID : Z; RoomNum : string; SendTime : Z; Content : string; Type_ : Z; IP : string;
  Status : Z; CreatedAt : Z }.

(** The zero time.Time, year 1. *)
Definition zero_time : Z := -62135596800 * Second.

Definition insert_args (m : ChatRoomMessage) : list Sql.sqlval :=
  [Sql.SInt (ID m); Sql.SInt (SendUID m); Sql.SText (RoomNum m); Sql.STime (SendTime m);
   Sql.SText (Content m); Sql.SInt (Type_ m); Sql.SText (IP m); Sql.SInt (Status m);
   Sql.SInt (CreatedAt m)].

Definition scanMessage : Sql.scan ChatRoomMessage :=
  id ← Sql.int64_col; uid ← Sql.int64_col; room ← Sql.str_col; t ← Sql.time_col;
  content ← Sql.str_col; ty ← Sql.int32_col; ip ← Sql.str_col; st ← Sql.int32_col;
  ca ← Sql.int64_col;
  mret (MkMessage id uid room t content ty ip st ca).

Section queries.
Context (sch : Schema).

Definition insert_sql : string :=
  "
                INSERT INTO " +:+ Tbl sch "chat_room_message" +:+ " (chat_room_message_id, send_uid, room_num, send_time, content, type, ip, status, created_at)
                VALUES (?,?,?,?,?,?,?,?,?)".

Definition Insert (msg : ChatRoomMessage) : prog (option error) :=
  st ← (if SendTime msg =? zero_time then now else mret (SendTime msg));
  ca ← (if CreatedAt msg =? 0 then t ← now; mret (t / Second) else mret (CreatedAt msg));
  let status := if Status msg =? 0 then 1 else Status msg in
  r ← sql_exec insert_sql
        (insert_args (MkMessage (ID msg) (SendUID msg) (RoomNum msg) st (Content msg) (Type_ msg)
                        (IP msg) status ca));
  mret (match r with Err e => Some e | Ok _ => None end).

Definition ListRecentByRoom (roomNum : string) (limit : Z) : prog (list ChatRoomMessage * option error) :=
  let limit := at_least 50 limit in
  a ← sql_query ("
                SELECT chat_room_message_id, send_uid, room_num, send_time, content, type, ip, status, created_at
                FROM " +:+ Tbl sch "chat_room_message" +:+ "
                WHERE room_num=? AND COALESCE(status,1)=1 AND type IN (1,2)
                ORDER BY send_time DESC LIMIT ?") [Sql.SText roomNum; Sql.SInt limit];
  mret (rows_of scanMessage a).

Definition MaxID : prog (res Z) :=
  a ← sql_query ("SELECT MAX(chat_room_message_id) FROM " +:+ Tbl sch "chat_room_message") [];
  match Sql.scan_one Sql.null_int_col a with
  | Err e => if decide (e = Sql.ErrNoRows) then mret (Ok 0) else mret (Err e)
  | Ok z => mret (Ok z)
  end.
End queries.
End ChatMsg.

(** ** anchor_model.go *)
Module Anchor.

Record Anchor : Type := MkAnchor {
  UID : Z; NickName : string; Icon : string; CutOutIcon : string; Intro : string; Fans : Z;
  Follow : Z; Hot : Z; RoomNum : string; Detail : string; Notice : string; Live : bool;
  CreatedAt : Z }.

Definition anchorCols : string := "uid, nick_name, icon, cut_out_icon, intro, fans, follow, hot, room_num, detail, notice, live, created_at".

Definition scanAnchor : Sql.scan Anchor :=
  uid ← Sql.int64_col; nick ← Sql.str_col; icon ← Sql.str_col; cut ← Sql.str_col;
  intro ← Sql.str_col; fans ← Sql.int64_col; follow ← Sql.int64_col; hot ← Sql.int64_col;
  room ← Sql.str_col; detail ← Sql.str_col; notice ← Sql.str_col; live ← Sql.int32_col;
  ca ← Sql.int64_col;
  mret (MkAnchor uid nick icon cut intro fans follow hot room detail notice (negb (live =? 0)) ca).

Section queries.
Context (sch : Schema).

Definition ListAll : prog (list Anchor * option error) :=
  a ← sql_query ("SELECT " +:+ anchorCols +:+ " FROM " +:+ Tbl sch "anchors" +:+ " ORDER BY hot DESC") [];
  mret (rows_of scanAnchor a).

Definition ListHot (limit : Z) : prog (list Anchor * option error) :=
  let limit := at_least 6 limit in
  a ← sql_query ("SELECT " +:+ anchorCols +:+ " FROM " +:+ Tbl sch "anchors" +:+ " ORDER BY hot DESC LIMIT ?") [Sql.SInt limit];
  mret (rows_of scanAnchor a).

Definition FindByUid (uid : Z) : prog (res Anchor) :=
  a ← sql_query ("SELECT " +:+ anchorCols +:+ " FROM " +:+ Tbl sch "anchors" +:+ " WHERE uid=?") [Sql.SInt uid];
  mret (not_found (Sql.scan_one scanAnchor a)).

Definition FindByRoomNum (roomNum : string) : prog (res Anchor) :=
  a ← sql_query ("SELECT " +:+ anchorCols +:+ " FROM " +:+ Tbl sch "anchors" +:+ " WHERE room_num=?") [Sql.SText roomNum];
  mret (not_found (Sql.scan_one scanAnchor a)).
End queries.

Definition DebugString (a : Anchor) : string :=
  "uid=" +:+ FormatInt (UID a) +:+ " nick=" +:+ NickName a +:+ " room=" +:+ RoomNum a +:+ " live=" +:+
  (if Live a then "true" else "false").
End Anchor.

(** ** live_type_model.go *)
Module LiveType.

Record LiveType : Type := MkLiveType {
  LiveTypeID : Z; ParentID : Z; TypeName : string; Icon : string; Status : Z; Sort : Z }.

Definition scanLiveType : Sql.scan LiveType :=
  id ← Sql.int64_col; parent ← Sql.int64_col; name ← Sql.str_col; icon ← Sql.str_col;
  st ← Sql.int32_col; sort ← Sql.int32_col;
  mret (MkLiveType id parent name icon st sort).

Section queries.
Context (sch : Schema).

Definition ListTopLevel : prog (list LiveType * option error) :=
  a ← sql_query ("SELECT live_type_id, parent_id, type_name, icon, status, sort
                 FROM " +:+ Tbl sch "live_type" +:+ " WHERE status=1 AND parent_id=0
                 ORDER BY sort DESC, live_type_id ASC") [];
  mret (rows_of scanLiveType a).

Definition FindByID (id : Z) : prog (res LiveType) :=
  a ← sql_query ("SELECT live_type_id, parent_id, type_name, icon, status, sort
                 FROM " +:+ Tbl sch "live_type" +:+ " WHERE live_type_id=?") [Sql.SInt id];
  mret (not_found (Sql.scan_one scanLiveType a)).

Definition FindByParent (parentID : Z) : prog (list LiveType * option error) :=
  a ← sql_query ("SELECT live_type_id, parent_id, type_name, icon, status, sort
                 FROM " +:+ Tbl sch "live_type" +:+ " WHERE parent_id=? AND status=1
                 ORDER BY sort DESC, live_type_id ASC") [Sql.SInt parentID];
  mret (rows_of scanLiveType a).
End queries.

Definition DebugString (lt : LiveType) : string :=
  "id=" +:+ FormatInt (LiveTypeID lt) +:+ " parent=" +:+ FormatInt (ParentID lt) +:+ " name=" +:+ TypeName lt.
End LiveType.

(** ** room_gift_rank_model.go *)
Module GiftRank.

Record RoomGiftRank : Type := MkRank {
  RoomNum : string; UID : Z; NickName : string; Icon : string; Score : Z; RankNo : Z }.

Definition scanRank : Sql.scan RoomGiftRank :=
  room ← Sql.str_col; uid ← Sql.int64_col; nick ← Sql.str_col; icon ← Sql.str_col;
  score ← Sql.int64_col; rank ← Sql.int32_col;
  mret (MkRank room uid nick icon score rank).

Definition ListTopByRoom (sch : Schema) (roomNum : string) (limit : Z)
    : prog (list RoomGiftRank * option error) :=
  let limit := at_least 10 limit in
  a ← sql_query ("SELECT r.room_num, r.uid,
                        COALESCE(u.nick_name, r.nick_name),
                        COALESCE(u.icon, r.icon),
                        r.score, r.rank_no
                 FROM " +:+ Tbl sch "room_gift_rank" +:+ " r
                 LEFT JOIN " +:+ Tbl sch "user" +:+ " u ON u.uid = r.uid
                 WHERE r.room_num=? ORDER BY r.rank_no ASC LIMIT ?") [Sql.SText roomNum; Sql.SInt limit];
  mret (rows_of scanRank a).
End GiftRank.
