(* ===== verification/Match.v ===== *)
(** * Matches and rooms (src/common/model/match_model.go, room_model.go)

    The catalog queries, the scan of a catalog row, and [MatchTimeToMS], which
    reads back the text a DATETIME column was scanned into.  [LocalZone] is
    the process's time.Local. *)

From S2P Require Import Prelude GoStr Json Hub Sql Time Env Models.

Module Match.

Record MatchSchedule : Type := MkSchedule {
  S_ScheduleID : Z; S_HostName : string; S_GuestName : string;
  S_HostScore : option Z; S_GuestScore : option Z; S_MatchTime : option Z;
  S_LiveType : option Z; S_LiveTypeParent : option Z;
  S_HostIcon : string; S_GuestIcon : string; S_SubCateName : string;
  S_MatchStatus : option Z; S_Status : Z; S_Hot : Z; S_GreenMatch : Z }.

Record MatchCatalogRow : Type := MkRow {
  ScheduleID : Z; MatchTime : string; HostName : string; GuestName : string;
  HostScore : Z; GuestScore : Z; MatchStatus : Z; HostIcon : string; GuestIcon : string;
  SubCateName : string; LiveType : Z; LiveTypeParent : Z; CategoryIcon : string; CategoryName : string;
  AnchorUID : Z; AnchorNickName : string; AnchorIcon : string;
  RoomNum : string; RoomDetail : string; RoomNotice : string }.

Definition scanCatalogRow : Sql.scan MatchCatalogRow :=
  id ← Sql.int64_col; t ← Sql.str_col; hn ← Sql.str_col; gn ← Sql.str_col;
  hs ← Sql.int64_col; gs ← Sql.int64_col; ms ← Sql.int64_col; hi ← Sql.str_col; gi ← Sql.str_col;
  sub ← Sql.str_col; lt ← Sql.int64_col; ltp ← Sql.int64_col; ci ← Sql.str_col; cn ← Sql.str_col;
  uid ← Sql.null_int_col; nick ← Sql.null_str_col; icon ← Sql.null_str_col;
  room ← Sql.null_str_col; detail ← Sql.null_str_col; notice ← Sql.null_str_col;
  mret (MkRow id t hn gn hs gs ms hi gi sub lt ltp ci cn uid nick icon room detail notice).

(** [n] question marks between commas. *)
Definition placeholders (n : nat) : string :=
  match n with
  | O => ""
  | S n => "?" +:+ (fix more (i : nat) : string := match i with O => "" | S i => ",?" +:+ more i end) n
  end.

Section queries.
Context (sch : Schema).

Definition ListCatalog (parents : list Z) (limit : Z) : prog (list MatchCatalogRow * option error) :=
  let limit := at_least 100 limit in
  if bool_decide (parents = []) then mret ([], None) else
  a ← sql_query ("SELECT ms.schedule_id, ms.match_time, ms.host_name, ms.guest_name,
                       COALESCE(ms.host_score, 0), COALESCE(ms.guest_score, 0),
                       COALESCE(ms.match_status, 0), ms.host_icon, ms.guest_icon,
                       ms.sub_type_name, COALESCE(ms.live_type, 0), COALESCE(ms.live_type_parent, 0),
                       COALESCE(lt.icon, ''), COALESCE(lt.type_name, ''),
                       u.uid, u.nick_name, u.icon,
                       r.room_num, r.detail, r.notice
                FROM " +:+ Tbl sch "match_schedule" +:+ " ms
                INNER JOIN " +:+ Tbl sch "match_schedule_room" +:+ " msr ON msr.schedule_id = ms.schedule_id AND msr.status = 1
                LEFT JOIN " +:+ Tbl sch "live_room" +:+ " r ON r.room_num = msr.room_num AND r.room_status = 1
                LEFT JOIN " +:+ Tbl sch "user" +:+ " u ON u.uid = r.uid
                LEFT JOIN " +:+ Tbl sch "live_type" +:+ " lt ON lt.live_type_id = ms.live_type_parent
                WHERE ms.status = 1 AND ms.live_type_parent IN (" +:+ placeholders (length parents) +:+ ")
                ORDER BY ms.match_time ASC LIMIT ?")
       (map Sql.SInt parents ++ [Sql.SInt limit]);
  mret (rows_of scanCatalogRow a).

(** YYYYMMDD becomes YYYY-MM-DD; anything else is taken as it is. *)
Definition normalized (dateStr : string) : string :=
  if (String.length dateStr =? 8)%nat
  then String.substring 0 4 dateStr +:+ "-" +:+ String.substring 4 2 dateStr +:+ "-" +:+
       String.substring 6 2 dateStr
  else dateStr.

Definition ListByDate (dateStr : string) (limit : Z) : prog (list MatchCatalogRow * option error) :=
  let limit := at_least 100 limit in
  let start := normalized dateStr +:+ " 00:00:00" in
  let end_ := normalized dateStr +:+ " 23:59:59" in
  a ← sql_query ("
                SELECT ms.schedule_id, ms.match_time, ms.host_name, ms.guest_name,
                       COALESCE(ms.host_score, 0), COALESCE(ms.guest_score, 0),
                       COALESCE(ms.match_status, 0), ms.host_icon, ms.guest_icon,
                       ms.sub_type_name, COALESCE(ms.live_type, 0), COALESCE(ms.live_type_parent, 0),
                       COALESCE(lt.icon, ''), COALESCE(lt.type_name, ''),
                       u.uid, u.nick_name, u.icon,
                       r.room_num, r.detail, r.notice
                FROM " +:+ Tbl sch "match_schedule" +:+ " ms
                INNER JOIN " +:+ Tbl sch "match_schedule_room" +:+ " msr ON msr.schedule_id = ms.schedule_id AND msr.status = 1
                LEFT JOIN " +:+ Tbl sch "live_room" +:+ " r ON r.room_num = msr.room_num AND r.room_status = 1
                LEFT JOIN " +:+ Tbl sch "user" +:+ " u ON u.uid = r.uid
                LEFT JOIN " +:+ Tbl sch "live_type" +:+ " lt ON lt.live_type_id = ms.live_type_parent
                WHERE ms.status = 1 AND ms.match_time >= ? AND ms.match_time <= ?
                ORDER BY ms.match_time ASC LIMIT ?")
       [Sql.SText start; Sql.SText end_; Sql.SInt limit];
  mret (rows_of scanCatalogRow a).

Definition ListRecommend (limit : Z) : prog (list MatchCatalogRow * option error) :=
  let limit := at_least 8 limit in
  a ← sql_query ("
                SELECT ms.schedule_id, ms.match_time, ms.host_name, ms.guest_name,
                       COALESCE(ms.host_score, 0), COALESCE(ms.guest_score, 0),
                       COALESCE(ms.match_status, 0), ms.host_icon, ms.guest_icon,
                       ms.sub_type_name, COALESCE(ms.live_type, 0), COALESCE(ms.live_type_parent, 0),
                       COALESCE(lt.icon, ''), COALESCE(lt.type_name, ''),
                       u.uid, u.nick_name, u.icon,
                       r.room_num, r.detail, r.notice
                FROM " +:+ Tbl sch "match_schedule" +:+ " ms
                INNER JOIN " +:+ Tbl sch "match_schedule_room" +:+ " msr ON msr.schedule_id = ms.schedule_id AND msr.status = 1
                LEFT JOIN " +:+ Tbl sch "live_room" +:+ " r ON r.room_num = msr.room_num AND r.room_status = 1
                LEFT JOIN " +:+ Tbl sch "user" +:+ " u ON u.uid = r.uid
                LEFT JOIN " +:+ Tbl sch "live_type" +:+ " lt ON lt.live_type_id = ms.live_type_parent
                WHERE ms.status = 1
                ORDER BY ms.hot DESC, ms.match_time ASC LIMIT ?") [Sql.SInt limit];
  mret (rows_of scanCatalogRow a).

Definition ListByRoom (roomNum : string) (limit : Z) : prog (list MatchCatalogRow * option error) :=
  let limit := at_least 50 limit in
  a ← sql_query ("
                SELECT ms.schedule_id, ms.match_time, ms.host_name, ms.guest_name,
                       COALESCE(ms.host_score, 0), COALESCE(ms.guest_score, 0),
                       COALESCE(ms.match_status, 0), ms.host_icon, ms.guest_icon,
                       ms.sub_type_name, COALESCE(ms.live_type, 0), COALESCE(ms.live_type_parent, 0),
                       COALESCE(lt.icon, ''), COALESCE(lt.type_name, ''),
                       u.uid, u.nick_name, u.icon,
                       r.room_num, r.detail, r.notice
                FROM " +:+ Tbl sch "match_schedule" +:+ " ms
                INNER JOIN " +:+ Tbl sch "match_schedule_room" +:+ " msr ON msr.schedule_id = ms.schedule_id AND msr.status = 1 AND msr.room_num = ?
                LEFT JOIN " +:+ Tbl sch "live_room" +:+ " r ON r.room_num = msr.room_num AND r.room_status = 1
                LEFT JOIN " +:+ Tbl sch "user" +:+ " u ON u.uid = r.uid
                LEFT JOIN " +:+ Tbl sch "live_type" +:+ " lt ON lt.live_type_id = ms.live_type_parent
                WHERE ms.status = 1
                ORDER BY ms.match_time ASC LIMIT ?") [Sql.SText roomNum; Sql.SInt limit];
  mret (rows_of scanCatalogRow a).

Definition ListRoomsBySchedule (scheduleID limit : Z) : prog (list LiveRoom.LiveRoom * option error) :=
  let limit := at_least 50 limit in
  a ← sql_query ("
                SELECT " +:+ LiveRoom.liveRoomCols +:+ ",
                       u.nick_name, u.icon,
                       u2.nick_name, u2.icon
                FROM " +:+ Tbl sch "match_schedule_room" +:+ " msr
                INNER JOIN " +:+ Tbl sch "live_room" +:+ " r ON r.room_num = msr.room_num AND r.room_status = 1
                LEFT JOIN " +:+ Tbl sch "user" +:+ " u  ON u.uid  = r.uid
                LEFT JOIN " +:+ Tbl sch "user" +:+ " u2 ON u2.uid = r.assistant_uid
                WHERE msr.schedule_id = ? AND msr.status = 1
                ORDER BY r.mark_type DESC, (r.visit_count + r.fictitious_visit_count) DESC, r.uid ASC
                LIMIT ?") [Sql.SInt scheduleID; Sql.SInt limit];
  mret (rows_of LiveRoom.scanLiveRoom a).
End queries.

(** ** match_time *)
Section zone.
Context (LocalZone : Z -> Z).

Definition match_layouts : list layout := [LDateTime " "; LDateTime "T"; LRFC3339; LDate].

(** The first layout that reads the text, in Unix milliseconds; 0 when none
    does. *)
Fixpoint first_layout (ls : list layout) (s : string) : Z :=
  match ls with
  | [] => 0
  | l :: ls =>
    match ParseInLocation l s LocalZone with Some t => t / 1000000 | None => first_layout ls s end
  end.

Definition MatchTimeToMS (s : string) : Z :=
  if String.eqb s "" then 0 else first_layout match_layouts s.

Definition FormatDateKey (t : Z) : string := format_20060102 LocalZone t.
End zone.

Definition DebugString (ms : MatchSchedule) : string :=
  "schedule=" +:+ FormatInt (S_ScheduleID ms) +:+ " " +:+ S_HostName ms +:+ " vs " +:+ S_GuestName ms +:+
  " parent=" +:+ FormatInt (default 0 (S_LiveTypeParent ms)).

(** A DATETIME column reaches the client as the instant it holds: what the
    driver's time value is scanned into (RFC3339Nano text) is read back by
    MatchTimeToMS as the same instant in milliseconds, whatever the process's
    time zone, for every instant whose year has four digits. *)
Theorem MatchTimeToMS_datetime (LocalZone : Z -> Z) (t : Z) (v : string)
    (Hyear : four_digit_year t) (Hscan : Sql.to_str (Sql.STime t) = Ok v) :
  MatchTimeToMS LocalZone v = t / 1000000.
Proof.
  change (Ok (Sql.rfc3339nano t) = Ok v) in Hscan. injection Hscan as <-. unfold MatchTimeToMS.
  assert (first_layout LocalZone match_layouts (Sql.rfc3339nano t) = t / 1000000) as ->.
  { destruct (parse_rfc3339nano t LocalZone Hyear) as (E1 & E2 & E3).
    unfold match_layouts, first_layout. by rewrite E2, E3, E1. }
  destruct (String.eqb_spec (Sql.rfc3339nano t) "") as [E|]; [|done].
  exfalso. revert E. apply rfc3339nano_nonempty.
Qed.

Lemma MatchTimeToMS_datetime_witness :
  MatchTimeToMS (fun _ => 28800) "2026-08-08T05:02:28.25Z" = 1786165348250.
Proof.
  apply (MatchTimeToMS_datetime (fun _ => 28800) 1786165348250000000); [|by vm_compute].
  split; vm_compute; [discriminate|reflexivity].
Defined.

End Match.

(** ** room_model.go *)
Module Room.

Record Room : Type := MkRoom {
  RoomNum : string; Title : string; Cover : string; Live : bool; ViewNum : Z; LiveType : string;
  AnchorUid : string; StreamUrls : list string; Notice : string; Tags : list string;
  CateName : string; CreatedAt : Z }.

(** json.Unmarshal into a []string; null elements stay empty. *)
Definition as_str_array (j : json) : option (list string) :=
  match j with
  | JArr l => mapM (fun x => match x with JStr s => Some s | JNull => Some "" | _ => None end) l
  | JNull => Some []
  | _ => None
  end.

Definition decodeStrArray (jsonStr : string) : list string :=
  if String.eqb jsonStr "" then [] else default [] (j ← json_parse jsonStr; as_str_array j).

Definition scanRoom : Sql.scan Room :=
  num ← Sql.str_col; title ← Sql.str_col; cover ← Sql.str_col; live ← Sql.int32_col;
  view ← Sql.int64_col; lt ← Sql.str_col; uid ← Sql.str_col; urls ← Sql.str_col;
  notice ← Sql.str_col; tags ← Sql.str_col; cate ← Sql.str_col; ca ← Sql.int64_col;
  mret (MkRoom num title cover (negb (live =? 0)) view lt uid (decodeStrArray urls) notice
          (decodeStrArray tags) cate ca).

Record RoomRank : Type := MkRank {
  Uid : string; NickName : string; Icon : string; Score : Z; RankNo : Z }.

Definition scanRank : Sql.scan RoomRank :=
  uid ← Sql.str_col; nick ← Sql.str_col; icon ← Sql.str_col; score ← Sql.int64_col; no ← Sql.int32_col;
  mret (MkRank uid nick icon score no).

Section queries.
Context (sch : Schema).

Definition FindByRoomNum (roomNum : string) : prog (res Room) :=
  a ← sql_query ("SELECT room_num, title, cover, live, view_num, live_type, anchor_uid, stream_urls, notice, tags, cate_name, created_at
                 FROM " +:+ Tbl sch "rooms" +:+ " WHERE room_num=?") [Sql.SText roomNum];
  mret (not_found (Sql.scan_one scanRoom a)).

Definition ListLive : prog (list Room * option error) :=
  a ← sql_query ("SELECT room_num, title, cover, live, view_num, live_type, anchor_uid, stream_urls, notice, tags, cate_name, created_at
                 FROM " +:+ Tbl sch "rooms" +:+ " WHERE live=1 ORDER BY view_num DESC") [];
  mret (rows_of scanRoom a).

Definition ListAll : prog (list Room * option error) :=
  a ← sql_query ("SELECT room_num, title, cover, live, view_num, live_type, anchor_uid, stream_urls, notice, tags, cate_name, created_at
                 FROM " +:+ Tbl sch "rooms" +:+ " ORDER BY view_num DESC") [];
  mret (rows_of scanRoom a).

Definition ListRank (roomNum : string) : prog (list RoomRank * option error) :=
  a ← sql_query ("SELECT uid, nick_name, icon, score, rank_no FROM " +:+ Tbl sch "room_ranks" +:+ " WHERE room_num=? ORDER BY rank_no ASC") [Sql.SText roomNum];
  mret (rows_of scanRank a).
End queries.

Example decodeStrArray_ex :
  decodeStrArray (json_text (JArr [JStr "a"; JNull])) = ["a"; ""] /\ decodeStrArray "[1]" = [] /\ decodeStrArray "null" = [].
Proof. by vm_compute. Qed.
End Room.
