(* ===== verification/Builders.v ===== *)
(** * The JSON builders (src/cmd/rpc/internal/svc/builders.go)

    The shapes the client expects, their JSON forms, and the functions that
    build them from catalog rows, rooms, ranks and users.  Two things the
    language leaves open are choices of the world ([pick]): the order in which
    a map is ranged over, and the order sort.Slice gives to equal elements. *)

From stdpp Require Import sorting.
From S2P Require Import Prelude GoStr Json Hub Sql Time Env Models Cache Match.

Module Build.
Import Cache.Multi(set_key).

(** ** Orders the language leaves open *)

(** Some permutation of a list: each element goes to a chosen place. *)
Fixpoint shuffle {A} (l : list A) : prog (list A) :=
  match l with
  | [] => mret []
  | x :: l =>
    l' ← shuffle l;
    i ← pick (length l');
    mret (take i l' ++ x :: drop i l')
  end.

(** [sort.Slice] by a key: sorted, equal keys in any order. *)
Definition by_key {A} (key : A -> Z) : relation A := fun a b => key a <= key b.
#[global] Instance by_key_dec {A} (key : A -> Z) a b : Decision (by_key key a b) :=
  Z_le_dec (key a) (key b).
Definition sort_slice {A} (key : A -> Z) (l : list A) : prog (list A) :=
  l' ← shuffle l; mret (merge_sort (by_key key) l').

(** ** Shapes *)

(** A nil slice is [None]. *)
Definition slice (A : Type) : Type := option (list A).

Record MatchAnchorProfile : Type := MkProfile { RoomNum : string; Detail : string; Notice : string }.
Record MatchAnchorItem : Type := MkAnchorItem {
  a_UID : Z; a_NickName : string; a_Icon : string; a_CutOutIcon : string; a_Anchor : MatchAnchorProfile }.
Record MatchCatalogItem : Type := MkItem {
  ScheduleID : Z; MatchTime : Z; HostName : string; GuestName : string; HostIcon : string;
  GuestIcon : string; SubCateName : string; CategoryID : Z; CategoryName : string;
  CategoryIcon : string; HostScore : Z; GuestScore : Z; MatchStatus : Z; Status : Z;
  MatchStatusDesc : string; Anchors : slice MatchAnchorItem }.
Record MatchItem : Type := MkMatch {
  m_ScheduleID : Z; m_MatchTime : Z; m_HostName : string; m_GuestName : string;
  m_HostIcon : string; m_GuestIcon : string; m_SubCateName : string; m_CategoryIcon : string }.
Record AnchorResult : Type := MkAnchorResult {
  r_UID : Z; r_NickName : string; r_Icon : string; r_CutOutIcon : string; r_RoomNum : string;
  r_Notice : string }.
Record RoomResult : Type := MkRoomResult {
  rr_RoomNum : string; rr_Title : string; rr_Cover : string; rr_CutOutCustomCoverURL : string;
  rr_MarkType : Z; rr_LiveStatus : Z; rr_HD : Z; rr_ViewCount : Z; rr_FocusCount : Z;
  rr_Anchor : AnchorResult }.
Record LiveTypeJSON : Type := MkLiveType {
  lt_LiveTypeID : Z; lt_TypeName : string; lt_ParentID : Z; lt_Icon : string }.
Record AssistantUserResult : Type := MkAssistant { as_UID : Z; as_NickName : string; as_Icon : string }.
Record RoomDetailResult : Type := MkDetail {
  d_RoomNum : string; d_Title : string; d_Contact : string; d_HD : Z; d_Cover : string;
  d_Notice : string; d_Detail : string; d_LiveFLV : string; d_LiveM3U8 : string; d_LiveStatus : Z;
  d_ViewCount : Z; d_FocusCount : Z; d_Anchor : AnchorResult; d_AssistantUser : option AssistantUserResult }.
Record PlayStreamURLs : Type := MkStream { FLV : string; HdFLV : string; M3U8 : string; HdM3U8 : string }.
Record GrowDTOResult : Type := MkGrowDTO { g_ID : Z; g_Name : string; g_NextMinGrom : Z }.
Record UserInfoResult : Type := MkUserInfo {
  u_UID : Z; u_NickName : string; u_Icon : string; u_CutOutIcon : string; u_UserType : Z;
  u_Score : Z; u_Grow : Z; u_GrowDTO : GrowDTOResult; u_Gender : Z; u_Birthday : Z;
  u_LoginName : string; u_Phone : string; u_CountryCode : string }.
Record GiftRankItem : Type := MkGiftRank { gr_User : UserInfoResult; gr_Contribution : Z }.
(** [URLs] is a map of unconstrained values; the program leaves it empty. *)
Record AuthResponse : Type := MkAuth {
  AccessToken : string; SessionID : string; RefreshToken : string; UserInfo : UserInfoResult;
  URLs : list (string * json); Phone : string; CountryCode : Z; LoginName : string }.

(** ** JSON forms *)
Definition slice_json {A} (f : A -> json) (l : slice A) : json :=
  match l with None => JNull | Some l => JArr (map f l) end.
Definition omit_str (k s : string) : list (string * json) := omitempty (String.eqb s "") k (JStr s).
Definition omit_int (k : string) (z : Z) : list (string * json) := omitempty (z =? 0) k (jint z).

Definition profile_json (p : MatchAnchorProfile) : json :=
  JObj [("roomNum", JStr (RoomNum p)); ("detail", JStr (Detail p)); ("notice", JStr (Notice p))].
Definition anchor_item_json (a : MatchAnchorItem) : json :=
  JObj ([("uid", jint (a_UID a)); ("nickName", JStr (a_NickName a)); ("icon", JStr (a_Icon a))] ++
        omit_str "cutOutIcon" (a_CutOutIcon a) ++ [("anchor", profile_json (a_Anchor a))]).
Definition item_json (i : MatchCatalogItem) : json :=
  JObj ([("scheduleId", jint (ScheduleID i)); ("matchTime", jint (MatchTime i));
         ("hostName", JStr (HostName i)); ("guestName", JStr (GuestName i));
         ("hostIcon", JStr (HostIcon i)); ("guestIcon", JStr (GuestIcon i));
         ("subCateName", JStr (SubCateName i)); ("categoryId", jint (CategoryID i))] ++
        omit_str "categoryName" (CategoryName i) ++
        [("categoryIcon", JStr (CategoryIcon i)); ("hostScore", jint (HostScore i));
         ("guestScore", jint (GuestScore i))] ++
        omit_int "matchStatus" (MatchStatus i) ++ omit_int "status" (Status i) ++
        [("matchStatusDesc", JStr (MatchStatusDesc i));
         ("anchors", slice_json anchor_item_json (Anchors i))]).
Definition match_json (m : MatchItem) : json :=
  JObj [("scheduleId", jint (m_ScheduleID m)); ("matchTime", jint (m_MatchTime m));
        ("hostName", JStr (m_HostName m)); ("guestName", JStr (m_GuestName m));
        ("hostIcon", JStr (m_HostIcon m)); ("guestIcon", JStr (m_GuestIcon m));
        ("subCateName", JStr (m_SubCateName m)); ("categoryIcon", JStr (m_CategoryIcon m))].
Definition anchor_result_json (a : AnchorResult) : json :=
  JObj ([("uid", jint (r_UID a)); ("nickName", JStr (r_NickName a)); ("icon", JStr (r_Icon a))] ++
        omit_str "cutOutIcon" (r_CutOutIcon a) ++
        [("roomNum", JStr (r_RoomNum a)); ("notice", JStr (r_Notice a))]).
Definition room_result_json (r : RoomResult) : json :=
  JObj ([("roomNum", JStr (rr_RoomNum r)); ("title", JStr (rr_Title r)); ("cover", JStr (rr_Cover r));
         ("cutOutCustomCoverUrl", JStr (rr_CutOutCustomCoverURL r)); ("markType", jint (rr_MarkType r))] ++
        omit_int "liveStatus" (rr_LiveStatus r) ++ omit_int "hd" (rr_HD r) ++
        [("viewCount", jint (rr_ViewCount r)); ("focusCount", jint (rr_FocusCount r));
         ("anchor", anchor_result_json (rr_Anchor r))]).
Definition live_type_json (l : LiveTypeJSON) : json :=
  JObj [("liveTypeId", jint (lt_LiveTypeID l)); ("typeName", JStr (lt_TypeName l));
        ("parentId", jint (lt_ParentID l)); ("icon", JStr (lt_Icon l))].
Definition assistant_json (a : AssistantUserResult) : json :=
  JObj [("uid", jint (as_UID a)); ("nickName", JStr (as_NickName a)); ("icon", JStr (as_Icon a))].
Definition detail_json (d : RoomDetailResult) : json :=
  JObj ([("roomNum", JStr (d_RoomNum d)); ("title", JStr (d_Title d)); ("contact", JStr (d_Contact d));
         ("hd", jint (d_HD d)); ("cover", JStr (d_Cover d)); ("notice", JStr (d_Notice d));
         ("detail", JStr (d_Detail d))] ++
        omit_str "liveFlv" (d_LiveFLV d) ++ omit_str "liveM3u8" (d_LiveM3U8 d) ++
        omit_int "liveStatus" (d_LiveStatus d) ++
        [("viewCount", jint (d_ViewCount d)); ("focusCount", jint (d_FocusCount d));
         ("anchor", anchor_result_json (d_Anchor d))] ++
        match d_AssistantUser d with Some a => [("assistantUser", assistant_json a)] | None => [] end).
Definition stream_json (s : PlayStreamURLs) : json :=
  JObj [("flv", JStr (FLV s)); ("hdFlv", JStr (HdFLV s)); ("m3u8", JStr (M3U8 s)); ("hdM3u8", JStr (HdM3U8 s))].
Definition grow_json (g : GrowDTOResult) : json :=
  JObj [("id", jint (g_ID g)); ("name", JStr (g_Name g)); ("nextMinGrom", jint (g_NextMinGrom g))].
Definition user_json (u : UserInfoResult) : json :=
  JObj [("uid", jint (u_UID u)); ("nickName", JStr (u_NickName u)); ("icon", JStr (u_Icon u));
        ("cutOutIcon", JStr (u_CutOutIcon u)); ("userType", jint (u_UserType u)); ("score", jint (u_Score u));
        ("grow", jint (u_Grow u)); ("growDto", grow_json (u_GrowDTO u)); ("gender", jint (u_Gender u));
        ("birthday", jint (u_Birthday u)); ("loginName", JStr (u_LoginName u)); ("phone", JStr (u_Phone u));
        ("countryCode", JStr (u_CountryCode u))].
Definition gift_json (g : GiftRankItem) : json :=
  JObj [("user", user_json (gr_User g)); ("contribution", jint (gr_Contribution g))].
Definition auth_json (a : AuthResponse) : json :=
  JObj ([("accessToken", JStr (AccessToken a)); ("sessionId", JStr (SessionID a))] ++
        omit_str "refreshToken" (RefreshToken a) ++ [("userInfo", user_json (UserInfo a))] ++
        omitempty (bool_decide (URLs a = [])) "urls" (JObj (URLs a)) ++
        omit_str "phone" (Phone a) ++ omit_int "countryCode" (CountryCode a) ++
        omit_str "loginName" (LoginName a)).

(** A map, its keys sorted. *)
Definition map_json {A} (f : A -> json) (m : gmap string A) : json :=
  JObj (foldl (fun acc e => set_key e.1 (f e.2) acc) [] (map_to_list m)).

(** [jsonBytes]: none of these values can fail to marshal. *)
Definition jsonBytes (j : json) : string := json_text j.

(** ** Decoding

    json.Unmarshal into these shapes, [None] when it returns an error (the
    program then drops the value).  Each member goes to the field its key
    names, as in [Json.find_field]; a null leaves the field alone.  A struct or
    slice member that occurs twice is decoded afresh, not merged. *)
Section decoding.
Context (names : list string) (ms : list (string * json)).

Definition named (f : string) (k : string) : bool :=
  let fs := map (fun n => @Field unit n (fun _ _ => None)) names in
  match find_field fs k with Some g => String.eqb (fname g) f | None => false end.

Definition member {A} (f : string) (conv : json -> option A) (zero : A) : option A :=
  foldl (fun acc m =>
    a ← acc;
    if named f m.1 then match m.2 with JNull => Some a | j => conv j end else Some a) (Some zero) ms.

Definition str_member (f : string) : option string := member f as_string "".
Definition int_member (f : string) : option Z := member f as_int 0.
End decoding.

Definition as_members (j : json) : option (list (string * json)) :=
  match j with JObj ms => Some ms | JNull => Some [] | _ => None end.
Definition as_slice {A} (conv : json -> option A) (j : json) : option (slice A) :=
  match j with JNull => Some None | JArr l => l ← mapM conv l; Some (Some l) | _ => None end.
Definition as_map {A} (conv : json -> option A) (j : json) : option (option (gmap string A)) :=
  match j with
  | JNull => Some None
  | JObj ms => l ← mapM (fun m => a ← conv m.2; Some (m.1, a)) ms;
               Some (Some (foldl (fun acc e => <[e.1 := e.2]> acc) ∅ l))
  | _ => None
  end.

Definition as_profile (j : json) : option MatchAnchorProfile :=
  ms ← as_members j; let s := str_member ["roomNum"; "detail"; "notice"] ms in
  a ← s "roomNum"; b ← s "detail"; c ← s "notice"; Some (MkProfile a b c).
Definition as_anchor_item (j : json) : option MatchAnchorItem :=
  ms ← as_members j; let names := ["uid"; "nickName"; "icon"; "cutOutIcon"; "anchor"] in
  let s := str_member names ms in
  uid ← int_member names ms "uid"; nick ← s "nickName"; icon ← s "icon"; cut ← s "cutOutIcon";
  p ← member names ms "anchor" as_profile (MkProfile "" "" "");
  Some (MkAnchorItem uid nick icon cut p).
Definition item_names : list string :=
  ["scheduleId"; "matchTime"; "hostName"; "guestName"; "hostIcon"; "guestIcon"; "subCateName";
   "categoryId"; "categoryName"; "categoryIcon"; "hostScore"; "guestScore"; "matchStatus"; "status";
   "matchStatusDesc"; "anchors"].
Definition as_item (j : json) : option MatchCatalogItem :=
  ms ← as_members j; let s := str_member item_names ms in let i := int_member item_names ms in
  id ← i "scheduleId"; t ← i "matchTime"; hn ← s "hostName"; gn ← s "guestName"; hi ← s "hostIcon";
  gi ← s "guestIcon"; sub ← s "subCateName"; cid ← i "categoryId"; cn ← s "categoryName";
  ci ← s "categoryIcon"; hs ← i "hostScore"; gs ← i "guestScore"; mst ← i "matchStatus";
  st ← i "status"; desc ← s "matchStatusDesc";
  anchors ← member item_names ms "anchors" (as_slice as_anchor_item) None;
  Some (MkItem id t hn gn hi gi sub cid cn ci hs gs mst st desc anchors).
Definition as_match (j : json) : option MatchItem :=
  ms ← as_members j;
  let names := ["scheduleId"; "matchTime"; "hostName"; "guestName"; "hostIcon"; "guestIcon"; "subCateName";
                "categoryIcon"] in
  let s := str_member names ms in let i := int_member names ms in
  id ← i "scheduleId"; t ← i "matchTime"; hn ← s "hostName"; gn ← s "guestName"; hi ← s "hostIcon";
  gi ← s "guestIcon"; sub ← s "subCateName"; ci ← s "categoryIcon";
  Some (MkMatch id t hn gn hi gi sub ci).
Definition as_live_type (j : json) : option LiveTypeJSON :=
  ms ← as_members j; let names := ["liveTypeId"; "typeName"; "parentId"; "icon"] in
  let s := str_member names ms in let i := int_member names ms in
  id ← i "liveTypeId"; n ← s "typeName"; p ← i "parentId"; ic ← s "icon"; Some (MkLiveType id n p ic).
Definition as_grow (j : json) : option GrowDTOResult :=
  ms ← as_members j; let names := ["id"; "name"; "nextMinGrom"] in
  id ← int_member names ms "id"; n ← str_member names ms "name"; x ← int_member names ms "nextMinGrom";
  Some (MkGrowDTO id n x).
Definition user_names : list string :=
  ["uid"; "nickName"; "icon"; "cutOutIcon"; "userType"; "score"; "grow"; "growDto"; "gender"; "birthday";
   "loginName"; "phone"; "countryCode"].
Definition as_user (j : json) : option UserInfoResult :=
  ms ← as_members j; let s := str_member user_names ms in let i := int_member user_names ms in
  uid ← i "uid"; nick ← s "nickName"; icon ← s "icon"; cut ← s "cutOutIcon"; ut ← i "userType";
  score ← i "score"; grow ← i "grow"; dto ← member user_names ms "growDto" as_grow (MkGrowDTO 0 "" 0);
  gender ← i "gender"; bd ← i "birthday"; ln ← s "loginName"; ph ← s "phone"; cc ← s "countryCode";
  Some (MkUserInfo uid nick icon cut ut score grow dto gender bd ln ph cc).
Definition as_gift (j : json) : option GiftRankItem :=
  ms ← as_members j; let names := ["user"; "contribution"] in
  u ← member names ms "user" as_user (MkUserInfo 0 "" "" "" 0 0 0 (MkGrowDTO 0 "" 0) 0 0 "" "" "");
  c ← int_member names ms "contribution"; Some (MkGiftRank u c).

(** [json.Unmarshal(text, &t)] for such a shape. *)
Definition unmarshal_as {T} (conv : json -> option T) (zero : T) (text : string) : T * bool :=
  match j ← json_parse text; conv j with Some t => (t, true) | None => (zero, false) end.

Example as_item_ex :
  let i := MkItem 7 1786165348000 "a" "b" "" "" "s" 1 "" "" 0 2 0 1 ""
             (Some [MkAnchorItem 1001 "n" "i" "i" (MkProfile "r" "d" "x")]) in
  unmarshal_as (as_slice as_item) None (jsonBytes (slice_json item_json (Some [i; i]))) = (Some [i; i], true).
Proof. by vm_compute. Qed.

(** ** Builders *)

Definition anchor_of (r : Match.MatchCatalogRow) : MatchAnchorItem :=
  MkAnchorItem (Match.AnchorUID r) (Match.AnchorNickName r) (Match.AnchorIcon r) (Match.AnchorIcon r)
    (MkProfile (Match.RoomNum r) (Match.RoomDetail r) (Match.RoomNotice r)).

Definition add_anchor (a : MatchAnchorItem) (i : MatchCatalogItem) : MatchCatalogItem :=
  MkItem (ScheduleID i) (MatchTime i) (HostName i) (GuestName i) (HostIcon i) (GuestIcon i)
    (SubCateName i) (CategoryID i) (CategoryName i) (CategoryIcon i) (HostScore i) (GuestScore i)
    (MatchStatus i) (Status i) (MatchStatusDesc i) (Some (default [] (Anchors i) ++ [a])).

Section build.
Context (LocalZone : Z -> Z) (sch : Schema).

(** The item a schedule's first row makes. *)
Definition new_item (r : Match.MatchCatalogRow) : MatchCatalogItem :=
  MkItem (Match.ScheduleID r) (Match.MatchTimeToMS LocalZone (Match.MatchTime r)) (Match.HostName r)
    (Match.GuestName r) (Match.HostIcon r) (Match.GuestIcon r) (Match.SubCateName r)
    (Match.LiveTypeParent r) (Match.CategoryName r) (Match.CategoryIcon r) (Match.HostScore r)
    (Match.GuestScore r) (Match.MatchStatus r) 1 "" (Some []).

(** [byID] holds pointers: an anchor is appended to the item in place. *)
Definition group_row (acc : gmap Z MatchCatalogItem * list Z) (r : Match.MatchCatalogRow)
    : gmap Z MatchCatalogItem * list Z :=
  let '(byID, order) := acc in
  let id := Match.ScheduleID r in
  let '(it, order) := match byID !! id with
    | Some it => (it, order)
    | None => (new_item r, order ++ [id])
    end in
  let it := if 0 <? Match.AnchorUID r then add_anchor (anchor_of r) it else it in
  (<[id := it]> byID, order).

Definition grouped (rows : list Match.MatchCatalogRow) : list MatchCatalogItem :=
  let '(byID, order) := foldl group_row (∅, []) rows in
  omap (fun id => byID !! id) order.

Definition GroupCatalogRows (rows : list Match.MatchCatalogRow) : prog (list MatchCatalogItem) :=
  sort_slice MatchTime (grouped rows).

Definition BuildRecommend : prog (list MatchCatalogItem) :=
  r ← Match.ListRecommend sch 8;
  match r with (_, Some _) => mret [] | (rows, None) => GroupCatalogRows rows end.

Definition BuildMatchByDate (date : string) : prog (list MatchCatalogItem) :=
  r ← Match.ListByDate sch date 100;
  match r with (_, Some _) => mret [] | (rows, None) => GroupCatalogRows rows end.

(** One parent's group of the catalog. *)
Definition catalog_group (parent : Z) : prog (list MatchCatalogItem) :=
  r ← Match.ListCatalog sch [parent] 30;
  match r with (_, Some _) => mret [] | (rows, None) => GroupCatalogRows rows end.

Fixpoint catalog_groups (parents : list Z) (out : gmap string (list MatchCatalogItem))
    : prog (gmap string (list MatchCatalogItem)) :=
  match parents with
  | [] => mret out
  | p :: ps => items ← catalog_group p; catalog_groups ps (<[FormatInt p := items]> out)
  end.

(** The first item seen of each schedule. *)
Definition first_of (all : gmap Z MatchCatalogItem) (it : MatchCatalogItem) : gmap Z MatchCatalogItem :=
  match all !! ScheduleID it with Some _ => all | None => <[ScheduleID it := it]> all end.

Definition merge_groups (out : gmap string (list MatchCatalogItem)) : prog (list MatchCatalogItem) :=
  groups ← shuffle (map_to_list out);
  let all := foldl first_of ∅ (concat (map snd groups)) in
  ranged ← shuffle (map_to_list all);
  sorted ← sort_slice MatchTime (map snd ranged);
  mret (take 30 sorted).

Definition BuildMatchCatalog : prog (gmap string (list MatchCatalogItem)) :=
  out ← catalog_groups [1; 2; 5] ∅;
  allList ← merge_groups out;
  hot ← BuildRecommend;
  mret (<["hot" := hot]> (<["0" := allList]> out)).

Definition RoomsToResults (rooms : list LiveRoom.LiveRoom) : list RoomResult :=
  map (fun r =>
    MkRoomResult (LiveRoom.RoomNum r) (LiveRoom.Title r) (LiveRoom.Cover r) "" (LiveRoom.MarkType r)
      (LiveRoom.LiveStatus r) (LiveRoom.HD r)
      (int64 (LiveRoom.VisitCount r + LiveRoom.FictitiousVisitCount r))
      (int64 (LiveRoom.FocusCount r + LiveRoom.FictitiousFocusCount r))
      (MkAnchorResult (LiveRoom.UID r) (LiveRoom.AnchorNickName r) (LiveRoom.AnchorIcon r)
         (LiveRoom.AnchorIcon r) (LiveRoom.RoomNum r) (LiveRoom.Notice r))) rooms.

Definition rooms_json (rooms : list LiveRoom.LiveRoom) : json :=
  JArr (map room_result_json (RoomsToResults rooms)).
(** A failed query gives an empty list. *)
Definition rooms_or_empty (r : list LiveRoom.LiveRoom * option error) : json :=
  match r with (rooms, None) => rooms_json rooms | (_, Some _) => JArr [] end.

(** A [map[string]any]: its members sorted by key. *)
Definition anymap : Type := list (string * json).

Fixpoint rooms_by_type (lts : list LiveType.LiveType) (out : anymap) : prog anymap :=
  match lts with
  | [] => mret out
  | lt :: lts =>
    r ← LiveRoom.ListByType sch (LiveType.LiveTypeID lt) 50;
    rooms_by_type lts (set_key (FormatInt (LiveType.LiveTypeID lt)) (rooms_json r.1) out)
  end.

Definition BuildAllLiveRooms : prog anymap :=
  hot ← LiveRoom.ListHot sch 50;
  let out := [("hot", rooms_or_empty hot)] in
  lts ← LiveType.ListTopLevel sch;
  out ← (match lts with (lts, None) => rooms_by_type lts out | (_, Some _) => mret out end);
  all ← LiveRoom.ListAllVisible sch 200;
  mret (set_key "0" (rooms_or_empty all) out).

Definition BuildLiveTypesJSON (lts : list LiveType.LiveType) : list LiveTypeJSON :=
  map (fun lt => MkLiveType (LiveType.LiveTypeID lt) (LiveType.TypeName lt) (LiveType.ParentID lt)
                   (LiveType.Icon lt)) lts.

Definition room_detail (r : LiveRoom.LiveRoom) : RoomDetailResult :=
  MkDetail (LiveRoom.RoomNum r) (LiveRoom.Title r) (LiveRoom.Contact r) (LiveRoom.HD r)
    (LiveRoom.Cover r) (LiveRoom.Notice r) (LiveRoom.Detail r) (LiveRoom.LiveFLV r)
    (LiveRoom.LiveM3U8 r) (LiveRoom.LiveStatus r)
    (int64 (LiveRoom.VisitCount r + LiveRoom.FictitiousVisitCount r))
    (int64 (LiveRoom.FocusCount r + LiveRoom.FictitiousFocusCount r))
    (MkAnchorResult (LiveRoom.UID r) (LiveRoom.AnchorNickName r) (LiveRoom.AnchorIcon r)
       (LiveRoom.AnchorIcon r) (LiveRoom.RoomNum r) (LiveRoom.Notice r))
    (if 0 <? LiveRoom.AssistantUID r
     then Some (MkAssistant (LiveRoom.AssistantUID r) (LiveRoom.AssistantNickName r) (LiveRoom.AssistantIcon r))
     else None).

(** [None] is the nil map. *)
Definition BuildRoomDetail (roomNum : string) : prog (option anymap) :=
  r ← LiveRoom.FindByRoomNum sch roomNum;
  match r with
  | Err _ => mret None
  | Ok r =>
    mret (Some [("room", detail_json (room_detail r));
                ("stream", stream_json (MkStream (LiveRoom.LiveFLV r) (LiveRoom.LiveFLV r)
                                          (LiveRoom.LiveM3U8 r) (LiveRoom.LiveM3U8 r)))])
  end.

Definition match_of (r : Match.MatchCatalogRow) : MatchItem :=
  MkMatch (Match.ScheduleID r) (Match.MatchTimeToMS LocalZone (Match.MatchTime r)) (Match.HostName r)
    (Match.GuestName r) (Match.HostIcon r) (Match.GuestIcon r) (Match.SubCateName r)
    (Match.CategoryIcon r).

Fixpoint schedule_items (seen : gset Z) (rows : list Match.MatchCatalogRow) : list MatchItem :=
  match rows with
  | [] => []
  | r :: rows =>
    if decide (Match.ScheduleID r ∈ seen) then schedule_items seen rows
    else match_of r :: schedule_items ({[Match.ScheduleID r]} ∪ seen) rows
  end.

Definition BuildRoomSchedule (roomNum : string) : prog (gmap string (slice MatchItem)) :=
  r ← Match.ListByRoom sch roomNum 50;
  match r with
  | (_, Some _) => mret {["matches" := Some []]}
  | (rows, None) => mret {["matches" := Some (schedule_items ∅ rows)]}
  end.

Definition no_grow : GrowDTOResult := MkGrowDTO 0 "" 0.
Definition gift_item (r : GiftRank.RoomGiftRank) : GiftRankItem :=
  MkGiftRank (MkUserInfo (GiftRank.UID r) (GiftRank.NickName r) (GiftRank.Icon r) "" 0 0 0 no_grow 0 0 "" "" "")
    (GiftRank.Score r).

Definition BuildGiftRank (roomNum : string) : prog (list GiftRankItem) :=
  r ← GiftRank.ListTopByRoom sch roomNum 10;
  match r with (_, Some _) => mret [] | (ranks, None) => mret (map gift_item ranks) end.

(** A plus sign in front of the country code, unless there is one. *)
Definition plus_cc (cc : string) : string :=
  match cc with
  | EmptyString => EmptyString
  | String c _ => if Ascii.eqb c "+" then cc else "+" +:+ cc
  end.

Definition BuildUserInfo (u : User.User) : prog UserInfoResult :=
  grow ← User.FindUserGrowForValue sch (User.Grow u);
  let birthdayMS := match User.Birthday u with Some t => t / 1000000 | None => 0 end in
  let growDTO := match grow with
    | Ok g => MkGrowDTO (User.ID g) (User.Name g) (User.NextMinGrow g)
    | Err _ => no_grow
    end in
  mret (MkUserInfo (User.UID u) (User.NickName u) (User.Icon u) "" (User.UserType u) (User.Score u)
    (User.Grow u) growDTO (User.Gender u) birthdayMS (User.LoginName u) (User.Phone u)
    (plus_cc (User.CountryCode u))).
End build.

(** [todayKey] at the clock's time. *)
Definition todayKey (LocalZone : Z -> Z) : prog string := t ← now; mret (format_20060102 LocalZone t).

(** ** Permutations and sorting *)
Section order.
Context `{World W}.

Lemma run_shuffle {A} (l : list A) w : exists l' w', run (shuffle l) w = (l', w') /\ l' ≡ₚ l.
Proof.
  revert w. induction l as [|x l IH]; intros w; cbn [shuffle]; [by exists [], w|].
  destruct (IH w) as (l' & w1 & E & Hp). rewrite run_bind, E. cbn [fst snd].
  change (exists l0 w', (let '(i, w') := handle (Pick (length l')) w1 in
    run (mret (take i l' ++ x :: drop i l')) w') = (l0, w') /\ l0 ≡ₚ x :: l).
  destruct (handle (Pick (length l')) w1) as [i w2]. rewrite run_ret. do 2 eexists. split; [done|].
  rewrite <- Permutation_middle, take_drop. by apply Permutation_skip.
Qed.

#[global] Instance by_key_total {A} (key : A -> Z) : Total (by_key key).
Proof. intros a b. unfold by_key. lia. Qed.
#[global] Instance by_key_trans {A} (key : A -> Z) : Transitive (by_key key).
Proof. intros a b c. unfold by_key. lia. Qed.

Lemma run_sort_slice {A} (key : A -> Z) (l : list A) w : exists l' w',
  run (sort_slice key l) w = (l', w') /\ l' ≡ₚ l /\ StronglySorted (by_key key) l'.
Proof.
  unfold sort_slice. rewrite run_bind. destruct (run_shuffle l w) as (l' & w' & -> & Hp).
  cbn [fst snd]. rewrite run_ret. do 2 eexists. split; [done|]. split.
  - by rewrite merge_sort_Permutation.
  - apply StronglySorted_merge_sort; apply _.
Qed.
End order.

(** ** Grouping *)
Section grouping.
Context (LocalZone : Z -> Z).

(** The reference: all rows of a schedule at once. *)
Definition rows_for (id : Z) (rows : list Match.MatchCatalogRow) : list Match.MatchCatalogRow :=
  filter (fun r => Match.ScheduleID r = id) rows.
Definition with_anchors (l : list MatchAnchorItem) (i : MatchCatalogItem) : MatchCatalogItem :=
  MkItem (ScheduleID i) (MatchTime i) (HostName i) (GuestName i) (HostIcon i) (GuestIcon i)
    (SubCateName i) (CategoryID i) (CategoryName i) (CategoryIcon i) (HostScore i) (GuestScore i)
    (MatchStatus i) (Status i) (MatchStatusDesc i) (Some l).
Definition anchors_in (rows : list Match.MatchCatalogRow) : list MatchAnchorItem :=
  map anchor_of (filter (fun r => 0 < Match.AnchorUID r) rows).
Definition item_for (rows : list Match.MatchCatalogRow) (id : Z) : option MatchCatalogItem :=
  match rows_for id rows with
  | [] => None
  | r :: rs => Some (with_anchors (anchors_in (r :: rs)) (new_item LocalZone r))
  end.

Lemma item_for_snoc rows r id :
  item_for (rows ++ [r]) id =
  if decide (Match.ScheduleID r = id) then
    let it := default (new_item LocalZone r) (item_for rows id) in
    Some (if 0 <? Match.AnchorUID r then add_anchor (anchor_of r) it else it)
  else item_for rows id.
Proof.
  unfold item_for, rows_for. rewrite filter_app. cbn [filter list_filter].
  destruct (decide (Match.ScheduleID r = id)) as [E|E]; [|by rewrite app_nil_r].
  destruct (filter _ rows) as [|r0 rs]; cbn [app default from_option]; unfold anchors_in.
  - cbn [filter list_filter]. destruct (decide (0 < Match.AnchorUID r)) as [Hu|Hu].
    + by replace (0 <? Match.AnchorUID r) with true by lia.
    + by replace (0 <? Match.AnchorUID r) with false by lia.
  - rewrite app_comm_cons, filter_app, map_app. cbn [filter list_filter].
    destruct (decide (0 < Match.AnchorUID r)) as [Hu|Hu].
    + by replace (0 <? Match.AnchorUID r) with true by lia.
    + replace (0 <? Match.AnchorUID r) with false by lia. by rewrite app_nil_r.
Qed.

Lemma item_for_none rows id : item_for rows id = None <-> id ∉ map Match.ScheduleID rows.
Proof.
  unfold item_for. destruct (rows_for id rows) as [|r rs] eqn:E; unfold rows_for in E; split; try done.
  - intros _ Hin. apply list_elem_of_fmap in Hin as (r & -> & Hr).
    assert (r ∈ filter (fun x => Match.ScheduleID x = Match.ScheduleID r) rows) as Hf
      by (by apply list_elem_of_filter).
    rewrite E in Hf. by apply not_elem_of_nil in Hf.
  - intros Hin. exfalso. apply Hin. assert (r ∈ filter (fun x => Match.ScheduleID x = id) rows) as Hf
      by (rewrite E; left). apply list_elem_of_filter in Hf as [<- Hr]. by apply list_elem_of_fmap_2.
Qed.

Lemma group_rows_spec rows :
  let '(byID, order) := foldl (group_row LocalZone) (∅, []) rows in
  NoDup order /\ (forall id, id ∈ order <-> id ∈ map Match.ScheduleID rows) /\
  forall id, byID !! id = item_for rows id.
Proof.
  induction rows as [|r rows IH] using rev_ind; [by split_and!; [constructor|..]|].
  rewrite foldl_app. destruct (foldl _ _ rows) as [byID order]. destruct IH as (Hn & Ho & Hb).
  cbn [foldl]. unfold group_row. rewrite Hb, map_app. cbn [map].
  assert (forall id it, id <> Match.ScheduleID r -> (<[Match.ScheduleID r := it]> byID) !! id = item_for (rows ++ [r]) id)
    as Hother by (intros; rewrite lookup_insert_ne, item_for_snoc, decide_False by done; done).
  destruct (item_for rows (Match.ScheduleID r)) as [it|] eqn:E.
  - assert (Match.ScheduleID r ∈ map Match.ScheduleID rows) as Hin.
    { destruct (decide (Match.ScheduleID r ∈ map Match.ScheduleID rows)) as [|Hi]; [done|].
      apply item_for_none in Hi. congruence. }
    split_and!; [done|set_solver|]. intros id. destruct (decide (id = Match.ScheduleID r)) as [->|]; [|by apply Hother].
    by rewrite lookup_insert_eq, item_for_snoc, decide_True, E.
  - apply item_for_none in E as Hnot. split_and!.
    + apply NoDup_app. split_and!; [done|set_solver|apply NoDup_singleton].
    + set_solver.
    + intros id. destruct (decide (id = Match.ScheduleID r)) as [->|]; [|by apply Hother].
      by rewrite lookup_insert_eq, item_for_snoc, decide_True, E.
Qed.

Lemma grouped_spec rows :
  grouped LocalZone rows ≡ₚ omap (item_for rows) (remove_dups (map Match.ScheduleID rows)).
Proof.
  unfold grouped. pose proof (group_rows_spec rows) as Hs.
  destruct (foldl _ _ rows) as [byID order]. destruct Hs as (Hn & Ho & Hb).
  rewrite (list_omap_ext (fun id => byID !! id) (item_for rows) order order).
  2:{ apply Forall2_same_length_lookup_2; [done|]. intros i x y -> [= ->]. by rewrite Hb. }
  apply omap_Permutation, NoDup_Permutation; [done|apply NoDup_remove_dups|].
  intros id. by rewrite elem_of_remove_dups.
Qed.

(** C39. Grouping is what it should be: for any catalog rows, GroupCatalogRows
    returns, in an order sorted by match time, exactly one item per schedule
    id that occurs, made of that schedule's first row and, in row order, the
    anchors of all its rows that have one. *)
Theorem GroupCatalogRows_reference `{World W} (rows : list Match.MatchCatalogRow) (w : W) :
  let out := (run (GroupCatalogRows LocalZone rows) w).1 in
  StronglySorted (by_key MatchTime) out /\
  out ≡ₚ omap (item_for rows) (remove_dups (map Match.ScheduleID rows)).
Proof.
  cbv zeta. unfold GroupCatalogRows. destruct (run_sort_slice MatchTime (grouped LocalZone rows) w)
    as (l & w' & -> & Hp & Hs). split; [done|]. cbn [fst]. by rewrite Hp, grouped_spec.
Qed.
End grouping.

(** ** The catalog *)
Section catalog.
Context `{World W} (LocalZone : Z -> Z) (sch : Schema).

Lemma first_of_spec l :
  let all := foldl first_of ∅ l in
  (forall id it, all !! id = Some it -> it ∈ l /\ ScheduleID it = id) /\
  (forall it, it ∈ l -> is_Some (all !! ScheduleID it)).
Proof.
  induction l as [|x l IH] using rev_ind; cbv zeta in *.
  { split; [by intros id it Hl; exfalso; revert Hl; apply lookup_empty_Some|set_solver]. }
  rewrite foldl_app. cbn [foldl]. set (all := foldl first_of ∅ l) in *. destruct IH as [Ha Hi].
  unfold first_of. destruct (all !! ScheduleID x) as [y|] eqn:E.
  - split; [intros id it Hl; apply Ha in Hl; set_solver|].
    intros it Hin. apply elem_of_app in Hin as [Hin| ->%list_elem_of_singleton]; [by apply Hi|by rewrite E].
  - split.
    + intros id it. destruct (decide (id = ScheduleID x)) as [->|].
      * rewrite lookup_insert_eq. intros [= <-]. set_solver.
      * rewrite lookup_insert_ne by done. intros Hl. apply Ha in Hl. set_solver.
    + intros it Hin. destruct (decide (ScheduleID it = ScheduleID x)) as [->|];
        [rewrite lookup_insert_eq; by eexists|]. rewrite lookup_insert_ne by done.
      apply elem_of_app in Hin as [Hin| ->%list_elem_of_singleton]; [by apply Hi|done].
Qed.

Lemma elem_of_concat {A} (x : A) ls : x ∈ concat ls <-> exists l, x ∈ l /\ l ∈ ls.
Proof.
  induction ls as [|l ls IH]; cbn [concat]; [split; [by intros ?%not_elem_of_nil|set_solver]|].
  rewrite elem_of_app, IH. set_solver.
Qed.

(** What is kept of a sorted list cut to length [n]. *)
Lemma take_sorted {A} (key : A -> Z) n l x : StronglySorted (by_key key) l -> x ∈ l ->
  x ∈ take n l \/ (length (take n l) = n /\ forall y, y ∈ take n l -> key y <= key x).
Proof.
  intros Hs Hx. rewrite <- (take_drop n l) in Hx. apply elem_of_app in Hx as [Hx|Hx]; [by left|right].
  split; [rewrite length_take; destruct (decide (n <= length l)%nat); [lia|];
    rewrite drop_ge in Hx by lia; by apply not_elem_of_nil in Hx|].
  intros y Hy. rewrite <- (take_drop n l) in Hs. clear -Hs Hx Hy.
  revert Hy Hs. induction (take n l) as [|z l' IH]; [by intros ?%not_elem_of_nil|].
  intros Hy Hs. apply StronglySorted_inv in Hs as [Hs Hz].
  apply elem_of_cons in Hy as [->|Hy]; [|by apply IH].
  rewrite Forall_forall in Hz. apply (Hz x). set_solver.
Qed.

Lemma take_StronglySorted {A} (R : relation A) n l : StronglySorted R l -> StronglySorted R (take n l).
Proof.
  revert n. induction l as [|x l IH]; intros [|n] Hs; cbn [take]; try constructor.
  - apply IH. by apply StronglySorted_inv in Hs as [? _].
  - apply StronglySorted_inv in Hs as [_ Hx]. by apply Forall_take.
Qed.

Lemma run_merge_groups out w : exists l w', run (merge_groups out) w = (l, w') /\
  (length l <= 30)%nat /\ StronglySorted (by_key MatchTime) l /\ NoDup (map ScheduleID l) /\
  (forall it, it ∈ l -> exists k g, out !! k = Some g /\ it ∈ g) /\
  forall k g it, out !! k = Some g -> it ∈ g ->
    exists k' g' it', out !! k' = Some g' /\ it' ∈ g' /\ ScheduleID it' = ScheduleID it /\
      (it' ∈ l \/ (length l = 30%nat /\ forall x, x ∈ l -> MatchTime x <= MatchTime it')).
Proof.
  unfold merge_groups. rewrite run_bind.
  destruct (run_shuffle (map_to_list out) w) as (groups & w1 & -> & Hg). cbn [fst snd].
  assert (forall it, it ∈ concat (map snd groups) <-> exists k g, out !! k = Some g /\ it ∈ g) as Hin.
  { intros it. rewrite elem_of_concat. split.
    - intros (g & Hit & Hk). apply list_elem_of_fmap in Hk as ([k g'] & -> & Hk).
      rewrite Hg in Hk. apply elem_of_map_to_list in Hk. by exists k, g'.
    - intros (k & g & Hk & Hit). exists g. split; [done|]. apply list_elem_of_fmap.
      exists (k, g). by rewrite Hg, elem_of_map_to_list. }
  destruct (first_of_spec (concat (map snd groups))) as [Ha Hi].
  set (all := foldl first_of ∅ (concat (map snd groups))) in *.
  rewrite run_bind. destruct (run_shuffle (map_to_list all) w1) as (ranged & w2 & -> & Hr). cbn [fst snd].
  rewrite run_bind. destruct (run_sort_slice MatchTime (map snd ranged) w2) as (l & w3 & -> & Hp & Hs).
  cbn [fst snd]. rewrite run_ret.
  assert (forall it, it ∈ l <-> all !! ScheduleID it = Some it) as Hl.
  { intros it. rewrite Hp, list_elem_of_fmap. split.
    - intros ([id x] & -> & Hx). rewrite Hr in Hx. apply elem_of_map_to_list in Hx. cbn. by destruct (Ha _ _ Hx) as [_ ->].
    - intros Hx. exists (ScheduleID it, it). by rewrite Hr, elem_of_map_to_list. }
  assert (NoDup (map ScheduleID l)) as Hnd.
  { rewrite Hp, Hr. rewrite map_map.
    rewrite (map_ext_in _ fst); [apply NoDup_fst_map_to_list|]. intros [id x] Hx. cbn.
    apply list_elem_of_In, elem_of_map_to_list in Hx. by destruct (Ha _ _ Hx). }
  do 2 eexists. split; [done|]. split_and!.
  - rewrite length_take. lia.
  - by apply take_StronglySorted.
  - rewrite <- firstn_map. eapply sublist_NoDup; [|apply sublist_take]. done.
  - intros it Hit%elem_of_take. destruct Hit as (i & Hit & _). apply list_elem_of_lookup_2, Hl, Ha in Hit as [Hit _].
    by apply Hin.
  - intros k g it Hk Hit. destruct (Hi it) as [it' Hit']; [apply Hin; eauto|].
    destruct (Ha _ _ Hit') as [Hc Hid]. apply Hin in Hc as (k' & g' & Hk' & Hg').
    exists k', g', it'. split_and!; [done..|]. apply take_sorted; [done|]. apply Hl. by rewrite Hid.
Qed.

Lemma run_catalog_groups ps out w : exists out' w',
  run (catalog_groups LocalZone sch ps out) w = (out', w') /\
  forall k, is_Some (out' !! k) <-> is_Some (out !! k) \/ k ∈ map FormatInt ps.
Proof.
  revert out w. induction ps as [|p ps IH]; intros out w; cbn [catalog_groups].
  { rewrite run_ret. do 2 eexists. split; [done|]. set_solver. }
  rewrite run_bind. destruct (run (catalog_group LocalZone sch p) w) as [items w1]. cbn [fst snd].
  destruct (IH (<[FormatInt p := items]> out) w1) as (out' & w' & E & Hd). exists out', w'.
  split; [exact E|]. intros k. rewrite Hd. cbn [map]. rewrite elem_of_cons.
  destruct (decide (k = FormatInt p)) as [->|Hk].
  - rewrite lookup_insert_eq. split; [by right; left|by left; eexists].
  - rewrite lookup_insert_ne by done. tauto.
Qed.

(** The groups by parent. *)
Definition parent_key (k : string) : Prop := k ∈ ["1"; "2"; "5"].

(** The catalog: BuildMatchCatalog, whatever the database answers, has
    exactly the groups 1, 2, 5, hot and 0; group 0 has at most 30 items, in
    order of match time, no schedule twice and none from outside groups 1, 2
    and 5; and every item of those groups is represented in group 0 by an item
    of the same schedule, unless group 0 is full and holds nothing later. *)
Theorem BuildMatchCatalog_all (w : W) :
  let out := (run (BuildMatchCatalog LocalZone sch) w).1 in
  dom out = {["0"; "1"; "2"; "5"; "hot"]} /\
  exists all, out !! "0" = Some all /\
    (length all <= 30)%nat /\ StronglySorted (by_key MatchTime) all /\ NoDup (map ScheduleID all) /\
    (forall it, it ∈ all -> exists k g, parent_key k /\ out !! k = Some g /\ it ∈ g) /\
    forall k g it, parent_key k -> out !! k = Some g -> it ∈ g ->
      exists k' g' it', parent_key k' /\ out !! k' = Some g' /\ it' ∈ g' /\ ScheduleID it' = ScheduleID it /\
        (it' ∈ all \/ (length all = 30%nat /\ forall x, x ∈ all -> MatchTime x <= MatchTime it')).
Proof.
  cbv zeta. unfold BuildMatchCatalog. rewrite run_bind.
  destruct (run_catalog_groups [1; 2; 5] ∅ w) as (out & w1 & -> & Hd). cbn [fst snd].
  rewrite run_bind. destruct (run_merge_groups out w1) as (all & w2 & -> & Hl & Hs & Hn & Hin & Hall).
  cbn [fst snd]. rewrite run_bind. destruct (run (BuildRecommend LocalZone sch) w2) as [hot w3].
  rewrite run_ret. cbn [fst snd].
  assert (forall k, is_Some (out !! k) <-> parent_key k) as Hk.
  { intros k. rewrite Hd. change (map FormatInt [1; 2; 5]) with ["1"; "2"; "5"].
    split; [intros [[x Hx]|?]; [by apply lookup_empty_Some in Hx|done]|by right]. }
  assert (forall k, parent_key k -> <["hot" := hot]> (<["0" := all]> out) !! k = out !! k) as Hkeep.
  { intros k Hp. unfold parent_key in Hp.
    rewrite !lookup_insert_ne; [done|intros <-; set_solver|intros <-; set_solver]. }
  split.
  - apply set_eq. intros k. rewrite elem_of_dom.
    destruct (decide (k = "hot")) as [->|]; [rewrite lookup_insert_eq; split; [set_solver|by eexists]|].
    destruct (decide (k = "0")) as [->|];
      [rewrite lookup_insert_ne, lookup_insert_eq by done; split; [set_solver|by eexists]|].
    rewrite !lookup_insert_ne, Hk by done. unfold parent_key. set_solver.
  - exists all. rewrite lookup_insert_ne, lookup_insert_eq by done. split_and!; [done..| |].
    + intros it Hit. destruct (Hin it Hit) as (k & g & Hg & Hi). assert (parent_key k) as Hp by (apply Hk; by eexists).
      exists k, g. by rewrite Hkeep.
    + intros k g it Hp Hg Hi. rewrite Hkeep in Hg by done.
      destruct (Hall k g it Hg Hi) as (k' & g' & it' & Hg' & Hi' & Hid & Hc).
      assert (parent_key k') as Hp' by (apply Hk; by eexists).
      exists k', g', it'. by rewrite Hkeep.
Qed.
End catalog.
End Build.
