(* ===== verification/WsText.v ===== *)
(** * Chat frames and text (pkg/wschat/hub.go, util.go)

    The parts of the WebSocket chat that compute: opcodes, the binary frame,
    the room-name check, the escaping and filtering of what users type, and
    the sliding window behind [allowSend]. *)

From S2P Require Import Prelude GoStr Codec Json.
From Stdlib Require Import Sorting.Sorted.

Module Text.

(** ** Opcodes and error codes *)
Definition OpHeart : Z := 1000.
Definition OpLogin : Z := 1001.
Definition OpLogout : Z := 1002.
Definition OpRoomEnter : Z := 1003.
Definition OpRoomLeave : Z := 1004.
Definition OpComment : Z := 1005.
Definition OpLike : Z := 1007.
Definition OpSessionResume : Z := 1010.

Definition OpHeartSuccess : Z := 2000.
Definition OpLoginSuccess : Z := 2001.
Definition OpLogoutSuccess : Z := 2002.
Definition OpRoomEnterSuccess : Z := 2003.
Definition OpRoomLeaveSuccess : Z := 2004.
Definition OpCommentSuccess : Z := 2005.
Definition OpLikeSuccess : Z := 2007.
Definition OpSessionResumeSuccess : Z := 2010.

Definition OpCommentPush : Z := 3000.
Definition OpViewNumPush : Z := 3005.
Definition OpError : Z := 9999.

Definition ErrCodeNotInChatServer : Z := 1000.
Definition ErrCodeSensitiveWord : Z := 1002.
Definition ErrCodeUnauthorized : Z := 1003.
Definition ErrCodeMuted : Z := 1004.
Definition ErrCodeAccountDisabled : Z := 1005.

Definition defaultHistoryLimit : Z := 50.
Definition chatHistoryKeyPrefix : string := "yuyan:live:chat:".

(** ** Frames *)
Definition frameHeaderLen : Z := 8.

Definition encryptFrameBody (body key : bytes) : res bytes := Encrypt body key.
Definition decryptFrameBody (body key : bytes) : res bytes := Decrypt body key.

(** A body that cannot be encrypted is dropped: the frame is then empty. *)
Definition encodeBinaryFrame (op : Z) (body key : bytes) : bytes :=
  let ct := if 0 <? len body
            then match encryptFrameBody body key with Ok c => c | Err _ => [] end else [] in
  frameByte0 :: frameByte1 :: put_be 2 op ++ put_be 4 (wrapu 32 (len ct)) ++ ct.

(** What [handleBinaryFrame] reads before it dispatches: the message of the
    error it sends, or opcode and body. *)
Definition read_frame (frame key : bytes) : string + (Z * bytes) :=
  if len frame <? frameHeaderLen then inl "invalid frame" else
  let opcode := be (take 2 (drop 2 frame)) in
  let bodyLen := be (take 4 (drop 4 frame)) in
  if negb (bodyLen =? len frame - frameHeaderLen) then inl "frame length mismatch" else
  if 0 <? bodyLen then
    match decryptFrameBody (drop 8 frame) key with
    | Err _ => inl "decrypt failed"
    | Ok plain => inr (opcode, plain)
    end
  else inr (opcode, []).

(** ** Room names *)
Definition safe_rune (ch : Z) : bool :=
  ((48 <=? ch) && (ch <=? 57)) || ((97 <=? ch) && (ch <=? 122)) || ((65 <=? ch) && (ch <=? 90)).

Definition isSafeRoom (r : string) : bool :=
  if String.eqb r "" || (32 <? Z.of_nat (String.length r)) then false
  else forallb safe_rune (runes r).

(** ** User text *)

(** The entity of a special character, the rune itself otherwise. *)
Definition escape_rune (r : Z) : bytes :=
  if r =? 60 then bytes_of "&lt;"
  else if r =? 62 then bytes_of "&gt;"
  else if r =? 38 then bytes_of "&amp;"
  else if r =? 34 then bytes_of "&#34;"
  else if r =? 39 then bytes_of "&#39;"
  else encodeRune r.

(** [if len(s) > n { s = s[:n] }] *)
Definition truncate (n : Z) (s : string) : string :=
  if n <? Z.of_nat (String.length s) then prefix_bytes n s else s.

Definition sanitize (s : string) : string :=
  string_of (concat (map escape_rune (runes (truncate 500 (TrimSpace s))))).

Definition blockwords : list string :=
  ["fuck"; "shit"; "bitch"; "asshole"; "dick";
   "赌博"; "赌场"; "博彩"; "色情"; "黄赌毒";
   "反动"; "法轮"; "六四"; "台独"; "港独";
   "私服"; "外挂"; "刷屏"].

(** The first block word found in the lower-cased text. *)
Definition matchBlockword (text : string) : option string :=
  List.find (Contains (ToLower text)) blockwords.

Example matchBlockword_ex :
  matchBlockword "SHİT happens" = Some "shit" /\ matchBlockword "玩外挂吗" = Some "外挂" /\
  matchBlockword "hello" = None /\ sanitize " <b> & 'x' " = "&lt;b&gt; &amp; &#39;x&#39;".
Proof. by vm_compute. Qed.

(** ** The send window *)

(** [allowSend] at [now]: the times kept, and whether the message may go. *)
Definition slide (ratePerMin now : Z) (sendTimes : list Z) : list Z * bool :=
  let kept := dropWhile (fun t => t <? now - Minute) sendTimes in
  if ratePerMin <=? Z.of_nat (length kept) then (kept, false) else (kept ++ [now], true).

(** *** Frames survive the wire *)

Lemma read_encoded_frame op body key : length key = 16%nat -> 0 <= op < 2 ^ 16 ->
  len body + 16 < 2 ^ 32 ->
  read_frame (encodeBinaryFrame op body key) key = inr (op, body).
Proof.
  intros Hk Hop Hlen. unfold encodeBinaryFrame, encryptFrameBody.
  set (ct := if 0 <? len body then _ else _).
  assert (len ct = 0 /\ body = [] \/ 0 < len ct < 2 ^ 32 /\ Decrypt ct key = Ok body) as Hct.
  { unfold ct. destruct (Z.ltb_spec 0 (len body)) as [Hb|Hb].
    - right. destruct (Encrypt_ok body key Hk) as (c & -> & _ & Hc & Hd). split; [lia|done].
    - left. unfold len in *. destruct body; [done|]. simpl in Hb. lia. }
  clearbody ct. set (hdr := put_be 2 op) in *.
  assert (length hdr = 2%nat) as Hhdr by apply length_put_be.
  assert (0 <= len ct < 2 ^ 32) as Hr by (unfold len in *; lia).
  unfold read_frame, decryptFrameBody.
  assert (len (frameByte0 :: frameByte1 :: hdr ++ put_be 4 (wrapu 32 (len ct)) ++ ct) = 8 + len ct) as ->.
  { unfold len. cbn [length]. rewrite !length_app, length_put_be, Hhdr. lia. }
  unfold frameHeaderLen. destruct (Z.ltb_spec (8 + len ct) 8); [lia|]. cbn [skipn].
  rewrite drop_0, (take_app_length' _ _ 2), (drop_app_length' _ _ 2) by done.
  rewrite take_app_length' by (by rewrite length_put_be).
  assert (drop 6 (hdr ++ put_be 4 (wrapu 32 (len ct)) ++ ct) = ct) as ->.
  { rewrite app_assoc. apply drop_app_length'. by rewrite length_app, Hhdr, length_put_be. }
  unfold hdr. rewrite !be_put_be.
  change (256 ^ Z.of_nat 4) with (2 ^ 32). change (256 ^ Z.of_nat 2) with (2 ^ 16).
  unfold wrapu. rewrite Zmod_mod, !Z.mod_small by lia.
  replace (len ct =? 8 + len ct - 8) with true by lia. cbn [negb].
  destruct Hct as [[Hc ->]|[Hc ->]].
  - by rewrite Hc.
  - by replace (0 <? len ct) with true by lia.
Qed.

(** *** Escaped text *)

(** What a browser shows for the five entities [sanitize] writes. *)
Fixpoint unescape (s : bytes) : bytes :=
  match s with
  | x26 :: x6c :: x74 :: x3b :: r => x3c :: unescape r
  | x26 :: x67 :: x74 :: x3b :: r => x3e :: unescape r
  | x26 :: x61 :: x6d :: x70 :: x3b :: r => x26 :: unescape r
  | x26 :: x23 :: x33 :: x34 :: x3b :: r => x22 :: unescape r
  | x26 :: x23 :: x33 :: x39 :: x3b :: r => x27 :: unescape r
  | b :: r => b :: unescape r
  | [] => []
  end.

(** A byte that starts no tag and ends no attribute. *)
Definition harmless (b : byte) : Prop := b <> x3c /\ b <> x3e /\ b <> x22 /\ b <> x27.

Lemma unescape_cons b r : b <> x26 -> unescape (b :: r) = b :: unescape r.
Proof. by destruct b. Qed.

Lemma unescape_app l r : Forall (fun b => b <> x26) l -> unescape (l ++ r) = l ++ unescape r.
Proof.
  induction 1 as [|b l Hb _ IH]; [done|]. rewrite <- app_comm_cons, unescape_cons by done. by rewrite IH.
Qed.

(** A rune other than the five is written as bytes other than the five. *)
Lemma encodeRune_plain r : 0 <= r -> r <> 60 -> r <> 62 -> r <> 38 -> r <> 34 -> r <> 39 ->
  Forall (fun b => harmless b /\ b <> x26) (encodeRune r).
Proof.
  intros Hr H1 H2 H3 H4 H5. destruct (Z.lt_ge_cases r 128) as [Hlt|Hge].
  - rewrite encodeRune_ascii by lia. constructor; [|constructor].
    pose proof (Z_of_byte_of_Z r) as Hz. rewrite Z.mod_small in Hz by lia.
    unfold harmless. split_and!; intros E; rewrite E in Hz; vm_compute in Hz; congruence.
  - eapply Forall_impl; [by apply encodeRune_high|]. cbv beta. intros b Hb. unfold harmless.
    split_and!; intros ->; vm_compute in Hb; by apply Hb.
Qed.

Lemma escape_rune_spec r rest : 0 <= r ->
  Forall harmless (escape_rune r) /\ unescape (escape_rune r ++ rest) = encodeRune r ++ unescape rest.
Proof.
  intros Hr. unfold escape_rune.
  destruct (Z.eqb_spec r 60) as [->|?]; [by split; [repeat constructor|]|].
  destruct (Z.eqb_spec r 62) as [->|?]; [by split; [repeat constructor|]|].
  destruct (Z.eqb_spec r 38) as [->|?]; [by split; [repeat constructor|]|].
  destruct (Z.eqb_spec r 34) as [->|?]; [by split; [repeat constructor|]|].
  destruct (Z.eqb_spec r 39) as [->|?]; [by split; [repeat constructor|]|].
  pose proof (encodeRune_plain r) as Hp. split.
  - eapply Forall_impl; [by apply Hp|]. by intros b [].
  - apply unescape_app. eapply Forall_impl; [by apply Hp|]. by intros b [].
Qed.

Lemma escape_runes_spec l : Forall (fun r => 0 <= r) l ->
  Forall harmless (concat (map escape_rune l)) /\
  unescape (concat (map escape_rune l)) = concat (map encodeRune l).
Proof.
  induction 1 as [|r l Hr _ [IH1 IH2]]; [by split; [constructor|]|]. cbn [map concat].
  destruct (escape_rune_spec r (concat (map escape_rune l)) Hr) as [H1 H2].
  split; [by apply Forall_app|]. by rewrite H2, IH2.
Qed.

Lemma bytes_of_truncate n s : bytes_of (truncate n s) `prefix_of` bytes_of s.
Proof.
  unfold truncate. destruct (_ <? _); [|done]. unfold prefix_bytes. generalize (Z.to_nat n) as k.
  intros k. revert s. induction k as [|k IH]; intros [|c s]; try by eexists.
  apply prefix_cons, IH.
Qed.

(** C31. Escaping: whatever a user types, what [sanitize] returns holds none of
    the characters that open a tag or close an attribute, also after any
    later cut of the string; and nothing is lost by it: un-escaping its five
    entities gives back the trimmed text cut to 500 bytes, with invalid UTF-8
    replaced by U+FFFD. *)
Theorem sanitize_exact (s : string) (n : Z) :
  Forall harmless (bytes_of (truncate n (sanitize s))) /\
  unescape (bytes_of (sanitize s)) = to_valid (bytes_of (truncate 500 (TrimSpace s))).
Proof.
  assert (Forall (fun r => 0 <= r) (runes (truncate 500 (TrimSpace s)))) as Hr.
  { unfold runes. apply Forall_fmap. apply chunks_nonneg. }
  destruct (escape_runes_spec _ Hr) as [H1 H2].
  assert (bytes_of (sanitize s) = concat (map escape_rune (runes (truncate 500 (TrimSpace s))))) as E
    by apply bytes_of_string_of.
  split.
  - destruct (bytes_of_truncate n (sanitize s)) as [k Hk]. rewrite E in Hk. rewrite Hk in H1.
    by apply Forall_app in H1 as [H1 _].
  - rewrite E, H2. unfold to_valid, runes. by rewrite map_map.
Qed.

(** *** The send window *)

(** A connection's attempts at the given times, oldest first, with the answers. *)
Fixpoint attempts (rate : Z) (kept : list Z) (times : list Z) : list (Z * bool) :=
  match times with
  | [] => []
  | t :: times => let '(kept, ok) := slide rate t kept in (t, ok) :: attempts rate kept times
  end.

(** How many of the answered attempts were admitted in [lo, hi]. *)
Definition in_window (lo hi : Z) (l : list Z) : Z :=
  Z.of_nat (length (filter (fun t => lo <= t <= hi) l)).
Definition admitted (l : list (Z * bool)) : list Z := map fst (filter (fun a => a.2 = true) l).

(** [acc]: all admitted so far; [kept]: the part the connection remembers. *)
Record window_inv (rate : Z) (acc kept : list Z) (t : Z) : Prop := WindowInv {
  wi_split : exists old, acc = old ++ kept /\ Forall (fun u => u < t - Minute) old;
  wi_past : Forall (fun u => u <= t) kept;
  wi_sorted : StronglySorted Z.le kept;
  wi_bound : forall lo, in_window lo (lo + Minute) acc <= rate;
}.

Lemma in_window_app lo hi l k : in_window lo hi (l ++ k) = in_window lo hi l + in_window lo hi k.
Proof. unfold in_window. rewrite filter_app, length_app. lia. Qed.

Lemma in_window_none lo hi l : Forall (fun u => u < lo) l -> in_window lo hi l = 0.
Proof.
  unfold in_window. induction 1 as [|u l Hu _ IH]; [done|].
  rewrite filter_cons_False by lia. done.
Qed.

Lemma in_window_all lo hi l : Forall (fun u => lo <= u <= hi) l -> in_window lo hi l = Z.of_nat (length l).
Proof.
  unfold in_window. intros Hl. f_equal. f_equal. induction Hl as [|u l Hu _ IH]; [done|].
  by rewrite filter_cons_True, IH.
Qed.

Lemma in_window_le lo hi l : in_window lo hi l <= Z.of_nat (length l).
Proof. unfold in_window. pose proof (length_filter (fun t => lo <= t <= hi) l). lia. Qed.

Lemma dropWhile_sorted c l : StronglySorted Z.le l ->
  Forall (fun u => c <= u) (dropWhile (fun u => u <? c) l) /\
  StronglySorted Z.le (dropWhile (fun u => u <? c) l).
Proof.
  induction 1 as [|u l Hs IH Hu]; [by split; constructor|]. cbn [dropWhile].
  destruct (Z.ltb_spec u c) as [|Hc]; [done|]. split; [|by constructor].
  constructor; [done|]. eapply Forall_impl; [exact Hu|]. cbv beta. lia.
Qed.

Lemma takeWhile_below c l : Forall (fun u => u < c) (takeWhile (fun u => u <? c) l).
Proof.
  induction l as [|u l IH]; [constructor|]. cbn [takeWhile].
  destruct (Z.ltb_spec u c); by constructor.
Qed.

Lemma sorted_snoc l t : StronglySorted Z.le l -> Forall (fun u => u <= t) l -> StronglySorted Z.le (l ++ [t]).
Proof.
  induction 1 as [|u l Hs IH Hu]; intros Hl; [by repeat constructor|].
  apply Forall_cons in Hl as [Hut Hl]. cbn [app]. constructor; [auto|].
  apply Forall_app. split; [done|by repeat constructor].
Qed.

(** One attempt keeps the invariant; a refusal means the last minute is full. *)
Lemma slide_inv rate acc kept t now : window_inv rate acc kept t -> t <= now ->
  match slide rate now kept with
  | (kept', true) => window_inv rate (acc ++ [now]) kept' now
  | (kept', false) => window_inv rate acc kept' now /\ rate <= in_window (now - Minute) now acc
  end.
Proof.
  intros [(old & -> & Hold) Hpast Hsort Hbound] Ht. unfold slide.
  pose proof (takeWhile_below (now - Minute) kept) as Hd.
  destruct (dropWhile_sorted (now - Minute) kept Hsort) as [Hk Hks].
  set (k := dropWhile (fun u => u <? now - Minute) kept) in *.
  set (d := takeWhile (fun u => u <? now - Minute) kept) in *.
  assert (d ++ k = kept) as Hdk by apply takeWhile_dropWhile. clearbody k d. subst kept.
  assert (Forall (fun u => u < now - Minute) (old ++ d)) as Hgone.
  { apply Forall_app. split; [|done]. eapply Forall_impl; [exact Hold|]. cbv beta. lia. }
  assert (Forall (fun u => u <= now) k) as Hkn.
  { apply Forall_app in Hpast as [_ Hp]. eapply Forall_impl; [exact Hp|]. cbv beta. lia. }
  rewrite app_assoc in *. destruct (Z.leb_spec rate (Z.of_nat (length k))) as [Hfull|Hroom].
  - split; [by split; [exists (old ++ d)|..]|].
    rewrite in_window_app, in_window_none, in_window_all by
      (try done; by apply Forall_and). lia.
  - split.
    + exists (old ++ d). by rewrite app_assoc.
    + apply Forall_app. split; [done|]. by constructor; [lia|].
    + by apply sorted_snoc.
    + intros lo. rewrite in_window_app. specialize (Hbound lo).
      destruct (decide (lo <= now <= lo + Minute)) as [Hin|Hout].
      * rewrite in_window_app, (in_window_none _ _ (old ++ d)).
        -- pose proof (in_window_le lo (lo + Minute) k). rewrite (in_window_all _ _ [now]) by (by constructor).
           cbn [length]. lia.
        -- eapply Forall_impl; [exact Hgone|]. cbv beta. lia.
      * unfold in_window at 2. rewrite filter_cons_False by done. rewrite filter_nil. cbn [length]. lia.
Qed.

Lemma admitted_cons t b l : admitted ((t, b) :: l) = (if b then [t] else []) ++ admitted l.
Proof. unfold admitted. by destruct b. Qed.

Lemma attempts_window rate times acc kept t0 : window_inv rate acc kept t0 ->
  StronglySorted Z.le (t0 :: times) ->
  (forall lo, in_window lo (lo + Minute) (acc ++ admitted (attempts rate kept times)) <= rate) /\
  (forall pre t post, attempts rate kept times = pre ++ (t, false) :: post ->
     rate <= in_window (t - Minute) t (acc ++ admitted pre)).
Proof.
  revert acc kept t0. induction times as [|t times IH]; intros acc kept t0 Hi Hs; cbn [attempts].
  - split; [|by intros [|? ?] ? ?]. intros lo. rewrite app_nil_r. apply Hi.
  - apply StronglySorted_inv in Hs as [Hs Ht]. apply Forall_cons in Ht as [Ht _].
    pose proof (slide_inv rate acc kept t0 t Hi Ht) as Hstep.
    destruct (slide rate t kept) as [kept' []].
    + destruct (IH _ _ _ Hstep Hs) as [H1 H2]. split.
      * intros lo. rewrite admitted_cons, app_assoc. apply H1.
      * intros [|[u b] pre] t1 post; [done|]. cbn [app]. intros [= <- <- E].
        rewrite admitted_cons, app_assoc. by eapply H2.
    + destruct Hstep as [Hi' Hfull]. destruct (IH _ _ _ Hi' Hs) as [H1 H2]. split.
      * intros lo. rewrite admitted_cons. apply H1.
      * intros [|[u b] pre] t1 post.
        -- intros [= <- _]. unfold admitted. cbn. by rewrite app_nil_r.
        -- cbn [app]. intros [= <- <- E]. rewrite admitted_cons. by eapply H2.
Qed.

(** C32. The send window: on one connection, attempts made at non-decreasing
    times are admitted at most [ratePerMin] times in any sixty seconds, ends
    included; and an attempt is refused only when [ratePerMin] messages were
    admitted in the minute up to it. *)
Theorem allowSend_window (rate : Z) (times : list Z) (Hrate : 0 <= rate)
    (Hs : StronglySorted Z.le times) :
  (forall lo, in_window lo (lo + Minute) (admitted (attempts rate [] times)) <= rate) /\
  (forall pre t post, attempts rate [] times = pre ++ (t, false) :: post ->
     rate <= in_window (t - Minute) t (admitted pre)).
Proof.
  destruct times as [|t0 times']; [split; [done|by intros [|? ?] ? ?]|].
  apply (attempts_window rate (t0 :: times') [] [] t0).
  - split; [by exists []| | |done]; constructor.
  - constructor; [done|]. constructor; [lia|]. by apply StronglySorted_inv in Hs as [_ ?].
Qed.

Lemma allowSend_window_witness :
  let l := [0; 1; 59 * Second; Minute; Minute + 1; Minute + 2] in
  attempts 2 [] l = [(0, true); (1, true); (59 * Second, false); (Minute, false);
                     (Minute + 1, true); (Minute + 2, true)] /\
  (forall lo, in_window lo (lo + Minute) (admitted (attempts 2 [] l)) <= 2).
Proof.
  split; [by vm_compute|]. apply (allowSend_window 2); [lia|].
  repeat constructor; unfold Minute, Second; lia.
Defined.

(** The first cut is at 500 bytes, whatever the configured length, and may fall
    inside a character: of 200 Chinese characters 166 are left, and the two
    bytes of the next one become two replacement characters. *)
Example long_message_cut :
  let times n s := String.concat "" (replicate n s) in
  let replacement := string_of (map byte_of_Z [0xEF; 0xBF; 0xBD]) in
  sanitize (times 200%nat "好") = times 166%nat "好" +:+ replacement +:+ replacement.
Proof. vm_compute. reflexivity. Qed.
End Text.
