(* ===== verification/WsChat.v ===== *)
(** * The WebSocket chat (pkg/wschat/hub.go)

    The handlers of a connection as programs over the hub's atomic accesses
    ([Hub]), the session store, Redis, the database and the clock.  [c] is the
    connection's number in the hub; [Conf] holds the fields of [Hub] that
    never change.  A connection is two goroutines, [readPump] over the
    messages the socket delivers and [writePump] over its wake-ups. *)

From S2P Require Import Prelude GoStr Codec Json Hub Sql Env RateLimit Auth Models WsText.

Module Ws.
Import Text.

(** The immutable fields of [Hub]; a nil model or client is [false]. *)
Record Conf : Type := MkConf {
  rdb : bool;
  sessions : Session.SessionStore;
  maxMsgLen : Z;
  historyLim : Z;
  ratePerMin : Z;
  reqKey : bytes;
  respKey : bytes;
  chatMessages : bool;
  roomsModel : bool;
  usersModel : bool;
  sch : Schema;
}.

Definition NewHub (rdb : bool) (respKey reqKey : bytes) (maxMsgLen historyLim ratePerMin : Z)
    (chatMessages roomsModel usersModel : bool) (sch : Schema) : Conf :=
  {| rdb := rdb; sessions := Session.NewSessionStore rdb;
     maxMsgLen := if maxMsgLen <=? 0 then 500 else maxMsgLen;
     historyLim := if historyLim <=? 0 then defaultHistoryLimit else historyLim;
     ratePerMin := if ratePerMin <=? 0 then 60 else ratePerMin;
     reqKey := reqKey; respKey := respKey; chatMessages := chatMessages;
     roomsModel := roomsModel; usersModel := usersModel; sch := sch |}.

(** [X-Forwarded-For] up to its first comma, [X-Real-IP], or the host part of
    the remote address. *)
Definition clientIP (r : Request) : string :=
  if negb (String.eqb (h_XForwardedFor r) "") then TrimSpace (before_comma (h_XForwardedFor r))
  else if negb (String.eqb (h_XRealIP r) "") then TrimSpace (h_XRealIP r)
  else default (RemoteAddr r) (before_last_colon (RemoteAddr r)).

Definition UnixMilli (t : Z) : Z := t / 1000000.

(** ** Message bodies *)

Definition body_text (j : json) : bytes := bytes_of (json_text j).
Definition empty_object : bytes := bytes_of "{}".

Definition key_field : list (field string) :=
  [Field "key" (fun j _ => as_string j)].
Definition room_field : list (field string) :=
  [Field "roomNum" (fun j _ => as_string j)].

Record loginBody : Type := MkLogin { l_key : string; l_plat : Z; l_version : Z }.
Definition login_fields : list (field loginBody) :=
  [Field "key" (fun j b => s ← as_string j; Some (MkLogin s (l_plat b) (l_version b)));
   Field "plat" (fun j b => z ← as_int j; Some (MkLogin (l_key b) z (l_version b)));
   Field "version" (fun j b => z ← as_int j; Some (MkLogin (l_key b) (l_plat b) z))].

Record roomEnterBody : Type := MkEnter { e_roomNum : string; e_haveHistory : Z }.
Definition enter_fields : list (field roomEnterBody) :=
  [Field "roomNum" (fun j b => s ← as_string j; Some (MkEnter s (e_haveHistory b)));
   Field "haveHistory" (fun j b => z ← as_int j; Some (MkEnter (e_roomNum b) z))].

Record commentBody : Type := MkComment {
  c_roomNum : string; c_msgType : Z; c_content : string; c_sendUid : Z }.
Definition comment_fields : list (field commentBody) :=
  [Field "roomNum" (fun j b => s ← as_string j; Some (MkComment s (c_msgType b) (c_content b) (c_sendUid b)));
   Field "msgType" (fun j b => z ← as_int j; Some (MkComment (c_roomNum b) z (c_content b) (c_sendUid b)));
   Field "content" (fun j b => s ← as_string j; Some (MkComment (c_roomNum b) (c_msgType b) s (c_sendUid b)));
   Field "sendUid" (fun j b => z ← as_int j; Some (MkComment (c_roomNum b) (c_msgType b) (c_content b) z))].

(** [_ = json.Unmarshal(body, &b)]: what was decoded before an error stays. *)
Definition decode {T} (fs : list (field T)) (zero : T) (body : bytes) : T :=
  (Unmarshal fs zero (string_of body)).1.

(** ** Sending *)
Section conn.
Context (h : Conf).

Definition sendBinary (c : nat) (op : Z) (body : bytes) : prog unit :=
  _ ← hub (Chat.HTrySend c (encodeBinaryFrame op body (respKey h)));
  mret tt.

Definition error_body (code : Z) (msg : string) : bytes :=
  body_text (JObj [("errCode", jint code); ("errMsg", JStr msg)]).

Definition sendError (c : nat) (code : Z) (msg : string) : prog unit :=
  sendBinary c OpError (error_body code msg).

(** [for _, c := range clients { select ... }]: a full queue means the client
    is unregistered by a goroutine of its own. *)
Fixpoint push_each (frame : bytes) (l : list nat) : prog unit :=
  match l with
  | [] => mret tt
  | d :: l =>
    ok ← hub (Chat.HTrySend d frame);
    if (ok : bool) then push_each frame l
    else _ ← go (hub (Chat.HUnregister d)); push_each frame l
  end.

Definition broadcast (room : string) (op : Z) (body : bytes) : prog unit :=
  l ← hub (Chat.HMembers room);
  push_each (encodeBinaryFrame op body (respKey h)) l.

Definition broadcastViewNum (room : string) : prog unit :=
  n ← hub (Chat.HSize room);
  viewNum ← (if roomsModel h then
               r ← LiveRoom.FindByRoomNum (sch h) room;
               match r with
               | Ok r => mret (int64 (n + int64 (LiveRoom.VisitCount r + LiveRoom.FictitiousVisitCount r)))
               | Err _ => mret n
               end
             else mret n);
  broadcast room OpViewNumPush (body_text (JObj [("roomNum", JStr room); ("viewNum", jint viewNum)])).

Definition notice_body (room content : string) (msgType noticeType ms : Z) : bytes :=
  body_text (JObj [("content", JStr content); ("msgType", jint msgType); ("noticeType", jint noticeType);
                   ("roomNum", JStr room); ("sendTime", jint ms)]).

Definition broadcastEnterNotice (room nickName : string) : prog unit :=
  t ← now;
  broadcast room OpCommentPush (notice_body room (nickName +:+ "进入直播间") 3 2 (UnixMilli t)).

Definition sendSystemNotice (c : nat) (room content : string) (msgType : Z) : prog unit :=
  t ← now;
  sendBinary c OpCommentPush (notice_body room content msgType 1 (UnixMilli t)).

(** ** History *)
Definition persistHistory (room : string) (body : bytes) : prog unit :=
  if negb (rdb h) then mret tt else
  let key := chatHistoryKeyPrefix +:+ room in
  _ ← redis (RLpush key (string_of body));
  _ ← redis (RLtrim key 0 (historyLim h - 1));
  _ ← redis (RExpire key (24 * 3600));
  mret tt.

(** Queue the frames in order; stop at the first that does not fit. *)
Fixpoint queue_each (c : nat) (bodies : list bytes) : prog unit :=
  match bodies with
  | [] => mret tt
  | b :: bodies =>
    ok ← hub (Chat.HTrySend c (encodeBinaryFrame OpCommentPush b (respKey h)));
    if (ok : bool) then queue_each c bodies else mret tt
  end.

Definition message_body (m : ChatMsg.ChatRoomMessage) : bytes :=
  body_text (JObj [("content", JStr (ChatMsg.Content m)); ("msgId", jint (ChatMsg.ID m));
                   ("msgType", jint (ChatMsg.Type_ m)); ("roomNum", JStr (ChatMsg.RoomNum m));
                   ("sendTime", jint (UnixMilli (ChatMsg.SendTime m)));
                   ("sendUid", jint (ChatMsg.SendUID m))]).

Definition replay_from_db (c : nat) (room : string) : prog unit :=
  if negb (chatMessages h) then mret tt else
  r ← ChatMsg.ListRecentByRoom (sch h) room (historyLim h);
  match r with
  | (msgs, None) => queue_each c (map message_body (rev msgs))
  | (_, Some _) => mret tt
  end.

Definition replayHistory (c : nat) (room : string) : prog unit :=
  if rdb h then
    vals ← redis (RLrange (chatHistoryKeyPrefix +:+ room) 0 (historyLim h));
    match vals with
    | Ok (v :: vs) => queue_each c (map bytes_of (rev (v :: vs)))
    | _ => replay_from_db c room
    end
  else replay_from_db c room.

(** ** allowSend *)
Definition allowSend (c : nat) : prog bool :=
  t ← now;
  cl ← hub (Chat.HRead c);
  let '(times, ok) := slide (ratePerMin h) t (Chat.sendTimes cl) in
  _ ← hub (Chat.HSendTimes c times);
  mret ok.

(** ** Handlers *)

(** Bind the connection to the session the token names. *)
Definition bind_session (c : nat) (key : string) (success : Z) : prog unit :=
  if String.eqb key "" then sendError c ErrCodeUnauthorized "missing key" else
  s ← Session.Get (sessions h) key;
  match s with
  | Err _ => sendError c ErrCodeUnauthorized "invalid session"
  | Ok s =>
    _ ← hub (Chat.HIdentity c (Session.UID s) (Session.NickName s) (Session.Icon s) (Session.IsGuest s));
    sendBinary c success empty_object
  end.

Definition handleLogin (c : nat) (body : bytes) : prog unit :=
  bind_session c (l_key (decode login_fields (MkLogin "" 0 0) body)) OpLoginSuccess.

Definition handleSessionResume (c : nat) (body : bytes) : prog unit :=
  cl ← hub (Chat.HRead c);
  if negb (Chat.authenticated cl) then sendError c ErrCodeUnauthorized "login required"
  else bind_session c (decode key_field "" body) OpSessionResumeSuccess.

Definition handleLogout (c : nat) : prog unit :=
  _ ← sendBinary c OpLogoutSuccess empty_object;
  _ ← hub (Chat.HUnregister c);
  hub (Chat.HClose c).

(** The live-status check: whether the room is taken to be live. *)
Definition check_live (c : nat) (room : string) : prog bool :=
  if negb (roomsModel h) then mret true else
  r ← LiveRoom.FindByRoomNum (sch h) room;
  match r with
  | Err _ => mret true
  | Ok r =>
    if negb (LiveRoom.LiveStatus r =? 1) then
      _ ← hub (Chat.HMute c room (Some true));
      _ ← sendSystemNotice c room "未开播直播间不可以发言" 3;
      mret false
    else
      _ ← hub (Chat.HMute c room (Some false));
      mret true
  end.

Definition enter_room (c : nat) (room : string) : prog unit :=
  roomLive ← check_live c room;
  cl ← hub (Chat.HRead c);
  let alreadyIn := bool_decide (room ∈ Chat.rooms cl) in
  _ ← hub (Chat.HJoin room c);
  _ ← sendBinary c OpRoomEnterSuccess empty_object;
  _ ← broadcastViewNum room;
  _ ← (if roomLive && negb (Chat.isGuest cl) && negb alreadyIn
       then broadcastEnterNotice room (Chat.nickName cl) else mret tt);
  replayHistory c room.

Definition handleRoomEnter (c : nat) (body : bytes) : prog unit :=
  cl ← hub (Chat.HRead c);
  if negb (Chat.authenticated cl) then sendError c ErrCodeUnauthorized "login required" else
  let room := e_roomNum (decode enter_fields (MkEnter "" 0) body) in
  if String.eqb room "" then sendError c ErrCodeNotInChatServer "missing roomNum"
  else if negb (isSafeRoom room) then sendError c ErrCodeNotInChatServer "invalid room"
  else enter_room c room.

Definition handleRoomLeave (c : nat) (body : bytes) : prog unit :=
  let room := decode room_field "" body in
  _ ← (if String.eqb room "" then mret tt
       else _ ← hub (Chat.HLeave room c);
            _ ← broadcastViewNum room;
            hub (Chat.HMute c room None));
  sendBinary c OpRoomLeaveSuccess empty_object.

(** The checks of [handleComment] that need nothing but the connection and the
    message: the error to send. *)
Definition precheck (cl : Chat.Client) (room : string) : option (Z * string) :=
  if negb (Chat.authenticated cl) then Some (ErrCodeUnauthorized, "login required")
  else if String.eqb room "" then Some (ErrCodeNotInChatServer, "missing roomNum")
  else if negb (bool_decide (room ∈ Chat.rooms cl)) then Some (ErrCodeNotInChatServer, "not in room")
  else if Chat.isGuest cl then Some (ErrCodeMuted, "guests cannot speak")
  else if default false (Chat.mutedRooms cl !! room) then Some (ErrCodeMuted, "未开播直播间不可以发言")
  else None.

(** The user-status and IP-ban checks. *)
Definition check_status (cl : Chat.Client) : prog (option (Z * string)) :=
  if usersModel h && (0 <? Chat.uid cl) then
    u ← User.FindByUid (sch h) (Chat.uid cl);
    match u with
    | Ok u => if negb (User.Status u =? 1) then mret (Some (ErrCodeAccountDisabled, "账号已封禁")) else mret None
    | Err _ => mret None
    end
  else mret None.

Definition check_ip (cl : Chat.Client) : prog (option (Z * string)) :=
  if negb (String.eqb (Chat.ip cl) "") && rdb h then
    b1 ← redis (RSismember "ban:ip:list" (Chat.ip cl));
    match b1 with
    | Ok true => mret (Some (ErrCodeMuted, "您的IP已被禁言"))
    | _ =>
      b2 ← redis (RSismember "black:ip:list" (Chat.ip cl));
      match b2 with
      | Ok true => mret (Some (ErrCodeMuted, "您的IP已被禁言"))
      | _ => mret None
      end
    end
  else mret None.

(** The text that is posted: escaped, cut to the hub's limit. *)
Definition clean (content : string) : string := truncate (maxMsgLen h) (sanitize content).

(** INCR of the message counter; the clock when that gives nothing. *)
Definition next_msg_id (t : Z) : prog Z :=
  id ← (if rdb h then
          r ← redis (RIncr "yuyan:chat:message_id");
          match r with Ok id => mret id | Err _ => mret 0 end
        else mret 0);
  mret (if id =? 0 then t else id).

Definition push_body (cl : Chat.Client) (room content : string) (msgType t msgID : Z) : bytes :=
  body_text (JObj [("content", JStr content); ("msgId", jint msgID); ("msgType", jint msgType);
                   ("roomNum", JStr room); ("sendTime", jint (UnixMilli t));
                   ("sendUid", jint (Chat.uid cl));
                   ("sendUser", JObj [("icon", JStr (Chat.icon cl)); ("nickName", JStr (Chat.nickName cl));
                                      ("uid", jint (Chat.uid cl))])]).

(** From the accepted text on: number it, store it, ack it, broadcast it. *)
Definition post (c : nat) (cl : Chat.Client) (room content : string) (msgType0 : Z) : prog unit :=
  let msgType := if msgType0 =? 0 then 1 else msgType0 in
  t ← now;
  msgID ← next_msg_id t;
  let body := push_body cl room content msgType t msgID in
  _ ← (if chatMessages h then
         ChatMsg.Insert (sch h)
           (ChatMsg.MkMessage msgID (Chat.uid cl) room t content (wraps 32 msgType) (Chat.ip cl) 1 0)
       else mret None);
  _ ← persistHistory room body;
  _ ← sendBinary c OpCommentSuccess empty_object;
  broadcast room OpCommentPush body.

(** From the membership checks on: text, rate, words. *)
Definition comment_text (c : nat) (cl : Chat.Client) (b : commentBody) : prog unit :=
  if String.eqb (sanitize (c_content b)) "" then mret tt else
  let content := clean (c_content b) in
  ok ← allowSend c;
  if negb ok then sendError c ErrCodeMuted "rate limit" else
  match matchBlockword content with
  | Some _ => sendError c ErrCodeSensitiveWord "请勿发布敏感内容，多次违规将封号处理"
  | None => post c cl (c_roomNum b) content (c_msgType b)
  end.

Definition handleComment (c : nat) (body : bytes) : prog unit :=
  cl ← hub (Chat.HRead c);
  let b := decode comment_fields (MkComment "" 0 "" 0) body in
  match precheck cl (c_roomNum b) with
  | Some (code, msg) => sendError c code msg
  | None =>
    st ← check_status cl;
    match st with
    | Some (code, msg) => sendError c code msg
    | None =>
      ban ← check_ip cl;
      match ban with
      | Some (code, msg) => sendError c code msg
      | None => comment_text c cl b
      end
    end
  end.

Definition handleLike (c : nat) (body : bytes) : prog unit :=
  cl ← hub (Chat.HRead c);
  if negb (Chat.authenticated cl) then sendError c ErrCodeUnauthorized "login required" else
  let room := decode room_field "" body in
  if String.eqb room "" then mret tt else
  _ ← sendBinary c OpLikeSuccess empty_object;
  broadcast room OpLikeSuccess
    (body_text (JObj [("roomNum", JStr room); ("sendUid", jint (Chat.uid cl))])).

(** ** Dispatch *)
Definition dispatch (c : nat) (op : Z) (body : bytes) : prog unit :=
  if op =? OpHeart then sendBinary c OpHeartSuccess []
  else if op =? OpLogin then handleLogin c body
  else if op =? OpLogout then handleLogout c
  else if op =? OpRoomEnter then handleRoomEnter c body
  else if op =? OpRoomLeave then handleRoomLeave c body
  else if op =? OpComment then handleComment c body
  else if op =? OpLike then handleLike c body
  else if op =? OpSessionResume then handleSessionResume c body
  else sendError c ErrCodeUnauthorized ("unknown opcode " +:+ FormatInt op).

Definition handleBinaryFrame (c : nat) (frame : bytes) : prog unit :=
  match read_frame frame (reqKey h) with
  | inl msg => sendError c ErrCodeUnauthorized msg
  | inr (opcode, body) => dispatch c opcode body
  end.

Record textMsg : Type := MkText {
  t_op : Z; t_key : string; t_plat : Z; t_version : Z; t_roomNum : string; t_content : string;
  t_haveHistory : Z; t_msgType : Z }.
Definition text_fields : list (field textMsg) :=
  [Field "op" (fun j m => z ← as_uint16 j; Some (MkText z (t_key m) (t_plat m) (t_version m) (t_roomNum m) (t_content m) (t_haveHistory m) (t_msgType m)));
   Field "key" (fun j m => s ← as_string j; Some (MkText (t_op m) s (t_plat m) (t_version m) (t_roomNum m) (t_content m) (t_haveHistory m) (t_msgType m)));
   Field "plat" (fun j m => z ← as_int j; Some (MkText (t_op m) (t_key m) z (t_version m) (t_roomNum m) (t_content m) (t_haveHistory m) (t_msgType m)));
   Field "version" (fun j m => z ← as_int j; Some (MkText (t_op m) (t_key m) (t_plat m) z (t_roomNum m) (t_content m) (t_haveHistory m) (t_msgType m)));
   Field "roomNum" (fun j m => s ← as_string j; Some (MkText (t_op m) (t_key m) (t_plat m) (t_version m) s (t_content m) (t_haveHistory m) (t_msgType m)));
   Field "content" (fun j m => s ← as_string j; Some (MkText (t_op m) (t_key m) (t_plat m) (t_version m) (t_roomNum m) s (t_haveHistory m) (t_msgType m)));
   Field "haveHistory" (fun j m => z ← as_int j; Some (MkText (t_op m) (t_key m) (t_plat m) (t_version m) (t_roomNum m) (t_content m) z (t_msgType m)));
   Field "msgType" (fun j m => z ← as_int j; Some (MkText (t_op m) (t_key m) (t_plat m) (t_version m) (t_roomNum m) (t_content m) (t_haveHistory m) z))].

(** The body rebuilt for the binary handlers: json.Marshal sorts the keys. *)
Definition rebuilt_body (m : textMsg) : bytes :=
  body_text (JObj (
    omitempty (String.eqb (t_content m) "") "content" (JStr (t_content m)) ++
    omitempty (t_haveHistory m =? 0) "haveHistory" (jint (t_haveHistory m)) ++
    omitempty (String.eqb (t_key m) "") "key" (JStr (t_key m)) ++
    omitempty (t_msgType m =? 0) "msgType" (jint (t_msgType m)) ++
    omitempty (t_plat m =? 0) "plat" (jint (t_plat m)) ++
    omitempty (String.eqb (t_roomNum m) "") "roomNum" (JStr (t_roomNum m)) ++
    omitempty (t_version m =? 0) "version" (jint (t_version m)))).

Definition handleJSONTextFrame (c : nat) (message : bytes) : prog unit :=
  match Unmarshal text_fields (MkText 0 "" 0 0 "" "" 0 0) (string_of message) with
  | (_, false) => mret tt
  | (m, true) =>
    if (t_op m =? 0) && String.eqb (t_content m) "" then mret tt
    else dispatch c (if t_op m =? 0 then OpComment else t_op m) (rebuilt_body m)
  end.

(** ** The two goroutines of a connection *)

(** Binary magic goes to the binary protocol, everything else to JSON. *)
Definition on_message (c : nat) (binary : bool) (message : bytes) : prog unit :=
  match message with
  | b0 :: b1 :: _ =>
    if binary && Byte.eqb b0 frameByte0 && Byte.eqb b1 frameByte1
    then handleBinaryFrame c message else handleJSONTextFrame c message
  | _ => handleJSONTextFrame c message
  end.

(** [incoming]: what ReadMessage returns until it fails.  It fails once the
    connection is closed, and on a message over the read limit. *)
Fixpoint readPump (c : nat) (incoming : list (bool * bytes)) : prog unit :=
  let stop := _ ← hub (Chat.HUnregister c); hub (Chat.HClose c) in
  match incoming with
  | [] => stop
  | (binary, message) :: incoming =>
    cl ← hub (Chat.HRead c);
    if negb (Chat.conn_open cl) || (maxMsgLen h + 256 <? len message) then stop
    else _ ← on_message c binary message; readPump c incoming
  end.

(** Each wake-up of the write pump: the ticker, or a queued frame; and whether
    the write that follows succeeds. *)
Inductive wake : Type := WTick | WFrame.
Fixpoint writePump (c : nat) (wakes : list (wake * bool)) : prog unit :=
  match wakes with
  | [] => mret tt
  | (WTick, ok) :: wakes => if (ok : bool) then writePump c wakes else hub (Chat.HClose c)
  | (WFrame, ok) :: wakes =>
    f ← hub (Chat.HRecv c);
    match f with
    | None => writePump c wakes
    | Some _ => if (ok : bool) then writePump c wakes else hub (Chat.HClose c)
    end
  end.

(** [ServeWS] after the upgrade: a fresh client and its two goroutines. *)
Definition ServeWS (r : Request) (incoming : list (bool * bytes)) (wakes : list (wake * bool)) : prog nat :=
  c ← hub (Chat.HAccept (clientIP r));
  _ ← go (writePump c wakes);
  _ ← go (readPump c incoming);
  mret c.
End conn.

(** ** What the handlers do *)

(** One queue of a broadcast: the frame is queued, or the slow client leaves
    all its rooms. *)
Definition push_one (frame : bytes) (s : Chat.Hub) (d : nat) : Chat.Hub :=
  let '(ok, s') := Chat.try_send d frame s in
  if (ok : bool) then s' else Chat.unregisterAll d s'.
Definition push_all (frame : bytes) (l : list nat) (s : Chat.Hub) : Chat.Hub :=
  foldl (push_one frame) s l.

(** The client record of a connection. *)
Definition client (s : Chat.Hub) (c : nat) : Chat.Client :=
  default (Chat.new_client "") (Chat.clients s !! c).

Section laws.
Context `{Laws W} (h : Conf).

(** Redis and the database were left alone. *)
Definition stored_same (w w' : W) : Prop := keys w' = keys w /\ sql_log w' = sql_log w.

(** The connection was sent an error, in hub state [s], and nothing else. *)
Definition erred (c : nat) (code : Z) (msg : string) (s : Chat.Hub) (w w' : W) : Prop :=
  hub_of w' = (Chat.try_send c (encodeBinaryFrame OpError (error_body code msg) (respKey h)) s).2 /\
  stored_same w w'.

Lemma run_sendBinary c op body w :
  exists w', run (sendBinary h c op body) w = (tt, w') /\ stored_same w w' /\
    hub_of w' = (Chat.try_send c (encodeBinaryFrame op body (respKey h)) (hub_of w)).2.
Proof.
  destruct (run_hub (Chat.HTrySend c (encodeBinaryFrame op body (respKey h))) (fun _ => mret tt) w eq_refl)
    as (w' & Hr & (Hk & _) & Hh & Hl). exists w'. by split_and!.
Qed.

Lemma run_sendError c code msg w :
  exists w', run (sendError h c code msg) w = (tt, w') /\ erred c code msg (hub_of w) w w'.
Proof.
  destruct (run_sendBinary c OpError (error_body code msg) w) as (w' & Hr & Hs & Hh).
  exists w'. by split_and!.
Qed.

Lemma run_push_each frame l w :
  exists w', run (push_each frame l) w = (tt, w') /\ stored_same w w' /\
    hub_of w' = push_all frame l (hub_of w).
Proof.
  revert w. induction l as [|d l IH]; intros w; cbn [push_each].
  { by exists w. }
  destruct (run_hub (Chat.HTrySend d frame)
    (fun ok : bool => if ok then push_each frame l else _ ← go (hub (Chat.HUnregister d)); push_each frame l)
    w eq_refl) as (w1 & -> & (Hk & _) & Hh & Hl).
  cbn [Chat.hub_step] in *. unfold push_all. cbn [foldl]. unfold push_one at 2.
  destruct (Chat.try_send d frame (hub_of w)) as [[] s'] eqn:E; cbn [fst snd] in *.
  - destruct (IH w1) as (w2 & -> & [Hk2 Hl2] & Hh2). exists w2. rewrite Hh2, Hh.
    split_and!; [done|split; congruence|done].
  - rewrite run_bind. unfold go. cbn [run]. 
    destruct (run_hub (Chat.HUnregister d) Ret w1 eq_refl) as (w2 & Hr2 & (Hk2 & _) & Hh2 & Hl2).
    change (run (hub (Chat.HUnregister d) ≫= Ret) w1) with (run (hub (Chat.HUnregister d)) w1) in Hr2.
    cbn [run] in Hr2. rewrite Hr2. cbn [fst snd run mret prog_mret].
    destruct (IH w2) as (w3 & -> & [Hk3 Hl3] & Hh3). exists w3.
    rewrite Hh3, Hh2, Hh. split_and!; [done|split; congruence|done].
Qed.

Lemma run_broadcast room op body w :
  exists w' l, run (broadcast h room op body) w = (tt, w') /\ stored_same w w' /\
    l ≡ₚ elements (Chat.members (hub_of w) room) /\
    hub_of w' = push_all (encodeBinaryFrame op body (respKey h)) l (hub_of w).
Proof.
  unfold broadcast.
  destruct (run_members room (fun l => push_each (encodeBinaryFrame op body (respKey h)) l) w)
    as (w1 & l & -> & (Hk & _) & Hh & Hl & Hp).
  destruct (run_push_each (encodeBinaryFrame op body (respKey h)) l w1) as (w2 & -> & [Hk2 Hl2] & Hh2).
  exists w2, l. rewrite Hh2, Hh. split_and!; [done|split; congruence|done|done].
Qed.

Lemma run_find_user uid w :
  exists w' r, run (User.FindByUid (sch h) uid) w = (r, w') /\ same_state w w'.
Proof.
  unfold User.FindByUid.
  match goal with |- context [run (sql_query ?q ?l ≫= ?k) w] =>
    destruct (run_query q l k w) as (w' & a & -> & Hs & _) end.
  by exists w', (not_found (Sql.scan_one User.scanUser a)).
Qed.

(** [v] comes after [w] with the same hub, Redis and log of statements. *)
Definition seen (w v : W) : Prop := same_state w v /\ later w v.
Lemma seen_refl w : seen w w.
Proof. split; [apply same_state_refl|reflexivity]. Qed.
Lemma seen_trans w w1 w2 : seen w w1 -> seen w1 w2 -> seen w w2.
Proof. intros [Ha Hb] [Hc Hd]. split; [by eapply same_state_trans|by etrans]. Qed.

(** The account of the connection is banned: the database, asked next, gives a
    row whose status is not the normal one. *)
Definition user_banned (cl : Chat.Client) (w : W) : Prop :=
  usersModel h = true /\ 0 < Chat.uid cl /\
  exists v u, seen w v /\ (run (User.FindByUid (sch h) (Chat.uid cl)) v).1 = Ok u /\ User.Status u <> 1.
(** It is not: when the database is asked it gives the normal status, or no row. *)
Definition user_clear (cl : Chat.Client) (w : W) : Prop :=
  usersModel h = true -> 0 < Chat.uid cl ->
  exists v, seen w v /\ forall u, (run (User.FindByUid (sch h) (Chat.uid cl)) v).1 = Ok u -> User.Status u = 1.

(** The address is in one of Redis's two sets of banned addresses at [t]. *)
Definition in_set (set x : string) (t : Z) (m : kv) : Prop :=
  exists s d, find t m set = Some (Entry (VSet s) d) /\ x ∈ s.
Definition ban_sets : list string := ["ban:ip:list"; "black:ip:list"].
Definition ip_banned (cl : Chat.Client) (w w' : W) : Prop :=
  Chat.ip cl <> "" /\ rdb h = true /\
  exists set t, set ∈ ban_sets /\ clock w <= t <= clock w' /\ in_set set (Chat.ip cl) t (keys w).
(** It was in neither, as far as a Redis that is up could tell. *)
Definition ip_clear (cl : Chat.Client) (w w' : W) : Prop :=
  Chat.ip cl <> "" -> rdb h = true -> healthy w ->
  forall set, set ∈ ban_sets -> exists t, clock w <= t <= clock w' /\ ~ in_set set (Chat.ip cl) t (keys w).

Lemma run_check_status cl w :
  exists w' r, run (check_status h cl) w = (r, w') /\ same_state w w' /\
    ((r = None /\ user_clear cl w) \/ (r = Some (ErrCodeAccountDisabled, "账号已封禁") /\ user_banned cl w)).
Proof.
  unfold check_status, user_clear, user_banned. destruct (usersModel h); cbn [andb].
  2:{ exists w, None. split_and!; [done|apply same_state_refl|by left]. }
  destruct (0 <? Chat.uid cl) eqn:Eu; bool_to_prop.
  2:{ exists w, None. split_and!; [done|apply same_state_refl|left; split; [done|lia]]. }
  rewrite run_bind. destruct (run_find_user (Chat.uid cl) w) as (w' & r & E & Hs). rewrite E. cbn [fst snd].
  exists w'. destruct r as [u|e].
  - destruct (User.Status u =? 1) eqn:Est; cbn [negb]; bool_to_prop; eexists; split_and!; [done|done| |done|done|].
    + left. split; [done|]. intros _ _. exists w. split; [apply seen_refl|]. rewrite E. by intros u' [= <-].
    + right. split_and!; [done|done|done|]. exists w, u. rewrite E. split; [apply seen_refl|done].
  - eexists. split_and!; [done|done|]. left. split; [done|]. intros _ _. exists w.
    split; [apply seen_refl|]. by rewrite E.
Qed.

Lemma run_sismember {B} set x (k : res bool -> prog B) w :
  exists w1 r, run (redis (RSismember set x) ≫= k) w = run (k r) w1 /\ same_state w w1 /\
    (r = Ok true -> in_set set x (clock w1) (keys w)) /\
    (healthy w -> healthy w1 /\ (r <> Ok true -> ~ in_set set x (clock w1) (keys w))).
Proof.
  pose proof (handle_read (RSismember set x) w eq_refl) as Hs. pose proof (redis_any (RSismember set x) w) as Ha.
  pose proof (fun Hh => redis_up (RSismember set x) w Hh) as Hu.
  assert (run (redis (RSismember set x) ≫= k) w = let '(r, w1) := handle (Redis (RSismember set x)) w in run (k r) w1)
    as -> by done.
  destruct (handle (Redis (RSismember set x)) w) as [r w1]. cbn [snd] in Hs. exists w1, r.
  split_and!; [done|done| |].
  - cbn [redis_step] in Ha. intros ->. unfold in_set. destruct (find (clock w1) (keys w) set) as [[[] d]|];
      destruct Ha as (_ & [[Ha _]|[[e Ha] _]]); try discriminate Ha.
    injection Ha as Ha. apply bool_decide_eq_true in Ha. eauto.
  - intros Hh. specialize (Hu Hh). cbn [redis_step] in Hu. unfold in_set.
    destruct (find (clock w1) (keys w) set) as [[v d]|]; [destruct v|];
      destruct Hu as (Hr & _ & Hh1 & _); (split; [exact Hh1|]); intros Hno (s0 & d0 & [=] & Hin); subst.
    apply Hno. cbn [same_answer] in Hr. rewrite <- Hr. by rewrite bool_decide_eq_true_2.
Qed.

Lemma run_check_ip cl w :
  exists w' r, run (check_ip h cl) w = (r, w') /\ same_state w w' /\
    ((r = None /\ ip_clear cl w w') \/ (r = Some (ErrCodeMuted, "您的IP已被禁言") /\ ip_banned cl w w')).
Proof.
  unfold check_ip, ip_clear, ip_banned. destruct (String.eqb_spec (Chat.ip cl) "") as [Hip|Hip]; cbn [negb andb].
  { exists w, None. split_and!; [done|apply same_state_refl|by left]. }
  destruct (rdb h); [|exists w, None; split_and!; [done|apply same_state_refl|by left]].
  match goal with |- context [run (redis (RSismember ?s ?x) ≫= ?k) w] =>
    destruct (run_sismember s x k w) as (w1 & r1 & -> & Hs1 & Hy1 & Hn1) end.
  pose proof Hs1 as (Hk1 & _ & _ & Ht1).
  assert (r1 <> Ok true -> exists w' r', run (b2 ← redis (RSismember "black:ip:list" (Chat.ip cl));
      match b2 with Ok true => mret (Some (ErrCodeMuted, "您的IP已被禁言")) | _ => mret None end) w1 = (r', w') /\
    same_state w w' /\ ((r' = None /\ (Chat.ip cl <> "" -> true = true -> healthy w ->
        forall set, set ∈ ban_sets -> exists t, clock w <= t <= clock w' /\ ~ in_set set (Chat.ip cl) t (keys w))) \/
      (r' = Some (ErrCodeMuted, "您的IP已被禁言") /\ Chat.ip cl <> "" /\ true = true /\
        exists set t, set ∈ ban_sets /\ clock w <= t <= clock w' /\ in_set set (Chat.ip cl) t (keys w)))) as Hgo.
  { intros Hno. match goal with |- context [run (redis (RSismember ?s ?x) ≫= ?k) w1] =>
      destruct (run_sismember s x k w1) as (w2 & r2 & -> & Hs2 & Hy2 & Hn2) end.
    pose proof Hs2 as (_ & _ & _ & Ht2). rewrite Hk1 in Hy2, Hn2. pose proof (same_state_trans _ _ _ Hs1 Hs2) as Hs.
    assert (r2 = Ok true \/ r2 <> Ok true) as [->|Hno2] by (destruct r2 as [[]|]; auto).
    - exists w2. eexists. split_and!; [done|done|]. right. split_and!; [done|done|done|].
      exists "black:ip:list", (clock w2). split_and!; [by right; left|lia|lia|auto].
    - exists w2, None. split_and!; [by destruct r2 as [[]|]|done|]. left. split; [done|]. intros _ _ Hh set Hset.
      destruct (Hn1 Hh) as [Hh1 Hni1]. apply elem_of_cons in Hset as [->|Hset].
      + exists (clock w1). split; [lia|auto].
      + apply list_elem_of_singleton in Hset as ->. exists (clock w2). split; [lia|]. by apply Hn2. }
  destruct r1 as [[]|]; [|by apply Hgo..].
  exists w1. eexists. split_and!; [done|done|]. right. split_and!; [done|done|done|].
  exists "ban:ip:list", (clock w1). split_and!; [by left|lia|lia|auto].
Qed.

Lemma run_allowSend c w :
  exists w' t, run (allowSend h c) w = ((slide (ratePerMin h) t (Chat.sendTimes (client (hub_of w) c))).2, w') /\
    stored_same w w' /\ clock w <= t /\
    hub_of w' = Chat.on_client c
      (Chat.with_sendTimes (slide (ratePerMin h) t (Chat.sendTimes (client (hub_of w) c))).1) (hub_of w).
Proof.
  unfold allowSend.
  match goal with |- context [run (now ≫= ?k) w] =>
    destruct (run_time k w) as (w1 & -> & Hk1 & Hh1 & Hl1 & Ht1) end.
  match goal with |- context [run (hub ?o ≫= ?k) w1] =>
    destruct (run_hub o k w1 eq_refl) as (w2 & -> & (Hk2 & _) & Hh2 & Hl2) end.
  cbn [Chat.hub_step fst snd] in *. change (default (Chat.new_client "") (Chat.clients (hub_of w1) !! c))
    with (client (hub_of w1) c). rewrite Hh1 in *.
  destruct (slide (ratePerMin h) (clock w1) (Chat.sendTimes (client (hub_of w) c))) as [times ok] eqn:E.
  match goal with |- context [run (hub ?o ≫= ?k) w2] =>
    destruct (run_hub o k w2 eq_refl) as (w3 & -> & (Hk3 & _) & Hh3 & Hl3) end.
  cbn [Chat.hub_step fst snd] in *. exists w3, (clock w1). rewrite E. cbn [fst snd].
  split_and!; [done|split; congruence|done|]. by rewrite Hh3, Hh2.
Qed.

(** What persisting and numbering do to the hub and the log: nothing. *)
Lemma run_persist_aside room body w :
  exists w', run (persistHistory h room body) w = (tt, w') /\
    hub_of w' = hub_of w /\ sql_log w' = sql_log w.
Proof.
  unfold persistHistory. destruct (negb (rdb h)); [by exists w|].
  do 3 match goal with |- context [run (redis ?q ≫= ?k) ?w0] =>
    destruct (run_redis_aside q k w0) as (? & ? & -> & ? & ? & _) end.
  eexists. split_and!; [done|congruence|congruence].
Qed.

Lemma run_next_msg_id t w :
  exists w' id, run (next_msg_id h t) w = (id, w') /\ hub_of w' = hub_of w /\ sql_log w' = sql_log w.
Proof.
  unfold next_msg_id. rewrite run_bind. destruct (rdb h); [|by eexists _, _].
  match goal with |- context [run (redis ?q ≫= ?k) ?w0] =>
    destruct (run_redis_aside q k w0) as (w1 & [id|e] & -> & ? & ? & _) end; by eexists _, _.
Qed.

Lemma run_insert_message m w : ChatMsg.SendTime m <> ChatMsg.zero_time -> ChatMsg.CreatedAt m = 0 ->
  ChatMsg.Status m <> 0 ->
  exists w' r created, run (ChatMsg.Insert (sch h) m) w = (r, w') /\ hub_of w' = hub_of w /\
    sql_log w' = sql_log w ++ [(ChatMsg.insert_sql (sch h),
      ChatMsg.insert_args (ChatMsg.MkMessage (ChatMsg.ID m) (ChatMsg.SendUID m) (ChatMsg.RoomNum m)
        (ChatMsg.SendTime m) (ChatMsg.Content m) (ChatMsg.Type_ m) (ChatMsg.IP m) (ChatMsg.Status m) created))].
Proof.
  intros H1 H2 H3. unfold ChatMsg.Insert. rewrite run_bind.
  rewrite (proj2 (Z.eqb_neq _ _) H1), (proj2 (Z.eqb_neq _ _) H3), H2. cbn [fst snd run mret prog_mret].
  rewrite run_bind. change (0 =? 0) with true. cbv iota.
  match goal with |- context [run (now ≫= ?k) w] =>
    destruct (run_time k w) as (w1 & -> & Hk1 & Hh1 & Hl1 & _) end. cbn [fst snd run mret prog_mret].
  match goal with |- context [run (sql_exec ?q ?a ≫= ?k) w1] =>
    destruct (run_exec q a k w1) as (w2 & r & -> & _ & Hh2 & Hl2) end.
  exists w2. do 2 eexists. rewrite Hh2, Hl2, Hh1, Hl1. by split_and!.
Qed.

Lemma try_send_members c frame s room : Chat.members (Chat.try_send c frame s).2 room = Chat.members s room.
Proof. unfold Chat.try_send. destruct (_ !! c); [|done]. by destruct (_ <? _). Qed.

(** The message row and the pushed body of an accepted comment. *)
Definition posted (c : nat) (cl : Chat.Client) (b : commentBody) (s : Chat.Hub) (w w' : W) : Prop :=
  let room := c_roomNum b in
  let content := clean h (c_content b) in
  let msgType := if c_msgType b =? 0 then 1 else c_msgType b in
  exists t id created l,
    clock w <= t /\ l ≡ₚ elements (Chat.members s room) /\
    hub_of w' = push_all
      (encodeBinaryFrame OpCommentPush (push_body cl room content msgType t id) (respKey h)) l
      (Chat.try_send c (encodeBinaryFrame OpCommentSuccess empty_object (respKey h)) s).2 /\
    sql_log w' = sql_log w ++
      (if chatMessages h
       then [(ChatMsg.insert_sql (sch h), ChatMsg.insert_args
               (ChatMsg.MkMessage id (Chat.uid cl) room t content (wraps 32 msgType) (Chat.ip cl) 1 created))]
       else []).

Lemma run_post c cl b w : 0 <= clock w ->
  exists w', run (post h c cl (c_roomNum b) (clean h (c_content b)) (c_msgType b)) w = (tt, w') /\
    posted c cl b (hub_of w) w w'.
Proof.
  intros Hpos. unfold post.
  match goal with |- context [run (now ≫= ?k) w] =>
    destruct (run_time k w) as (w1 & -> & Hk1 & Hh1 & Hl1 & Ht1) end.
  rewrite run_bind. destruct (run_next_msg_id (clock w1) w1) as (w2 & id & -> & Hh2 & Hl2). cbn [fst snd].
  set (body := push_body _ _ _ _ _ _). rewrite run_bind.
  set (row := fun created => ChatMsg.insert_args (ChatMsg.MkMessage id (Chat.uid cl) (c_roomNum b) (clock w1)
    (clean h (c_content b)) (wraps 32 (if c_msgType b =? 0 then 1 else c_msgType b)) (Chat.ip cl) 1 created)).
  assert (exists w3 r created, run (if chatMessages h then ChatMsg.Insert (sch h) (ChatMsg.MkMessage id (Chat.uid cl)
      (c_roomNum b) (clock w1) (clean h (c_content b)) (wraps 32 (if c_msgType b =? 0 then 1 else c_msgType b))
      (Chat.ip cl) 1 0) else mret None) w2 = (r, w3) /\ hub_of w3 = hub_of w2 /\
    sql_log w3 = sql_log w2 ++ (if chatMessages h then [(ChatMsg.insert_sql (sch h), row created)] else []))
    as (w3 & r & created & -> & Hh3 & Hl3).
  { destruct (chatMessages h).
    - apply run_insert_message; [|done|done]. cbn. unfold ChatMsg.zero_time, Second. lia.
    - exists w2, None, 0. by rewrite app_nil_r. }
  cbn [fst snd]. rewrite run_bind.
  destruct (run_persist_aside (c_roomNum b) body w3) as (w4 & -> & Hh4 & Hl4). cbn [fst snd]. rewrite run_bind.
  destruct (run_sendBinary c OpCommentSuccess empty_object w4) as (w5 & -> & [Hk5 Hl5] & Hh5). cbn [fst snd].
  destruct (run_broadcast (c_roomNum b) OpCommentPush body w5) as (w6 & l & -> & [Hk6 Hl6] & Hp & Hh6).
  exists w6. split; [done|]. exists (clock w1), id, created, l.
  rewrite Hh5, try_send_members, Hh4, Hh3, Hh2, Hh1 in Hp.
  rewrite Hh6, Hh5, Hh4, Hh3, Hh2, Hh1, Hl6, Hl5, Hl4, Hl3, Hl2, Hl1. by split_and!.
Qed.

(** Who may speak in a room. *)
Definition may_speak (cl : Chat.Client) (room : string) : Prop :=
  Chat.authenticated cl = true /\ room <> "" /\ room ∈ Chat.rooms cl /\ Chat.isGuest cl = false /\
  Chat.mutedRooms cl !! room <> Some true.

(** Who may not, and what it is told. *)
Inductive turned_away (cl : Chat.Client) (room : string) : Z -> string -> Prop :=
| away_login : Chat.authenticated cl = false -> turned_away cl room ErrCodeUnauthorized "login required"
| away_unnamed : Chat.authenticated cl = true -> room = "" ->
    turned_away cl room ErrCodeNotInChatServer "missing roomNum"
| away_outside : Chat.authenticated cl = true -> room <> "" -> room ∉ Chat.rooms cl ->
    turned_away cl room ErrCodeNotInChatServer "not in room"
| away_guest : Chat.authenticated cl = true -> room <> "" -> room ∈ Chat.rooms cl -> Chat.isGuest cl = true ->
    turned_away cl room ErrCodeMuted "guests cannot speak"
| away_muted : Chat.authenticated cl = true -> room <> "" -> room ∈ Chat.rooms cl -> Chat.isGuest cl = false ->
    Chat.mutedRooms cl !! room = Some true -> turned_away cl room ErrCodeMuted "未开播直播间不可以发言".

(** The message within the rate, at [t]: the times kept are [times]. *)
Definition within_rate (ok : bool) (cl : Chat.Client) (t : Z) (times : list Z) (w : W) : Prop :=
  clock w <= t /\ slide (ratePerMin h) t (Chat.sendTimes cl) = (times, ok).
Definition recorded (c : nat) (times : list Z) (w : W) : Chat.Hub :=
  Chat.on_client c (Chat.with_sendTimes times) (hub_of w).

(** What becomes of a comment whose text is looked at. *)
Inductive text_outcome (c : nat) (cl : Chat.Client) (b : commentBody) (w w' : W) : Prop :=
| text_empty : sanitize (c_content b) = "" -> same_state w w' -> text_outcome c cl b w w'
| text_rate t times : sanitize (c_content b) <> "" -> within_rate false cl t times w ->
    erred c ErrCodeMuted "rate limit" (recorded c times w) w w' -> text_outcome c cl b w w'
| text_word t times word : sanitize (c_content b) <> "" -> within_rate true cl t times w ->
    matchBlockword (clean h (c_content b)) = Some word ->
    erred c ErrCodeSensitiveWord "请勿发布敏感内容，多次违规将封号处理" (recorded c times w) w w' -> text_outcome c cl b w w'
| text_posted t times : sanitize (c_content b) <> "" -> within_rate true cl t times w ->
    matchBlockword (clean h (c_content b)) = None -> posted c cl b (recorded c times w) w w' -> text_outcome c cl b w w'.

(** What becomes of a comment. *)
Inductive comment_outcome (c : nat) (cl : Chat.Client) (b : commentBody) (w w' : W) : Prop :=
| out_away code msg : turned_away cl (c_roomNum b) code msg -> erred c code msg (hub_of w) w w' ->
    comment_outcome c cl b w w'
| out_user : may_speak cl (c_roomNum b) -> user_banned cl w ->
    erred c ErrCodeAccountDisabled "账号已封禁" (hub_of w) w w' -> comment_outcome c cl b w w'
| out_ip : may_speak cl (c_roomNum b) -> user_clear cl w -> ip_banned cl w w' ->
    erred c ErrCodeMuted "您的IP已被禁言" (hub_of w) w w' -> comment_outcome c cl b w w'
| out_text : may_speak cl (c_roomNum b) -> user_clear cl w -> ip_clear cl w w' -> text_outcome c cl b w w' ->
    comment_outcome c cl b w w'.

Lemma precheck_spec cl room :
  match precheck cl room with
  | Some (code, msg) => turned_away cl room code msg
  | None => may_speak cl room
  end.
Proof.
  unfold precheck. destruct (Chat.authenticated cl) eqn:Ea; cbn [negb]; [|by apply away_login].
  destruct (String.eqb_spec room "") as [Hr|Hr]; [by apply away_unnamed|].
  destruct (decide (room ∈ Chat.rooms cl)) as [Hi|Hi].
  - rewrite bool_decide_eq_true_2 by done. cbn [negb]. destruct (Chat.isGuest cl) eqn:Eg; [by apply away_guest|].
    destruct (Chat.mutedRooms cl !! room) as [[]|] eqn:Em; cbn [default]; [by apply away_muted|..];
      split_and!; try done; by rewrite Em.
  - rewrite bool_decide_eq_false_2 by done. cbn [negb]. by apply away_outside.
Qed.

Lemma stored_same_trans w w1 w2 : stored_same w w1 -> stored_same w1 w2 -> stored_same w w2.
Proof. intros [? ?] [? ?]. split; congruence. Qed.

Lemma erred_from c code msg s w w1 w2 : stored_same w w1 -> erred c code msg s w1 w2 ->
  erred c code msg s w w2.
Proof. intros Hs [He Hs2]. split; [done|]. by eapply stored_same_trans. Qed.

Lemma posted_later c cl b s w0 w w' : stored_same w0 w -> clock w0 <= clock w ->
  posted c cl b s w w' -> posted c cl b s w0 w'.
Proof.
  intros [_ Hl] Ht (t & id & cr & l & Hu & Hp & Hh & Hlog). exists t, id, cr, l. rewrite <- Hl. split_and!; [lia|done..].
Qed.

Lemma run_comment_text c b w : 0 <= clock w ->
  let cl := client (hub_of w) c in
  exists w', run (comment_text h c cl b) w = (tt, w') /\ text_outcome c cl b w w'.
Proof.
  intros Hpos cl. unfold comment_text.
  destruct (String.eqb_spec (sanitize (c_content b)) "") as [He|He].
  { exists w. split; [done|]. by apply text_empty; [|apply same_state_refl]. }
  rewrite run_bind. destruct (run_allowSend c w) as (w1 & t & Ea & Hs1 & Ht & Hh1). rewrite Ea. cbn [fst snd].
  fold cl in Hh1 |- *.
  destruct (slide (ratePerMin h) t (Chat.sendTimes cl)) as [times ok] eqn:Es. cbn [fst snd] in *.
  assert (within_rate ok cl t times w) as Hw by done. apply run_clock_eq in Ea.
  destruct ok; cbn [negb].
  - destruct (matchBlockword (clean h (c_content b))) as [word|] eqn:Eb.
    + destruct (run_sendError c ErrCodeSensitiveWord "请勿发布敏感内容，多次违规将封号处理" w1) as (w2 & -> & He2).
      exists w2. split; [done|]. apply (text_word c cl b w w2 t times word); [done..|].
      rewrite Hh1 in He2. by eapply erred_from.
    + destruct (run_post c cl b w1 ltac:(lia)) as (w2 & -> & Hp).
      exists w2. split; [done|]. apply (text_posted c cl b w w2 t times); [done..|].
      rewrite Hh1 in Hp. by apply (posted_later _ _ _ _ w w1).
  - destruct (run_sendError c ErrCodeMuted "rate limit" w1) as (w2 & -> & He2).
    exists w2. split; [done|]. apply (text_rate c cl b w w2 t times); [done..|].
    rewrite Hh1 in He2. by eapply erred_from.
Qed.

(** The outcome in a state is that in any state it was reached from by looking. *)
Lemma erred_earlier c code msg s w w1 w' : same_state w w1 -> erred c code msg s w1 w' -> erred c code msg s w w'.
Proof. intros (Hk & _ & Hl & _) He. by eapply erred_from. Qed.

Lemma text_outcome_earlier c cl b w w1 w' : same_state w w1 -> text_outcome c cl b w1 w' -> text_outcome c cl b w w'.
Proof.
  intros Hs Hout. pose proof Hs as (Hk & Hh & Hl & Ht).
  assert (forall ok t times, within_rate ok cl t times w1 -> within_rate ok cl t times w) as Hr.
  { intros ok t times [Hu Hsl]. split; [lia|done]. }
  assert (forall times, recorded c times w1 = recorded c times w) as Hrec by (intros; unfold recorded; by rewrite Hh).
  destruct Hout as [He Hs'|t times He Hw Herr|t times word He Hw Hb Herr|t times He Hw Hb Hp].
  - apply text_empty; [done|by eapply same_state_trans].
  - apply (text_rate c cl b w w' t times); [done|auto|]. rewrite <- Hrec. by eapply erred_earlier.
  - apply (text_word c cl b w w' t times word); [done|auto|done|]. rewrite <- Hrec. by eapply erred_earlier.
  - apply (text_posted c cl b w w' t times); [done|auto|done|]. rewrite <- Hrec. by apply (posted_later _ _ _ _ w w1).
Qed.

Lemma run_handleComment (c : nat) (body : bytes) (w w' : W)
    (Hrun : run (handleComment h c body) w = (tt, w')) (Hpos : 0 <= clock w) :
  comment_outcome c (client (hub_of w) c) (decode comment_fields (MkComment "" 0 "" 0) body) w w'.
Proof.
  set (cl := client (hub_of w) c). set (b := decode comment_fields _ body). unfold handleComment in Hrun.
  apply run_bind_inv in Hrun as (cl0 & w1 & Er & Hrun).
  destruct (run_hub (Chat.HRead c) mret w eq_refl) as (w1' & Hr & (Hk1 & Ht1 & Hup1) & Hh1 & Hl1).
  change (hub (Chat.HRead c) ≫= mret) with (hub (Chat.HRead c)) in Hr. rewrite Er, run_ret in Hr. injection Hr as -> <-.
  cbn [Chat.hub_step fst snd] in Hrun, Hh1. assert (same_state w w1) as Hs1 by (split_and!; done).
  assert (seen w w1) as Hseen by (split; [exact Hs1|by eapply run_later]).
  change (default (Chat.new_client "") (Chat.clients (hub_of w) !! c)) with cl in Hrun. fold b in Hrun.
  assert (forall code msg w3, same_state w w3 -> run (sendError h c code msg) w3 = (tt, w') ->
    erred c code msg (hub_of w) w w') as Herr.
  { intros code msg w3 Hs Hr. destruct (run_sendError c code msg w3) as (w4 & E & He).
    rewrite E in Hr. injection Hr as <-. pose proof Hs as (_ & Hh & _). rewrite Hh in He. by eapply erred_earlier. }
  pose proof (precheck_spec cl (c_roomNum b)) as Hpre. destruct (precheck cl (c_roomNum b)) as [[code msg]|].
  { apply (out_away c cl b w w' code msg); [done|by apply (Herr _ _ w1)]. }
  apply run_bind_inv in Hrun as (r & w2 & Est & Hrun). pose proof (run_healthy_eq _ _ _ _ Est) as Hup2.
  destruct (run_check_status cl w1) as (w2' & r' & E & Hs2 & Hres). rewrite Est in E. injection E as <- <-.
  pose proof (same_state_trans _ _ _ Hs1 Hs2) as Hs12.
  destruct Hres as [[-> Hcl]|[-> (Hm & Hu & v & u & Hv & Hbn)]].
  2:{ apply out_user; [done| |by apply (Herr _ _ w2)]. split_and!; [done|done|]. exists v, u.
      split; [exact (seen_trans _ _ _ Hseen Hv)|done]. }
  assert (user_clear cl w) as Hclear.
  { intros Hm Hu. destruct (Hcl Hm Hu) as (v & Hv & Hok). exists v. split; [exact (seen_trans _ _ _ Hseen Hv)|done]. }
  rewrite run_bind in Hrun. destruct (run_check_ip cl w2) as (w3 & r & E & Hs3 & Hres).
  rewrite E in Hrun. clear E. cbn [fst snd] in Hrun. pose proof (same_state_trans _ _ _ Hs12 Hs3) as Hs13.
  pose proof Hs12 as (Hk2 & _ & _ & Ht2). pose proof (run_clock_eq _ _ _ _ Hrun) as Hend.
  destruct Hres as [[-> Hcl3]|[-> (Hip & Hrd & set & t & Hset & Ht & Hin)]].
  2:{ apply out_ip; [done|done| |by apply (Herr _ _ w3)]. split_and!; [done|done|]. exists set, t.
      rewrite <- Hk2. split_and!; [done|lia|lia|done]. }
  pose proof Hs13 as (Hk3 & Hh3 & Hl3 & Ht3). apply out_text; [done|done| |].
  - intros Hip Hrd Hh set Hset. destruct (Hcl3 Hip Hrd ltac:(auto) set Hset) as (t & Ht & Hni).
    exists t. rewrite <- Hk2. split; [lia|done].
  - destruct (run_comment_text c b w3 ltac:(lia)) as (w4 & E & Hout). rewrite Hh3 in E, Hout. fold cl in E, Hout.
    rewrite E in Hrun. injection Hrun as <-. by apply (text_outcome_earlier _ _ _ _ w3).
Qed.

(** C27. What a comment does, in any state of the services.  A connection that
    is not logged in, names no room, has not joined the room, is a guest, or
    has the room's mute flag set is sent the error for that, the first of these
    that holds.  One that is none of those is sent the account error only
    when the database gave its user a status other than the normal one, and
    goes on only when it did not; it is sent the address error only when its
    address is in one of the two ban sets, and goes on, with Redis up, only
    when it is in neither.  Past those an empty text is dropped, a text over the
    rate or with a block word is an error, and any other is posted: one row goes
    to the database (where messages are stored), and the push built from the
    escaped, cut text is queued for the members of the room, after the
    sender's acknowledgement.  Every way short of posting leaves Redis and the
    database alone and sends nobody else anything. *)
Theorem handleComment_outcome (c : nat) (body : bytes) (w w' : W)
    (Hrun : run (handleComment h c body) w = (tt, w')) (Hpos : 0 <= clock w) :
  comment_outcome c (client (hub_of w) c) (decode comment_fields (MkComment "" 0 "" 0) body) w w'.
Proof. by apply run_handleComment. Qed.

(** *** Mute flags *)

(** Every access but the one that sets mute flags, and accepting a client. *)
Definition keeps_mute (X : Type) (e : ev X) : bool :=
  match e with
  | HubOp (Chat.HMute _ _ _) | HubOp (Chat.HAccept _) => false
  | _ => true
  end.

Definition muted_of (w : W) (c : nat) : gmap string bool := Chat.mutedRooms (client (hub_of w) c).

Lemma client_on_client i f s c : client (Chat.on_client i f s) c =
  if decide (i = c) then match Chat.clients s !! c with Some cl => f cl | None => Chat.new_client "" end
  else client s c.
Proof.
  unfold client. rewrite Chat.lookup_on_client. destruct (decide (i = c)) as [->|]; [|done].
  by destruct (Chat.clients s !! c).
Qed.

Lemma muted_on_client i f s c : (forall cl, Chat.mutedRooms (f cl) = Chat.mutedRooms cl) ->
  Chat.mutedRooms (client (Chat.on_client i f s) c) = Chat.mutedRooms (client s c).
Proof.
  intros Hf. rewrite client_on_client. destruct (decide (i = c)) as [->|]; [|done].
  unfold client. destruct (Chat.clients s !! c); cbn; [apply Hf|done].
Qed.

Lemma keeps_mute_handle X (e : ev X) w c : keeps_mute X e = true ->
  muted_of (handle e w).2 c = muted_of w c.
Proof.
  intros He. unfold muted_of. destruct e as [| | | | | | | | | | | |A o| | | |];
    try (by rewrite hub_kept). pose proof (hub_law o w) as Hl.
  destruct (handle (HubOp o) w) as [r w']. destruct (Chat.hub_step o (hub_of w)) as [r0 s] eqn:E.
  destruct Hl as [_ Hl]. cbn [snd]. rewrite Hl. revert E.
  destruct o; try discriminate He; cbn [Chat.hub_step]; try (intros [= <- <-]); try done;
    try (by apply muted_on_client).
  - unfold Chat.if_client, Chat.joinRoom. destruct (_ !! _); [|done]. by rewrite muted_on_client.
  - unfold Chat.if_client, Chat.leaveRoom. destruct (_ !! _); [|done]. by rewrite muted_on_client.
  - unfold Chat.unregisterAll. destruct (_ !! _); [|done]. by rewrite muted_on_client.
  - unfold Chat.try_send. destruct (_ !! _); [|by intros [= <- <-]].
    destruct (_ <? _); intros [= <- <-]; [by rewrite muted_on_client|done].
  - unfold Chat.try_recv. destruct (_ !! _); [|by intros [= <- <-]].
    destruct (Chat.send _); intros [= <- <-]; [done|by rewrite muted_on_client].
Qed.

Lemma run_keeps_mute {A} (p : prog A) w c : all_ev keeps_mute p -> muted_of (run p w).2 c = muted_of w c.
Proof.
  intros Hp.
  assert (PreOrder (fun w w' => muted_of w' c = muted_of w c)) as HP.
  { split; [by intros ?|]. intros ? ? ? E1 E2. by rewrite E2, E1. }
  exact (run_all_ev keeps_mute (fun w w' => muted_of w' c = muted_of w c)
    (fun X e w0 => keeps_mute_handle X e w0 c) p w Hp).
Qed.

Lemma keeps_push_each frame l : all_ev keeps_mute (push_each frame l).
Proof. induction l as [|d l IH]; cbn [push_each]; walk_ev. Qed.
Lemma keeps_queue_each c l : all_ev keeps_mute (queue_each h c l).
Proof. induction l as [|d l IH]; cbn [queue_each]; walk_ev. Qed.
#[local] Hint Resolve keeps_push_each keeps_queue_each : ev.

Lemma keeps_broadcast room op body : all_ev keeps_mute (broadcast h room op body).
Proof. unfold broadcast. walk_ev. Qed.
Lemma keeps_sendBinary c op body : all_ev keeps_mute (sendBinary h c op body).
Proof. unfold sendBinary. walk_ev. Qed.
#[local] Hint Resolve keeps_broadcast keeps_sendBinary : ev.

Lemma keeps_view_num room : all_ev keeps_mute (broadcastViewNum h room).
Proof. unfold broadcastViewNum, LiveRoom.FindByRoomNum. walk_ev. Qed.
Lemma keeps_notice c room content ty : all_ev keeps_mute (sendSystemNotice h c room content ty).
Proof. unfold sendSystemNotice. walk_ev. Qed.
Lemma keeps_enter_notice room nick : all_ev keeps_mute (broadcastEnterNotice h room nick).
Proof. unfold broadcastEnterNotice. walk_ev. Qed.
Lemma keeps_replay c room : all_ev keeps_mute (replayHistory h c room).
Proof.
  assert (all_ev keeps_mute (replay_from_db h c room)) as Hdb.
  { unfold replay_from_db, ChatMsg.ListRecentByRoom. walk_ev. }
  unfold replayHistory. walk_ev.
Qed.
#[local] Hint Resolve keeps_view_num keeps_notice keeps_enter_notice keeps_replay : ev.

Lemma find_room_same room w : same_state w (run (LiveRoom.FindByRoomNum (sch h) room) w).2.
Proof.
  unfold LiveRoom.FindByRoomNum.
  match goal with |- context [run (sql_query ?q ?l ≫= ?k) w] =>
    destruct (run_query q l k w) as (w' & a & -> & Hs & _) end. exact Hs.
Qed.

Lemma run_check_dead c room r w : roomsModel h = true -> is_Some (Chat.clients (hub_of w) !! c) ->
  (run (LiveRoom.FindByRoomNum (sch h) room) w).1 = Ok r -> LiveRoom.LiveStatus r <> 1 ->
  exists w', run (check_live h c room) w = (false, w') /\ muted_of w' c !! room = Some true.
Proof.
  intros Hm [cl Hc] Hrow Hlive. unfold check_live. rewrite Hm. cbn [negb].
  rewrite run_bind. pose proof (find_room_same room w) as (_ & Hh1 & _).
  destruct (run (LiveRoom.FindByRoomNum (sch h) room) w) as [r0 w1]. cbn [fst snd] in *. subst r0.
  rewrite (proj2 (Z.eqb_neq _ _) Hlive). cbn [negb].
  match goal with |- context [run (hub ?o ≫= ?k) w1] =>
    destruct (run_hub o k w1 eq_refl) as (w2 & -> & _ & Hh2 & _) end.
  assert (muted_of w2 c !! room = Some true) as Hw2.
  { unfold muted_of. rewrite Hh2. cbn [Chat.hub_step snd]. rewrite client_on_client, decide_True by done.
    rewrite Hh1, Hc. cbn [Chat.mutedRooms Chat.with_muted]. apply lookup_partial_alter_eq. }
  rewrite run_bind.
  destruct (run (sendSystemNotice h c room "未开播直播间不可以发言" 3) w2) as [[] w3] eqn:E3.
  exists w3. split; [done|].
  pose proof (run_keeps_mute _ w2 c (keeps_notice c room "未开播直播间不可以发言" 3)) as Hk.
  rewrite E3 in Hk. cbn [snd] in Hk. by rewrite Hk.
Qed.

(** Entering a room that is not live leaves the connection muted in it. *)
Lemma enter_mutes c room r w w' : roomsModel h = true -> is_Some (Chat.clients (hub_of w) !! c) ->
  (run (LiveRoom.FindByRoomNum (sch h) room) w).1 = Ok r -> LiveRoom.LiveStatus r <> 1 ->
  run (enter_room h c room) w = (tt, w') -> muted_of w' c !! room = Some true.
Proof.
  intros Hm Hc Hrow Hlive. unfold enter_room. rewrite run_bind.
  destruct (run_check_dead c room r w Hm Hc Hrow Hlive) as (w1 & -> & Hw1). cbn [fst snd].
  match goal with |- run ?p w1 = _ -> _ => intros Hrun;
    assert (muted_of (run p w1).2 c = muted_of w1 c) as Hk by (apply run_keeps_mute; walk_ev) end.
  rewrite Hrun in Hk. cbn [snd] in Hk. by rewrite Hk.
Qed.

(** C29. Nobody speaks in a room that is not live: once a logged-in connection
    has entered a room for which the database gave a row that is not on air,
    then until the flag is lifted by another entry or a leave -- however much
    time passes and whatever the services do -- every comment it sends to the
    room is answered with an error and stored nowhere. *)
Theorem dead_room_silences (c : nat) (body comment : bytes) (room : string) (r : LiveRoom.LiveRoom)
    (w w' w1 w2 : W)
    (Hm : roomsModel h = true) (Hc : is_Some (Chat.clients (hub_of w) !! c))
    (Hauth : Chat.authenticated (client (hub_of w) c) = true)
    (Hbody : e_roomNum (decode enter_fields (MkEnter "" 0) body) = room) (Hsafe : isSafeRoom room = true)
    (Hrow : (run (LiveRoom.FindByRoomNum (sch h) room) (handle (HubOp (Chat.HRead c)) w).2).1 = Ok r)
    (Hdead : LiveRoom.LiveStatus r <> 1)
    (Henter : run (handleRoomEnter h c body) w = (tt, w'))
    (Hlater : muted_of w1 c = muted_of w' c) (Hpos : 0 <= clock w1)
    (Hcomment : c_roomNum (decode comment_fields (MkComment "" 0 "" 0) comment) = room)
    (Hsay : run (handleComment h c comment) w1 = (tt, w2)) :
  exists code msg, erred c code msg (hub_of w1) w1 w2.
Proof.
  unfold handleRoomEnter, hub in Henter. cbn [mbind prog_mbind prog_bind] in Henter. rewrite run_vis in Henter.
  assert (hub_of (handle (HubOp (Chat.HRead c)) w).2 = hub_of w /\
          (handle (HubOp (Chat.HRead c)) w).1 = client (hub_of w) c) as [Hh Hcl].
  { pose proof (hub_law (Chat.HRead c) w) as Hl. destruct (handle _ w) as [cl w0].
    cbn [Chat.hub_step Chat.hub_answer] in Hl. destruct Hl as [Ha Hb].
    cbn [fst snd]. by rewrite Hb. }
  rewrite Hcl, Hauth in Henter. cbn [negb] in Henter. rewrite Hbody, Hsafe in Henter. cbn [negb] in Henter.
  destruct (String.eqb_spec room "") as [He|_]; [by rewrite He in Hsafe|].
  apply (enter_mutes c room r) in Henter; [|done|by rewrite Hh|done..].
  pose proof (run_handleComment c comment w1 w2 Hsay Hpos) as Hout.
  assert (Chat.mutedRooms (client (hub_of w1) c) !! room = Some true) as Hmute
    by (unfold muted_of in Hlater, Henter; by rewrite Hlater, Henter).
  destruct Hout as [code msg _ He|Hmay _ _|Hmay _ _ _|Hmay _ _ _]; [by exists code, msg|..];
    destruct Hmay as (_ & _ & _ & _ & Hno); rewrite Hcomment in Hno; done.
Qed.

(** *** History *)

(** [bodies] persisted one after another. *)
Fixpoint persist_all (room : string) (bodies : list bytes) : prog unit :=
  match bodies with
  | [] => mret tt
  | b :: bodies => _ ← persistHistory h room b; persist_all room bodies
  end.

(** Redis is up and the room's list is [l], live until [D] at least; the empty
    list is an absent key. *)
Definition holds (room : string) (l : list string) (D : Z) (w : W) : Prop :=
  let key := chatHistoryKeyPrefix +:+ room in
  healthy w /\
  match l with
  | [] => find (clock w) (keys w) key = None
  | _ => exists d, keys w !! key = Some (Entry (VList l) (Some d)) /\ D <= d
  end.

Lemma list_range_prefix l L : 0 < L -> list_range l 0 (L - 1) = take (Z.to_nat L) l.
Proof.
  intros HL. unfold list_range. cbn [Z.ltb Z.compare].
  destruct (Z.ltb_spec (L - 1) 0); [lia|]. change (Z.max 0 0) with 0. cbn [Z.to_nat]. rewrite drop_0.
  destruct (Z.le_gt_cases (Z.of_nat (length l)) L).
  - rewrite !take_ge by lia. done.
  - f_equal. lia.
Qed.

Lemma live_before t d v : t < d -> live t (Entry v (Some d)) = true.
Proof. unfold live. cbn [deadline]. intros. by apply Z.ltb_lt. Qed.

(** LPUSH on the room's list, and what is live of the result. *)
Lemma lpush_step l D t t0 m key v :
  match l with
  | [] => find t0 m key = None
  | _ => exists d, m !! key = Some (Entry (VList l) (Some d)) /\ D <= d
  end -> t0 <= t < D ->
  exists d1, redis_step dbl glob t (RLpush key v) m =
      (Ok (Z.of_nat (length l) + 1), <[key := Entry (VList (v :: l)) d1]> m) /\
    forall u l', u < D -> live u (Entry (VList l') d1) = true.
Proof.
  intros Hl Ht. cbn [redis_step]. destruct l as [|x l].
  - exists None. split; [|done]. destruct (find t m key) eqn:Ef; [|done].
    apply (find_later t0) in Ef; [congruence|lia].
  - destruct Hl as (d & Hk & Hd). exists (Some d). split; [|intros; apply live_before; lia].
    unfold find. rewrite Hk. cbn [mbind option_bind]. rewrite live_before by lia. done.
Qed.

Ltac step_redis Hrun Hh w1 Ht1 Hh1 Hs1 :=
  let Hc := fresh "Hc" in
  match type of Hrun with run (redis ?c ≫= ?k) ?w = _ =>
    destruct (run_redis c k w Hh eq_refl) as (w1 & Ht1 & Hh1 & Hc & Hs1);
    rewrite Hrun in Hc; cbn [snd] in Hc end.

Lemma persist_holds room body l D w w' : rdb h = true -> 0 < historyLim h ->
  holds room l D w -> clock w' < D -> run (persistHistory h room body) w = (tt, w') ->
  holds room (take (Z.to_nat (historyLim h)) (string_of body :: l)) (clock w + 24 * Hour) w'.
Proof.
  intros Hr HL [Hh Hl] Ht Hrun. unfold persistHistory in Hrun. rewrite Hr in Hrun. cbn [negb] in Hrun.
  set (key := chatHistoryKeyPrefix +:+ room) in *. set (v := string_of body) in *.
  set (l' := take (Z.to_nat (historyLim h)) (v :: l)).
  assert (l' <> []) as Hne. { unfold l'. by destruct (Z.to_nat (historyLim h)) eqn:E; [lia|]. }
  step_redis Hrun Hh w1 Ht1 Hh1 Hs1.
  assert (clock w <= clock w1 < D) as Ht' by lia.
  destruct (lpush_step l D (clock w1) (clock w) (keys w) key v Hl Ht') as (d1 & E1 & Hlive).
  destruct (Hs1 _ _ E1) as [Hr1 Hk1]. rewrite Hr1 in Hrun.
  step_redis Hrun Hh1 w2 Ht2 Hh2 Hs2.
  assert (redis_step dbl glob (clock w2) (RLtrim key 0 (historyLim h - 1)) (keys w1) =
    (Ok tt, <[key := Entry (VList l') d1]> (keys w1))) as E2.
  { cbn [redis_step]. rewrite Hk1, find_insert_eq, Hlive, list_range_prefix by lia.
    fold l'. by rewrite decide_False. }
  destruct (Hs2 _ _ E2) as [Hr2 Hk2]. rewrite Hr2 in Hrun.
  step_redis Hrun Hh2 w3 Ht3 Hh3 Hs3.
  assert (redis_step dbl glob (clock w3) (RExpire key (24 * 3600)) (keys w2) =
    (Ok tt, <[key := Entry (VList l') (Some (clock w3 + 24 * 3600 * Second))]> (keys w2))) as E3.
  { cbn [redis_step]. by rewrite Hk2, find_insert_eq, Hlive by lia. }
  destruct (Hs3 _ _ E3) as [Hr3 Hk3]. rewrite Hr3 in Hrun. injection Hrun as <-.
  split; [done|]. fold v key l'. destruct l' as [|x l0]; [done|].
  exists (clock w3 + 24 * 3600 * Second). rewrite Hk3, lookup_insert_eq. split; [done|].
  unfold Hour, Minute, Second. lia.
Qed.

Lemma persist_all_holds room bodies l D w w' : rdb h = true -> 0 < historyLim h ->
  Z.of_nat (length l) <= historyLim h ->
  holds room l D w -> D <= clock w + 24 * Hour -> clock w' < D ->
  run (persist_all room bodies) w = (tt, w') ->
  exists D', D <= D' /\
    holds room (take (Z.to_nat (historyLim h)) (rev (map string_of bodies) ++ l)) D' w'.
Proof.
  intros Hr HL. revert l D w. induction bodies as [|b bodies IH]; intros l D w Hlen Hh HD Ht; cbn [persist_all].
  { intros [= <-]. exists D. split; [done|]. cbn [map rev app]. by rewrite take_ge by lia. }
  rewrite run_bind. destruct (run (persistHistory h room b) w) as [[] w1] eqn:E1. cbn [fst snd].
  intros Hrun. pose proof (run_clock_eq _ _ _ _ Hrun) as Hc. pose proof (run_clock_eq _ _ _ _ E1) as Hc1.
  apply (persist_holds room b l D) in E1; [|done..|lia].
  destruct (IH (take (Z.to_nat (historyLim h)) (string_of b :: l)) (clock w + 24 * Hour) w1)
    as (D' & HD' & Hh'); [|done|lia|lia|done|].
  { rewrite length_take. lia. }
  exists D'. split; [lia|]. cbn [map rev]. rewrite <- app_assoc. cbn [app].
  rewrite !take_app in *. rewrite take_take in Hh'.
  by replace ((Z.to_nat (historyLim h) - length (rev (map string_of bodies))) `min` Z.to_nat (historyLim h))%nat
    with (Z.to_nat (historyLim h) - length (rev (map string_of bodies)))%nat in Hh' by lia.
Qed.

(** The queue of a connection. *)
Definition queue_of (w : W) (c : nat) : list bytes := Chat.send (client (hub_of w) c).

Lemma run_queue_each c bodies w : is_Some (Chat.clients (hub_of w) !! c) ->
  Z.of_nat (length (queue_of w c) + length bodies) <= Chat.defaultSendQueueSize ->
  exists w', run (queue_each h c bodies) w = (tt, w') /\
    queue_of w' c = queue_of w c ++ map (fun b => encodeBinaryFrame OpCommentPush b (respKey h)) bodies.
Proof.
  revert w. induction bodies as [|b bodies IH]; intros w Hc Hlen; cbn [queue_each].
  { exists w. by rewrite app_nil_r. }
  cbn [length] in Hlen. destruct Hc as [cl Hc].
  match goal with |- context [run (hub ?o ≫= ?k) w] =>
    destruct (run_hub o k w eq_refl) as (w1 & -> & _ & Hh1 & _) end.
  set (f := encodeBinaryFrame OpCommentPush b (respKey h)) in *.
  assert (Chat.hub_step (Chat.HTrySend c f) (hub_of w) =
    (true, Chat.on_client c (Chat.with_send (Chat.send cl ++ [f])) (hub_of w))) as E.
  { cbn [Chat.hub_step]. unfold Chat.try_send. rewrite Hc. unfold queue_of, client in Hlen. rewrite Hc in Hlen.
    cbn [default] in Hlen. rewrite (proj2 (Z.ltb_lt _ _)); [done|]. cbn in Hlen |- *. lia. }
  rewrite E in *. cbn [fst snd] in *.
  assert (queue_of w1 c = queue_of w c ++ [f]) as Hq.
  { unfold queue_of. rewrite Hh1, client_on_client, decide_True, Hc by done. unfold client. by rewrite Hc. }
  destruct (IH w1) as (w2 & -> & Hq2).
  - rewrite Hh1, Chat.lookup_on_client, decide_True, Hc by done. by eexists.
  - rewrite Hq, length_app. cbn [length]. lia.
  - exists w2. split; [done|]. rewrite Hq2, Hq. cbn [map]. by rewrite <- app_assoc.
Qed.

Lemma map_string_bytes l : map (fun s => bytes_of (string_of s)) l = l.
Proof. induction l as [|b l IH]; [done|]. cbn [map]. by rewrite bytes_of_string_of, IH. Qed.

(** Replaying a list that is live throughout: every entry, oldest first. *)
Lemma run_replay c room l D w w' : rdb h = true -> l <> [] -> Z.of_nat (length l) <= historyLim h ->
  holds room l D w -> clock w' < D -> is_Some (Chat.clients (hub_of w) !! c) ->
  Z.of_nat (length (queue_of w c)) + historyLim h < Chat.defaultSendQueueSize ->
  run (replayHistory h c room) w = (tt, w') ->
  queue_of w' c = queue_of w c ++
    map (fun b => encodeBinaryFrame OpCommentPush b (respKey h)) (map bytes_of (rev l)).
Proof.
  intros Hr Hnel Hl [Hup Hlist] Ht Hc Hroom Hreplay. destruct l as [|v l0]; [done|].
  destruct Hlist as (d & Hk & Hd). unfold replayHistory in Hreplay. rewrite Hr in Hreplay.
  match type of Hreplay with run (redis ?c ≫= ?k) w = _ =>
    destruct (run_redis_chat c k w Hup eq_refl) as (w4 & _ & Hh4 & _ & [_ Ht4] & Hs) end.
  rewrite Hreplay in Ht4. cbn [snd] in Ht4.
  assert (redis_step dbl glob (clock w4) (RLrange (chatHistoryKeyPrefix +:+ room) 0 (historyLim h)) (keys w) =
    (Ok (v :: l0), keys w)) as E4.
  { cbn [redis_step]. unfold find. rewrite Hk. cbn [mbind option_bind].
    rewrite live_before by lia. replace (historyLim h) with (historyLim h + 1 - 1) by lia.
    rewrite list_range_prefix, take_ge by lia. done. }
  destruct (Hs _ _ E4) as [Hr4 _]. rewrite Hr4 in Hreplay.
  destruct (run_queue_each c (map bytes_of (rev (v :: l0))) w4) as (w5 & E5 & Hq5).
  - by rewrite Hh4.
  - unfold queue_of in *. rewrite Hh4, length_map, length_rev. lia.
  - rewrite E5 in Hreplay. injection Hreplay as <-. rewrite Hq5. unfold queue_of. by rewrite Hh4.
Qed.

(** C30. History is what was said, in order: with Redis up and no live list for
    the room, after any comments persisted within a day, a connection that
    replays the room's history (its queue having space for it) gets exactly
    the last [historyLim] of them as pushes, oldest first, after what was
    queued before. *)
Theorem history_replays (c : nat) (room : string) (bodies : list bytes) (w w1 w2 w3 : W)
    (Hr : rdb h = true) (HL : 0 < historyLim h) (Hne : bodies <> [])
    (Hup : healthy w)
    (Hempty : find (clock w) (keys w) (chatHistoryKeyPrefix +:+ room) = None)
    (Hsaid : run (persist_all room bodies) w = (tt, w1))
    (Hkeys : keys w2 = keys w1) (Hup2 : healthy w2)
    (Hday : clock w1 <= clock w3 < clock w + 24 * Hour)
    (Hc : is_Some (Chat.clients (hub_of w2) !! c))
    (Hroom : Z.of_nat (length (queue_of w2 c)) + historyLim h < Chat.defaultSendQueueSize)
    (Hreplay : run (replayHistory h c room) w2 = (tt, w3)) :
  queue_of w3 c = queue_of w2 c ++
    map (fun b => encodeBinaryFrame OpCommentPush b (respKey h))
        (rev (take (Z.to_nat (historyLim h)) (rev bodies))).
Proof.
  pose proof (run_clock_eq _ _ _ _ Hsaid) as Hc1.
  destruct (persist_all_holds room bodies [] (clock w + 24 * Hour) w w1 Hr HL) as (D & HD & _ & Hlist);
    [cbn; lia|done|lia|lia|done|]. rewrite app_nil_r in Hlist.
  set (l := take (Z.to_nat (historyLim h)) (rev (map string_of bodies))) in *.
  assert (Z.of_nat (length l) <= historyLim h) as Hl by (unfold l; rewrite length_take; lia).
  assert (map bytes_of (rev l) = rev (take (Z.to_nat (historyLim h)) (rev bodies))) as El.
  { unfold l. rewrite map_rev. f_equal. rewrite <- firstn_map. f_equal.
    by rewrite map_rev, map_map, map_string_bytes. }
  assert (l <> []) as Hnel.
  { unfold l. destruct (Z.to_nat (historyLim h)) eqn:E; [lia|].
    destruct bodies as [|b bodies]; [done|]. cbn [map rev]. by destruct (rev (map string_of bodies)). }
  rewrite <- El. apply (run_replay c room l D w2 w3); try done; [|lia].
  split; [done|]. rewrite Hkeys. by destruct l.
Qed.

(** *** Consistency of the shared state *)

Lemma handle_hub_ok {X} (e : ev X) w : Chat.hub_ok (hub_of w) -> Chat.hub_ok (hub_of (handle e w).2).
Proof.
  intros Hok. destruct e as [| | | | | | | | | | | |A o| | | |]; try (by rewrite hub_kept).
  pose proof (hub_law o w) as Hl. pose proof (Chat.hub_step_ok o _ Hok) as Hs.
  destruct (handle (HubOp o) w) as [r w']. destruct (Chat.hub_step o (hub_of w)) as [r0 s].
  destruct Hl as [_ Hl]. cbn [snd] in *. by rewrite Hl.
Qed.

Lemma sched_hub_ok {A} (env : relation W) (p p' : @pool W A) :
  (forall w w', env w w' -> hub_of w' = hub_of w) ->
  sched env p p' -> Chat.hub_ok (hub_of (shared p)) -> Chat.hub_ok (hub_of (shared p')).
Proof.
  intros Henv [] Hok; cbn [shared]; auto using handle_hub_ok. by erewrite Henv.
Qed.

(** C28. The hub stays consistent: however the goroutines of any number of
    connections interleave -- read pumps, write pumps, broadcasts,
    unregistrations started for slow clients -- starting from the empty hub,
    at every moment a client is in a room's set exactly when the room is in
    the client's own set, no empty room is left in the map, and no send queue
    holds more than its 256 frames. *)
Theorem hub_always_consistent {A} (env : relation W) (w : W) (threads : list (prog A)) (p : pool)
    (Henv : forall w w', env w w' -> hub_of w' = hub_of w)
    (Hnew : hub_of w = Chat.empty_hub)
    (Hreach : rtc (sched env) (Pool w threads []) p) :
  let s := hub_of (shared p) in
  (forall room c, c ∈ Chat.members s room <-> exists cl, Chat.clients s !! c = Some cl /\ room ∈ Chat.rooms cl) /\
  (forall room m, Chat.hub_rooms s !! room = Some m -> m <> ∅) /\
  (forall c cl, Chat.clients s !! c = Some cl -> Z.of_nat (length (Chat.send cl)) <= 256).
Proof.
  assert (Chat.hub_ok (hub_of (shared p))) as [H1 H2 H3].
  { assert (Chat.hub_ok (hub_of (shared (Pool w threads [])))) as H0'.
    { cbn [shared]. rewrite Hnew. apply Chat.empty_hub_ok. }
    revert H0'. induction Hreach as [|p1 p2 p3 Hs _ IH]; [done|].
    intros Hok. apply IH. by eapply sched_hub_ok. }
  by split_and!.
Qed.

(** The wire format: a frame that a client builds with the request key
    reaches the handler of its opcode with the body it was built from. *)
Theorem frame_reaches_handler (c : nat) (op : Z) (body : bytes)
    (Hkey : length (reqKey h) = 16%nat) (Hop : 0 <= op < 2 ^ 16) (Hlen : len body + 16 < 2 ^ 32) :
  on_message h c true (encodeBinaryFrame op body (reqKey h)) = dispatch h c op body.
Proof.
  unfold on_message, encodeBinaryFrame. cbn [andb Byte.eqb frameByte0 frameByte1].
  change (handleBinaryFrame h c (encodeBinaryFrame op body (reqKey h)) = dispatch h c op body).
  unfold handleBinaryFrame. by rewrite read_encoded_frame.
Qed.
End laws.

(** ** Concrete runs *)

(** Two connections in room [A]: a slow one whose queue is full, and one that
    speaks. *)
Definition plain_conf : Conf :=
  NewHub false DefaultResponseKey DefaultRequestKey 0 0 0 false false false initial_schema.
Definition full_queue : list bytes := replicate 256 [].
Definition slow_client : Chat.Client :=
  Chat.MkClient full_queue 7 "slow" "" true true "" {["A"]} ∅ [] true.
Definition liker : Chat.Client :=
  Chat.MkClient [] 8 "b" "" false true "" {["A"]} ∅ [] true.
Definition crowded : Chat.Hub := Chat.MkHub {["A" := {[0%nat; 1%nat]}]} [slow_client; liker].

(** A slow client can be thrown out of a room it joined later: the
    unregistration started when its queue was full runs after it has left that
    room and entered another, and removes it there, although the entry was
    acknowledged and the connection is open. *)
Theorem late_eviction :
  let named room := body_text (JObj [("roomNum", JStr room)]) in
  let p0 := Pool (set_hub crowded (mini 0 ∅))
    [_ ← handleRoomLeave plain_conf 0 (named "A"); handleRoomEnter plain_conf 0 (named "B");
     handleLike plain_conf 1 (named "A");
     writePump 0 (replicate 8 (WFrame, true))] [] in
  exists p, rtc (sched (fun _ _ => False)) p0 p /\
    threads p !! 0%nat = Some (Ret tt) /\
    let cl := client (hub_of (shared p)) 0 in
    encodeBinaryFrame OpRoomEnterSuccess empty_object DefaultResponseKey ∈ Chat.send cl /\
    Chat.conn_open cl = true /\ Chat.rooms cl = ∅.
Proof.
  intros named p0.
  set (turns := replicate 6 (inl 1%nat) ++ replicate 8 (inl 2%nat) ++ replicate 13 (inl 0%nat) ++ [inr 0%nat]).
  assert (match run_turns turns p0 with
          | Some p =>
            let cl := client (hub_of (shared p)) 0 in
            match threads p !! 0%nat with Some (Ret _) => true | _ => false end &&
            bool_decide (encodeBinaryFrame OpRoomEnterSuccess empty_object DefaultResponseKey ∈ Chat.send cl) &&
            Chat.conn_open cl && bool_decide (Chat.rooms cl = ∅)
          | None => false end = true) as E by (vm_compute; reflexivity).
  destruct (run_turns turns p0) as [p|] eqn:Er; [|done].
  exists p. split; [by eapply run_turns_sound|]. clear Er. clearbody p0.
  repeat apply andb_true_iff in E as [E ?].
  repeat match goal with Hb : bool_decide _ = true |- _ => apply bool_decide_eq_true in Hb end.
  split; [by destruct (threads p !! 0%nat) as [[[]| |]|]|]. by split_and!.
Qed.

(** A hub with one logged-in connection, not in any room. *)
Definition speaker : Chat.Client :=
  Chat.MkClient [] 8 "b" "" false true "" ∅ ∅ [] true.
Definition quiet_hub : Chat.Hub := Chat.MkHub ∅ [speaker].
Definition chat_conf : Conf :=
  NewHub true DefaultResponseKey DefaultRequestKey 0 3 0 true true false initial_schema.

(** The database knows one room, [A], which is off air (live status 2). *)
Definition off_air_row : Sql.row :=
  [Sql.SInt 1; Sql.SText "A"] ++ replicate 8 (Sql.SText "") ++ [Sql.SInt 2; Sql.SInt 1] ++
  replicate 10 (Sql.SInt 0) ++ [Sql.SText ""] ++ replicate 4 Sql.SNull.
Definition chat_world : MiniWorld :=
  set_db (fun _ _ => Ok (Sql.Answer [off_air_row] None None)) (fun _ _ => Ok tt)
    (set_hub quiet_hub (mini (1700000000 * Second) ∅)).

Definition off_air_room : LiveRoom.LiveRoom :=
  LiveRoom.MkLiveRoom 1 "A" "" "" "" "" "" "" "" "" 2 1 0 0 0 0 0 0 0 0 0 0 "" "" "" "" "".
Example off_air_scans : Sql.scan_row LiveRoom.scanLiveRoom off_air_row = Ok off_air_room.
Proof. reflexivity. Qed.

Definition named (room : string) : bytes := body_text (JObj [("roomNum", JStr room)]).
Definition say (room content : string) : bytes :=
  body_text (JObj [("content", JStr content); ("roomNum", JStr room)]).

Lemma dead_room_silences_witness :
  let w' := (run (handleRoomEnter chat_conf 0 (named "A")) chat_world).2 in
  let w1 := set_clock (1700009999 * Second) w' in
  let w2 := (run (handleComment chat_conf 0 (say "A" "hello")) w1).2 in
  exists code msg, erred chat_conf 0 code msg (hub_of w1) w1 w2.
Proof.
  intros w' w1 w2.
  assert (run (handleRoomEnter chat_conf 0 (named "A")) chat_world = (tt, w')) as Henter
    by (unfold w'; by destruct (run _ chat_world) as [[] ?]).
  assert (run (handleComment chat_conf 0 (say "A" "hello")) w1 = (tt, w2)) as Hsay
    by (unfold w2; by destruct (run _ w1) as [[] ?]).
  assert (forall w0, muted_of (set_clock (1700009999 * Second) w0) 0 = muted_of w0 0) as Hlater by done.
  assert (forall w0 : MiniWorld, 0 <= clock (set_clock (1700009999 * Second) w0)) as Hpos by (by intros w0).
  refine (dead_room_silences chat_conf 0 (named "A") (say "A" "hello") "A" off_air_room chat_world w' w1 w2
    eq_refl _ _ _ _ _ _ Henter (Hlater w') (Hpos w') _ Hsay).
  - by eexists.
  - reflexivity.
  - vm_compute. reflexivity.
  - reflexivity.
  - reflexivity.
  - done.
  - vm_compute. reflexivity.
Defined.

Lemma handleComment_outcome_witness :
  let w := set_hub crowded chat_world in
  let w' := (run (handleComment chat_conf 1 (say "A" "hi")) w).2 in
  let b := decode comment_fields (MkComment "" 0 "" 0) (say "A" "hi") in
  may_speak liker (c_roomNum b) /\ comment_outcome chat_conf 1 liker b w w'.
Proof.
  intros w w' b. split; [split_and!; vm_compute; first [reflexivity|discriminate|by eauto]|].
  assert (run (handleComment chat_conf 1 (say "A" "hi")) w = (tt, w')) as E
    by (unfold w'; by destruct (run _ w) as [[] ?]).
  change liker with (client (hub_of w) 1).
  refine (handleComment_outcome chat_conf 1 (say "A" "hi") w w' E _). vm_compute. discriminate.
Defined.

Lemma history_replays_witness :
  let bodies := map bytes_of ["1"; "2"; "3"; "4"] in
  let w1 := (run (persist_all chat_conf "A" bodies) chat_world).2 in
  let w3 := (run (replayHistory chat_conf 0 "A") w1).2 in
  queue_of w3 0 = map (fun b => encodeBinaryFrame OpCommentPush b DefaultResponseKey) (map bytes_of ["2"; "3"; "4"]).
Proof.
  intros bodies w1 w3.
  assert (run (persist_all chat_conf "A" bodies) chat_world = (tt, w1)) as E1
    by (unfold w1; by destruct (run _ chat_world) as [[] ?]).
  assert (run (replayHistory chat_conf 0 "A") w1 = (tt, w3)) as E3
    by (unfold w3; by destruct (run _ w1) as [[] ?]).
  assert (queue_of w1 0 = []) as Hq by (vm_compute; reflexivity).
  assert (clock w1 <= clock w3 < clock chat_world + 24 * Hour) as Hday by (vm_compute; split; congruence).
  assert (is_Some (Chat.clients (hub_of w1) !! 0%nat)) as Hc
    by (vm_compute; by eexists).
  assert (healthy w1) as Hup by (vm_compute; constructor).
  rewrite (history_replays chat_conf 0 "A" bodies chat_world w1 w1 w3 eq_refl eq_refl (ltac:(done))
    (List.Forall_nil _) eq_refl E1 eq_refl Hup Hday Hc); [by rewrite Hq|by rewrite Hq|exact E3].
Defined.

Lemma frame_reaches_handler_witness :
  on_message plain_conf 0 true (encodeBinaryFrame OpRoomEnter (named "A") DefaultRequestKey) =
  dispatch plain_conf 0 OpRoomEnter (named "A").
Proof. apply (frame_reaches_handler plain_conf 0 OpRoomEnter (named "A")); by vm_compute. Defined.

(** One connection that sends a heartbeat, with its write pump. *)
Lemma hub_always_consistent_witness :
  let serve := ServeWS plain_conf (MkRequest "" "" "1.2.3.4:5" "/ws/chat")
    [(true, encodeBinaryFrame OpHeart [] DefaultRequestKey)] [(WFrame, true)] in
  let p0 := Pool (mini 0 ∅) [serve] [] in
  exists p, rtc (sched (fun _ _ => False)) p0 p /\
    let s := hub_of (shared p) in
    (forall room c, c ∈ Chat.members s room <-> exists cl, Chat.clients s !! c = Some cl /\ room ∈ Chat.rooms cl) /\
    length (Chat.clients s) = 1%nat.
Proof.
  intros serve p0. set (turns := replicate 3 (inl 0%nat) ++ replicate 2 (inr 1%nat) ++ [inr 0%nat]).
  assert (match run_turns turns p0 with
          | Some p => Nat.eqb (length (Chat.clients (hub_of (shared p)))) 1
          | None => false end = true) as E by (vm_compute; reflexivity).
  destruct (run_turns turns p0) as [p|] eqn:Er; [|done].
  apply (run_turns_sound (fun _ _ => False)) in Er. exists p. split; [exact Er|]. split; [|by apply Nat.eqb_eq].
  exact (proj1 (hub_always_consistent (fun _ _ => False) (mini 0 ∅) [serve] p (fun _ _ H => match H with end) eq_refl Er)).
Defined.
End Ws.
