(* ===== verification/Svc.v ===== *)
(** * The RPC service context (src/cmd/rpc/internal/svc/serviceContext.go)

    What [NewServiceContext] builds and does at boot: the counters it seeds in
    Redis, the uid allocator, the refresh jobs and their warmers, the cache
    manager with its fallback chain, the self-test that starts the process
    degraded.  Redis always has a client here; opening the database, the
    prometheus metrics and logging are left out. *)

From S2P Require Import Prelude GoStr Json Degrade Semaphore Hub Sql Time Env Auth Cache Models Match Builders.

Module Svc.
Import Build.

(** The configuration the context reads (config.go). *)
Record Config : Type := MkConfig {
  DBDriver : string; SchemaPrefix : string; AppMode : string; SmsDevBypassCode : string;
  CacheMatchListTtl : Z; CacheLiveTtl : Z; CacheCommentatorTtl : Z;
  RefreshMatchListTtl : Z; RefreshLiveTtl : Z; RefreshCommentatorTtl : Z;
  FileBaseURL : string }.

(** [UserAssetPrefixer.URL]. *)
Definition asset_URL (base p : string) : string :=
  if String.eqb p "" then ""
  else if HasPrefix p "http://" || HasPrefix p "https://" then p
  else if String.eqb base "" then p
  else TrimRight_slash base +:+ "/" +:+ TrimLeft_slash p.

Definition dur (seconds fallback : Z) : Z :=
  let seconds := if seconds <=? 0 then fallback else seconds in seconds * Second.

(** The package state of schema.go, set before the models are built. *)
Definition configure_schema (c : Config) (s : Schema) : Schema :=
  let d := ToLower (TrimSpace (DBDriver c)) in
  if String.eqb d "sqlite" || String.eqb d "sqlite3" then SetNoSchemaPrefix s
  else let p := TrimSpace (SchemaPrefix c) in
       if String.eqb p "" then s else SetSchemaPrefix p s.

Section svc.
Context (LocalZone : Z -> Z) (sch : Schema).

(** ** Counters *)
Definition bootChatMsgIDCounter (rdb : bool) : prog unit :=
  if negb rdb then mret tt else
  maxID ← ChatMsg.MaxID sch;
  match maxID with
  | Err _ => mret tt
  | Ok maxID =>
    if 0 <? maxID then _ ← redis (RSet "yuyan:chat:message_id" (FormatInt maxID)); mret tt
    else mret tt
  end.

Definition bootUIDCounter (rdb : bool) : prog unit :=
  if negb rdb then mret tt else
  maxUID ← User.MaxUID sch;
  match maxUID with
  | Err _ => mret tt
  | Ok maxUID =>
    let maxUID := if maxUID <? 5000 then 5000 else maxUID in
    _ ← redis (RSetnx "yuyan:uid:next" (FormatInt maxUID)); mret tt
  end.

Definition AllocUID (rdb : bool) : prog (res Z) :=
  if rdb then
    r ← redis (RIncr "yuyan:uid:next");
    match r with Ok uid => mret (Ok uid) | Err _ => User.NextUID sch end
  else User.NextUID sch.

(** ** Warmers *)

(** json.Marshal of a []byte is a base64 string. *)
Definition marshal_bytes (b : string) : res string := Ok (json_text (JStr (base64_encode (bytes_of b)))).
Definition marshal_items (l : list MatchCatalogItem) : res string :=
  Ok (jsonBytes (slice_json item_json (Some l))).

Definition catalog_json (m : gmap string (list MatchCatalogItem)) : json :=
  map_json (fun l => slice_json item_json (Some l)) m.

(** Writing never decodes: the decoder of the cached type is not used. *)
Definition warm {T} (marshal : T -> res string) (family key : string) (ttl : Z) (loader : prog (res T))
    : prog (option error) :=
  Cache.Legacy.Refresh marshal (Some true) family key ttl loader.

Definition warmMatchCatalog (ttl : Z) : prog (option error) :=
  warm marshal_bytes "match" "catalog" ttl
    (out ← BuildMatchCatalog LocalZone sch; mret (Ok (jsonBytes (catalog_json out)))).

Definition warmRecommend (ttl : Z) : prog (option error) :=
  warm marshal_items "match" "recommend" ttl (out ← BuildRecommend LocalZone sch; mret (Ok out)).

Definition warmMatchByDate (date : string) (ttl : Z) : prog (option error) :=
  warm marshal_items "match" ("date:" +:+ date) ttl
    (out ← BuildMatchByDate LocalZone sch date; mret (Ok out)).

Definition warmLiveRooms (ttl : Z) : prog (option error) :=
  warm marshal_bytes "live" "all" ttl (out ← BuildAllLiveRooms sch; mret (Ok (jsonBytes (JObj out)))).

Definition types_json (l : list LiveTypeJSON) : json := JArr (map live_type_json l).
Definition warmLiveTypes (ttl : Z) : prog (option error) :=
  warm marshal_bytes "live" "types" ttl
    (lts ← LiveType.ListTopLevel sch;
     match lts with
     | (_, Some e) => mret (Err e)
     | (lts, None) => mret (Ok (jsonBytes (types_json (BuildLiveTypesJSON lts))))
     end).

(** model.Anchor has no json tags. *)
Definition model_anchor_json (a : Anchor.Anchor) : json :=
  JObj [("UID", jint (Anchor.UID a)); ("NickName", JStr (Anchor.NickName a)); ("Icon", JStr (Anchor.Icon a));
        ("CutOutIcon", JStr (Anchor.CutOutIcon a)); ("Intro", JStr (Anchor.Intro a));
        ("Fans", jint (Anchor.Fans a)); ("Follow", jint (Anchor.Follow a)); ("Hot", jint (Anchor.Hot a));
        ("RoomNum", JStr (Anchor.RoomNum a)); ("Detail", JStr (Anchor.Detail a));
        ("Notice", JStr (Anchor.Notice a)); ("Live", JBool (Anchor.Live a));
        ("CreatedAt", jint (Anchor.CreatedAt a))].
(** Without rows the slice is nil. *)
Definition marshal_anchors (l : list Anchor.Anchor) : res string :=
  Ok (jsonBytes (slice_json model_anchor_json (match l with [] => None | _ => Some l end))).
Definition warmCommentators (ttl : Z) : prog (option error) :=
  warm marshal_anchors "commentator" "list" ttl
    (r ← Anchor.ListAll sch; mret (match r with (_, Some e) => Err e | (l, None) => Ok l end)).

(** Today and the six days after it. *)
Fixpoint warm_days (n : nat) (d : Z) (ttl : Z) : prog unit :=
  match n with
  | O => mret tt
  | S n =>
    t ← now;
    _ ← warmMatchByDate (format_20060102 LocalZone (AddDays LocalZone t d)) ttl;
    warm_days n (d + 1) ttl
  end.

Definition match_job (c : Config) : prog (option error) :=
  let ttl := dur (CacheMatchListTtl c) 60 in
  _ ← warmMatchCatalog ttl; _ ← warmRecommend ttl; _ ← warm_days 7 0 ttl; mret None.
Definition live_job (c : Config) : prog (option error) :=
  let ttl := dur (CacheLiveTtl c) 15 in
  _ ← warmLiveRooms ttl; _ ← warmLiveTypes ttl; mret None.
Definition commentator_job (c : Config) : prog (option error) :=
  _ ← warmCommentators (dur (CacheCommentatorTtl c) 120); mret None.

Definition jobs (c : Config) : list Cache.Legacy.RefreshJob :=
  foldl Cache.Legacy.Add []
    [Cache.Legacy.MkJob "match" (match_job c) (dur (RefreshMatchListTtl c) 60);
     Cache.Legacy.MkJob "live" (live_job c) (dur (RefreshLiveTtl c) 15);
     Cache.Legacy.MkJob "commentator" (commentator_job c) (dur (RefreshCommentatorTtl c) 120)].
End svc.

(** ** The context *)

Record ServiceContext : Type := MkContext {
  schema : Schema;
  Scheduler : list Cache.Legacy.RefreshJob;
  Sessions : Session.SessionStore;
  SmsStore : Sms.SmsStore;
  UserAsset : string;
  Manager : Cache.Multi.Manager;
}.

(** The chain the manager falls back on.  Its stale source reads the
    in-process cache of a first manager that is thrown away: nothing is ever
    stored there, every read misses. *)
Definition unused_l1 : Cache.Fallback.FallbackSource :=
  Cache.Fallback.MkSource "l1_stale" (fun _ _ => Ret ("", false, None)).
Definition wired_fallback : Cache.Fallback.FallbackManager :=
  Cache.Fallback.NewFallbackManager
    [Some unused_l1; Some (Cache.Fallback.NewOSSSnapshotSource "");
     Some (Cache.Fallback.NewCDNSource "https://cdn.example.com/apipro")].

(** The degrade manager starts normal and the semaphore with 50 tokens: both
    are the world's ([mode_of], [sem_of]). *)
Definition wired_semaphore : option Semaphore.Semaphore := Semaphore.NewSemaphore "mysql-main" 50.

(** Without Redis the process starts degraded. *)
Definition boot_mode (l2OK : bool) : prog unit :=
  if l2OK then mret tt else dgr (Degrade.Set_ Degrade.ModeDegraded).

Definition NewServiceContext (LocalZone : Z -> Z) (c : Config) : prog ServiceContext :=
  let sch := configure_schema c initial_schema in
  _ ← bootChatMsgIDCounter sch true;
  _ ← bootUIDCounter sch true;
  let mgr := Cache.Multi.NewManager true (Some wired_fallback) in
  ok ← Cache.Multi.SelfTest mgr;
  let '(_, l2OK, _) := ok in
  _ ← boot_mode l2OK;
  _ ← go (_ ← dgr Degrade.Watch; mret tt);
  mret {| schema := sch; Scheduler := jobs LocalZone sch c;
          Sessions := Session.NewSessionStore true;
          SmsStore := Sms.NewSmsStore true (AppMode c) (SmsDevBypassCode c);
          UserAsset := FileBaseURL c; Manager := mgr |}.

(** ** Uids *)
Section uids.
Context `{Laws W} (sch : Schema).

Definition uid_key : string := "yuyan:uid:next".

(** [n] allocations, one after the other. *)
Fixpoint alloc_n (n : nat) : prog (list (res Z)) :=
  match n with
  | O => mret []
  | S n => u ← AllocUID sch true; us ← alloc_n n; mret (u :: us)
  end.

(** What the counter holds: nothing, or a number that does not expire. *)
Definition counter_is (c : option Z) (m : kv) : Prop :=
  match c with
  | None => m !! uid_key = None
  | Some k => m !! uid_key = Some (Entry (VStr (FormatInt k)) None) /\ int64_ok k = true
  end.

Lemma find_counter t c m : counter_is c m ->
  find t m uid_key = k ← c; Some (Entry (VStr (FormatInt k)) None).
Proof. unfold find. destruct c as [k|]; cbn; [by intros [-> _]|by intros ->]. Qed.

Lemma run_MaxUID w : exists w', run (User.MaxUID sch) w = ((run (User.MaxUID sch) w).1, w') /\
  next_state w w' (keys w).
Proof.
  unfold User.MaxUID.
  match goal with |- context [run (sql_query ?q ?a ≫= ?k) w] =>
    destruct (run_quiet (SqlQuery q a) k w eq_refl) as (w1 & E & _ & Hn) end.
  change (sql_query ?q ?a ≫= ?k) with (Vis (SqlQuery q a) k). rewrite E.
  exists w1. split; [|done]. by repeat case_match; rewrite run_ret.
Qed.

Lemma run_boot_uid c maxUID w w1 : healthy w -> counter_is c (keys w) ->
  int64_ok maxUID = true -> (run (User.MaxUID sch) w).1 = Ok maxUID ->
  run (bootUIDCounter sch true) w = (tt, w1) ->
  healthy w1 /\ counter_is (Some (default (Z.max 5000 maxUID) c)) (keys w1).
Proof.
  intros Hh Hc Hok Hmax. unfold bootUIDCounter. cbn [negb].
  destruct (run_MaxUID w) as (w0 & E & Hk & Ht & Hh0). rewrite run_bind, E, Hmax. cbn [fst snd].
  replace (if maxUID <? 5000 then 5000 else maxUID) with (Z.max 5000 maxUID)
    by (destruct (maxUID <? 5000) eqn:?; bool_to_prop; lia).
  match goal with |- context [redis ?c ≫= ?k] =>
    destruct (run_redis c k w0 (Hh0 Hh) eq_refl) as (w2 & _ & Hh2 & _ & Hs) end.
  intros Hrun. cbn [redis_step] in Hs.
  rewrite (find_counter _ c) in Hs by (by rewrite Hk).
  destruct c as [k|]; cbn [mbind option_bind default from_option] in Hs |- *;
    destruct (Hs _ _ eq_refl) as [E2 Hk2]; rewrite E2 in Hrun; injection Hrun as <-;
    (split; [done|]); rewrite Hk2; unfold counter_is.
  - by rewrite Hk.
  - unfold uid_key. rewrite lookup_insert_eq. split; [done|].
    unfold int64_ok in *. bool_to_prop. apply andb_true_iff. rewrite Z.leb_le, Z.ltb_lt. lia.
Qed.

Lemma run_AllocUID k w : healthy w -> counter_is (Some k) (keys w) -> int64_ok (k + 1) = true ->
  exists w', run (AllocUID sch true) w = (Ok (k + 1), w') /\ healthy w' /\ counter_is (Some (k + 1)) (keys w').
Proof.
  intros Hh Hc Hok. unfold AllocUID. fold uid_key.
  match goal with |- context [redis ?c ≫= ?k] =>
    destruct (run_redis c k w Hh eq_refl) as (w1 & _ & Hh1 & _ & Hs) end.
  cbn [redis_step] in Hs. unfold incr_by in Hs. rewrite (find_counter _ (Some k)) in Hs by done.
  cbn [mbind option_bind] in Hs. destruct Hc as [Hk Hk0].
  rewrite ParseInt_FormatInt, Hok, bool_decide_eq_true_2 in Hs by done. cbn [andb] in Hs.
  destruct (Hs _ _ eq_refl) as [-> Hk1]. rewrite run_ret. exists w1. split_and!; [done..|].
  unfold counter_is. by rewrite Hk1, lookup_insert_eq.
Qed.

(** C40. Uids follow the counter: with Redis up, after booting (the database's
    largest uid being [maxUID]) the allocations made one after the other are
    exactly the numbers that follow the counter, which starts at that uid, or at
    5000, when there was none, and is kept as it was otherwise.  So they are
    above every stored uid when there was no counter or it was not behind; a
    counter found behind [maxUID] is not raised, and the next uid is then one
    not above it, which a user may have: the source's comment at the call
    (AUDIT-008) promises a first uid greater than any existing one. *)
Theorem AllocUID_follows_counter (c : option Z) (maxUID : Z) (n : nat) (w w1 w2 : W) (us : list (res Z))
    (Hup : healthy w) (Hc : counter_is c (keys w)) (Hok : int64_ok maxUID = true)
    (Hmax : (run (User.MaxUID sch) w).1 = Ok maxUID)
    (Hboot : run (bootUIDCounter sch true) w = (tt, w1))
    (Halloc : run (alloc_n n) w1 = (us, w2))
    (Hroom : default (Z.max 5000 maxUID) c + Z.of_nat n < 2 ^ 63) :
  us = map (fun i => Ok (default (Z.max 5000 maxUID) c + Z.of_nat i)) (seq 1 n) /\
  ((forall k, c = Some k -> maxUID <= k) -> forall u, Ok u ∈ us -> maxUID < u) /\
  (forall k, c = Some k -> k < maxUID -> (0 < n)%nat -> exists u, Ok u ∈ us /\ u <= maxUID).
Proof.
  assert (us = map (fun i => Ok (default (Z.max 5000 maxUID) c + Z.of_nat i)) (seq 1 n)) as Hus.
  2:{ split; [exact Hus|]. rewrite Hus. split.
      - intros Hk u Hu. apply list_elem_of_fmap in Hu as (i & [= ->] & Hi). apply elem_of_seq in Hi.
        destruct c as [k|]; cbn [default from_option id]; [specialize (Hk k eq_refl)|]; lia.
      - intros k -> Hlt Hn. exists (k + 1). split; [|lia]. apply list_elem_of_fmap. exists 1%nat.
        split; [done|]. apply elem_of_seq. lia. }
  destruct (run_boot_uid c maxUID w w1 Hup Hc Hok Hmax Hboot) as [Hh1 Hc1].
  set (base := default _ c) in *. clearbody base. clear Hboot Hmax Hc Hup w.
  assert (forall m k w, healthy w -> counter_is (Some (base + Z.of_nat k)) (keys w) ->
    base + Z.of_nat k + Z.of_nat m < 2 ^ 63 -> 
    (run (alloc_n m) w).1 = map (fun i => Ok (base + Z.of_nat i)) (seq (S k) m)) as Hgen.
  { induction m as [|m IH]; intros k w Hh Hk Hlt; cbn [alloc_n]; [done|].
    assert (int64_ok (base + Z.of_nat k + 1) = true) as Hok'.
    { destruct Hk as [_ Hk]. unfold int64_ok in *. bool_to_prop. apply andb_true_iff.
      rewrite Z.leb_le, Z.ltb_lt. lia. }
    rewrite run_bind. destruct (run_AllocUID _ w Hh Hk Hok') as (w' & -> & Hh' & Hk'). cbn [fst snd].
    rewrite run_bind, (IH (S k)); [|done|by replace (base + Z.of_nat (S k)) with (base + Z.of_nat k + 1) by lia|lia].
    rewrite run_ret. cbn [fst seq map]. by replace (base + Z.of_nat (S k)) with (base + Z.of_nat k + 1) by lia. }
  specialize (Hgen n O w1). rewrite Halloc in Hgen. apply Hgen; [done|by rewrite Z.add_0_r|lia].
Qed.
End uids.

(** A database whose largest uid is 7200. *)
Definition uid_world : MiniWorld :=
  set_db (fun _ _ => Ok (Sql.Answer [[Sql.SInt 7200]] None None)) (fun _ _ => Ok tt) (mini 1000 ∅).

(** A counter behind the users table: booting leaves it, and the uids given out
    are below the stored one. *)
Lemma AllocUID_follows_counter_witness :
  let w := set_keys {[ uid_key := Entry (VStr "6000") None ]} [] uid_world in
  let fresh := (run (alloc_n initial_schema 3) (run (bootUIDCounter initial_schema true) uid_world).2).1 in
  let stale := (run (alloc_n initial_schema 3) (run (bootUIDCounter initial_schema true) w).2).1 in
  fresh = [Ok 7201; Ok 7202; Ok 7203] /\ stale = [Ok 6001; Ok 6002; Ok 6003].
Proof.
  intros w fresh stale. split.
  - refine (proj1 (AllocUID_follows_counter initial_schema None 7200 3 uid_world _ _ _ _ _ _ _ _
              (surjective_pairing _) _)).
    + vm_compute. constructor.
    + reflexivity.
    + reflexivity.
    + by vm_compute.
    + vm_compute. reflexivity.
    + vm_compute. reflexivity.
  - refine (proj1 (AllocUID_follows_counter initial_schema (Some 6000) 7200 3 w _ _ _ _ _ _ _ _
              (surjective_pairing _) _)).
    + vm_compute. constructor.
    + split; reflexivity.
    + reflexivity.
    + by vm_compute.
    + vm_compute. reflexivity.
    + vm_compute. reflexivity.
Defined.
End Svc.
