(* ===== verification/Logic.v ===== *)
(** * The RPC handlers (src/cmd/rpc/internal/logic/call.go)

    Every method of [CallLogic] as a program: the validation gates, the
    degrade gate, the limits and locks in Redis, the database under the
    semaphore, sessions, and the read-through cache of the display methods;
    [Call] dispatches on the method name.  A handler's result is the JSON text
    ([None] is nil), the code and the message. *)

From S2P Require Import Prelude GoStr Json Degrade Semaphore Hub Sql Time Env RateLimit Auth Cache.
From S2P Require Import Models Match Builders Svc.

Module Logic.
Import Build.

(** ** Codes and envelopes *)
Definition CodeOK : Z := 200.
Definition CodeLoginRequired : Z := 100.
Definition CodeGuestReauth : Z := 101.
Definition CodeBusinessError : Z := 400.
Definition CodeAccountNotFound : Z := 4101.
Definition CodePasswordWrong : Z := 4102.
Definition CodeUserBanned : Z := 4103.
Definition CodePhoneAlreadyReg : Z := 4104.
Definition CodeLoginLocked : Z := 4105.
Definition CodeSmsCheckFailed : Z := 4106.
Definition CodeRateLimited : Z := 4113.
Definition CodePhoneInvalid : Z := 4114.
Definition CodeKaptchaInvalid : Z := 4120.

Record CallReq : Type := MkReq {
  Method : string; ParamJson : string; SessionId : string; Plat : string; Seq : Z }.
Record CallResp : Type := MkResp {
  Code : Z; Meg : string; r_Seq : Z; NewSessionId : string; Result : option string }.

(** (result, code, meg) *)
Definition outcome : Type := option string * Z * string.
Definition fail (code : Z) (meg : string) : outcome := (None, code, meg).
Definition success (j : json) : outcome := (Some (jsonBytes j), CodeOK, "").
Definition code_of (o : outcome) : Z := o.1.2.

(** ** Phone numbers *)
Definition normalizeCC (cc : string) : string := TrimPrefix (TrimSpace cc) "+".

(** [^[35789][0-9]{8}$] *)
Definition vnPhone (s : string) : bool :=
  match s with
  | String c s' =>
    bool_decide (c ∈ ["3"; "5"; "7"; "8"; "9"]%char) && (String.length s' =? 8)%nat && all_chars is_digit s'
  | EmptyString => false
  end.

Definition validatePhone (cc phone : string) : bool :=
  let phone := TrimSpace phone in
  let cc := normalizeCC cc in
  if String.eqb phone "" then false
  else if String.eqb cc "86" then
    (String.length phone =? 11)%nat && HasPrefix phone "1" && all_chars is_digit phone
  else if String.eqb cc "84" then vnPhone phone
  else (5 <=? String.length phone)%nat && all_chars is_digit phone.

Example validatePhone_ex :
  validatePhone "+86" " 13800138000" = true /\ validatePhone "84" "912345678" = true /\
  validatePhone "84" "112345678" = false /\ validatePhone "1" "5551" = false.
Proof. by vm_compute. Qed.

(** ** Request bodies *)

(** json.Unmarshal where an error ends the request. *)
Definition parse_body {T} (conv : json -> option T) (text : string) : option T :=
  j ← json_parse text; conv j.

Record loginReq : Type := MkLoginReq {
  l_AccountType : Z; l_CountryCode : string; l_Phone : string; l_LoginMode : Z; l_LoginType : Z;
  l_Password : string; l_PwdType : Z; l_Plat : Z }.
Definition as_loginReq (j : json) : option loginReq :=
  ms ← as_members j;
  let names := ["accountType"; "countryCode"; "phone"; "loginMode"; "loginType"; "password"; "pwdType"; "plat"] in
  let s := str_member names ms in let i := int_member names ms in
  at_ ← i "accountType"; cc ← s "countryCode"; ph ← s "phone"; lm ← i "loginMode"; lt ← i "loginType";
  pw ← s "password"; pt ← i "pwdType"; pl ← i "plat";
  Some (MkLoginReq at_ cc ph lm lt pw pt pl).

Record registerReq : Type := MkRegReq {
  g_AccountType : Z; g_CountryCode : string; g_Phone : string; g_SmsType : Z; g_SmsCode : string;
  g_Password : string; g_NickName : string; g_Icon : string; g_PwdType : Z; g_Kaptcha : string; g_Plat : Z }.
Definition as_registerReq (j : json) : option registerReq :=
  ms ← as_members j;
  let names := ["accountType"; "countryCode"; "phone"; "smsType"; "smsCode"; "password"; "nickName"; "icon";
                "pwdType"; "kaptcha"; "plat"] in
  let s := str_member names ms in let i := int_member names ms in
  at_ ← i "accountType"; cc ← s "countryCode"; ph ← s "phone"; st ← i "smsType"; sc ← s "smsCode";
  pw ← s "password"; nn ← s "nickName"; ic ← s "icon"; pt ← i "pwdType"; ka ← s "kaptcha"; pl ← i "plat";
  Some (MkRegReq at_ cc ph st sc pw nn ic pt ka pl).

Definition as_refreshReq (j : json) : option string :=
  ms ← as_members j; str_member ["refreshToken"] ms "refreshToken".

Record smsReq : Type := MkSmsReq { s_CountryCode : string; s_Phone : string; s_Type : Z; s_SmsCode : string }.
Definition as_smsReq (j : json) : option smsReq :=
  ms ← as_members j; let names := ["countryCode"; "phone"; "type"] in
  cc ← str_member names ms "countryCode"; ph ← str_member names ms "phone"; t ← int_member names ms "type";
  Some (MkSmsReq cc ph t "").
Definition as_smsCheckReq (j : json) : option smsReq :=
  ms ← as_members j; let names := ["countryCode"; "phone"; "type"; "smsCode"] in
  cc ← str_member names ms "countryCode"; ph ← str_member names ms "phone"; t ← int_member names ms "type";
  c ← str_member names ms "smsCode";
  Some (MkSmsReq cc ph t c).

(** [_ = json.Unmarshal(..)] into a struct of one field: what was filled
    before an error stays. *)
Definition lone_string (name text : string) : string :=
  (Unmarshal [Field name (fun j _ => as_string j)] "" text).1.
Definition lone_int (name text : string) : Z :=
  (Unmarshal [Field name (fun j _ => as_int j)] 0 text).1.
(** matchDetailReq and liveDetailReq have a second field that nothing reads. *)
Definition match_detail_fields : list (field (Z * string)) :=
  [Field "scheduleId" (fun j r => z ← as_int j; Some (z, r.2));
   Field "roomNum" (fun j r => s ← as_string j; Some (r.1, s))].
Definition live_detail_fields : list (field (string * Z)) :=
  [Field "roomNum" (fun j r => s ← as_string j; Some (s, r.2));
   Field "anchorId" (fun j r => z ← as_int j; Some (r.1, z))].

(** ** Shared steps *)

(** [DBSem.WithToken(ctx, f)]. *)
Definition sem_acquire : prog (option error) := Vis SemAcquire Ret.
Definition sem_release : prog unit := Vis SemRelease Ret.
Definition WithToken {A} (f : prog (res A)) : prog (res A) :=
  e ← sem_acquire;
  match e with
  | Some e => mret (Err e)
  | None => r ← f; _ ← sem_release; mret r
  end.

Definition recordDBErrorForDegrade : prog unit :=
  m ← dgr (gets Degrade.mode);
  if m =? Degrade.ModeNormal then _ ← dgr (Degrade.PromoteIfWorse Degrade.ModeDegraded); mret tt
  else mret tt.

Definition ctx_done (e : error) : bool := errors_Is e ErrCanceled || errors_Is e ErrDeadlineExceeded.
Definition busy : string := "服务繁忙，请稍后再试".

(** A failure is recorded for the degrade manager and mapped. *)
Definition db_failed (e : error) : prog (Z * string) :=
  _ ← recordDBErrorForDegrade;
  mret (CodeBusinessError, if ctx_done e then busy else Error e).

(** [dbWithSem(f)]: the value, or the error with its code and message. *)
Definition dbWithSem {A} (f : prog (res A)) : prog (A + (error * Z * string)) :=
  r ← WithToken f;
  match r with
  | Ok a => mret (inl a)
  | Err e => cm ← db_failed e; mret (inr (e, cm.1, cm.2))
  end.

Definition handleCacheError (err : error) : Z * string :=
  if errors_Is err Cache.Multi.ErrDegradeClosed then (CodeRateLimited, "服务降级中，请稍后再试")
  else if errors_Is err Cache.Multi.ErrCircuitOpen then (CodeBusinessError, "服务暂时不可用，请稍后再试")
  else (CodeBusinessError, Error err).

(** The degrade gate. *)
Definition gated (lvl : Degrade.Level) (meg : string) (k : prog outcome) : prog outcome :=
  served ← dgr (gets (fun mg => Degrade.CanServeLevel mg lvl));
  if (served : bool) then k else mret (fail CodeRateLimited meg).

Section logic.
Context (LocalZone : Z -> Z) (float_lit : string -> option string) (svc : Svc.ServiceContext).
Let sch := Svc.schema svc.

(** ** Auth *)
Definition failKey (cc phone : string) : string := "yuyan:login:fail:" +:+ cc +:+ ":" +:+ phone.
Definition lockKey (cc phone : string) : string := "yuyan:login:lock:" +:+ cc +:+ ":" +:+ phone.

Definition recordLoginFail (cc phone : string) : prog unit :=
  cnt ← redis (RIncr (failKey cc phone));
  match cnt with
  | Err _ => mret tt
  | Ok cnt =>
    _ ← (if cnt =? 1 then _ ← redis (RExpire (failKey cc phone) (15 * 60)); mret tt else mret tt);
    if 10 <=? cnt then
      _ ← redis (RSetex (lockKey cc phone) "1" (30 * 60));
      _ ← redis (RDel [failKey cc phone]); mret tt
    else mret tt
  end.

Definition buildAuthResponse (sess : Session.Session) (u : User.User) : prog AuthResponse :=
  info ← BuildUserInfo sch u;
  mret (MkAuth (Session.AccessToken sess) (Session.AccessToken sess) (Session.RefreshToken sess) info []
    (User.Phone u) (Atoi_or_zero (TrimPrefix (User.CountryCode u) "+")) (User.LoginName u)).

(** From the user's row on: password, status, session. *)
Definition login_with (cc : string) (req : loginReq) (u : User.User) : prog outcome :=
  if negb (User.PwdType u =? Pwd.PwdTypeMD5) ||
     negb (Pwd.VerifyPassword (l_Password req) (User.Password u) (User.Salt u)) then
    _ ← recordLoginFail cc (l_Phone req); mret (fail CodePasswordWrong "密码错误")
  else if negb (User.Status u =? 1) then mret (fail CodeUserBanned "账号已封禁")
  else
    _ ← redis (RDel [failKey cc (l_Phone req)]);
    sess ← Session.IssueUser (Svc.Sessions svc) (User.UID u) (User.NickName u) (User.Icon u)
             (User.UserType u) (l_Plat req);
    match sess with
    | Err e => mret (fail CodeBusinessError ("issue session: " +:+ Error e))
    | Ok sess => resp ← buildAuthResponse sess u; mret (success (auth_json resp))
    end.

Definition login_gate (req : loginReq) : option outcome :=
  if (l_AccountType req =? 0) || negb (l_LoginMode req =? 1) || negb (l_LoginType req =? 1) ||
     String.eqb (l_Phone req) "" then Some (fail CodeBusinessError "登录失败")
  else if negb (l_PwdType req =? Pwd.PwdTypeMD5) then
    Some (fail CodeBusinessError "pwd_type 1 is unsupported; use pwd_type=2")
  else if negb (validatePhone (normalizeCC (l_CountryCode req)) (l_Phone req)) then
    Some (fail CodePhoneInvalid "手机号码格式错误")
  else None.

(** The lookup under the semaphore, and what its errors become. *)
Definition login_lookup (cc : string) (req : loginReq) : prog outcome :=
  u ← WithToken (User.FindByPhone sch cc (l_Phone req));
  match u with
  | Ok u => login_with cc req u
  | Err e =>
    if negb (ctx_done e) && errors_Is e ErrNotFound then mret (fail CodeAccountNotFound "账号未注册")
    else cm ← db_failed e; mret (fail cm.1 cm.2)
  end.

(** The limit and the lock. *)
Definition login_limits (cc : string) (req : loginReq) : prog outcome :=
  ok ← Allow (Some (RateLimit.New true 10 "yuyan:ratelimit:login")) (cc +:+ ":" +:+ l_Phone req);
  if negb ok then mret (fail CodeRateLimited "操作过于频繁，请稍后再试") else
  locked ← redis (RGet (lockKey cc (l_Phone req)));
  match locked with
  | Ok (String _ _) => mret (fail CodeLoginLocked "账号已锁定，请30分钟后再试")
  | _ => login_lookup cc req
  end.

Definition handleLogin (inp : CallReq) : prog outcome :=
  match parse_body as_loginReq (ParamJson inp) with
  | None => mret (fail CodeBusinessError "invalid request")
  | Some req =>
    match login_gate req with
    | Some o => mret o
    | None =>
      gated Degrade.LevelAuth "服务降级中，登录暂不可用" (login_limits (normalizeCC (l_CountryCode req)) req)
    end
  end.

(** *** Registration *)
Definition idemKey (cc phone : string) : string := "yuyan:reg:idem:" +:+ cc +:+ ":" +:+ phone.

Definition new_user (req : registerReq) (cc : string) (uid : Z) (stored salt : string) : User.User :=
  User.MkUser uid (g_Phone req) (g_NickName req) (g_Phone req) cc stored salt Pwd.PwdTypeMD5 1 0 0 1
    (g_Icon req) 0 None (wraps 32 (g_Plat req)) 0 0.

(** The dup-check, the uid, the hash and the INSERT, under one token. *)
Definition create_user (req : registerReq) (cc : string) : prog (res User.User) :=
  existing ← User.FindByPhone sch cc (g_Phone req);
  match existing with
  | Ok _ => mret (Err ErrDuplicate)
  | Err _ =>
    uid ← Svc.AllocUID sch true;
    match uid with
    | Err e => mret (Err e)
    | Ok uid =>
      h ← Pwd.HashPassword (g_Password req);
      match h with
      | Err e => mret (Err e)
      | Ok (stored, salt) =>
        '(e, u) ← User.Insert sch (new_user req cc uid stored salt);
        match e with
        | Some e => if errors_Is e ErrDuplicate then mret (Err (ErrMsg "注册失败请重试")) else mret (Err e)
        | None => mret (Ok u)
        end
      end
    end
  end.

(** From the new user's row on: the session, and the answer kept for repeats. *)
Definition register_session (req : registerReq) (cc : string) (u : User.User) : prog outcome :=
  sess ← Session.IssueUser (Svc.Sessions svc) (User.UID u) (User.NickName u) (User.Icon u)
           (User.UserType u) (g_Plat req);
  match sess with
  | Err e => mret (fail CodeBusinessError ("issue session: " +:+ Error e))
  | Ok sess =>
    resp ← buildAuthResponse sess u;
    _ ← redis (RSetex (idemKey cc (g_Phone req)) (jsonBytes (auth_json resp)) 60);
    mret (success (auth_json resp))
  end.

Definition register_create (req : registerReq) (cc : string) : prog outcome :=
  u ← WithToken (create_user req cc);
  match u with
  | Ok u => register_session req cc u
  | Err e =>
    if errors_Is e ErrDuplicate then mret (fail CodePhoneAlreadyReg "手机号码已被注册")
    else cm ← db_failed e; mret (fail cm.1 cm.2)
  end.

(** The one-shot image captcha. *)
Definition check_kaptcha (req : registerReq) : prog bool :=
  let key := "yuyan:kaptcha:" +:+ g_Phone req in
  stored ← redis (RGet key);
  _ ← redis (RDel [key]);
  mret (EqualFold (TrimSpace (match stored with Ok s => s | Err _ => "" end)) (TrimSpace (g_Kaptcha req))).

Definition register_checks (req : registerReq) (cc : string) : prog outcome :=
  cached ← redis (RGet (idemKey cc (g_Phone req)));
  match cached with
  | Ok (String _ _ as text) => mret (Some text, CodeOK, "")
  | _ =>
    ok ← Sms.Verify (Svc.SmsStore svc) cc (g_Phone req) 1 (g_SmsCode req);
    if negb ok then mret (fail CodeSmsCheckFailed "验证码错误") else
    ok ← check_kaptcha req;
    if negb ok then mret (fail CodeKaptchaInvalid "图形验证码错误") else
    register_create req cc
  end.

Definition register_gate (req : registerReq) : option outcome :=
  if negb (g_AccountType req =? 1) || String.eqb (g_Phone req) "" || String.eqb (g_NickName req) "" ||
     negb (g_PwdType req =? Pwd.PwdTypeMD5) then Some (fail CodeBusinessError "注册失败")
  else if RuneCountInString (g_NickName req) <? 2 then Some (fail CodeBusinessError "昵称至少2个字符")
  else if negb (validatePhone (normalizeCC (g_CountryCode req)) (g_Phone req)) then
    Some (fail CodePhoneInvalid "手机号码格式错误")
  else None.

Definition handleRegister (inp : CallReq) : prog outcome :=
  match parse_body as_registerReq (ParamJson inp) with
  | None => mret (fail CodeBusinessError "invalid request")
  | Some req =>
    match register_gate req with
    | Some o => mret o
    | None =>
      gated Degrade.LevelWrite "服务降级中，注册暂不可用，请稍后再试"
        (register_checks req (normalizeCC (g_CountryCode req)))
    end
  end.

(** *** Sessions *)
Definition handleGuestLogin (inp : CallReq) : prog outcome :=
  let plat := lone_int "plat" (ParamJson inp) in
  let plat := if plat =? 0 then 4 else plat in
  gated Degrade.LevelAuth "服务降级中，登录暂不可用"
    (sess ← Session.IssueGuest (Svc.Sessions svc) plat;
     match sess with
     | Err e => mret (fail CodeBusinessError ("issue guest: " +:+ Error e))
     | Ok sess =>
       mret (success (auth_json (MkAuth (Session.AccessToken sess) (Session.AccessToken sess) ""
         (MkUserInfo 0 (Session.NickName sess) "" "" 1 0 0 no_grow 3 0 "" "" "") [] "" 0 "")))
     end).

(** The status lookup handed to Sessions.Refresh. *)
Definition statusFn (uid : Z) : prog (res Z) :=
  r ← dbWithSem (User.FindByUid sch uid);
  match r with inl u => mret (Ok (User.Status u)) | inr (e, _, _) => mret (Err e) end.

Definition refresh_session (token : string) : prog outcome :=
  sess ← Session.Refresh (Svc.Sessions svc) token (Some statusFn);
  match sess with
  | Err e =>
    if errors_Is e Session.ErrUserBanned then mret (fail CodeUserBanned "账号已封禁")
    else mret (fail CodeBusinessError "refresh denied")
  | Ok sess =>
    r ← dbWithSem (User.FindByUid sch (Session.UID sess));
    match r with
    | inr (_, code, meg) => mret (fail code meg)
    | inl u => resp ← buildAuthResponse sess u; mret (success (auth_json resp))
    end
  end.

Definition handleRefresh (inp : CallReq) : prog outcome :=
  match parse_body as_refreshReq (ParamJson inp) with
  | None => mret (fail CodeBusinessError "invalid request")
  | Some token => gated Degrade.LevelAuth "服务降级中，登录暂不可用" (refresh_session token)
  end.

Definition empty_json : json := JObj [].

Definition handleLogout (inp : CallReq) : prog outcome :=
  gated Degrade.LevelAuth "服务降级中，登出暂不可用"
    (if String.eqb (SessionId inp) "" then mret (success empty_json)
     else _ ← Session.Revoke (Svc.Sessions svc) (SessionId inp); mret (success empty_json)).

(** FindByUid and BuildUserInfo under one token. *)
Definition find_with_info (uid : Z) : prog (res (User.User * UserInfoResult)) :=
  u ← User.FindByUid sch uid;
  match u with
  | Err e => mret (Err e)
  | Ok u => info ← BuildUserInfo sch u; mret (Ok (u, info))
  end.

Definition user_detail (sid : string) : prog outcome :=
  sess ← Session.Get (Svc.Sessions svc) sid;
  match sess with
  | Err _ => mret (fail CodeLoginRequired "login required")
  | Ok sess =>
    if Session.IsGuest sess then mret (fail CodeLoginRequired "login required") else
    r ← dbWithSem (find_with_info (Session.UID sess));
    match r with
    | inr (_, code, meg) => mret (fail code meg)
    | inl (u, info) =>
      if negb (User.Status u =? 1) then mret (fail CodeUserBanned "账号已封禁")
      else mret (success (JObj [("user", user_json info)]))
    end
  end.

Definition handleUserDetail (inp : CallReq) : prog outcome :=
  if String.eqb (SessionId inp) "" then mret (fail CodeLoginRequired "login required")
  else gated Degrade.LevelAuth "服务降级中，用户信息暂不可用" (user_detail (SessionId inp)).

(** *** SMS *)
Definition cooldownKey (cc phone : string) : string := "yuyan:ratelimit:cooldown:sms:" +:+ cc +:+ ":" +:+ phone.
Definition hourKey (cc phone : string) : string := "yuyan:ratelimit:sms:" +:+ cc +:+ ":" +:+ phone +:+ ":hour".

(** The cooldown and the hourly limit: the refusal, if any. *)
Definition sms_limits (cc phone : string) : prog (option outcome) :=
  ok ← redis (RSetnxEx (cooldownKey cc phone) "1" 60);
  match ok with
  | Ok true =>
    cnt ← redis (RIncr (hourKey cc phone));
    match cnt with
    | Ok cnt =>
      _ ← (if cnt =? 1 then _ ← redis (RExpire (hourKey cc phone) 3600); mret tt else mret tt);
      if 10 <? cnt then mret (Some (fail CodeRateLimited "验证码发送次数已达上限")) else mret None
    | Err _ => mret None
    end
  | _ => mret (Some (fail CodeRateLimited "验证码发送过频，请60秒后再试"))
  end.

(** FindByPhone where "not found" is an answer. *)
Definition find_existing (cc phone : string) : prog (res (option User.User)) :=
  u ← User.FindByPhone sch cc phone;
  match u with
  | Ok u => mret (Ok (Some u))
  | Err e => if errors_Is e ErrNotFound then mret (Ok None) else mret (Err e)
  end.

Definition sms_registered (cc phone : string) (ty : Z) : prog (option outcome) :=
  if negb (ty =? 1) then mret None else
  r ← dbWithSem (find_existing cc phone);
  match r with
  | inr (_, code, meg) => mret (Some (fail code meg))
  | inl (Some _) => mret (Some (fail CodePhoneAlreadyReg "手机号码已被注册"))
  | inl None => mret None
  end.

Definition sms_send (cc phone : string) (ty : Z) : prog outcome :=
  lim ← sms_limits cc phone;
  match lim with
  | Some o => mret o
  | None =>
    reg ← sms_registered cc phone ty;
    match reg with
    | Some o => mret o
    | None =>
      r ← Sms.Issue (Svc.SmsStore svc) cc phone ty;
      match r with
      | Err e => mret (fail CodeBusinessError ("sms issue: " +:+ Error e))
      | Ok _ => mret (success empty_json)
      end
    end
  end.

Definition handleSmsGetCode (inp : CallReq) : prog outcome :=
  match parse_body as_smsReq (ParamJson inp) with
  | None => mret (fail CodeBusinessError "invalid request")
  | Some req =>
    let cc := normalizeCC (s_CountryCode req) in
    let ty := if s_Type req =? 0 then 1 else s_Type req in
    if String.eqb (s_Phone req) "" || negb (validatePhone cc (s_Phone req))
    then mret (fail CodePhoneInvalid "手机号码格式错误")
    else gated Degrade.LevelAuth "服务降级中，验证码暂不可用" (sms_send cc (s_Phone req) ty)
  end.

Definition handleSmsCheckCode (inp : CallReq) : prog outcome :=
  match parse_body as_smsCheckReq (ParamJson inp) with
  | None => mret (fail CodeBusinessError "invalid request")
  | Some req =>
    gated Degrade.LevelAuth "服务降级中，验证码暂不可用"
      (ok ← Sms.Verify (Svc.SmsStore svc) (normalizeCC (s_CountryCode req)) (s_Phone req) (s_Type req) (s_SmsCode req);
       if negb ok then mret (fail CodeSmsCheckFailed "验证码错误") else mret (success empty_json))
  end.

(** ** Display methods *)

(** json.Marshal and json.Unmarshal of the cached types. *)
Definition catalog : Type := option (gmap string (slice MatchCatalogItem)).
Definition catalog_text (c : catalog) : json :=
  match c with None => JNull | Some m => map_json (slice_json item_json) m end.
Definition items_text (l : slice MatchCatalogItem) : json := slice_json item_json l.
Definition schedule : Type := option (gmap string (slice MatchItem)).
Definition schedule_text (c : schedule) : json :=
  match c with None => JNull | Some m => map_json (slice_json match_json) m end.
(** A [map[string]any]; [None] is nil. *)
Definition anymap_text (m : option anymap) : json := match m with None => JNull | Some m => JObj m end.
Definition as_anymap (j : json) : option (option anymap) :=
  match j with
  | JNull => Some None
  | JObj _ => match Cache.Multi.as_any float_lit j with Some (JObj ms) => Some (Some ms) | _ => None end
  | _ => None
  end.

(** A Level 1 method: the manager's cache in front of a loader; [k] makes the
    answer of what was loaded. *)
Definition display {T} (to_json : T -> json) (conv : json -> option T) (zero : T) (family key : string)
    (sec : Z) (loader : prog (res T)) (k : T -> outcome) : prog outcome :=
  r ← Cache.Multi.GetOrLoadT (fun t => Ok (jsonBytes (to_json t))) (unmarshal_as conv zero) float_lit
        (Svc.Manager svc) family key (sec * Second) Degrade.LevelDisplay loader;
  match r with
  | Err e => let '(code, meg) := handleCacheError e in mret (fail code meg)
  | Ok t => mret (k t)
  end.

Definition load_ok {T A} (f : A -> T) (p : prog A) : prog (res T) := a ← p; mret (Ok (f a)).

Definition build_catalog : prog (res catalog) :=
  load_ok (fun m => Some (Some <$> m)) (BuildMatchCatalog LocalZone sch).
Definition handleMatchesJSONP : prog outcome :=
  display catalog_text (as_map (as_slice as_item)) None "match" "catalog" 60 build_catalog
    (fun c => success (catalog_text c)).

Definition recommend_json (l : slice MatchCatalogItem) : json :=
  JObj [("count", jint (Z.of_nat (length (default [] l)))); ("matches", items_text l); ("pageNum", jint 1)].
Definition handleMatchRecommend : prog outcome :=
  display items_text (as_slice as_item) None "match" "recommend" 60
    (load_ok Some (BuildRecommend LocalZone sch)) (fun l => success (recommend_json l)).

Definition match_item_of (i : MatchCatalogItem) : MatchItem :=
  MkMatch (ScheduleID i) (MatchTime i) (HostName i) (GuestName i) (HostIcon i) (GuestIcon i)
    (SubCateName i) (CategoryIcon i).

Definition buildMatchDetailPayload (scheduleID : Z) : prog (res (option anymap)) :=
  r ← Match.ListCatalog sch [1; 2; 5] 200;
  match r with
  | (_, Some e) => mret (Err e)
  | (rows, None) =>
    items ← GroupCatalogRows LocalZone rows;
    match List.find (fun i => ScheduleID i =? scheduleID) items with
    | None => mret (Ok None)
    | Some found =>
      rooms ← Match.ListRoomsBySchedule sch scheduleID 50;
      mret (Ok (Some [("match", match_json (match_item_of found)); ("rooms", rooms_json rooms.1)]))
    end
  end.

(** A payload that may be nil. *)
Definition found_or (meg : string) (m : option anymap) : outcome :=
  match m with None => fail CodeBusinessError meg | Some _ => success (anymap_text m) end.

Definition handleMatchDetail (inp : CallReq) : prog outcome :=
  let id := (Unmarshal match_detail_fields (0, "") (ParamJson inp)).1.1 in
  if id =? 0 then mret (fail CodeBusinessError "missing scheduleId") else
  display anymap_text as_anymap None "match" ("detail:" +:+ FormatInt id) 60 (buildMatchDetailPayload id)
    (found_or "match not found").

Definition handleMatchByDate (inp : CallReq) : prog outcome :=
  let date := lone_string "date" (ParamJson inp) in
  date ← (if String.eqb date "" then todayKey LocalZone else mret date);
  if negb (String.length date =? 8)%nat then mret (fail CodeBusinessError "date must be YYYYMMDD") else
  display items_text (as_slice as_item) None "match" ("date:" +:+ date) 60
    (load_ok Some (BuildMatchByDate LocalZone sch date)) (fun l => success (items_text l)).

Definition handleAllLiveRooms : prog outcome :=
  display anymap_text as_anymap None "live" "all" 15 (load_ok Some (BuildAllLiveRooms sch))
    (fun m => success (anymap_text m)).

Definition types_text (l : slice LiveTypeJSON) : json := slice_json live_type_json l.
Definition load_types : prog (res (slice LiveTypeJSON)) :=
  lts ← LiveType.ListTopLevel sch;
  match lts with
  | (_, Some e) => mret (Err e)
  | (lts, None) => mret (Ok (Some (BuildLiveTypesJSON lts)))
  end.
Definition handleLiveTypes : prog outcome :=
  display types_text (as_slice as_live_type) None "live" "types" 15 load_types
    (fun l => success (types_text l)).

Definition handleLiveCateList (inp : CallReq) : prog outcome :=
  let id := lone_int "liveTypeId" (ParamJson inp) in
  if id =? 0 then mret (fail CodeBusinessError "missing liveTypeId") else
  display anymap_text as_anymap None "live" ("listByType:" +:+ FormatInt id) 15
    (load_ok (fun r => Some [("rooms", rooms_or_empty r)]) (LiveRoom.ListByType sch id 50))
    (fun m => success (anymap_text m)).

Definition handleLiveHot : prog outcome :=
  display anymap_text as_anymap None "live" "hot" 15
    (load_ok (fun r => Some [("hot", rooms_or_empty r)]) (LiveRoom.ListHot sch 50))
    (fun m => success (anymap_text m)).

Definition room_detail_cached (roomNum : string) : prog outcome :=
  if String.eqb roomNum "" then mret (fail CodeBusinessError "missing roomNum") else
  display anymap_text as_anymap None "room" ("detail:" +:+ roomNum) 30
    (load_ok id (BuildRoomDetail sch roomNum)) (found_or "room not found").

Definition handleLiveDetail (inp : CallReq) : prog outcome :=
  room_detail_cached (Unmarshal live_detail_fields ("", 0) (ParamJson inp)).1.1.
Definition handleRoomDetail (inp : CallReq) : prog outcome :=
  room_detail_cached (lone_string "roomNum" (ParamJson inp)).

Definition handleRoomSchedule (inp : CallReq) : prog outcome :=
  let roomNum := lone_string "roomNum" (ParamJson inp) in
  if String.eqb roomNum "" then mret (fail CodeBusinessError "missing roomNum") else
  display schedule_text (as_map (as_slice as_match)) None "room" ("schedule:" +:+ roomNum) 60
    (load_ok Some (BuildRoomSchedule LocalZone sch roomNum)) (fun m => success (schedule_text m)).

Definition gifts_text (l : slice GiftRankItem) : json := slice_json gift_json l.
Definition handleRoomGiftRank (inp : CallReq) : prog outcome :=
  let roomNum := lone_string "roomNum" (ParamJson inp) in
  if String.eqb roomNum "" then mret (fail CodeBusinessError "missing roomNum") else
  display gifts_text (as_slice as_gift) None "room" ("gift_rank:" +:+ roomNum) 30
    (load_ok Some (BuildGiftRank sch roomNum)) (fun l => success (gifts_text l)).

(** *** Loaders that hide the error *)
Definition load_through {T} (to_json : T -> json) (conv : json -> option T) (zero : T) (family key : string)
    (sec : Z) (loader : prog (res T)) : prog T :=
  r ← Cache.Multi.GetOrLoadT (fun t => Ok (jsonBytes (to_json t))) (unmarshal_as conv zero) float_lit
        (Svc.Manager svc) family key (sec * Second) Degrade.LevelDisplay loader;
  mret (match r with Ok t => t | Err _ => zero end).
Definition loadMatchCatalog : prog catalog :=
  load_through catalog_text (as_map (as_slice as_item)) None "match" "catalog" 60 build_catalog.
Definition loadRecommend : prog (slice MatchCatalogItem) :=
  load_through items_text (as_slice as_item) None "match" "recommend" 60
    (load_ok Some (BuildRecommend LocalZone sch)).
Definition loadMatchByDate (date : string) : prog (slice MatchCatalogItem) :=
  load_through items_text (as_slice as_item) None "match" ("date:" +:+ date) 60
    (load_ok Some (BuildMatchByDate LocalZone sch date)).
Definition loadAllLiveRooms : prog (option anymap) :=
  load_through anymap_text as_anymap None "live" "all" 15 (load_ok Some (BuildAllLiveRooms sch)).

(** ** Dispatch *)
Definition handlers : list (string * (CallReq -> prog outcome)) :=
  [("login", handleLogin); ("register", handleRegister); ("guestLogin", handleGuestLogin);
   ("refresh", handleRefresh); ("logout", handleLogout); ("user_detail", handleUserDetail);
   ("sms_getCode", handleSmsGetCode); ("sms_checkCode", handleSmsCheckCode);
   ("matches_jsonp", fun _ => handleMatchesJSONP);
   ("match_recommend", fun _ => handleMatchRecommend); ("match_cateList", fun _ => handleMatchRecommend);
   ("match_detail", handleMatchDetail); ("match_byDate", handleMatchByDate);
   ("live_all_rooms", fun _ => handleAllLiveRooms); ("live_types", fun _ => handleLiveTypes);
   ("live_cateList", handleLiveCateList); ("live_hot", fun _ => handleLiveHot);
   ("live_detail", handleLiveDetail);
   ("room_detail", handleRoomDetail); ("room_schedule", handleRoomSchedule);
   ("room_gift_rank", handleRoomGiftRank)].

Definition route (method : string) (inp : CallReq) : prog outcome :=
  match List.find (fun h => String.eqb h.1 method) handlers with
  | Some (_, h) => h inp
  | None => mret (fail CodeBusinessError ("unknown method: " +:+ method))
  end.

Definition Call (inp : CallReq) : prog CallResp :=
  '(result, code, meg) ← route (TrimSpace (Method inp)) inp;
  mret (MkResp (wraps 32 code) meg (Seq inp) (SessionId inp) result).
End logic.
End Logic.
