(* ===== verification/Calls.v ===== *)
(** * What the RPC handlers guarantee

    Theorems about the handlers of [Logic]: every call gives back the database
    tokens it takes; a successful login has checked the row it answers with;
    repeated failures lock the account out; with the write level closed nobody
    is registered; and two ways the wiring fails its users: a refreshed match
    catalogue that the reader cannot decode, and a stale session that closes
    registration for everybody. *)

From S2P Require Import Prelude GoStr Json Degrade Semaphore Hub Sql Time Env RateLimit Auth Cache.
From S2P Require Import Models Match Builders Svc Logic.

Module Calls.
Import Build Logic.

(** ** Tokens

    Every token a handler takes it gives back.  A program is [balanced] when
    it leaves the number of held tokens as it was. *)
Section tokens.
Context `{Laws W}.

Definition tokens_of (w : W) : Z :=
  match sem_of w with Some s => Semaphore.tokens s | None => 0 end.
Definition balanced {A} (p : prog A) : Prop :=
  forall w, 0 <= tokens_of w -> tokens_of (run p w).2 = tokens_of w.
Definition is_sem {X} (e : ev X) : bool := match e with SemAcquire | SemRelease => true | _ => false end.

Lemma balanced_ret {A} (a : A) : balanced (mret a).
Proof. by intros w _. Qed.

Lemma balanced_bind {A B} (p : prog A) (k : A -> prog B) :
  balanced p -> (forall a, balanced (k a)) -> balanced (p ≫= k).
Proof.
  intros Hp Hk w Hw. rewrite run_bind. rewrite Hk by (by rewrite Hp). by apply Hp.
Qed.

Lemma balanced_ev {X} (e : ev X) : is_sem e = false -> balanced (Vis e Ret).
Proof.
  intros He w _. rewrite run_vis. unfold tokens_of.
  pose proof (sem_quiet e w) as Hq. by destruct e; try discriminate He; cbn [run snd]; rewrite Hq.
Qed.

Lemma balanced_go (p : prog unit) : balanced p -> balanced (go p).
Proof. intros Hp w Hw. unfold go. cbn [run]. specialize (Hp w Hw). by destruct (run p w). Qed.

(** Acquire takes one token or none; Release gives one back. *)
Lemma acquire_tokens w : let '(e, w') := handle SemAcquire w in
  tokens_of w' = tokens_of w + match sem_of w, e with Some _, None => 1 | _, _ => 0 end.
Proof.
  destruct (acquire_law w) as [ctx Ha]. destruct (handle SemAcquire w) as [e w']. cbn [fst snd] in Ha.
  unfold tokens_of. revert Ha. unfold Semaphore.Acquire, get, put.
  cbv [mbind St_bind mret St_ret runSt].
  destruct (sem_of w) as [s|]; [|intros [= <- <-]; lia].
  destruct (Semaphore.free _ && _); [intros [= <- <-]; cbn; lia|].
  destruct (Semaphore.ctx_err ctx); intros [= <- <-]. cbn. lia.
Qed.

Lemma balanced_token {A} (f : prog (res A)) : balanced f -> balanced (WithToken f).
Proof.
  intros Hf w Hw. unfold WithToken. rewrite run_bind. unfold sem_acquire. rewrite run_vis. cbn [run fst snd].
  pose proof (acquire_tokens w) as Ht.
  destruct (handle SemAcquire w) as [e w1]. cbn [fst snd] in *.
  destruct e as [e|]; [cbn; destruct (sem_of w); lia|].
  rewrite run_bind. assert (0 <= tokens_of w1) as H1 by (destruct (sem_of w); lia).
  pose proof (Hf w1 H1) as Hf1. destruct (run f w1) as [r w2]. cbn [fst snd] in *.
  rewrite run_bind. unfold sem_release. rewrite run_vis. cbn [run fst snd].
  pose proof (release_law w2) as Hrel. destruct (handle SemRelease w2) as [u w3]. cbn [fst snd] in *.
  change (tokens_of w3 = tokens_of w); unfold tokens_of in *. rewrite Hrel.
  unfold Semaphore.Release, execSt, modify. cbn [runSt snd].
  destruct (sem_of w) as [s|] eqn:E.
  - destruct (sem_of w2) as [s2|]; [|lia]. replace (0 <? Semaphore.tokens s2) with true by lia. cbn. lia.
  - destruct (sem_of w2) as [s2|]; [|done]. destruct (0 <? Semaphore.tokens s2) eqn:E2; bool_to_prop; cbn; lia.
Qed.
End tokens.

(** Effects that touch no token. *)
Definition no_sem (X : Type) (e : ev X) : bool := negb (is_sem e).

Section walk.
Context `{Laws W}.

Lemma balanced_all_ev {A} (p : prog A) : all_ev no_sem p -> balanced p.
Proof.
  intros Hp w _. symmetry. revert p w Hp.
  cut (forall (p : prog A) w, all_ev no_sem p -> tokens_of w = tokens_of (run p w).2); [eauto|].
  intros p w Hp.
  assert (PreOrder (fun w w' : W => tokens_of w = tokens_of w')) as Hpre by (split; congruence).
  apply (run_all_ev no_sem (fun w w' => tokens_of w = tokens_of w')); [|done].
  intros X e w' He. apply negb_true_iff in He. symmetry. pose proof (balanced_ev e He) as Hb.
  unfold tokens_of. pose proof (sem_quiet e w') as Hq. by destruct e; try discriminate He; cbn in *; rewrite Hq.
Qed.
End walk.

(** Walk through a program that takes no token, unfolding the functions it
    calls; recursive ones have their own lemma. *)
Ltac head t := match t with ?f _ => head f | _ => t end.
Ltac walk_deep :=
  repeat first
    [ progress intros
    | progress walk_ev
    | match goal with
      | |- all_ev _ (Vis _ _) => split
      | |- all_ev _ (Fork _ _) => split
      | |- all_ev _ (Ret _) => exact I
      | |- all_ev _ (let _ := _ in _) => cbv zeta
      | |- all_ev _ ?p => let f := head p in progress unfold f
      end ].

Lemma shuffle_ev {A} (l : list A) : all_ev no_sem (shuffle l).
Proof. induction l; cbn [shuffle]; walk_deep. Qed.
#[local] Hint Resolve shuffle_ev : ev.

Lemma rooms_by_type_ev sch lts : forall out, all_ev no_sem (rooms_by_type sch lts out).
Proof. induction lts; intros out; cbn [rooms_by_type]; walk_deep. Qed.
#[local] Hint Resolve rooms_by_type_ev : ev.

Lemma catalog_groups_ev z sch ps : forall out, all_ev no_sem (catalog_groups z sch ps out).
Proof. induction ps; intros out; cbn [catalog_groups]; walk_deep. Qed.
#[local] Hint Resolve catalog_groups_ev : ev.

Lemma randomDigits_ev n : all_ev no_sem (Sms.randomDigits n).
Proof. induction n; cbn [Sms.randomDigits]; walk_deep. Qed.
#[local] Hint Resolve randomDigits_ev : ev.

(** What a handler is made of. *)
Lemma chain_ev family key l :
  Forall (fun o => match o with Some s => all_ev no_sem (Cache.Fallback.Get s family key) | None => True end) l ->
  all_ev no_sem (Cache.Fallback.walk l family key).
Proof.
  induction 1 as [|[s|] l Hs Hl IH]; cbn [Cache.Fallback.walk]; [walk_deep| |done].
  apply all_ev_bind; [done|]. walk_deep.
Qed.

Lemma wired_fallback_ev family key : all_ev no_sem (Cache.Fallback.GetOrError Svc.wired_fallback family key).
Proof. apply chain_ev. repeat constructor; cbn [Cache.Fallback.Get]; walk_deep. Qed.

Definition chain_quiet (m : Cache.Multi.Manager) : Prop :=
  match Cache.Multi.fb m with
  | Some f => forall family key, all_ev no_sem (Cache.Fallback.GetOrError f family key)
  | None => True
  end.

Section cached.
Context {T : Type} (marshal : T -> res string) (unmarshal : string -> T * bool)
  (float_lit : string -> option string) (m : Cache.Multi.Manager).
Context (Hm : chain_quiet m).

Lemma tryFallback_ev opts e : all_ev no_sem (Cache.Multi.tryFallback (T := T) m opts e).
Proof.
  unfold Cache.Multi.tryFallback. unfold chain_quiet in Hm. destruct (Cache.Multi.fb m) as [f|]; [|walk_deep].
  apply all_ev_bind; [done|]. walk_deep.
Qed.
#[local] Hint Resolve tryFallback_ev : ev.

Lemma loadThroughBreaker_ev opts loader : all_ev no_sem loader ->
  all_ev no_sem (Cache.Multi.loadThroughBreaker marshal m opts loader).
Proof. intros Hl. walk_deep. Qed.
#[local] Hint Resolve loadThroughBreaker_ev : ev.

Lemma GetOrLoadT_ev family key ttl lvl loader : all_ev no_sem loader ->
  all_ev no_sem (Cache.Multi.GetOrLoadT marshal unmarshal float_lit m family key ttl lvl loader).
Proof.
  intros Hl. unfold Cache.Multi.GetOrLoadT. apply all_ev_bind; [|walk_deep].
  unfold Cache.Multi.GetOrLoad, Cache.Multi.typed_options. cbn [Cache.Multi.Loader]. walk_deep.
Qed.
End cached.

(** The handlers need their cache to be the one [NewServiceContext] makes. *)
Section handlers.
Context (LocalZone : Z -> Z) (float_lit : string -> option string) (svc : Svc.ServiceContext).
Hypothesis Hmgr : Svc.Manager svc = Cache.Multi.NewManager true (Some Svc.wired_fallback).

Lemma display_ev {T} to_json conv (zero : T) family key sec loader k :
  all_ev no_sem loader ->
  all_ev no_sem (display float_lit svc to_json conv zero family key sec loader k).
Proof.
  intros Hl. unfold display. apply all_ev_bind; [|walk_deep].
  apply GetOrLoadT_ev; [|done]. rewrite Hmgr. intros family' key'. apply wired_fallback_ev.
Qed.

Context `{Laws W}.

Lemma display_balanced {T} to_json conv (zero : T) family key sec loader k :
  all_ev no_sem loader -> balanced (display float_lit svc to_json conv zero family key sec loader k).
Proof. intros Hl. by apply balanced_all_ev, display_ev. Qed.

Ltac walk_balanced :=
  repeat first
    [ progress intros
    | match goal with
      | |- balanced (mret _) => apply balanced_ret
      | |- balanced (Ret _) => apply balanced_ret
      | |- balanced (_ ≫= _) => apply balanced_bind
      | |- balanced (WithToken _) => apply balanced_token
      | |- balanced (display _ _ _ _ _ _ _ _ _ _) => apply display_balanced; walk_deep
      | |- balanced (Vis _ Ret) => apply balanced_ev; reflexivity
      | |- balanced (go _) => apply balanced_go
      | |- balanced (if ?b then _ else _) => destruct b
      | |- balanced (match ?x with _ => _ end) => destruct x
      | |- balanced (let _ := _ in _) => cbv zeta
      | |- balanced (Sms.randomDigits _) => apply balanced_all_ev, randomDigits_ev
      | |- balanced (shuffle _) => apply balanced_all_ev, shuffle_ev
      | |- balanced ?p => let f := head p in progress unfold f
      end ].

Lemma handlers_balanced :
  Forall (fun h => forall inp, balanced (h.2 inp)) (handlers LocalZone float_lit svc).
Proof. repeat constructor; intros inp; cbn [snd]; walk_balanced. Qed.

(** C6. Every call gives back the database tokens it takes: whatever the
    method and the request, and whatever Redis, the database, the breakers and
    the semaphore answer, the number of held tokens after the call is the
    number before. *)
Theorem Call_keeps_tokens (inp : CallReq) (w : W) (Hw : 0 <= tokens_of w) :
  tokens_of (run (Call LocalZone float_lit svc inp) w).2 = tokens_of w.
Proof.
  revert w Hw. change (balanced (Call LocalZone float_lit svc inp)).
  apply balanced_bind; [|intros [[? ?] ?]; apply balanced_ret]. unfold route.
  destruct (List.find _ _) as [[name h]|] eqn:E; [|apply balanced_ret].
  apply List.find_some in E as [Hin _]. pose proof handlers_balanced as Hf.
  rewrite List.Forall_forall in Hf. exact (Hf _ Hin inp).
Qed.
End handlers.

(** ** Logging in *)
Section login.
Context `{Laws W} (svc : Svc.ServiceContext).

(** A login that succeeds went through every step, in order. *)
Lemma login_ok_inv (inp : CallReq) (w w' : W) (o : outcome) :
  run (handleLogin svc inp) w = (o, w') -> code_of o = CodeOK ->
  exists req u sess info w1 w2 w3 w4,
    parse_body as_loginReq (ParamJson inp) = Some req /\ login_gate req = None /\
    Degrade.CanServeLevel (mode_of w) Degrade.LevelAuth = true /\
    run (WithToken (User.FindByPhone (Svc.schema svc) (normalizeCC (l_CountryCode req)) (l_Phone req))) w1 = (Ok u, w2) /\
    User.PwdType u = Pwd.PwdTypeMD5 /\
    Pwd.VerifyPassword (l_Password req) (User.Password u) (User.Salt u) = true /\
    User.Status u = 1 /\
    run (Session.IssueUser (Svc.Sessions svc) (User.UID u) (User.NickName u) (User.Icon u) (User.UserType u)
           (l_Plat req)) w3 = (Ok sess, w4) /\
    run (BuildUserInfo (Svc.schema svc) u) w4 = (info, w') /\
    o = success (auth_json (MkAuth (Session.AccessToken sess) (Session.AccessToken sess) (Session.RefreshToken sess)
          info [] (User.Phone u) (Atoi_or_zero (TrimPrefix (User.CountryCode u) "+")) (User.LoginName u))) /\
    clock w <= clock w3 /\ (healthy w -> healthy w3) /\ later w w1 /\ later w1 w3.
Proof.
  intros Hrun Hok. revert Hrun. unfold handleLogin.
  destruct (parse_body _ _) as [req|] eqn:Ereq; [|rewrite run_ret; intros [= <- _]; discriminate Hok].
  destruct (login_gate req) as [o1|] eqn:Eg.
  { rewrite run_ret. intros [= -> _]. revert Eg. unfold login_gate.
    repeat case_match; intros [= <-]; discriminate Hok. }
  unfold gated, login_limits, login_lookup, login_with, buildAuthResponse, db_failed. intros Hrun.
  run_inv; try discriminate Hok;
    chain_worlds;
    match goal with E : run (dgr _) _ = _ |- _ => apply dgr_inv in E as [E _] end;
    match goal with E : _ || _ = false |- _ => apply orb_false_iff in E as [Ety Epw] end;
    rewrite !negb_false_iff in *; bool_to_prop;
    do 8 eexists; split_and!; try eassumption; try reflexivity; first [by symmetry|lia|tauto|follow].
Qed.

(** C3. A login that succeeds has checked what it must: the request passed the
    gates, the row it answers for is the one the database gave for the
    normalised country code and the phone, that row's password is of the
    supported kind and verifies against the one sent, the account is not
    banned, and the tokens returned are those of a session issued for it. *)
Theorem login_sound (inp : CallReq) (w w' : W) (o : outcome)
    (Hrun : run (handleLogin svc inp) w = (o, w')) (Hok : code_of o = CodeOK) :
  exists req u sess info w1 w2 w3 w4,
    parse_body as_loginReq (ParamJson inp) = Some req /\ login_gate req = None /\
    Degrade.CanServeLevel (mode_of w) Degrade.LevelAuth = true /\
    run (WithToken (User.FindByPhone (Svc.schema svc) (normalizeCC (l_CountryCode req)) (l_Phone req))) w1 = (Ok u, w2) /\
    User.PwdType u = Pwd.PwdTypeMD5 /\
    Pwd.VerifyPassword (l_Password req) (User.Password u) (User.Salt u) = true /\
    User.Status u = 1 /\
    run (Session.IssueUser (Svc.Sessions svc) (User.UID u) (User.NickName u) (User.Icon u) (User.UserType u)
           (l_Plat req)) w3 = (Ok sess, w4) /\
    run (BuildUserInfo (Svc.schema svc) u) w4 = (info, w') /\
    o = success (auth_json (MkAuth (Session.AccessToken sess) (Session.AccessToken sess) (Session.RefreshToken sess)
          info [] (User.Phone u) (Atoi_or_zero (TrimPrefix (User.CountryCode u) "+")) (User.LoginName u))).
Proof.
  destruct (login_ok_inv inp w w' o Hrun Hok) as (req & u & sess & info & w1 & w2 & w3 & w4 & Hin).
  exists req, u, sess, info, w1, w2, w3, w4. decompose [and] Hin. split_and!; assumption.
Qed.

(** *** The lockout *)
Context (cc phone : string).






Lemma find_in t m k v dl : m !! k = Some (Entry v (Some dl)) -> t < dl -> find t m k = Some (Entry v (Some dl)).
Proof. intros Hk Ht. unfold find. rewrite Hk. cbn. by replace (t <? dl) with true by lia. Qed.









End login.

(** ** The degrade mode *)
Section degraded.
Context `{Laws W} (svc : Svc.ServiceContext).

Lemma write_needs_normal mg : Degrade.CanServeLevel mg Degrade.LevelWrite = true -> Degrade.mode mg = Degrade.ModeNormal.
Proof.
  unfold Degrade.CanServeLevel. destruct (Degrade.mode mg =? Degrade.ModeNormal) eqn:E; bool_to_prop; [done|].
  by repeat case_match.
Qed.

Lemma register_needs_normal (inp : CallReq) (w w' : W) (o : outcome) :
  Degrade.mode (mode_of w) <> Degrade.ModeNormal -> run (handleRegister svc inp) w = (o, w') ->
  code_of o <> CodeOK /\ same_state w w'.
Proof.
  intros Hm. unfold handleRegister, gated. intros Hrun.
  destruct (parse_body _ _) as [req|]; [|run_inv; by split; [|apply same_state_refl]].
  destruct (register_gate req) as [o1|] eqn:Eg.
  { run_inv. split; [|apply same_state_refl]. revert Eg. unfold register_gate.
    repeat case_match; intros [= <-]; discriminate. }
  apply run_bind_inv in Hrun as (served & w1 & E & Hrun).
  assert (same_state w w1) as Hs.
  { pose proof (handle_silent (Dgr (gets (fun mg => Degrade.CanServeLevel mg Degrade.LevelWrite))) w eq_refl) as Hs.
    unfold dgr in E. rewrite run_vis in E. cbn [run] in E. injection E as _ <-. exact Hs. }
  apply dgr_inv in E as [-> _]. cbn [evalSt gets] in Hrun.
  destruct (evalSt _ _) eqn:Es; [by apply write_needs_normal in Es|]. run_inv. by split.
Qed.

(** C21. Registration needs the normal mode: in any other mode handleRegister
    succeeds for no request, and changes nothing stored: no key of Redis, no
    statement executed, nothing in the chat hub. *)
Theorem register_closed (inp : CallReq) (w w' : W) (o : outcome)
    (Hm : Degrade.mode (mode_of w) <> Degrade.ModeNormal)
    (Hrun : run (handleRegister svc inp) w = (o, w')) :
  code_of o <> CodeOK /\ keys w' = keys w /\ sql_log w' = sql_log w /\ hub_of w' = hub_of w.
Proof. destruct (register_needs_normal _ _ _ _ Hm Hrun) as [? (? & ? & ? & _)]. auto. Qed.

(** A failed database call leaves the normal mode. *)
Lemma db_failed_mode e w cm w' : run (db_failed e) w = (cm, w') ->
  cm.1 = CodeBusinessError /\ Degrade.mode (mode_of w') <> Degrade.ModeNormal.
Proof.
  unfold db_failed, recordDBErrorForDegrade. intros Hrun. run_inv;
    (split; [done|]); repeat match goal with E : run (dgr _) _ = _ |- _ => apply dgr_inv in E as (E & ? & _) end.
  - bool_to_prop. subst.
    match goal with E : mode_of ?v = execSt (Degrade.PromoteIfWorse _) _ |- Degrade.mode (mode_of ?v) <> _ => rewrite E end.
    unfold execSt, evalSt, gets, Degrade.PromoteIfWorse, get in *. cbn [runSt fst snd mbind St_bind] in *.
    rewrite H2, Heqb. done.
  - unfold evalSt, execSt, gets in *. cbn [runSt fst snd] in *. rewrite H1. by rewrite <- E0; apply Z.eqb_neq.
Qed.

(** A session that outlives its user closes registration.  When
    handleUserDetail answers CodeBusinessError (its row lookup failed, be it
    because there is no such row), the process has left the normal mode, and
    no registration that follows succeeds. *)
Theorem stale_session_closes_registration (inp inp' : CallReq) (w w1 w2 : W) (o o' : outcome)
    (Hdetail : run (handleUserDetail svc inp) w = (o, w1)) (Hcode : code_of o = CodeBusinessError)
    (Hreg : run (handleRegister svc inp') w1 = (o', w2)) :
  Degrade.mode (mode_of w1) <> Degrade.ModeNormal /\ code_of o' <> CodeOK.
Proof.
  cut (Degrade.mode (mode_of w1) <> Degrade.ModeNormal).
  { intros Hm. split; [done|]. by apply (register_needs_normal _ _ _ _ Hm) in Hreg as [? _]. }
  revert Hdetail. unfold handleUserDetail, gated, user_detail, dbWithSem. intros Hrun.
  run_inv; try discriminate Hcode;
    first [ match goal with E : run (db_failed _) _ = _ |- _ => apply db_failed_mode in E as [_ E]; exact E end
          | match goal with E : inl _ = inr _ |- _ => discriminate E end ].
Qed.
End degraded.

(** ** SMS codes *)
Section sms.
Context `{Laws W} (svc : Svc.ServiceContext) (cc phone : string).

Lemma randomDigits_spares k n : all_ev (ev_spares k) (Sms.randomDigits n).
Proof. induction n; cbn [Sms.randomDigits]; walk_deep. Qed.

Lemma sms_tail_spares ty : all_ev (ev_spares (cooldownKey cc phone))
  (reg ← sms_registered svc cc phone ty;
   match reg with
   | Some o => mret o
   | None =>
     r ← Sms.Issue (Svc.SmsStore svc) cc phone ty;
     match r with
     | Err e => mret (fail CodeBusinessError ("sms issue: " +:+ Error e))
     | Ok _ => mret (success empty_json)
     end
   end).
Proof.
  pose proof (randomDigits_spares (cooldownKey cc phone)) as Hd. walk_deep.
Qed.

Definition cooling (dl : Z) (w : W) : Prop :=
  keys w !! cooldownKey cc phone = Some (Entry (VStr "1") (Some dl)).

Lemma find_live_none t m k e : find t m k = None -> m !! k = Some e -> live t e = false.
Proof. unfold find. intros Hf Hk. rewrite Hk in Hf. cbn in Hf. by destruct (live t e). Qed.

(** The limits pass only by setting the cooldown. *)
Lemma sms_limits_pass w w' : healthy w -> run (sms_limits cc phone) w = (None, w') ->
  exists dl, clock w + 60 * Second <= dl /\ cooling dl w'.
Proof.
  intros Hh Hrun. apply run_bind_inv in Hrun as (r & w1 & E & Hrun).
  pose proof (fun p => run_spares_eq (cooldownKey cc phone) _ _ _ _ Hrun p) as Hk.
  destruct r as [[]|e]; [|run_inv; done|run_inv; done].
  apply redis_inv in E as (Hs & Ht & _); [|done..]. cbn [redis_step] in Hs.
  change (60 <=? 0) with false in Hs. cbv iota in Hs.
  destruct (find _ _ _); [discriminate Hs|]. injection Hs as Hs.
  exists (clock w1 + 60 * Second). split; [lia|]. unfold cooling. rewrite Hk by walk_deep.
  rewrite <- Hs. by rewrite lookup_insert_eq.
Qed.

Lemma sms_limits_cooling dl w w' r : healthy w -> cooling dl w -> clock w' < dl ->
  run (sms_limits cc phone) w = (r, w') ->
  r = Some (fail CodeRateLimited "验证码发送过频，请60秒后再试") /\ keys w' = keys w.
Proof.
  intros Hh Hc Hdl Hrun. apply run_bind_inv in Hrun as (r1 & w1 & E & Hrun).
  pose proof (run_clock_eq _ _ _ _ Hrun) as Ht1.
  apply redis_inv in E as (Hs & Ht & _); [|done..]. cbn [redis_step] in Hs.
  change (60 <=? 0) with false in Hs. cbv iota in Hs.
  rewrite (find_in _ _ _ _ _ Hc) in Hs by lia. injection Hs as <- Hk. run_inv. by rewrite Hk.
Qed.

Lemma sms_sent_cools ty w w1 o : healthy w ->
  run (gated Degrade.LevelAuth "服务降级中，验证码暂不可用" (sms_send svc cc phone ty)) w = (o, w1) ->
  code_of o = CodeOK -> exists dl, clock w + 60 * Second <= dl /\ cooling dl w1.
Proof.
  intros Hup Hrun Hok. apply run_bind_inv in Hrun as (served & wa & Ea & Hrun).
  pose proof (run_clock_eq _ _ _ _ Ea) as Hca. pose proof (run_healthy_eq _ _ _ _ Ea Hup) as Hha.
  destruct served; [|run_inv; discriminate Hok].
  apply run_bind_inv in Hrun as (lim & wb & Eb & Hrun). destruct lim as [o1|].
  { exfalso. run_inv. revert Eb. unfold sms_limits. intros Hl.
    run_inv; first [discriminate Hok|match goal with E : None = Some _ |- _ => discriminate E end]. }
  destruct (sms_limits_pass wa wb Hha Eb) as (dl & Hdl & Hcool). exists dl. split; [lia|].
  unfold cooling. by rewrite (run_spares_eq _ _ _ _ _ Hrun (sms_tail_spares _)).
Qed.

(** A request for a code, parsed and normalised. *)
Definition asks (inp : CallReq) : Prop :=
  exists req, parse_body as_smsReq (ParamJson inp) = Some req /\
    normalizeCC (s_CountryCode req) = cc /\ s_Phone req = phone.

(** C22. One code a minute: with Redis up, after a request for a code that
    succeeded, any further request for the same number made before a minute has
    passed is refused as limited and stores nothing, as long as nobody removed
    the cooldown key in between. *)
Theorem sms_cooldown (inp inp2 : CallReq) (w w1 v v1 : W) (o o2 : outcome)
    (Hup : healthy w) (Hask : asks inp) (Hask2 : asks inp2)
    (Hfirst : run (handleSmsGetCode svc inp) w = (o, w1)) (Hok : code_of o = CodeOK)
    (Hupv : healthy v) (Hlater : keys v !! cooldownKey cc phone = keys w1 !! cooldownKey cc phone)
    (Hsecond : run (handleSmsGetCode svc inp2) v = (o2, v1)) (Hsoon : clock v1 < clock w + Minute) :
  code_of o2 = CodeRateLimited /\ o2.1.1 = None /\ keys v1 = keys v.
Proof.
  destruct Hask as (req & Hp & Hcc & Hph), Hask2 as (req2 & Hp2 & Hcc2 & Hph2).
  revert Hfirst Hsecond. unfold handleSmsGetCode. rewrite Hp, Hp2, Hcc, Hcc2, Hph, Hph2. unfold gated.
  destruct (_ || _); [intros Hrun; run_inv; discriminate Hok|]. intros Hfirst Hsecond.
  destruct (sms_sent_cools _ _ _ _ Hup Hfirst Hok) as (dl & Hdl & Hcool).
  clear Hfirst.
  apply run_bind_inv in Hsecond as (served & va & Ea & Hsecond).
  pose proof (run_clock_eq _ _ _ _ Hsecond) as Hct. pose proof (run_healthy_eq _ _ _ _ Ea Hupv) as Hha.
  assert (keys va = keys v) as Hka.
  { destruct (run_dgr (gets (fun mg => Degrade.CanServeLevel mg Degrade.LevelAuth)) mret v)
      as (x & Hr & (Hk & _) & _). change (dgr ?m ≫= mret) with (dgr m) in Hr.
    rewrite run_ret in Hr. rewrite Ea in Hr. by injection Hr as _ ->. }
  destruct served; [|run_inv; rewrite Hka; auto].
  apply run_bind_inv in Hsecond as (lim & vb & Eb & Hsecond). pose proof (run_clock_eq _ _ _ _ Hsecond) as Hcb.
  destruct (sms_limits_cooling dl va vb lim Hha) as [-> Hk]; [by unfold cooling; rewrite Hka, Hlater|unfold Minute in *; lia|done|].
  run_inv. rewrite Hk, Hka. auto.
Qed.
End sms.

(** ** The refreshed match catalogue *)
Section warmed.
Context `{Laws W} (LocalZone : Z -> Z) (float_lit : string -> option string) (svc : Svc.ServiceContext).
Hypothesis Hmgr : Svc.Manager svc = Cache.Multi.NewManager true (Some Svc.wired_fallback).

(** What a warmer of a byte slice leaves in Redis. *)
Definition holds_bytes (family key : string) (dl : Z) (w : W) : Prop :=
  exists b, keys w !! Cache.buildKey family key =
    Some (Entry (VStr (json_text (JStr (base64_encode b)))) (Some dl)).

Lemma warm_holds family key ttl loader w w1 : healthy w -> 0 < Seconds ttl ->
  run (Svc.warm Svc.marshal_bytes family key ttl loader) w = (None, w1) ->
  exists dl, clock w + Seconds ttl * Second <= dl /\ holds_bytes family key dl w1.
Proof.
  intros Hh Ht. unfold Svc.warm, Cache.Legacy.Refresh, Cache.Legacy.no_redis, Svc.marshal_bytes. intros Hrun.
  apply run_bind_inv in Hrun as ([v|e] & wa & Ea & Hrun); [|run_inv; done].
  pose proof (run_clock_eq _ _ _ _ Ea) as Hca. pose proof (run_healthy_eq _ _ _ _ Ea Hh) as Hha.
  apply run_bind_inv in Hrun as (r & wb & Eb & Hrun). apply redis_inv in Eb as (Hs & Hcb & _); [|done..].
  cbn [redis_step] in Hs. replace (Seconds ttl <=? 0) with false in Hs by lia. injection Hs as <- Hk.
  run_inv. exists (clock w1 + Seconds ttl * Second). split; [lia|]. eexists.
  by rewrite <- Hk, lookup_insert_eq.
Qed.

(** A reader whose type a JSON string does not decode to. *)
Lemma display_unreadable {T} to_json conv (zero : T) family key sec loader k dl w w' o :
  (forall s, conv (JStr s) = None) -> family <> "" -> healthy w ->
  Degrade.CanServeLevel (mode_of w) Degrade.LevelDisplay = true ->
  l1map w !! Cache.buildKey family key = None -> holds_bytes family key dl w -> clock w' < dl ->
  run (display float_lit svc to_json conv zero family key sec loader k) w = (o, w') ->
  o = fail CodeBusinessError "cache: unmarshal to T: type mismatch".
Proof.
  intros Hconv Hf Hh Hs Hl1 [b Hk] Hdl Hrun. unfold display in Hrun. rewrite Hmgr in Hrun.
  assert (json_wf (JStr (base64_encode b)) = true) as Hwf by apply valid_utf8_base64.
  apply run_bind_inv in Hrun as (r & wa & Ea & Hrun). pose proof (run_clock_eq _ _ _ _ Hrun) as Hc.
  assert (json_text (JStr (base64_encode b)) <> "") as Hne.
  { intros E. apply json_parse_text in Hwf. by rewrite E in Hwf. }
  eapply (Cache.Multi.GetOrLoadT_stored _ _ _ _ _ _ _ _ _ _ _ _ _ (JStr (base64_encode b)) dl) in Ea;
    [|done|done|done|done|done|done|exact Hne|by left|exact Hk| |lia].
  - rewrite Ea in Hrun. unfold unmarshal_as in Hrun. rewrite json_parse_text in Hrun by done.
    cbn [mbind option_bind] in Hrun. rewrite Hconv in Hrun.
    destruct (handleCacheError _) as [code meg] eqn:Ecode in Hrun. vm_compute in Ecode.
    injection Ecode as <- <-. rewrite run_ret in Hrun. by injection Hrun as <- _.
  - unfold Cache.Multi.jsonUnmarshalAny. apply String.eqb_neq in Hne. by rewrite Hne, json_parse_text.
Qed.

(** The refresher breaks what it refreshes: with Redis up, once
    warmMatchCatalog has stored its catalogue, handleMatchesJSONP answers
    CodeBusinessError until the entry expires (the entry is the base64 of the
    JSON text, which does not decode to a catalogue), unless the display level
    is closed or the in-process cache still has an older copy. *)
Theorem warmed_catalog_unreadable (ttl : Z) (w w1 w2 : W) (o : outcome)
    (Hup : healthy w) (Httl : 0 < Seconds ttl)
    (Hwarm : run (Svc.warmMatchCatalog LocalZone (Svc.schema svc) ttl) w = (None, w1))
    (Hserved : Degrade.CanServeLevel (mode_of w1) Degrade.LevelDisplay = true)
    (Hl1 : l1map w1 !! Cache.buildKey "match" "catalog" = None)
    (Hread : run (handleMatchesJSONP LocalZone float_lit svc) w1 = (o, w2))
    (Hsoon : clock w2 < clock w + Seconds ttl * Second) :
  o = fail CodeBusinessError "cache: unmarshal to T: type mismatch".
Proof.
  destruct (warm_holds _ _ _ _ _ _ Hup Httl Hwarm) as (dl & Hdl & Hb).
  eapply display_unreadable in Hread; [exact Hread|done|done|by eapply run_healthy_eq|done|done|exact Hb|lia].
Qed.
End warmed.

(** ** Concrete calls *)

Definition demo_svc : Svc.ServiceContext :=
  {| Svc.schema := initial_schema; Svc.Scheduler := []; Svc.Sessions := Session.NewSessionStore true;
     Svc.SmsStore := Sms.NewSmsStore true "prod" ""; Svc.UserAsset := "";
     Svc.Manager := Cache.Multi.NewManager true (Some Svc.wired_fallback) |}.

(** One registered user; every other query finds no row. *)
Definition demo_row : Sql.row :=
  [Sql.SInt 7; Sql.SText "13800138000"; Sql.SText "nick"; Sql.SText "13800138000"; Sql.SText "86";
   Sql.SText "8ec733b6de4825a437faee2c01ddd309"; Sql.SText "7Whd1U2T1pjeDP4HcSVDxwBMF5Vf6NWx"; Sql.SInt 2;
   Sql.SInt 1; Sql.SInt 0; Sql.SInt 0; Sql.SInt 1; Sql.SText ""; Sql.SInt 0; Sql.SNull; Sql.SInt 3;
   Sql.SInt 1700000000; Sql.SInt 1700000000].
Definition demo_db (q : string) (args : list Sql.sqlval) : res Sql.answer :=
  match args with
  | [Sql.SText cc; Sql.SText phone] =>
    Ok (Sql.Answer (if String.eqb cc "86" && String.eqb phone "13800138000" then [demo_row] else []) None None)
  | _ => Ok (Sql.Answer [] None None)
  end.
Definition demo_world (m : kv) : MiniWorld :=
  set_db demo_db (fun _ _ => Ok tt)
    (MkMini m (1700000000 * Second) 0 [] (replicate 90 Byte.x41) (fun _ => Err ErrCanceled)).

Definition demo_req (method sid : string) (body : list (string * json)) : CallReq :=
  MkReq method (json_text (JObj body)) sid "3" 9.
Definition demo_login : CallReq := demo_req "login" ""
  [("accountType", jint 1); ("countryCode", JStr "+86"); ("phone", JStr "13800138000"); ("loginMode", jint 1);
   ("loginType", jint 1); ("password", JStr "200820e3227815ed1756a6b531e7e0d2"); ("pwdType", jint 2);
   ("plat", jint 3)].
Definition demo_register : CallReq := demo_req "register" ""
  [("accountType", jint 1); ("countryCode", JStr "+86"); ("phone", JStr "13900139000"); ("smsType", jint 1);
   ("smsCode", JStr "1234"); ("password", JStr "p"); ("nickName", JStr "nick"); ("pwdType", jint 2)].
Definition demo_sms : CallReq := demo_req "sms_getCode" ""
  [("countryCode", JStr "86"); ("phone", JStr "13900139000"); ("type", jint 1)].
(** The code and the captcha are stored: the registration goes through. *)
Definition demo_codes : kv :=
  <[ "yuyan:sms:86:13900139000:1" := Entry (VStr "1234") None ]> ∅.

Example demo_ex :
  code_of (run (handleLogin demo_svc demo_login) (demo_world ∅)).1 = CodeOK /\
  code_of (run (handleRegister demo_svc demo_register) (demo_world demo_codes)).1 = CodeOK /\
  code_of (run (handleSmsGetCode demo_svc demo_sms) (demo_world ∅)).1 = CodeOK.
Proof. by vm_compute. Qed.

Lemma Call_keeps_tokens_witness :
  tokens_of (run (Call UTC Some demo_svc demo_login) (demo_world ∅)).2 = 0.
Proof. refine (eq_trans (Call_keeps_tokens UTC Some demo_svc eq_refl demo_login (demo_world ∅) _) _); by vm_compute. Defined.

Lemma login_sound_witness : exists req u,
  parse_body as_loginReq (ParamJson demo_login) = Some req /\
  Pwd.VerifyPassword (l_Password req) (User.Password u) (User.Salt u) = true /\ User.Status u = 1.
Proof.
  destruct (login_sound demo_svc demo_login (demo_world ∅) _ _ (surjective_pairing _))
    as (req & u & _ & _ & _ & _ & _ & _ & Hp & _ & _ & _ & _ & Hv & Hs & _); [by vm_compute|].
  exists req, u. exact (conj Hp (conj Hv Hs)).
Defined.




Lemma register_closed_witness :
  let w := set_dgr (Degrade.MkManager Degrade.ModeProtected []) (demo_world demo_codes) in
  let r := run (handleRegister demo_svc demo_register) w in
  code_of r.1 <> CodeOK /\ m_keys r.2 = demo_codes.
Proof.
  intros w r. destruct (register_closed demo_svc demo_register w r.2 r.1) as (Hc & Hk & _).
  - by vm_compute.
  - apply surjective_pairing.
  - exact (conj Hc Hk).
Defined.

(** The session of a user whose row is gone. *)
Definition ghost_keys : kv :=
  <[ "yuyan:sess:v2:ab" := Entry (VStr (json_text (Session.to_json
       (Session.MkSession "ab" "cd" 9 "n" "" 1 "pc" 3 false 1700000900 1702592000)))) None ]> demo_codes.
Lemma stale_session_closes_registration_witness :
  let w := demo_world ghost_keys in
  let w1 := (run (handleUserDetail demo_svc (demo_req "user_detail" "ab" [])) w).2 in
  code_of (run (handleRegister demo_svc demo_register) w).1 = CodeOK /\
  code_of (run (handleRegister demo_svc demo_register) w1).1 <> CodeOK.
Proof.
  intros w w1. split; [by vm_compute|].
  refine (proj2 (stale_session_closes_registration demo_svc (demo_req "user_detail" "ab" []) demo_register
    w w1 _ _ _ (surjective_pairing _) _ (surjective_pairing _))).
  by vm_compute.
Defined.

Lemma sms_cooldown_witness :
  let w1 := (run (handleSmsGetCode demo_svc demo_sms) (demo_world ∅)).2 in
  code_of (run (handleSmsGetCode demo_svc demo_sms) w1).1 = CodeRateLimited.
Proof.
  intros w1. assert (asks "86" "13900139000" demo_sms) as Ha.
  { destruct (parse_body as_smsReq (ParamJson demo_sms)) as [req|] eqn:E; [|by vm_compute in E].
    exists req. split; [done|]. vm_compute in E. by injection E as <-. }
  refine (proj1 (sms_cooldown demo_svc "86" "13900139000" demo_sms demo_sms (demo_world ∅) w1 w1 _ _ _
    _ Ha Ha (surjective_pairing _) _ _ eq_refl (surjective_pairing _) _)).
  - constructor.
  - by vm_compute.
  - vm_compute. constructor.
  - by vm_compute.
Defined.

Lemma warmed_catalog_unreadable_witness :
  let w1 := (run (Svc.warmMatchCatalog UTC initial_schema (60 * Second)) (demo_world ∅)).2 in
  (run (handleMatchesJSONP UTC Some demo_svc) w1).1 = fail CodeBusinessError "cache: unmarshal to T: type mismatch" /\
  code_of (run (handleMatchesJSONP UTC Some demo_svc) (demo_world ∅)).1 = CodeOK.
Proof.
  intros w1. split; [|by vm_compute].
  refine (warmed_catalog_unreadable UTC Some demo_svc eq_refl (60 * Second) (demo_world ∅) w1 _ _
    _ _ _ _ _ (surjective_pairing _) _).
  - constructor.
  - by vm_compute.
  - by vm_compute.
  - by vm_compute.
  - by vm_compute.
  - by vm_compute.
Defined.
End Calls.
