(* ===== verification/Answers.v ===== *)
(** * The shape of every answer

    A judgement on programs, [post P p]: whatever the world answers, [p]
    returns only values that satisfy [P].  With it, the type of the RPC service:
    each answer has one of twelve codes, carries a result exactly when the
    code is 200, and repeats the request's number and session. *)

From S2P Require Import Prelude GoStr Json Degrade Semaphore Hub Sql Time Env RateLimit Auth Cache.
From S2P Require Import Models Match Builders Svc Logic Calls.

Module Answers.
Import Build Logic.

(** ** Postconditions *)
Fixpoint post {A : Type} (P : A -> Prop) (p : prog A) : Prop :=
  match p with
  | Ret a => P a
  | Vis e k => forall x, post P (k x)
  | Fork _ k => post P k
  end.

Lemma run_satisfies `{World W} {A : Type} (P : A -> Prop) (p : prog A) w : post P p -> P (run p w).1.
Proof.
  revert P w. induction p as [A a|A X e k IH|A q _ k IH]; intros P w Hp.
  - exact Hp.
  - cbn [run]. destruct (handle e w) as [x w']. apply IH, Hp.
  - cbn [run]. destruct (run q w) as [u w']. apply IH, Hp.
Qed.

Lemma post_bind {A B : Type} (Q : A -> Prop) (P : B -> Prop) (p : prog A) (k : A -> prog B) :
  post Q p -> (forall a, Q a -> post P (k a)) -> post P (p ≫= k).
Proof.
  unfold mbind, prog_mbind. revert Q k. induction p as [A a|A X e c IH|A q _ c IH]; intros Q k Hp Hk.
  - by apply Hk.
  - intros x. by apply (IH x Q).
  - by apply (IH Q).
Qed.

Lemma post_trivial {A : Type} (p : prog A) : post (fun _ => True) p.
Proof. induction p as [A a|A X e c IH|A q _ c IH]; cbn; auto. Qed.

Lemma post_any {A B : Type} (P : B -> Prop) (p : prog A) (k : A -> prog B) : (forall a, post P (k a)) -> post P (p ≫= k).
Proof. intros Hk. apply (post_bind (fun _ => True)); [apply post_trivial|auto]. Qed.

(** ** Typed outcomes *)
Definition codes : list Z :=
  [CodeOK; CodeLoginRequired; CodeBusinessError; CodeAccountNotFound; CodePasswordWrong; CodeUserBanned;
   CodePhoneAlreadyReg; CodeLoginLocked; CodeSmsCheckFailed; CodeRateLimited; CodePhoneInvalid; CodeKaptchaInvalid].

Definition typed (o : outcome) : Prop := code_of o ∈ codes /\ (code_of o = CodeOK <-> is_Some o.1.1).

Lemma typed_fail code meg : code ∈ codes -> code <> CodeOK -> typed (fail code meg).
Proof. intros Hc Hne. split; [exact Hc|]. cbn. split; [intros E; by destruct Hne|intros [? [=]]]. Qed.

Lemma typed_success j : typed (success j).
Proof. split; [left|]. cbn. split; [by eexists|done]. Qed.

Create HintDb typed.
#[export] Hint Resolve typed_success : typed.

Lemma elem_of_codes c : existsb (Z.eqb c) codes = true -> c ∈ codes.
Proof. intros H%existsb_exists. destruct H as (x & Hx & ->%Z.eqb_eq). by apply list_elem_of_In. Qed.

(** The error of the shared database step carries a business code. *)
Definition db_typed {A} (r : A + (error * Z * string)) : Prop :=
  match r with inl _ => True | inr (_, code, _) => code = CodeBusinessError end.

Lemma post_db_failed e : post (fun cm => cm.1 = CodeBusinessError) (db_failed e).
Proof. unfold db_failed. apply post_any. intros []. reflexivity. Qed.

Lemma post_dbWithSem {A} (f : prog (res A)) : post db_typed (dbWithSem f).
Proof.
  unfold dbWithSem. apply post_any. intros [a|e]; [exact I|].
  eapply post_bind; [apply post_db_failed|]. intros [code meg] E. exact E.
Qed.

Lemma post_db {A B} (P : B -> Prop) (f : prog (res A)) (k : A + (error * Z * string) -> prog B) :
  (forall a, post P (k (inl a))) -> (forall e meg, post P (k (inr (e, CodeBusinessError, meg)))) ->
  post P (dbWithSem f ≫= k).
Proof.
  intros Hl Hr. eapply post_bind; [apply post_dbWithSem|]. intros [a|[[e code] meg]] E; [apply Hl|].
  cbn in E. subst code. apply Hr.
Qed.

Lemma post_db_fail {B} (P : B -> Prop) e (k : Z * string -> prog B) :
  (forall meg, post P (k (CodeBusinessError, meg))) -> post P (db_failed e ≫= k).
Proof. intros Hk. eapply post_bind; [apply post_db_failed|]. intros [code meg] E. cbn in E. subst code. apply Hk. Qed.

Lemma post_gated lvl meg k : post typed k -> post typed (gated lvl meg k).
Proof.
  intros Hk. unfold gated. apply post_any. intros []; [exact Hk|].
  apply typed_fail; [by apply elem_of_codes|discriminate].
Qed.

(** Walk to the outcomes of a program; intermediate values are arbitrary. *)
Ltac walk_post :=
  repeat (intros;
    match goal with
    | |- post _ _ => solve [eauto with typed]
    | |- post typed (mret (success _)) => exact (typed_success _)
    | |- post typed (mret (fail _ _)) => apply typed_fail; [apply elem_of_codes; reflexivity|discriminate]
    | |- post _ (if ?b then _ else _) => destruct b
    | |- post _ (match ?x with _ => _ end) => destruct x
    | |- post _ (let _ := _ in _) => cbv zeta
    | |- post _ (dbWithSem _ ≫= _) => apply post_db
    | |- post _ (db_failed _ ≫= _) => apply post_db_fail
    | |- post _ (gated _ _ _) => apply post_gated
    | |- post _ (_ ≫= _) => apply post_any
    | |- post _ ?p => let f := Calls.head p in progress unfold f
    end).

Lemma typed_business meg code : code = CodeBusinessError -> typed (fail code meg).
Proof. intros ->. apply typed_fail; [apply elem_of_codes; reflexivity|discriminate]. Qed.
#[export] Hint Resolve typed_business : typed.


Section methods.
Context (LocalZone : Z -> Z) (float_lit : string -> option string) (svc : Svc.ServiceContext).

(** *** Accounts *)
Lemma login_typed inp : post typed (handleLogin svc inp).
Proof.
  unfold handleLogin. destruct (parse_body _ _) as [req|]; [|walk_post].
  destruct (login_gate req) as [o|] eqn:Eg; [|walk_post].
  revert Eg. unfold login_gate. repeat case_match; intros [= <-]; walk_post.
Qed.

Lemma register_typed inp : post typed (handleRegister svc inp).
Proof.
  unfold handleRegister. destruct (parse_body _ _) as [req|]; [|walk_post].
  destruct (register_gate req) as [o|] eqn:Eg.
  { revert Eg. unfold register_gate. repeat case_match; intros [= <-]; walk_post. }
  apply post_gated. unfold register_checks. apply post_any. intros [[|c text]|e].
  2: { split; [left|]. cbn. split; [by eexists|done]. }
  all: walk_post.
Qed.

Lemma guest_typed inp : post typed (handleGuestLogin svc inp).
Proof. walk_post. Qed.
Lemma refresh_typed inp : post typed (handleRefresh svc inp).
Proof. walk_post. Qed.
Lemma logout_typed inp : post typed (handleLogout svc inp).
Proof. walk_post. Qed.
Lemma user_typed inp : post typed (handleUserDetail svc inp).
Proof. walk_post. Qed.

(** *** SMS codes *)
Definition refusal (o : option outcome) : Prop := match o with Some o => typed o | None => True end.

Lemma sms_limits_typed cc phone : post refusal (sms_limits cc phone).
Proof.
  unfold sms_limits. apply post_any. intros [[]|e].
  1: apply post_any; intros [n|e]; [apply post_any; intros _; destruct (10 <? n)|exact I].
  all: first [exact I | apply typed_fail; [by apply elem_of_codes|discriminate]].
Qed.

Lemma sms_registered_typed cc phone ty : post refusal (sms_registered svc cc phone ty).
Proof.
  unfold sms_registered. destruct (negb _); [exact I|]. apply post_db.
  - intros [u|]; [|exact I]. apply typed_fail; [by apply elem_of_codes|discriminate].
  - intros e meg. by apply typed_business.
Qed.

Lemma sms_typed inp : post typed (handleSmsGetCode svc inp).
Proof.
  unfold handleSmsGetCode. destruct (parse_body _ _) as [req|]; [|walk_post]. cbv zeta.
  destruct (_ || _); [walk_post|]. apply post_gated.
  eapply post_bind; [apply sms_limits_typed|]. intros [o|] Ho; [exact Ho|].
  eapply post_bind; [apply sms_registered_typed|]. intros [o|] Ho'; [exact Ho'|]. walk_post.
Qed.

Lemma sms_check_typed inp : post typed (handleSmsCheckCode svc inp).
Proof. walk_post. Qed.

(** *** Display methods *)
Lemma cache_error_typed e : typed (fail (handleCacheError e).1 (handleCacheError e).2).
Proof. unfold handleCacheError. repeat case_match; cbn [fst snd];
    (apply typed_fail; [by apply elem_of_codes|discriminate]). Qed.

Lemma display_typed {T} to_json conv (zero : T) family key sec loader k : (forall t, typed (k t)) ->
  post typed (display float_lit svc to_json conv zero family key sec loader k).
Proof.
  intros Hk. unfold display. apply post_any. intros [t|e]; [apply Hk|].
  pose proof (cache_error_typed e) as He. by destruct (handleCacheError e).
Qed.

Lemma found_or_typed meg m : typed (found_or meg m).
Proof. destruct m; [apply typed_success|by apply typed_business]. Qed.

Ltac display_method := repeat first
  [ apply display_typed; intros; first [apply typed_success | apply found_or_typed]
  | apply typed_business; reflexivity
  | match goal with
    | |- post _ (if ?b then _ else _) => destruct b
    | |- post _ (_ ≫= _) => apply post_any; intros
    | |- post _ (mret _) => cbn [post mret prog_mret]
    | |- post _ (let _ := _ in _) => cbv zeta
    | |- post _ ?p => let f := Calls.head p in progress unfold f
    end ].

Lemma handlers_typed : Forall (fun h => forall inp, post typed (h.2 inp)) (handlers LocalZone float_lit svc).
Proof.
  unfold handlers.
  repeat (apply Forall_cons; split; cbn [snd];
    [auto using login_typed, register_typed, guest_typed, refresh_typed, logout_typed, user_typed, sms_typed,
       sms_check_typed; intros inp; display_method|]).
  constructor.
Qed.

(** What a caller of the service may count on. *)
Definition well_typed (inp : CallReq) (resp : CallResp) : Prop :=
  Code resp ∈ codes /\ (Code resp = CodeOK <-> is_Some (Result resp)) /\
  r_Seq resp = Seq inp /\ NewSessionId resp = SessionId inp.

Lemma Call_typed inp : post (well_typed inp) (Call LocalZone float_lit svc inp).
Proof.
  unfold Call. apply (post_bind typed).
  - unfold route. destruct (List.find _ _) as [[n h]|] eqn:E; [|by apply typed_business].
    apply List.find_some in E as [Hin _]. pose proof handlers_typed as Hh. rewrite Forall_forall in Hh.
    apply (Hh (n, h)). by apply list_elem_of_In.
  - intros [[result code] meg] [Hc Hr]. unfold code_of in *. cbn [fst snd] in *.
    assert (wraps 32 code = code) as Hw.
    { clear Hr. unfold codes in Hc. rewrite !elem_of_cons, elem_of_nil in Hc.
      repeat (destruct Hc as [->|Hc]; [reflexivity|]). done. }
    split_and!; cbn [Code Result r_Seq NewSessionId]; rewrite ?Hw; done.
Qed.
End methods.

(** C5. The type of every answer.  Whatever the request, and whatever Redis,
    the database, the cache, the clock and the random source answer on the way,
    the service's answer has one of its twelve codes, carries a result exactly
    when the code is 200, and repeats the request's sequence number and
    session. *)
Theorem Call_answers `{World W} (LocalZone : Z -> Z) (float_lit : string -> option string)
    (svc : Svc.ServiceContext) (inp : CallReq) (w : W) :
  well_typed inp (run (Call LocalZone float_lit svc inp) w).1.
Proof. apply run_satisfies, Call_typed. Qed.
End Answers.
