(* ===== verification/Transport.v ===== *)
(** * The transport middleware (src/pkg/codec/middleware.go)

    What stands between an encrypted client and a JSON handler: the request
    body is decrypted, its optional envelope taken apart into the context, the
    handler run against a capturing writer, and what it wrote put into an
    envelope, encrypted and framed.  A handler is a program from the context
    values and the request to the response it writes. *)

From S2P Require Import Prelude GoStr Aes Codec Json RawJson Hub Sql Env RateLimit.

Module Transport.

(** ** Requests and responses (net/http) *)

(** The parts of a request the handlers look at.  [Body] is what arrives and
    the error, if any, that the reader ends with; [Query] the decoded
    parameters in order; [PathValue] the router's captures. *)
Record HttpReq : Type := MkHttpReq {
  origin : Request; http_method : string; h_Session : string; h_Plat : string; h_Seq : string;
  Body : bytes * option error; Query : list (string * string); PathValue : string -> string }.

(** What a handler wrote: the status, the headers in the order they were set,
    the body, and the snapshot files it left as (directory, name, content). *)
Record HttpResp : Type := MkHttpResp {
  Status : Z; Headers : list (string * string); Payload : bytes; Files : list (string * string * bytes) }.

(** [http.Error]. *)
Definition http_error (code : Z) (text : string) : HttpResp :=
  MkHttpResp code [("Content-Type", "text/plain; charset=utf-8"); ("X-Content-Type-Options", "nosniff")]
    (bytes_of text ++ [Byte.x0a]) [].

(** ** The context values *)
Record ParamCtx : Type := MkParamCtx {
  ctxParam : option bytes; ctxSessionID : string; ctxPlat : string; ctxSeq : Z }.

(** A request no Transport has seen. *)
Definition no_param : ParamCtx := MkParamCtx None "" "" 0.

Definition WithParamCtx (param : bytes) (sessionID plat : string) (seq : Z) : ParamCtx :=
  MkParamCtx (Some param) sessionID plat seq.

Definition Handler : Type := ParamCtx -> HttpReq -> prog HttpResp.

Record TransportConfig : Type := MkTransportConfig { RequestKey : bytes; ResponseKey : bytes }.

(** ** The response envelope *)
Record PlainResp : Type := MkPlainResp {
  p_Code : Z; p_Meg : string; p_Seq : Z; p_NewSession : string; p_Result : bytes }.

(** [json.Marshal(PlainResp{..})]. *)
Definition marshal_plain (p : PlainResp) : option bytes :=
  result ← match p_Result p with
           | [] => Some []
           | raw => b ← raw_marshal raw; Some [("result", b)]
           end;
  Some (obj_bytes ([("code", bytes_of (FormatInt (p_Code p))); ("meg", quote (p_Meg p));
                    ("seq", bytes_of (FormatInt (p_Seq p)))]
    ++ (if String.eqb (p_NewSession p) "" then [] else [("newSessionId", quote (p_NewSession p))])
    ++ result)).

Definition plain_fields : list (field PlainResp) :=
  [Field "code" (fun j p => z ← as_int j; Some (MkPlainResp z (p_Meg p) (p_Seq p) (p_NewSession p) []));
   Field "meg" (fun j p => s ← as_string j; Some (MkPlainResp (p_Code p) s (p_Seq p) (p_NewSession p) []));
   Field "seq" (fun j p => z ← as_int32 j; Some (MkPlainResp (p_Code p) (p_Meg p) z (p_NewSession p) []));
   Field "newSessionId" (fun j p => s ← as_string j; Some (MkPlainResp (p_Code p) (p_Meg p) (p_Seq p) s []));
   RawField "result"].

(** [json.Unmarshal(b, &pr)]; [None] is an error. *)
Definition unmarshal_plain (b : bytes) : option PlainResp :=
  let '(p, ok) := Unmarshal plain_fields (MkPlainResp 0 "" 0 "" []) (string_of b) in
  if ok
  then Some (MkPlainResp (p_Code p) (p_Meg p) (p_Seq p) (p_NewSession p) (raw_member plain_fields "result" b))
  else None.

Definition with_seq (seq : Z) (p : PlainResp) : PlainResp :=
  MkPlainResp (p_Code p) (p_Meg p) seq (p_NewSession p) (p_Result p).

Definition buildEnvelope (respBytes : bytes) (seq : Z) (sessionID : string) : bytes :=
  let wrapped := default [] (marshal_plain (MkPlainResp 200 "" seq sessionID respBytes)) in
  match unmarshal_plain respBytes with
  | Some pr =>
    if p_Code pr =? 0 then wrapped
    else default wrapped (marshal_plain (if p_Seq pr =? 0 then with_seq seq pr else pr))
  | None => wrapped
  end.

(** ** The request envelope *)
Record envelope : Type := MkEnvelope { e_SessionID : string; e_Seq : Z; e_Plat : string; e_Param : bytes }.

Definition envelope_fields : list (field envelope) :=
  [Field "sessionId" (fun j e => s ← as_string j; Some (MkEnvelope s (e_Seq e) (e_Plat e) []));
   Field "seq" (fun j e => z ← as_int32 j; Some (MkEnvelope (e_SessionID e) z (e_Plat e) []));
   Field "plat" (fun j e => s ← as_string j; Some (MkEnvelope (e_SessionID e) (e_Seq e) s []));
   RawField "param"].

Definition tryParseEnvelope (plain : bytes) : option envelope :=
  match plain with
  | Byte.x7b :: _ =>
    let '(e, ok) := Unmarshal envelope_fields (MkEnvelope "" 0 "" []) (string_of plain) in
    if negb ok then None
    else match raw_member envelope_fields "param" plain with
    | [] => None                                        (* not an envelope *)
    | param => Some (MkEnvelope (e_SessionID e) (e_Seq e) (e_Plat e) param)
    end
  | _ => None
  end.

(** The context of a decrypted request: from the envelope, or the plaintext
    as it is and the headers. *)
Definition request_ctx (plain : bytes) (r : HttpReq) : ParamCtx :=
  match tryParseEnvelope plain with
  | Some env => WithParamCtx (e_Param env) (e_SessionID env) (e_Plat env) (e_Seq env)
  | None =>
    let seq := if String.eqb (h_Seq r) "" then 0
               else match ParseInt (h_Seq r) with Some n => wraps 32 n | None => 0 end in
    WithParamCtx plain (h_Session r) (h_Plat r) seq
  end.

(** ** The middleware *)

(** An envelope, encrypted and framed. *)
Definition write_frame (key body : bytes) : HttpResp :=
  match EncodeFrame body key with
  | Err _ => http_error 500 "encrypt error"
  | Ok ct =>
    MkHttpResp 200 [("Content-Type", "application/json charset=utf-8"); ("Content-Length", FormatInt (len ct))] ct []
  end.

Definition abortEncrypted (respKey : bytes) (code : Z) (msg : string) (seq : Z) (newSessionID : string) : HttpResp :=
  write_frame respKey (default [] (marshal_plain (MkPlainResp code msg seq newSessionID []))).

Definition bodyLimit : Z := 8 * 1024 * 1024.

(** [io.ReadAll(io.LimitReader(r.Body, n))]. *)
Definition read_limited (n : Z) (b : bytes * option error) : res bytes :=
  if n <=? len b.1 then Ok (take (Z.to_nat n) b.1)
  else match b.2 with Some e => Err e | None => Ok b.1 end.

(** Framed if it starts like a frame, else a bare ciphertext. *)
Definition decrypt_body (key body : bytes) : res bytes :=
  match body with
  | b0 :: b1 :: _ =>
    if (frameHeaderLen <=? len body) && Byte.eqb b0 frameByte0 && Byte.eqb b1 frameByte1
    then DecodeFrame body key else Decrypt body key
  | _ => Decrypt body key
  end.

Definition Transport (cfg : TransportConfig) (next : Handler) (r : HttpReq) : prog HttpResp :=
  match read_limited bodyLimit (Body r) with
  | Err _ => mret (abortEncrypted (ResponseKey cfg) 101 "invalid request body" 0 "")
  | Ok body =>
    match decrypt_body (RequestKey cfg) body with
    | Err _ => mret (abortEncrypted (ResponseKey cfg) 101 "invalid encrypted request" 0 "")
    | Ok plain =>
      let ctx := request_ctx plain r in
      buf ← next ctx r;
      let out := write_frame (ResponseKey cfg) (buildEnvelope (Payload buf) (ctxSeq ctx) (ctxSessionID ctx)) in
      mret (MkHttpResp (Status out) (Headers out) (Payload out) (Files buf))
    end
  end.

(** ** Writing plain envelopes *)
Definition json_header : list (string * string) := [("Content-Type", "application/json; charset=utf-8")].

(** [WriteResp]: [result] is nil, a value's JSON, or a value that does not
    marshal. *)
Definition WriteResp (code : Z) (meg : string) (result : option (res bytes)) : HttpResp :=
  match result with
  | Some (Err _) =>
    MkHttpResp 500 json_header
      (bytes_of "{" ++ quote "code" ++ bytes_of ":500," ++ quote "meg" ++ bytes_of ":" ++ quote "marshal error" ++ bytes_of "}") []
  | _ =>
    let raw := match result with Some (Ok b) => b | _ => [] end in
    MkHttpResp 200 json_header (default [] (marshal_plain (MkPlainResp code meg 0 "" raw))) []
  end.
Definition WriteOK (result : option (res bytes)) : HttpResp := WriteResp 200 "" result.
Definition WriteErr (code : Z) (meg : string) : HttpResp := WriteResp code meg None.
Definition WriteRaw (b : bytes) : HttpResp := MkHttpResp 200 json_header b [].

(** ** What the envelopes say *)

(** The response object, in the order of the struct. *)
Definition envelope_json (code : Z) (meg : string) (seq : Z) (nsid : string) (result : option json) : json :=
  JObj ([("code", jint code); ("meg", JStr meg); ("seq", jint seq)]
    ++ (if String.eqb nsid "" then [] else [("newSessionId", JStr nsid)])
    ++ match result with Some j => [("result", j)] | None => [] end).

Definition result_bytes (result : option json) : bytes :=
  match result with Some j => json_bytes j | None => [] end.
Definition result_wf (result : option json) : bool :=
  match result with Some j => json_wf j | None => true end.

Lemma obj_bytes_json l : obj_bytes (map (fun m : string * json => (m.1, json_bytes m.2)) l) = json_bytes (JObj l).
Proof.
  rewrite json_bytes_obj. unfold obj_bytes. rewrite map_map. do 3 f_equal.
Qed.

Lemma marshal_plain_json code meg seq nsid result : result_wf result = true ->
  marshal_plain (MkPlainResp code meg seq nsid (result_bytes result)) =
  Some (json_bytes (envelope_json code meg seq nsid result)).
Proof.
  intros Hwf. unfold marshal_plain, envelope_json. cbn [p_Result p_Code p_Meg p_Seq p_NewSession].
  rewrite <- obj_bytes_json. destruct result as [j|]; cbn [result_bytes result_wf] in *.
  - destruct (json_head j Hwf) as (b & t & E & _). rewrite E at 1. rewrite <- E.
    rewrite raw_marshal_bytes by done. by destruct (String.eqb nsid "").
  - by destruct (String.eqb nsid "").
Qed.

(** Decoding an encoded object, with a RawMessage field among its members. *)
Lemma Unmarshal_obj {T} (fs : list (field T)) zero l ws : json_wf (JObj l) = true -> forallb is_ws ws = true ->
  Unmarshal fs zero (string_of (json_bytes (JObj l) ++ ws)) = foldl (set_member fs) (zero, true) l.
Proof. intros Hl Hws. unfold Unmarshal. by rewrite json_parse_trailing. Qed.

Lemma as_int_jint z : int64_ok z = true -> as_int (jint z) = Some z.
Proof. intros Hz. by apply ParseInt_FormatInt. Qed.

Lemma as_int32_jint z : - 2 ^ 31 <= z < 2 ^ 31 -> as_int32 (jint z) = Some z.
Proof.
  intros Hz. unfold as_int32. rewrite as_int_jint by (unfold int64_ok; lia). cbn [mbind option_bind].
  by destruct (_ && _) eqn:E; [|bool_to_prop; lia].
Qed.

(** A member that fits its field, and one that goes to a RawMessage. *)
Lemma member_fits {T} (fs : list (field T)) k v acc f t ms r : find_field fs k = Some f -> v <> JNull ->
  fset f v acc = Some t -> foldl (set_member fs) (t, true) ms = r ->
  foldl (set_member fs) (acc, true) ((k, v) :: ms) = r.
Proof.
  intros Hf Hv Ht <-. cbn [foldl]. f_equal. unfold set_member. cbn [fst snd]. rewrite Hf.
  destruct v; [done|..]; by rewrite Ht.
Qed.

Lemma member_raw {T} (fs : list (field T)) k n v acc ms r : find_field fs k = Some (RawField n) ->
  foldl (set_member fs) acc ms = r -> foldl (set_member fs) acc ((k, v) :: ms) = r.
Proof.
  intros Hf <-. cbn [foldl]. f_equal. unfold set_member. cbn [fst snd]. rewrite Hf.
  by destruct v, acc.
Qed.

Ltac decode_fields :=
  repeat first
    [ reflexivity
    | eapply member_raw; [reflexivity|]
    | eapply member_fits; [reflexivity|discriminate| |];
      [cbn [fset]; rewrite ?as_int32_jint, ?as_int_jint by done; cbn [mbind option_bind as_string]; reflexivity
      |cbn [p_Code p_Meg p_Seq p_NewSession e_SessionID e_Seq e_Plat]] ].

Lemma json_wf_obj l : forallb (fun m : string * json => valid_utf8 m.1 && json_wf m.2) l = true -> json_wf (JObj l) = true.
Proof. intros H. rewrite <- H. cbn [json_wf]. clear. induction l as [|[k v] l IH]; [done|]. cbn [forallb fst snd]. by rewrite IH. Qed.

Ltac wf_members := apply json_wf_obj; cbn -[json_wf valid_utf8 jint app];
  rewrite ?andb_true_iff, ?json_wf_jint; cbn [json_wf]; repeat split; assumption || reflexivity.

(** What a client that uses the envelope sends. *)
Definition client_envelope (sid : string) (seq : Z) (plat : string) (param : json) : json :=
  JObj [("sessionId", JStr sid); ("seq", jint seq); ("plat", JStr plat); ("param", param)].

Lemma json_bytes_obj_head l : exists t, json_bytes (JObj l) = Byte.x7b :: t.
Proof. rewrite json_bytes_obj. by eexists. Qed.

Lemma parse_client_envelope sid seq plat param :
  valid_utf8 sid = true -> valid_utf8 plat = true -> - 2 ^ 31 <= seq < 2 ^ 31 -> json_wf param = true ->
  tryParseEnvelope (json_bytes (client_envelope sid seq plat param)) =
  Some (MkEnvelope sid seq plat (json_bytes param)).
Proof.
  intros Hs Hp Hq Hw. set (l := [("sessionId", JStr sid); ("seq", jint seq); ("plat", JStr plat); ("param", param)]).
  assert (json_wf (JObj l) = true) as Hwf by (unfold l; wf_members).
  pose proof (Unmarshal_obj envelope_fields (MkEnvelope "" 0 "" []) l [] Hwf eq_refl) as Hu.
  pose proof (raw_member_obj envelope_fields "param" l [] Hwf) as Hr. rewrite app_nil_r in Hu, Hr.
  assert (foldl (set_member envelope_fields) (MkEnvelope "" 0 "" [], true) l = (MkEnvelope sid seq plat [], true))
    as Hf by (unfold l; decode_fields).
  unfold tryParseEnvelope, client_envelope. fold l.
  destruct (json_bytes_obj_head l) as (t & E). rewrite E in *. rewrite Hu, Hf, Hr.
  change (last_named envelope_fields "param" (map _ l)) with (json_bytes param).
  destruct (json_head param Hw) as (b & t' & -> & _). reflexivity.
Qed.

(** The handlers' envelope: the same members with the keys sorted. *)
Definition sent_envelope (code : Z) (meg : string) (seq : Z) (nsid : string) (result : option json) : json :=
  JObj ([("code", jint code); ("meg", JStr meg)]
    ++ (if String.eqb nsid "" then [] else [("newSessionId", JStr nsid)])
    ++ match result with Some j => [("result", j)] | None => [] end ++ [("seq", jint seq)]).

Lemma unmarshal_sent code meg seq nsid result ws :
  int64_ok code = true -> valid_utf8 meg = true -> - 2 ^ 31 <= seq < 2 ^ 31 -> valid_utf8 nsid = true ->
  result_wf result = true -> forallb is_ws ws = true ->
  unmarshal_plain (json_bytes (sent_envelope code meg seq nsid result) ++ ws) =
  Some (MkPlainResp code meg seq nsid (result_bytes result)).
Proof.
  intros Hc Hm Hq Hn Hr Hws. unfold sent_envelope.
  match goal with |- context [JObj ?l0] => set (l := l0) end.
  assert (json_wf (JObj l) = true) as Hwf.
  { unfold l. destruct (String.eqb nsid ""), result; cbn [app result_wf] in *; wf_members. }
  unfold unmarshal_plain. rewrite Unmarshal_obj, raw_member_obj by done.
  assert (foldl (set_member plain_fields) (MkPlainResp 0 "" 0 "" [], true) l =
          (MkPlainResp code meg seq nsid [], true)) as ->.
  { unfold l. destruct (String.eqb nsid "") eqn:En; [apply String.eqb_eq in En as ->|];
      destruct result; cbn [app]; decode_fields. }
  cbn [p_Code p_Meg p_Seq p_NewSession].
  do 2 f_equal. unfold l. by destruct (String.eqb nsid ""), result.
Qed.

(** The envelope sent to the client is the handler's, its sequence number
    filled in when the handler left it zero. *)
Lemma buildEnvelope_sent code meg seq nsid result ws cseq sid :
  int64_ok code = true -> code <> 0 -> valid_utf8 meg = true -> - 2 ^ 31 <= seq < 2 ^ 31 ->
  valid_utf8 nsid = true -> result_wf result = true -> forallb is_ws ws = true ->
  buildEnvelope (json_bytes (sent_envelope code meg seq nsid result) ++ ws) cseq sid =
  json_bytes (envelope_json code meg (if seq =? 0 then cseq else seq) nsid result).
Proof.
  intros Hc Hc0 Hm Hq Hn Hr Hws. unfold buildEnvelope. rewrite unmarshal_sent by done.
  cbn [p_Code p_Seq]. replace (code =? 0) with false by lia. unfold with_seq.
  destruct (seq =? 0); cbn [p_Code p_Meg p_NewSession p_Result]; by rewrite marshal_plain_json.
Qed.

(** A handler that wrote nothing still answers success. *)
Lemma buildEnvelope_nothing cseq sid : buildEnvelope [] cseq sid = json_bytes (envelope_json 200 "" cseq sid None).
Proof.
  unfold buildEnvelope. change (unmarshal_plain []) with (@None PlainResp).
  pose proof (marshal_plain_json 200 "" cseq sid None eq_refl) as E. cbn [result_bytes] in E. by rewrite E.
Qed.

(** ** Running the middleware *)

(** A frame of a plaintext is recognised, and decrypts to it. *)
Lemma frame_accepted p key : length key = 16%nat -> len p + 16 < 2 ^ 32 ->
  exists fr, EncodeFrame p key = Ok fr /\ len fr <= len p + 22 /\ DecodeFrame fr key = Ok p /\
    decrypt_body key fr = Ok p.
Proof.
  intros Hk Hl. destruct (frame_ok p key Hk Hl) as (fr & E & D). exists fr.
  destruct (Encrypt_ok p key Hk) as (ct & Ec & _ & Hb & _). pose proof E as E'. unfold EncodeFrame in E'.
  rewrite Ec in E'. injection E' as E'.
  assert (len fr = 6 + len ct) as Hfr.
  { rewrite <- E'. unfold len. cbn [length]. lia. }
  repeat split; [done|lia|done|]. unfold decrypt_body. rewrite <- E' at 1. rewrite Hfr.
  unfold frameHeaderLen. replace (6 <=? 6 + len ct) with true by lia. exact D.
Qed.

Lemma read_limited_short n b : len b < n -> read_limited n (b, None) = Ok b.
Proof. intros Hn. unfold read_limited. cbn [fst snd]. by replace (n <=? len b) with false by lia. Qed.

Section middleware.
Context `{World W} (cfg : TransportConfig).

(** A body that is the frame of a plaintext: the handler runs once, on the
    context of that plaintext. *)
Lemma Transport_run next r plain fr w : length (RequestKey cfg) = 16%nat ->
  EncodeFrame plain (RequestKey cfg) = Ok fr -> len plain + 22 < bodyLimit -> Body r = (fr, None) ->
  run (Transport cfg next r) w =
  (let '(buf, w') := run (next (request_ctx plain r) r) w in
   let out := write_frame (ResponseKey cfg)
     (buildEnvelope (Payload buf) (ctxSeq (request_ctx plain r)) (ctxSessionID (request_ctx plain r))) in
   (MkHttpResp (Status out) (Headers out) (Payload out) (Files buf), w')).
Proof.
  intros Hreq E Hl Hb. assert (len plain + 16 < 2 ^ 32) as Hl' by (unfold bodyLimit in Hl; lia).
  destruct (frame_accepted plain _ Hreq Hl') as (fr' & E' & Hfr & _ & D). rewrite E in E'. injection E' as <-.
  unfold Transport. rewrite Hb, read_limited_short by lia. rewrite D, run_bind.
  by destruct (run (next (request_ctx plain r) r) w).
Qed.

(** A body that does not decrypt never reaches the handler. *)
Lemma Transport_rejects_run next r w :
  (forall body, read_limited bodyLimit (Body r) = Ok body -> exists e, decrypt_body (RequestKey cfg) body = Err e) ->
  exists meg, (meg = "invalid request body" \/ meg = "invalid encrypted request") /\
    run (Transport cfg next r) w = (abortEncrypted (ResponseKey cfg) 101 meg 0 "", w).
Proof.
  intros Hd. unfold Transport. destruct (read_limited bodyLimit (Body r)) as [body|].
  - destruct (Hd body eq_refl) as [e ->]. eexists. split; [right; reflexivity|]. by rewrite run_ret.
  - eexists. split; [left; reflexivity|]. by rewrite run_ret.
Qed.

(** The frame of an envelope object, read by the client. *)
Lemma write_frame_reads b : length (ResponseKey cfg) = 16%nat -> len b + 16 < 2 ^ 32 ->
  Status (write_frame (ResponseKey cfg) b) = 200 /\
  DecodeFrame (Payload (write_frame (ResponseKey cfg) b)) (ResponseKey cfg) = Ok b.
Proof.
  intros Hresp Hl. destruct (frame_accepted b _ Hresp Hl) as (fr & E & _ & D & _). unfold write_frame. by rewrite E.
Qed.
End middleware.
End Transport.
