(* ===== verification/Gateway.v ===== *)
(** * The HTTP gateway (src/cmd/api)

    The handlers of the public API: the encrypted methods, which pass the
    decrypted parameter to the RPC service and its answer back; the JSONP
    pages with their snapshot files; the image captcha; the route table with
    its middlewares; and the service context that wires them.  The RPC client
    is the parameter [rpc]: the service's answer, or the error of the call. *)

From S2P Require Import Prelude GoStr Aes Codec Json RawJson Hub Sql Env RateLimit Auth Cache.
From S2P Require Import Models Match Builders Svc WsChat Logic Transport.

Module Gateway.
Import Transport Logic.

(** ** svc/serviceContext.go *)
Record Config : Type := MkConfig {
  DBDriver : string; DataSource : string; SchemaPrefix : string; ApiKeyReq : string; ApiKeyResp : string;
  JsonpSnapshotDir : string; RateLimitPerMinute : Z; RateLimitAuthPerMinute : Z;
  ChatMaxMsgLen : Z; ChatHistoryLim : Z; ChatRatePerMin : Z; CorsOrigin : string }.

Record ServiceContext : Type := MkContext {
  conf : Config; RateLimiter : Limiter; AuthLimiter : Limiter; ChatHub : Ws.Conf; Keys : TransportConfig }.

Definition configure_schema (c : Config) (s : Schema) : Schema :=
  let driver := ToLower (TrimSpace (DBDriver c)) in
  if bool_decide (driver ∈ ["sqlite"; "sqlite3"]) then SetNoSchemaPrefix s
  else let p := TrimSpace (SchemaPrefix c) in if String.eqb p "" then s else SetSchemaPrefix p s.

(** [open] is what opening the configured database gives. *)
Definition NewServiceContext (open : string -> string -> res unit) (c : Config) (s : Schema) : ServiceContext :=
  let key k dflt := if (String.length k =? 0)%nat then dflt else bytes_of k in
  let reqKey := key (ApiKeyReq c) DefaultRequestKey in
  let respKey := key (ApiKeyResp c) DefaultResponseKey in
  let db := negb (String.eqb (DataSource c) "") && is_ok (open (DBDriver c) (DataSource c)) in
  {| conf := c;
     RateLimiter := RateLimit.New true (RateLimitPerMinute c) "api";
     AuthLimiter := RateLimit.New true (RateLimitAuthPerMinute c) "auth";
     ChatHub := Ws.NewHub true respKey reqKey (ChatMaxMsgLen c) (ChatHistoryLim c) (ChatRatePerMin c)
                  db db db (configure_schema c s);
     Keys := MkTransportConfig reqKey respKey |}.

Section gateway.
Context (rpc : CallReq -> prog (res CallResp)) (svcCtx : ServiceContext).

(** ** handler/encrypted.go *)

(** The service's answer, or the error response already written. *)
Definition callRPC (r : HttpReq) (method paramJSON : string) : prog (CallResp + HttpResp) :=
  resp ← rpc (MkReq method paramJSON (h_Session r) "" 0);
  match resp with
  | Ok resp => mret (inl resp)
  | Err _ => mret (inr (WriteErr 500 "rpc unavailable"))
  end.

Definition readParamBody (ctx : ParamCtx) (r : HttpReq) : string :=
  match ctxParam ctx with Some b => string_of b | None => string_of (Body r).1 end.

(** The encoder sorts the map's keys and ends with a newline; a result that
    is not JSON makes it write nothing. *)
Definition encode_envelope (resp : CallResp) : option bytes :=
  result ← match bytes_of (default "" (Result resp)) with
           | [] => Some []
           | raw => b ← raw_marshal raw; Some [("result", b)]
           end;
  Some (obj_bytes ([("code", bytes_of (FormatInt (Code resp))); ("meg", quote (Meg resp))]
    ++ (if String.eqb (NewSessionId resp) "" then [] else [("newSessionId", quote (NewSessionId resp))])
    ++ result ++ [("seq", bytes_of (FormatInt (r_Seq resp)))]) ++ [Byte.x0a]).

Definition writeEnvelope (resp : CallResp) : HttpResp :=
  MkHttpResp 200 json_header (default [] (encode_envelope resp)) [].

Definition forward (method : string) (param : ParamCtx -> HttpReq -> string) : Handler := fun ctx r =>
  resp ← callRPC r method (param ctx r);
  match resp with
  | inl resp => mret (writeEnvelope resp)
  | inr out => mret out
  end.
Definition empty_param (ctx : ParamCtx) (r : HttpReq) : string := "{}".

Definition LoginHandler : Handler := forward "login" readParamBody.
Definition RegisterHandler : Handler := forward "register" readParamBody.
Definition GuestLoginHandler : Handler := forward "guestLogin" readParamBody.
Definition RefreshHandler : Handler := forward "refresh" readParamBody.
Definition LogoutHandler : Handler := forward "logout" readParamBody.
Definition LiveHotHandler : Handler := forward "live_hot" empty_param.
Definition LiveCateListHandler : Handler := forward "live_cateList" readParamBody.
Definition LiveDetailHandler : Handler := forward "live_detail" readParamBody.
Definition MatchRecommendHandler : Handler := forward "match_recommend" empty_param.
Definition MatchCateListHandler : Handler := forward "match_cateList" empty_param.
Definition MatchDetailHandler : Handler := forward "match_detail" readParamBody.
Definition UserDetailHandler : Handler := forward "user_detail" empty_param.
Definition SmsGetCodeHandler : Handler := forward "sms_getCode" readParamBody.

(** *** The image captcha *)
Definition alphabet : string := "ABCDEFGHJKLMNPQRSTUVWXYZ23456789".

(** One random byte per character; the error of the reader is dropped, the
    byte then being zero. *)
Fixpoint genKaptchaCode (n : nat) : prog string :=
  match n with
  | O => mret ""
  | S n =>
    b ← rand_read 1;
    let i := match b with Ok (b :: _) => Z_of_byte b mod Z.of_nat (String.length alphabet) | _ => 0 end in
    rest ← genKaptchaCode n;
    mret (String (default "A"%char (String.get (Z.to_nat i) alphabet)) rest)
  end.

(** [name="value"]. *)
Definition attr (name value : string) : string :=
  name +:+ "=" +:+ string_of [Byte.x22] +:+ value +:+ string_of [Byte.x22].
Definition newline : string := string_of [Byte.x0a].

Definition renderKaptchaSVG (code : string) : string :=
  "<svg " +:+ attr "xmlns" "http://www.w3.org/2000/svg" +:+ " " +:+ attr "width" "120" +:+ " "
    +:+ attr "height" "40" +:+ ">" +:+ newline
  +:+ "  <rect " +:+ attr "width" "120" +:+ " " +:+ attr "height" "40" +:+ " " +:+ attr "fill" "#f0f0f0"
    +:+ "/>" +:+ newline
  +:+ "  <text " +:+ attr "x" "12" +:+ " " +:+ attr "y" "28" +:+ " " +:+ attr "font-family" "monospace" +:+ " "
    +:+ attr "font-size" "22" +:+ " " +:+ attr "fill" "#333" +:+ ">" +:+ code +:+ "</text>" +:+ newline
  +:+ "</svg>".

(** [url.Values.Get] and [Has]. *)
Definition query_get (r : HttpReq) (name : string) : string :=
  match List.find (fun kv => String.eqb kv.1 name) (Query r) with Some kv => kv.2 | None => "" end.
Definition query_has (r : HttpReq) (name : string) : bool := existsb (fun kv => String.eqb kv.1 name) (Query r).

Definition kaptchaKey (mobile : string) : string := "yuyan:kaptcha:" +:+ mobile.
Definition kaptchaCooldownKey (mobile : string) : string := "yuyan:kaptcha:cd:" +:+ mobile.

Definition KaptchaHandler : Handler := fun _ r =>
  let mobile := query_get r "mobile" in
  if String.eqb mobile "" then mret (http_error 400 "missing mobile") else
  set ← redis (RSetnxEx (kaptchaCooldownKey mobile) "1" 60);
  match set with
  | Ok false =>
    let e := http_error 429 "kaptcha cooldown: please retry in 60s" in
    mret (MkHttpResp (Status e) (("Retry-After", "60") :: Headers e) (Payload e) [])
  | _ =>
    code ← genKaptchaCode 5;
    _ ← redis (RSetex (kaptchaKey mobile) code 300);
    mret (MkHttpResp 200 [("Content-Type", "image/svg+xml; charset=utf-8");
                          ("Cache-Control", "no-store, no-cache, must-revalidate")]
            (bytes_of (renderKaptchaSVG code)) [])
  end.

(** ** handler/jsonp.go *)

Fixpoint Split_slash (s : string) : list string :=
  match s with
  | EmptyString => [""]
  | String c s' =>
    if Ascii.eqb c "/"%char then "" :: Split_slash s'
    else match Split_slash s' with
         | p :: ps => String c p :: ps
         | [] => [String c EmptyString]
         end
  end.

Definition pathParam (r : HttpReq) (name : string) : string :=
  let v := PathValue r name in
  if negb (String.eqb v "") then v else
  let parts := Split_slash (TrimRight_slash (TrimLeft_slash (Path (origin r)))) in
  if String.eqb name "roomNum" || String.eqb name "name" then nth 1 parts "" else "".

(** [Unmarshal] into an [any], its error dropped: a number out of range is
    null, and text that is not JSON leaves nil. *)
Context (float_lit : string -> option string).

Fixpoint any_of (j : json) : json :=
  match j with
  | JNum lit => match float_lit lit with Some l => JNum l | None => JNull end
  | JArr l => JArr (map any_of l)
  | JObj ms =>
    JObj (foldl (fun acc m => Cache.Multi.set_key m.1 m.2 acc) [] (map (fun '(k, v) => (k, any_of v)) ms))
  | j => j
  end.

Definition any_data (text : string) : json :=
  match json_parse text with Some j => any_of j | None => JNull end.

Definition callback_body (cb : string) (body : bytes) : bytes :=
  bytes_of (cb +:+ "(") ++ body ++ bytes_of ")".

(** [writeSnapshot]; what the file system does with the file is its own. *)
Definition writeSnapshot (dir file : string) (body : bytes) (callback : string) : list (string * string * bytes) :=
  if String.eqb dir "" || String.eqb file "" then [] else [(dir, file, callback_body callback body)].

(** The two ways a body is served. *)
Definition serve_body (r : HttpReq) (body : bytes) (defaultCallback snapDir snapFile : string) : HttpResp :=
  let files := writeSnapshot snapDir snapFile body defaultCallback in
  let cb := if String.eqb (query_get r "callback") "" then defaultCallback else query_get r "callback" in
  if query_has r "callback" && String.eqb (query_get r "callback") ""
  then MkHttpResp 200 json_header body files
  else MkHttpResp 200 [("Content-Type", "application/javascript; charset=utf-8")] (callback_body cb body) files.

Definition serveJSONP (r : HttpReq) (resp : CallResp) (defaultCallback snapDir snapFile : string) : HttpResp :=
  if negb (Code resp =? 200) && negb (Code resp =? 0)
  then MkHttpResp 200 json_header
         (json_bytes (JObj [("code", jint (Code resp)); ("data", JNull); ("meg", JStr (Meg resp))]) ++ [Byte.x0a]) []
  else
    let data := match bytes_of (default "" (Result resp)) with [] => JNull | raw => any_data (string_of raw) end in
    serve_body r (json_bytes (JObj [("data", data)])) defaultCallback snapDir snapFile.

Definition serveJSONPFlat (r : HttpReq) (resp : CallResp) (defaultCallback snapDir snapFile : string) : HttpResp :=
  let body := match bytes_of (default "" (Result resp)) with [] => bytes_of "[]" | raw => raw end in
  serve_body r body defaultCallback snapDir snapFile.

(** A page made of one call. *)
Definition jsonp_page (method : string) (param : string) (r : HttpReq) (k : CallResp -> HttpResp) : prog HttpResp :=
  resp ← callRPC r method param;
  match resp with
  | inl resp => mret (k resp)
  | inr out => mret out
  end.

Definition snap_dir : string := JsonpSnapshotDir (conf svcCtx).

Definition MatchesJSONPHandler : Handler := fun _ r =>
  jsonp_page "matches_jsonp" "{}" r (fun resp => serveJSONP r resp "matches" snap_dir "matches.json").
Definition AllLiveRoomsJSONPHandler : Handler := fun _ r =>
  jsonp_page "live_all_rooms" "{}" r (fun resp => serveJSONP r resp "all_live_rooms" snap_dir "all_live_rooms.json").
Definition LiveTypesJSONPHandler : Handler := fun _ r =>
  jsonp_page "live_types" "{}" r (fun resp => serveJSONP r resp "live_types" snap_dir "live_types.json").
Definition MatchRecommendJSONPHandler : Handler := fun _ r =>
  jsonp_page "match_recommend" "{}" r (fun resp => serveJSONP r resp "match_recommend" snap_dir "match_recommend.json").

(** *** The hot anchors *)
Record HotAnchor : Type := MkHotAnchor { ha_NickName : string; ha_Icon : string; ha_RoomNum : string }.
Record HotRoom : Type := MkHotRoom { hr_title : string; hr_anchor : HotAnchor }.
Definition no_anchor : HotAnchor := MkHotAnchor "" "" "".
Definition no_room : HotRoom := MkHotRoom "" no_anchor.

Definition hot_anchor_fields : list (field HotAnchor) :=
  [Field "nickName" (fun j a => s ← as_string j; Some (MkHotAnchor s (ha_Icon a) (ha_RoomNum a)));
   Field "icon" (fun j a => s ← as_string j; Some (MkHotAnchor (ha_NickName a) s (ha_RoomNum a)));
   Field "roomNum" (fun j a => s ← as_string j; Some (MkHotAnchor (ha_NickName a) (ha_Icon a) s))].
(** A nested struct and an array are filled in place, as far as they fit. *)
Definition hot_room_fields : list (field HotRoom) :=
  [Field "title" (fun j h => s ← as_string j; Some (MkHotRoom s (hr_anchor h)));
   Field "anchor" (fun j h => Some (MkHotRoom (hr_title h) (decode_struct hot_anchor_fields (hr_anchor h) j).1))].
Definition hot_fields : list (field (list HotRoom)) :=
  [Field "hot" (fun j old => match j with
     | JArr l => Some (imap (fun i e => (decode_struct hot_room_fields (default no_room (old !! i)) e).1) l)
     | _ => None
     end)].

Definition hot_anchor_json (h : HotRoom) : json :=
  let a := hr_anchor h in
  JObj [("anchor", JObj [("roomNum", JStr (ha_RoomNum a))]); ("icon", JStr (ha_Icon a));
        ("nickName", JStr (ha_NickName a))].

Definition hot_anchors (result : string) : json :=
  JObj [("anchors", JArr (map hot_anchor_json (Unmarshal hot_fields [] result).1))].

Definition HotAnchorJSONPHandler : Handler := fun _ r =>
  jsonp_page "live_hot" "{}" r (fun resp =>
    let body := json_text (hot_anchors (default "" (Result resp))) in
    serveJSONP r (MkResp (Code resp) (Meg resp) (r_Seq resp) (NewSessionId resp) (Some body))
      "hot_anchor" snap_dir "hot_anchor.json").

(** *** Pages with a path parameter *)

(** [http.NotFound]. *)
Definition NotFound : HttpResp := http_error 404 "404 page not found".

Definition room_page (method : string) (callback : string -> string) : Handler := fun _ r =>
  let roomNum := pathParam r "roomNum" in
  if String.eqb roomNum "" then mret NotFound else
  jsonp_page method (json_text (JObj [("roomNum", JStr roomNum)])) r (fun resp =>
    serveJSONP r resp (callback roomNum) snap_dir "").

Definition RoomDetailJSONPHandler : Handler := room_page "room_detail" (fun _ => "detail").
Definition RoomScheduleJSONPHandler : Handler := room_page "room_schedule" (fun roomNum => "schedule_" +:+ roomNum).
Definition RoomGiftRankJSONPHandler : Handler := room_page "room_gift_rank" (fun _ => "gift_rank").

Definition match_date (name : string) : option string :=
  if negb (HasPrefix name "matches_") || negb (HasSuffix name ".json") then None
  else let date := TrimSuffix (TrimPrefix name "matches_") ".json" in
       if (String.length date =? 8)%nat then Some date else None.

Definition MatchDateJSONPHandler : Handler := fun _ r =>
  match match_date (pathParam r "name") with
  | None => mret NotFound
  | Some date =>
    jsonp_page "match_byDate" (json_text (JObj [("date", JStr date)])) r (fun resp =>
      serveJSONPFlat r resp ("matches_" +:+ date) snap_dir ("match/matches_" +:+ date +:+ ".json"))
  end.

Definition HealthHandler : Handler := fun _ _ =>
  t ← now;
  mret (MkHttpResp 200 json_header
    (json_bytes (JObj [("status", JStr "ok"); ("ts", JNum (FormatInt (t / Second)))])) []).

(** ** handler/routes.go and apipro.go *)

(** [os.ReadFile], and the framework's rendering of an error. *)
Context (readStaticFile : string -> res bytes) (ErrorCtx : string -> HttpResp).

Definition staticFile (path contentType : string) : Handler := fun _ _ =>
  match readStaticFile path with
  | Err _ => mret NotFound
  | Ok b => mret (MkHttpResp 200 [("Content-Type", contentType); ("Cache-Control", "public, max-age=60")] b [])
  end.

Definition under_headers (hs : list (string * string)) (resp : HttpResp) : HttpResp :=
  MkHttpResp (Status resp) (hs ++ Headers resp) (Payload resp) (Files resp).

(** A limiter in front of a handler. *)
Definition limited (l : Limiter) (h : Handler) : Handler := fun ctx r =>
  x ← HTTPMiddleware (Some l) (fun _ => h ctx r) (origin r);
  match x with
  | Served resp => mret resp
  | Refused retry err => mret (under_headers [("Retry-After", retry)] (ErrorCtx err))
  end.

Definition encrypted (h : Handler) : Handler := fun _ r => Transport (Keys svcCtx) h r.
Definition authMW (h : Handler) : Handler := limited (AuthLimiter svcCtx) h.

(** Where a route leads: a handler, or the chat hub. *)
Inductive endpoint : Type :=
| HTTP (h : Handler)
| ServeWS (hub : Ws.Conf).

Definition jsonpRoutes : list (string * string * endpoint) :=
  [("GET", "/matches.json", HTTP MatchesJSONPHandler);
   ("GET", "/match_all.json", HTTP MatchesJSONPHandler);
   ("GET", "/all_live_rooms.json", HTTP AllLiveRoomsJSONPHandler);
   ("GET", "/live_types.json", HTTP LiveTypesJSONPHandler);
   ("GET", "/hot_anchor.json", HTTP HotAnchorJSONPHandler);
   ("GET", "/match_recommend.json", HTTP MatchRecommendJSONPHandler);
   ("GET", "/room/:roomNum/detail.json", HTTP RoomDetailJSONPHandler);
   ("GET", "/room/:roomNum/schedule.json", HTTP RoomScheduleJSONPHandler);
   ("GET", "/room/:roomNum/gift_rank.json", HTTP RoomGiftRankJSONPHandler);
   ("GET", "/match/:name", HTTP MatchDateJSONPHandler)].

Definition authRoutes : list (string * string * endpoint) :=
  [("POST", "/login/login", HTTP (authMW (encrypted LoginHandler)));
   ("POST", "/login/reg", HTTP (authMW (encrypted RegisterHandler)));
   ("POST", "/login/guestLogin", HTTP (authMW (encrypted GuestLoginHandler)));
   ("POST", "/login/refresh", HTTP (authMW (encrypted RefreshHandler)));
   ("POST", "/login/logout", HTTP (authMW (encrypted LogoutHandler)));
   ("POST", "/sys/getSmsCode", HTTP (authMW (encrypted SmsGetCodeHandler)))].

Definition encryptedRoutes : list (string * string * endpoint) :=
  [("POST", "/live/hot", HTTP (encrypted LiveHotHandler));
   ("POST", "/live/cateList", HTTP (encrypted LiveCateListHandler));
   ("POST", "/live/detail", HTTP (encrypted LiveDetailHandler));
   ("POST", "/match/recommend", HTTP (encrypted MatchRecommendHandler));
   ("POST", "/match/cateList", HTTP (encrypted MatchCateListHandler));
   ("POST", "/match/detail", HTTP (encrypted MatchDetailHandler));
   ("POST", "/user/detail", HTTP (encrypted UserDetailHandler))].

Definition RegisterHandlers : list (string * string * endpoint) :=
  jsonpRoutes ++ authRoutes ++ encryptedRoutes ++
  [("GET", "/api/kaptcha", HTTP KaptchaHandler);
   ("GET", "/health", HTTP HealthHandler);
   ("GET", "/chat.html", HTTP (staticFile "public/chat.html" "text/html; charset=utf-8"));
   ("GET", "/ws/chat", ServeWS (ChatHub svcCtx))].

Definition cors_headers (origin : string) : list (string * string) :=
  [("Access-Control-Allow-Origin", if String.eqb origin "" then "*" else origin);
   ("Access-Control-Allow-Methods", "GET, POST, PUT, DELETE, OPTIONS");
   ("Access-Control-Allow-Headers",
    "Content-Type, Authorization, X-Transform-Port, XTransformPort, X-Session, X-Plat, X-Seq");
   ("Access-Control-Max-Age", "600"); ("X-Content-Type-Options", "nosniff");
   ("X-Frame-Options", "SAMEORIGIN"); ("Referrer-Policy", "no-referrer")].

Definition corsMiddleware (origin : string) (next : Handler) : Handler := fun ctx r =>
  if String.eqb (http_method r) "OPTIONS" then mret (MkHttpResp 204 (cors_headers origin) [] [])
  else resp ← next ctx r; mret (under_headers (cors_headers origin) resp).

Definition methodNotAllowed : HttpResp :=
  MkHttpResp 405 [("Content-Type", "application/json")]
    (json_bytes (JObj [("code", jint 405); ("message", JStr "method not allowed")])) [].

(** What the server runs for a route: the global middlewares, then its handler. *)
Definition serve (h : Handler) (r : HttpReq) : prog HttpResp :=
  corsMiddleware (CorsOrigin (conf svcCtx)) (limited (RateLimiter svcCtx) h) no_param r.
End gateway.
End Gateway.
