(* ===== verification/Front.v ===== *)
(** * What the gateway guarantees

    Theorems about [Gateway] and [Transport]: an encrypted call carries the
    client's parameter to the RPC service and its answer back unchanged; a body
    that does not decrypt reaches no handler; the image captcha that is served
    is the one registration accepts, once; the date pages write no snapshot
    outside their directory; and the session of an envelope, which the methods
    never see. *)

From S2P Require Import Prelude GoStr Aes Codec Json RawJson Degrade Semaphore Hub Sql Time Env RateLimit Auth Cache.
From S2P Require Import Models Match Builders Svc Logic Calls Transport Gateway.

Module Front.
Import Transport Logic Gateway.

(** ** Encrypted calls *)
Section calls.
Context `{World W} (cfg : TransportConfig) (rpc : CallReq -> prog (res CallResp)).

(** A request for [method] as a client frames it. *)
Record framed (r : HttpReq) (plain : bytes) : Prop := Framed {
  f_frame : exists fr, EncodeFrame plain (RequestKey cfg) = Ok fr /\ Body r = (fr, None);
  f_size : len plain + 22 < bodyLimit }.

(** Text and numbers the wire format carries. *)
Definition carried (sid plat : string) (seq : Z) (param : json) : bool :=
  valid_utf8 sid && valid_utf8 plat && (- 2 ^ 31 <=? seq) && (seq <? 2 ^ 31) && json_wf param.
Definition answered (resp : CallResp) (result : option json) : bool :=
  (- 2 ^ 31 <=? Code resp) && (Code resp <? 2 ^ 31) && negb (Code resp =? 0) && valid_utf8 (Meg resp) &&
  (- 2 ^ 31 <=? r_Seq resp) && (r_Seq resp <? 2 ^ 31) && valid_utf8 (NewSessionId resp) && result_wf result &&
  bool_decide (default "" (Result resp) = string_of (result_bytes result)).

Lemma encode_envelope_json resp result : answered resp result = true ->
  encode_envelope resp =
  Some (json_bytes (sent_envelope (Code resp) (Meg resp) (r_Seq resp) (NewSessionId resp) result) ++ [Byte.x0a]).
Proof.
  unfold answered. intros Ha. bool_to_prop. unfold encode_envelope, sent_envelope.
  match goal with E : default "" _ = _ |- _ => rewrite E end. rewrite bytes_of_string_of, <- obj_bytes_json.
  destruct result as [j|]; cbn [result_bytes result_wf] in *.
  - destruct (json_head j) as (b & t & E & _); [done|]. rewrite E at 1. rewrite <- E.
    rewrite raw_marshal_bytes by done. by destruct (String.eqb (NewSessionId resp) "").
  - by destruct (String.eqb (NewSessionId resp) "").
Qed.

Context (svcCtx : ServiceContext) (Hkeys : Keys svcCtx = cfg).
Hypothesis Hreq : length (RequestKey cfg) = 16%nat.
Hypothesis Hresp : length (ResponseKey cfg) = 16%nat.

Lemma forward_run method param ctx r resp w w' :
  run (rpc (MkReq method (param ctx r) (h_Session r) "" 0)) w = (Ok resp, w') ->
  run (forward rpc method param ctx r) w = (writeEnvelope resp, w').
Proof.
  intros Hr. unfold forward, callRPC. rewrite !run_bind, Hr. reflexivity.
Qed.

(** The answer a client reads. *)
Definition client_answer (resp : CallResp) (seq : Z) (result : option json) : bytes :=
  json_bytes (envelope_json (Code resp) (Meg resp) (if r_Seq resp =? 0 then seq else r_Seq resp)
    (NewSessionId resp) result).

Lemma answer_read method param ctx r plain resp result w w' :
  framed r plain ->
  run (rpc (MkReq method (param (request_ctx plain r) r) (h_Session r) "" 0)) w = (Ok resp, w') ->
  answered resp result = true ->
  len (client_answer resp (ctxSeq (request_ctx plain r)) result) + 16 < 2 ^ 32 ->
  exists out, run (encrypted svcCtx (forward rpc method param) ctx r) w = (out, w') /\ Status out = 200 /\
    DecodeFrame (Payload out) (ResponseKey cfg) = Ok (client_answer resp (ctxSeq (request_ctx plain r)) result).
Proof.
  intros [(fr & Hf & Hb) Hsize] Hrpc Ha Hlen. unfold encrypted. rewrite Hkeys.
  rewrite (Transport_run cfg _ _ plain fr) by done.
  rewrite (forward_run _ _ _ _ resp w w') by done. eexists. split; [reflexivity|]. cbn [Status Payload].
  unfold writeEnvelope. rewrite (encode_envelope_json resp result) by done. cbn [Payload default from_option id].
  assert (buildEnvelope (json_bytes (sent_envelope (Code resp) (Meg resp) (r_Seq resp) (NewSessionId resp) result)
      ++ [Byte.x0a]) (ctxSeq (request_ctx plain r)) (ctxSessionID (request_ctx plain r)) =
    client_answer resp (ctxSeq (request_ctx plain r)) result) as ->.
  { unfold answered in Ha. bool_to_prop. apply buildEnvelope_sent; unfold int64_ok; done || lia. }
  by apply write_frame_reads.
Qed.
End calls.

(** C1. An encrypted call end to end.  A client that frames an envelope with its
    parameter reaches the RPC method with exactly that parameter (and the
    session of the X-Session header), and reads back from the answer's frame an
    object with the service's code, message and new session, the service's
    result as it was, and its own sequence number where the service set none. *)
Theorem rpc_over_transport `{World W} (rpc : CallReq -> prog (res CallResp)) (svcCtx : ServiceContext)
    (method sid plat : string) (seq : Z) (param : json) (ctx : ParamCtx) (r : HttpReq)
    (resp : CallResp) (result : option json) (w w' : W)
    (Hreq : length (RequestKey (Keys svcCtx)) = 16%nat) (Hresp : length (ResponseKey (Keys svcCtx)) = 16%nat)
    (Hcarried : carried sid plat seq param = true)
    (Hframed : framed (Keys svcCtx) r (json_bytes (client_envelope sid seq plat param)))
    (Hrpc : run (rpc (MkReq method (json_text param) (h_Session r) "" 0)) w = (Ok resp, w'))
    (Hanswer : answered resp result = true) (Hsize : len (client_answer resp seq result) + 16 < 2 ^ 32) :
  exists out, run (encrypted svcCtx (forward rpc method readParamBody) ctx r) w = (out, w') /\ Status out = 200 /\
    DecodeFrame (Payload out) (ResponseKey (Keys svcCtx)) = Ok (client_answer resp seq result).
Proof.
  unfold carried in Hcarried. bool_to_prop. set (plain := json_bytes (client_envelope sid seq plat param)) in *.
  assert (request_ctx plain r = WithParamCtx (json_bytes param) sid plat seq) as Hctx.
  { unfold request_ctx, plain. by rewrite parse_client_envelope by done || lia. }
  pose proof (answer_read (Keys svcCtx) rpc svcCtx eq_refl Hreq Hresp method readParamBody ctx r plain resp result
    w w' Hframed) as Hread.
  rewrite Hctx in Hread. by apply Hread.
Qed.

(** C20. Nothing undecryptable gets past the transport: when the body cannot be
    read or does not decrypt under the request key, the handler does not run,
    the world stays as it is, and the client reads code 101. *)
Theorem undecryptable_rejected `{World W} (svcCtx : ServiceContext) (h : Handler) (ctx : ParamCtx) (r : HttpReq) (w : W)
    (Hresp : length (ResponseKey (Keys svcCtx)) = 16%nat)
    (Hbad : forall body p, read_limited bodyLimit (Body r) = Ok body ->
      decrypt_body (RequestKey (Keys svcCtx)) body <> Ok p) :
  exists out meg, run (encrypted svcCtx h ctx r) w = (out, w) /\ Status out = 200 /\
    DecodeFrame (Payload out) (ResponseKey (Keys svcCtx)) = Ok (json_bytes (envelope_json 101 meg 0 "" None)).
Proof.
  unfold encrypted.
  destruct (Transport_rejects_run (Keys svcCtx) h r w) as (meg & Hm & Hrun).
  { intros body Hb. destruct (decrypt_body _ body) as [p|e] eqn:E; [by destruct (Hbad _ _ Hb E)|by eexists]. }
  rewrite Hrun. eexists _, meg. split; [done|]. unfold abortEncrypted.
  pose proof (marshal_plain_json 101 meg 0 "" None eq_refl) as E. cbn [result_bytes] in E. rewrite E. cbn [default from_option id].
  apply write_frame_reads; [done|]. by destruct Hm as [-> | ->]; vm_compute.
Qed.

(** ** The service behind the gateway *)

(** The RPC client when the call goes through. *)
Definition service (LocalZone : Z -> Z) (float_lit : string -> option string) (svc : Svc.ServiceContext)
    (req : CallReq) : prog (res CallResp) := resp ← Call LocalZone float_lit svc req; mret (Ok resp).

Lemma no_session_refused `{World W} LocalZone float_lit svc seq (w : W) :
  run (service LocalZone float_lit svc (MkReq "user_detail" "{}" "" "" seq)) w =
  (Ok (MkResp 100 "login required" seq "" None), w).
Proof. reflexivity. Qed.

Lemma short_answer seq : - 2 ^ 31 <= seq < 2 ^ 31 ->
  len (json_bytes (envelope_json 100 "login required" seq "" None)) + 16 < 2 ^ 32.
Proof.
  intros Hq. pose proof (FormatInt_length seq 32 ltac:(lia) ltac:(lia)) as Hl.
  unfold envelope_json. rewrite json_bytes_obj. cbn [String.eqb app map join member_bytes fst snd].
  unfold len, member_bytes, jint. cbn [fst snd json_bytes]. repeat (rewrite ?length_app; cbn [length]).
  rewrite !length_bytes_of. change (length (quote "code")) with 6%nat. change (length (quote "meg")) with 5%nat.
  change (length (quote "seq")) with 5%nat. change (length (quote "login required")) with 16%nat.
  change (String.length (FormatInt 100)) with 3%nat. lia.
Qed.

(** The session of an envelope is never used.  A client that sends its
    access token where the transport reads it -- the sessionId of the envelope
    -- and not in the X-Session header is told to log in, whatever the token,
    whatever the service holds. *)
Theorem envelope_session_ignored `{World W} (LocalZone : Z -> Z) (float_lit : string -> option string)
    (svc : Svc.ServiceContext) (svcCtx : ServiceContext) (sid plat : string) (seq : Z) (param : json)
    (ctx : ParamCtx) (r : HttpReq) (w : W)
    (Hreq : length (RequestKey (Keys svcCtx)) = 16%nat) (Hresp : length (ResponseKey (Keys svcCtx)) = 16%nat)
    (Hcarried : carried sid plat seq param = true)
    (Hframed : framed (Keys svcCtx) r (json_bytes (client_envelope sid seq plat param)))
    (Hheader : h_Session r = "") :
  ctxSessionID (request_ctx (json_bytes (client_envelope sid seq plat param)) r) = sid /\
  exists out, run (encrypted svcCtx (UserDetailHandler (service LocalZone float_lit svc)) ctx r) w = (out, w) /\
    DecodeFrame (Payload out) (ResponseKey (Keys svcCtx)) =
    Ok (json_bytes (envelope_json 100 "login required" seq "" None)).
Proof.
  unfold carried in Hcarried. bool_to_prop. set (plain := json_bytes (client_envelope sid seq plat param)) in *.
  assert (request_ctx plain r = WithParamCtx (json_bytes param) sid plat seq) as Hctx.
  { unfold request_ctx, plain. by rewrite parse_client_envelope by done || lia. }
  rewrite Hctx. split; [reflexivity|].
  destruct (answer_read (Keys svcCtx) (service LocalZone float_lit svc) svcCtx eq_refl Hreq Hresp "user_detail"
    empty_param ctx r plain (MkResp 100 "login required" 0 "" None) None w w Hframed) as (out & Hrun & _ & Hd).
  - rewrite Hheader. apply no_session_refused.
  - reflexivity.
  - rewrite Hctx. unfold client_answer. cbn [Code Meg r_Seq NewSessionId ctxSeq WithParamCtx Z.eqb]. refine (short_answer seq _). lia.
  - exists out. split; [exact Hrun|]. revert Hd. rewrite Hctx. intros Hd. exact Hd.
Qed.

(** ** The image captcha

    The gateway stores the code, the RPC service checks it. *)
Section kaptcha.
Context `{Laws W}.

Lemma genKaptchaCode_length n w c w' : run (genKaptchaCode n) w = (c, w') -> String.length c = n.
Proof.
  revert w c w'. induction n as [|n IH]; intros w c w' Hrun; cbn [genKaptchaCode] in Hrun; [by run_inv|].
  apply run_bind_inv in Hrun as (b & w1 & _ & Hrun). apply run_bind_inv in Hrun as (rest & w2 & Er & Hrun).
  rewrite run_ret in Hrun. injection Hrun as <- _. cbn [String.length]. by rewrite (IH _ _ _ Er).
Qed.

(** [k] holds [v] until [dl]. *)
Definition held (k v : string) (dl : Z) (w : W) : Prop := keys w !! k = Some (Entry (VStr v) (Some dl)).

Lemma cooldown_ne_code mobile : kaptchaCooldownKey mobile <> kaptchaKey mobile.
Proof.
  unfold kaptchaCooldownKey, kaptchaKey. intros E. change ("yuyan:kaptcha:cd:" +:+ mobile)
    with ("yuyan:kaptcha:" +:+ ("cd:" +:+ mobile)) in E.
  apply append_inj_l in E. apply (f_equal String.length) in E. rewrite append_length in E. cbn in E. lia.
Qed.

(** A captcha that is served has its code stored for five minutes. *)
Lemma kaptcha_served ctx r w out w1 : healthy w -> run (KaptchaHandler ctx r) w = (out, w1) -> Status out = 200 ->
  exists code dl, Payload out = bytes_of (renderKaptchaSVG code) /\ String.length code = 5%nat /\
    clock w + 300 * Second <= dl /\ held (kaptchaKey (query_get r "mobile")) code dl w1 /\ healthy w1.
Proof.
  intros Hh. unfold KaptchaHandler. destruct (String.eqb _ ""); [intros Hrun Hs; run_inv; discriminate Hs|].
  intros Hrun Hs. apply run_bind_inv in Hrun as (set & wa & Ea & Hrun).
  pose proof (run_clock_eq _ _ _ _ Ea). pose proof (run_healthy_eq _ _ _ _ Ea Hh) as Hha.
  assert (run (code ← genKaptchaCode 5;
    _ ← redis (RSetex (kaptchaKey (query_get r "mobile")) code 300);
    mret (MkHttpResp 200 [("Content-Type", "image/svg+xml; charset=utf-8");
                          ("Cache-Control", "no-store, no-cache, must-revalidate")]
            (bytes_of (renderKaptchaSVG code)) [])) wa = (out, w1)) as Hserve.
  { destruct set as [[|]|]; [exact Hrun| |exact Hrun]. exfalso. run_inv. discriminate Hs. }
  apply run_bind_inv in Hserve as (code & wb & Eb & Hserve).
  pose proof (run_clock_eq _ _ _ _ Eb). pose proof (run_healthy_eq _ _ _ _ Eb Hha) as Hhb.
  apply run_bind_inv in Hserve as (r1 & wc & Ec & Hserve).
  apply redis_inv in Ec as (Hstep & Ht & Hhc); [|done..]. cbn [redis_step] in Hstep.
  change (300 <=? 0) with false in Hstep. cbv iota in Hstep. injection Hstep as _ Hk.
  rewrite run_ret in Hserve. injection Hserve as <- <-.
  exists code, (clock wc + 300 * Second). split_and!; [reflexivity|by eapply genKaptchaCode_length|lia| |done].
  unfold held. rewrite <- Hk. apply lookup_insert_eq.
Qed.

(** While the cooldown key is there, nobody is served. *)
Lemma kaptcha_cooling ctx r v out v1 c dl : healthy v -> query_get r "mobile" <> "" ->
  held (kaptchaCooldownKey (query_get r "mobile")) c dl v ->
  run (KaptchaHandler ctx r) v = (out, v1) -> clock v1 < dl -> Status out = 429 /\ keys v1 = keys v.
Proof.
  intros Hh Hm Hk. unfold KaptchaHandler. apply String.eqb_neq in Hm as ->. intros Hrun Hdl.
  apply run_bind_inv in Hrun as (set & va & Ea & Hrun). pose proof (run_clock_eq _ _ _ _ Hrun).
  apply redis_inv in Ea as (Hstep & _ & _); [|done..]. cbn [redis_step] in Hstep.
  change (60 <=? 0) with false in Hstep. cbv iota in Hstep.
  rewrite (Calls.find_in _ _ _ _ _ Hk) in Hstep by lia. injection Hstep as <- Hkeys.
  run_inv. rewrite Hkeys. split; reflexivity.
Qed.

(** C23. The captcha a client is shown is the one registration checks.  With
    Redis up, a captcha served for a phone shows a code of five characters; for
    five minutes the registration of that phone accepts exactly that code (but
    for case and surrounding space), as long as nobody else touched the key;
    and checking it, right or wrong, uses it up. *)
Theorem kaptcha_registers (ctx : ParamCtx) (r : HttpReq) (out : HttpResp) (req : registerReq) (ok : bool)
    (w w1 v v1 : W) (Hup : healthy w) (Hserved : run (KaptchaHandler ctx r) w = (out, w1)) (Hok : Status out = 200)
    (Hphone : g_Phone req = query_get r "mobile") (Hupv : healthy v)
    (Hkept : keys v !! kaptchaKey (g_Phone req) = keys w1 !! kaptchaKey (g_Phone req))
    (Hcheck : run (check_kaptcha req) v = (ok, v1)) (Hsoon : clock v1 < clock w + 5 * Minute) :
  exists code, Payload out = bytes_of (renderKaptchaSVG code) /\ String.length code = 5%nat /\
    ok = EqualFold (TrimSpace code) (TrimSpace (g_Kaptcha req)) /\
    keys v1 !! kaptchaKey (g_Phone req) = None.
Proof.
  destruct (kaptcha_served ctx r w out w1 Hup Hserved Hok) as (code & dl & Hp & Hl & Hdl & Hk & _).
  exists code. split; [exact Hp|]. split; [exact Hl|]. rewrite <- Hphone in Hk. unfold held in Hk. rewrite <- Hkept in Hk.
  unfold check_kaptcha in Hcheck. fold (kaptchaKey (g_Phone req)) in Hcheck. cbv zeta in Hcheck.
  apply run_bind_inv in Hcheck as (stored & va & Ea & Hcheck). pose proof (run_clock_eq _ _ _ _ Hcheck).
  apply redis_inv in Ea as (Hs & Ht & Hha); [|done..]. cbn [redis_step] in Hs.
  rewrite (Calls.find_in _ _ _ _ _ Hk) in Hs by (unfold Minute in *; lia). injection Hs as <- Hka.
  apply run_bind_inv in Hcheck as (n & vb & Eb & Hcheck).
  apply redis_inv in Eb as (Hs & _ & _); [|done..]. rewrite run_ret in Hcheck. injection Hcheck as <- <-.
  split; [reflexivity|]. cbn [redis_step] in Hs.
  pose proof (del_one_spec (clock vb) [kaptchaKey (g_Phone req)] 0 (keys va) (kaptchaKey (g_Phone req))) as Hd.
  destruct (foldl _ _ _) as [n' m'] eqn:E in Hs. rewrite E in Hd. injection Hs as _ <-. cbn [snd] in Hd. rewrite Hd.
  destruct (decide _) as [_|Hno]; [reflexivity|]. destruct Hno. constructor.
Qed.

(** The mobile parameter is not validated, and a code is stored under
    the prefix the cooldowns use too: a captcha asked for "cd:" followed by a
    number keeps everybody from a captcha for that number, which nobody asked
    one for, during five minutes, not one. *)
Theorem kaptcha_blocks_another (ctx ctx' : ParamCtx) (r r' : HttpReq) (out out' : HttpResp) (w w1 v v1 : W)
    (Hup : healthy w) (Hserved : run (KaptchaHandler ctx r) w = (out, w1)) (Hok : Status out = 200)
    (Hmobile : query_get r "mobile" = "cd:" +:+ query_get r' "mobile") (Hne : query_get r' "mobile" <> "")
    (Hupv : healthy v)
    (Hkept : keys v !! kaptchaCooldownKey (query_get r' "mobile") = keys w1 !! kaptchaCooldownKey (query_get r' "mobile"))
    (Hvictim : run (KaptchaHandler ctx' r') v = (out', v1)) (Hsoon : clock v1 < clock w + 5 * Minute) :
  Status out' = 429 /\ keys v1 = keys v.
Proof.
  destruct (kaptcha_served ctx r w out w1 Hup Hserved Hok) as (code & dl & _ & _ & Hdl & Hk & _).
  apply (kaptcha_cooling ctx' r' v out' v1 code dl Hupv Hne); [|exact Hvictim|unfold Minute in *; lia].
  unfold held in *. rewrite Hkept, <- Hk, Hmobile. reflexivity.
Qed.
End kaptcha.

(** ** A gateway with the default keys *)
Definition demo_conf : Config := MkConfig "mysql" "" "zb_" "" "" "snap" 120 20 500 50 60 "".
Definition demo_gateway : ServiceContext := NewServiceContext (fun _ _ => Ok tt) demo_conf initial_schema.
Definition demo_http (session : string) (body : bytes) (query : list (string * string)) (path : string) : HttpReq :=
  MkHttpReq (MkRequest "" "" "1.2.3.4:5" path) "POST" session "" "" (body, None) query (fun _ => "").
Definition demo_service : CallReq -> prog (res CallResp) := service UTC Some Calls.demo_svc.

(** A request for an SMS code, as the client sends it. *)
Definition demo_param : json := JObj [("countryCode", JStr "86"); ("phone", JStr "13900139000"); ("type", jint 1)].
Definition demo_plain (sid : string) : bytes := json_bytes (client_envelope sid 7 "3" demo_param).

Lemma demo_framed sid : (length (demo_plain sid) < 1000)%nat -> exists fr,
  EncodeFrame (demo_plain sid) DefaultRequestKey = Ok fr /\
  forall session path, framed (Keys demo_gateway) (demo_http session fr [] path) (demo_plain sid).
Proof.
  intros Hl. destruct (frame_accepted (demo_plain sid) DefaultRequestKey) as (fr & E & _); [reflexivity|unfold len; lia|].
  exists fr. split; [exact E|]. intros session path. split; [by exists fr|]. unfold len, bodyLimit. lia.
Qed.

Lemma rpc_over_transport_witness :
  let o := run (demo_service (MkReq "sms_getCode" (json_text demo_param) "" "" 0)) (Calls.demo_world ∅) in
  exists fr resp result out, EncodeFrame (demo_plain "") DefaultRequestKey = Ok fr /\ Code resp = 200 /\
    run (encrypted demo_gateway (SmsGetCodeHandler demo_service) no_param (demo_http "" fr [] "/sys/getSmsCode"))
      (Calls.demo_world ∅) = (out, o.2) /\
    DecodeFrame (Payload out) DefaultResponseKey = Ok (client_answer resp 7 result).
Proof.
  intros o. destruct (demo_framed "") as (fr & Ef & Hfr); [vm_compute; lia|].
  destruct o as [[resp|e] w'] eqn:Eo; [|by vm_compute in Eo].
  assert (exists result, answered resp result = true /\ Code resp = 200 /\
    len (client_answer resp 7 result) + 16 < 2 ^ 32) as (result & Ha & Hc & Hl).
  { exists (json_parse (default "" (Result resp))). vm_compute in Eo. injection Eo as <- _. by vm_compute. }
  destruct (rpc_over_transport demo_service demo_gateway "sms_getCode" "" "3" 7 demo_param no_param
    (demo_http "" fr [] "/sys/getSmsCode") resp result (Calls.demo_world ∅) w'
    eq_refl eq_refl eq_refl (Hfr "" _) Eo Ha Hl) as (out & Hrun & _ & Hd).
  exists fr, resp, result, out. exact (conj Ef (conj Hc (conj Hrun Hd))).
Defined.

Lemma undecryptable_rejected_witness : exists out,
  run (encrypted demo_gateway (LoginHandler demo_service) no_param (demo_http "" (bytes_of "{}") [] "/login/login"))
    (Calls.demo_world ∅) = (out, Calls.demo_world ∅) /\
  Status out = 200.
Proof.
  destruct (undecryptable_rejected demo_gateway (LoginHandler demo_service) no_param
    (demo_http "" (bytes_of "{}") [] "/login/login") (Calls.demo_world ∅)) as (out & meg & Hrun & Hs & _).
  - reflexivity.
  - intros body p [= <-]. by vm_compute.
  - exists out. exact (conj Hrun Hs).
Defined.

Lemma envelope_session_ignored_witness : exists fr out,
  EncodeFrame (demo_plain "ab") DefaultRequestKey = Ok fr /\
  run (encrypted demo_gateway (UserDetailHandler demo_service) no_param (demo_http "" fr [] "/user/detail"))
    (Calls.demo_world ∅) = (out, Calls.demo_world ∅) /\
  DecodeFrame (Payload out) DefaultResponseKey =
    Ok (json_bytes (envelope_json 100 "login required" 7 "" None)).
Proof.
  destruct (demo_framed "ab") as (fr & Ef & Hfr); [vm_compute; lia|].
  destruct (envelope_session_ignored UTC Some Calls.demo_svc demo_gateway "ab" "3" 7 demo_param no_param
    (demo_http "" fr [] "/user/detail") (Calls.demo_world ∅) eq_refl eq_refl eq_refl (Hfr "" _) eq_refl)
    as (_ & out & Hrun & Hd).
  exists fr, out. exact (conj Ef (conj Hrun Hd)).
Defined.

Definition ask_captcha (mobile : string) : HttpReq := demo_http "" [] [("mobile", mobile)] "/api/kaptcha".
Definition captcha_form (code : string) : registerReq := MkRegReq 1 "86" "139" 1 "1" "p" "n" "" 2 code 3.
Lemma kaptcha_registers_witness :
  let o := run (KaptchaHandler no_param (ask_captcha "139")) (Calls.demo_world ∅) in
  exists code, Payload o.1 = bytes_of (renderKaptchaSVG code) /\
    (run (check_kaptcha (captcha_form "bbbbb")) o.2).1 = EqualFold (TrimSpace code) "bbbbb".
Proof.
  intros o.
  unshelve epose proof (kaptcha_registers no_param (ask_captcha "139") o.1 (captcha_form "bbbbb") _ (Calls.demo_world ∅)
    o.2 o.2 _ _ (surjective_pairing _) _ eq_refl _ eq_refl (surjective_pairing _) _) as (code & Hp & _ & He & _).
  - constructor.
  - by vm_compute.
  - vm_compute. constructor.
  - by vm_compute.
  - exists code. exact (conj Hp He).
Defined.
Example kaptcha_ex :
  let w1 := (run (KaptchaHandler no_param (ask_captcha "139")) (Calls.demo_world ∅)).2 in
  (run (check_kaptcha (captcha_form "bbbbb")) w1).1 = true /\
  (run (check_kaptcha (captcha_form "")) w1).1 = false.
Proof. by vm_compute. Qed.

Lemma kaptcha_blocks_another_witness :
  let w1 := (run (KaptchaHandler no_param (ask_captcha "cd:139")) (Calls.demo_world ∅)).2 in
  Status (run (KaptchaHandler no_param (ask_captcha "139")) w1).1 = 429.
Proof.
  intros w1. refine (proj1 (kaptcha_blocks_another no_param no_param (ask_captcha "cd:139") (ask_captcha "139") _ _
    (Calls.demo_world ∅) w1 w1 _ _ (surjective_pairing _) _ _ _ _ eq_refl (surjective_pairing _) _)).
  - constructor.
  - by vm_compute.
  - reflexivity.
  - discriminate.
  - vm_compute. constructor.
  - by vm_compute.
Defined.
End Front.
