(* ===== verification/System.v ===== *)
(** * The services together

    What one part promises another over the Redis they share: the session a
    login of the RPC service ([Logic]) returns is the one the chat ([WsChat])
    and the user page recognise, the logout takes it from both, and the user a
    registration stores is one the login accepts.  The chat runs in the gateway
    and the handlers in the RPC service; between the two nothing is assumed but
    that the session's key is left alone. *)

From S2P Require Import Prelude GoStr Codec Json Degrade Semaphore Hub Sql Time Env Observe RateLimit Auth Cache.
From S2P Require Import Models Match Builders WsText WsChat Svc Logic Calls Answers.

Module System.
Import Build Logic.

(** ** Reading a session *)
Section sessions.
Context `{Laws W}.

(** Effects that change neither Redis nor the hub nor the database. *)
Definition looks (X : Type) (e : ev X) : bool :=
  match e with Redis c => read_only c | _ => silent e end.

Lemma looks_handle X (e : ev X) w : looks X e = true -> same_state w (handle e w).2.
Proof. destruct e; cbn [looks]; intros He; try (by apply handle_silent). by apply handle_read. Qed.

Lemma run_looks {A} (p : prog A) w a w' : run p w = (a, w') -> all_ev looks p -> same_state w w'.
Proof.
  intros E Hp. assert (PreOrder same_state) as HP
    by (split; [exact same_state_refl|exact same_state_trans]).
  pose proof (run_all_ev looks same_state looks_handle p w Hp) as Hs. by rewrite E in Hs.
Qed.

Lemma Get_looks st tok : all_ev looks (Session.Get st tok).
Proof. unfold Session.Get. walk_ev. Qed.

Lemma user_info_looks sch u : all_ev looks (BuildUserInfo sch u).
Proof. unfold BuildUserInfo, User.FindUserGrowForValue. walk_ev. Qed.

(** ** The chat's answer to a token *)
Context (h : Ws.Conf).

(** The connection was told [op], in hub state [s], and nothing else. *)
Definition told (c : nat) (op : Z) (s : Chat.Hub) (w w' : W) : Prop :=
  hub_of w' = (Chat.try_send c (Text.encodeBinaryFrame op Ws.empty_object (Ws.respKey h)) s).2 /\ Ws.stored_same w w'.

Lemma run_bind_session c key op w w' : run (Ws.bind_session h c key op) w = (tt, w') -> key <> "" ->
  exists r w1, run (Session.Get (Ws.sessions h) key) w = (r, w1) /\ clock w1 <= clock w' /\
    match r with
    | Ok s => told c op (Chat.on_client c (Chat.with_identity (Session.UID s) (Session.NickName s)
                (Session.Icon s) (Session.IsGuest s)) (hub_of w)) w w'
    | Err _ => Ws.erred h c Text.ErrCodeUnauthorized "invalid session" (hub_of w) w w'
    end.
Proof.
  intros Hrun Hk. unfold Ws.bind_session in Hrun. apply String.eqb_neq in Hk. rewrite Hk in Hrun.
  apply run_bind_inv in Hrun as (r & w1 & Eg & Hrun). exists r, w1. split; [exact Eg|].
  pose proof (run_clock_eq _ _ _ _ Hrun) as Hc. split; [exact Hc|].
  destruct (run_looks _ _ _ _ Eg (Get_looks _ _)) as (Hk1 & Hh1 & Hl1 & _).
  destruct r as [s|e].
  - match type of Hrun with run (hub ?o ≫= ?k) _ = _ =>
      destruct (run_hub o k w1 eq_refl) as (w2 & Hr2 & (Hk2 & _) & Hh2 & Hl2) end.
    rewrite Hr2 in Hrun.
    destruct (Ws.run_sendBinary h c op Ws.empty_object w2) as (w3 & Hr3 & [Hk3 Hl3] & Hh3).
    rewrite Hr3 in Hrun. injection Hrun as <-. cbn [Chat.hub_step snd] in Hh2.
    unfold told, Ws.stored_same. rewrite Hh3, Hh2, Hh1. split; [reflexivity|split; congruence].
  - destruct (Ws.run_sendError h c Text.ErrCodeUnauthorized "invalid session" w1) as (w3 & Hr3 & Hh3 & Hk3 & Hl3).
    rewrite Hr3 in Hrun. injection Hrun as <-. unfold Ws.erred, Ws.stored_same. rewrite Hh3, Hh1.
    split; [reflexivity|split; congruence].
Qed.

(** Who the connection [c] speaks for. *)
Definition identity (c : nat) (w : W) : Z * string * bool * bool :=
  let cl := Ws.client (hub_of w) c in
  (Chat.uid cl, Chat.nickName cl, Chat.isGuest cl, Chat.authenticated cl).

Lemma told_identity c op u nick ic guest s w w' : is_Some (Chat.clients s !! c) ->
  told c op (Chat.on_client c (Chat.with_identity u nick ic guest) s) w w' -> identity c w' = (u, nick, guest, true).
Proof.
  intros [cl Hcl] [Hh _]. unfold identity. rewrite Hh. unfold Chat.try_send.
  set (s1 := Chat.on_client c _ s).
  assert (Ws.client s1 c = Chat.with_identity u nick ic guest cl) as Hid.
  { unfold s1. rewrite Ws.client_on_client, decide_True, Hcl by reflexivity. reflexivity. }
  destruct (Chat.clients s1 !! c) as [cl2|] eqn:E2; [|cbn [snd]; rewrite Hid; reflexivity].
  destruct (_ <? _); cbn [snd]; [|rewrite Hid; reflexivity].
  unfold Ws.client in Hid. rewrite E2 in Hid. cbn [default from_option id] in Hid.
  rewrite Ws.client_on_client, decide_True, E2, Hid by reflexivity. reflexivity.
Qed.
End sessions.

(** ** From the login to the chat and the user page *)
Section doors.
Context `{Laws W} (svc : Svc.ServiceContext) (h : Ws.Conf).

(** Both services talk to the same Redis. *)
Definition shared_store : Prop :=
  Svc.Sessions svc = Session.NewSessionStore true /\ Ws.sessions h = Session.NewSessionStore true.

(** The token a chat login message carries. *)
Definition login_key (body : bytes) : string :=
  Ws.l_key (Ws.decode Ws.login_fields (Ws.MkLogin "" 0 0) body).

(** The message a client logs in with, and what the hub decodes from it. *)
Definition token_message (tok : string) : bytes := Ws.body_text (JObj [("key", JStr tok)]).

Lemma token_message_key tok : valid_utf8 tok = true -> login_key (token_message tok) = tok.
Proof.
  intros Ht. unfold login_key, token_message, Ws.decode, Ws.body_text. rewrite string_of_bytes_of, Unmarshal_text.
  - reflexivity.
  - cbn [json_wf forallb]. rewrite Ht. reflexivity.
Qed.

(** What the database's row and the request hold fits the session's JSON form. *)
Definition storable (u : User.User) (plat : Z) : bool :=
  valid_utf8 (User.NickName u) && valid_utf8 (User.Icon u) && int64_ok (User.UID u) &&
  int64_ok (User.UserType u) && int64_ok plat.

(** What the user page answers to a session that is there. *)
Lemma detail_known sid w s w1 o w2 : Session.IsGuest s = false ->
  run (Session.Get (Svc.Sessions svc) sid) w = (Ok s, w1) -> run (user_detail svc sid) w = (o, w2) ->
  code_of o <> CodeLoginRequired.
Proof.
  intros Hg Eg. unfold user_detail, dbWithSem, db_failed. rewrite run_bind, Eg. cbn [fst snd].
  rewrite Hg. intros Hrun. run_inv; discriminate.
Qed.

Lemma detail_gate inp w o w2 : SessionId inp <> "" -> run (handleUserDetail svc inp) w = (o, w2) ->
  if Degrade.CanServeLevel (mode_of w) Degrade.LevelAuth
  then exists w1, next_state w w1 (keys w) /\ run (user_detail svc (SessionId inp)) w1 = (o, w2)
  else code_of o = CodeRateLimited.
Proof.
  intros Hs Hrun. apply String.eqb_neq in Hs. unfold handleUserDetail, gated in Hrun. rewrite Hs in Hrun.
  apply run_bind_inv in Hrun as (b & w1 & E & Hrun). apply dgr_inv in E as (Hb & _ & Hn & _).
  change (b = Degrade.CanServeLevel (mode_of w) Degrade.LevelAuth) in Hb. rewrite <- Hb. destruct b.
  - exists w1. by split.
  - by run_inv.
Qed.
(** The session [tok] names, its entry untouched from [w] to a later [w']. *)
Definition kept (tok : string) (w w' : W) : Prop :=
  healthy w' /\ clock w <= clock w' /\
  keys w' !! (Session.sessKeyPrefix +:+ tok) = keys w !! (Session.sessKeyPrefix +:+ tok).

Lemma token_utf8 s : Session.sess_ok s = true -> valid_utf8 (Session.AccessToken s) = true.
Proof. unfold Session.sess_ok. rewrite !andb_true_iff. intros Hs. apply Hs. Qed.

(** A login that succeeded, down to the entry it left in Redis. *)
Lemma login_entry (inp : CallReq) (w w1 : W) (o : outcome) : shared_store -> healthy w -> 0 <= clock w ->
  clock w1 < 2 ^ 63 -> run (handleLogin svc inp) w = (o, w1) -> code_of o = CodeOK ->
  exists req u sess info wa wb, parse_body as_loginReq (ParamJson inp) = Some req /\
    run (WithToken (User.FindByPhone (Svc.schema svc) (normalizeCC (l_CountryCode req)) (l_Phone req))) wa = (Ok u, wb) /\ later w wa /\
    Pwd.VerifyPassword (l_Password req) (User.Password u) (User.Salt u) = true /\ User.Status u = 1 /\
    o = success (auth_json (MkAuth (Session.AccessToken sess) (Session.AccessToken sess) (Session.RefreshToken sess)
          info [] (User.Phone u) (Atoi_or_zero (TrimPrefix (User.CountryCode u) "+")) (User.LoginName u))) /\
    (storable u (l_Plat req) = true ->
     (Session.UID sess = User.UID u /\ Session.NickName sess = User.NickName u /\
      Session.Icon sess = User.Icon u /\ Session.IsGuest sess = false) /\
     Session.Unix (clock w) + 1800 <= Session.AccessExpireAt sess /\ Session.AccessToken sess <> "" /\
     valid_utf8 (Session.AccessToken sess) = true /\
     forall w2 r w3, kept (Session.AccessToken sess) w1 w2 ->
       run (Session.Get (Session.NewSessionStore true) (Session.AccessToken sess)) w2 = (r, w3) ->
       Session.Unix (clock w3) <= Session.AccessExpireAt sess -> r = Ok sess).
Proof.
  intros [Hst _] Hh H0' H63 Hrun Hok.
  destruct (Calls.login_ok_inv svc inp w w1 o Hrun Hok)
    as (req & u & sess & info & wa & wb & wc & wd & Hp & _ & _ & Hf & _ & Hv & Hs & Hi & Hb & Ho & Hc & Hhc & Hl & _).
  exists req, u, sess, info, wa, wb. do 6 (split; [assumption|]). intros Hu. unfold storable in Hu.
  rewrite !andb_true_iff in Hu. destruct Hu as [[[[Hn Hic] Hui] Hut] Hpl]. rewrite Hst in Hi.
  destruct (run_looks _ _ _ _ Hb (user_info_looks _ _)) as (Hkb & _ & _ & Hcb).
  destruct (Session.issued_session _ _ _ _ _ _ _ _ (Hhc Hh) ltac:(lia) Hi Hn Hic Hui Hut Hpl ltac:(lia))
    as (Hid & Hsok & Ha & _ & now & t1 & t2 & Hnow & Ht & Eexp & Hks & _).
  assert (Session.Unix (clock w) <= Session.Unix now) as Hun by (apply Session.Unix_mono; lia).
  split_and!; [apply Hid..|lia|exact Ha|apply token_utf8, Hsok|].
  intros w2 r w3 (Hh2 & _ & Hk2) Hg Hle. rewrite <- Hkb, <- Hk2 in Hks.
  exact (proj1 (Session.stored_found sess now t1 w2 r w3 Hh2 Hsok Ha ltac:(lia) ltac:(lia) Eexp Hks Hg Hle)).
Qed.

(** C2. One login, every door: the access token of a successful RPC login, with
    its entry left alone and the half hour not over, makes a chat login bind
    the connection to the very user whose password was checked -- uid, nickname
    and icon of the row, not a guest, authenticated, the success frame queued,
    Redis and the database untouched -- and makes the user page answer anything
    but "login required". *)
Theorem login_opens_doors (inp : CallReq) (w w1 : W) (o : outcome)
    (Hshared : shared_store) (Hup : healthy w) (Hclock : 0 <= clock w /\ clock w1 < 2 ^ 63)
    (Hrun : run (handleLogin svc inp) w = (o, w1)) (Hok : code_of o = CodeOK) :
  exists req u sess info wa wb, parse_body as_loginReq (ParamJson inp) = Some req /\
    run (WithToken (User.FindByPhone (Svc.schema svc) (normalizeCC (l_CountryCode req)) (l_Phone req))) wa = (Ok u, wb) /\ later w wa /\
    Pwd.VerifyPassword (l_Password req) (User.Password u) (User.Salt u) = true /\ User.Status u = 1 /\
    o = success (auth_json (MkAuth (Session.AccessToken sess) (Session.AccessToken sess) (Session.RefreshToken sess)
          info [] (User.Phone u) (Atoi_or_zero (TrimPrefix (User.CountryCode u) "+")) (User.LoginName u))) /\
    (storable u (l_Plat req) = true ->
     Session.Unix (clock w) + 1800 <= Session.AccessExpireAt sess /\
     login_key (token_message (Session.AccessToken sess)) = Session.AccessToken sess /\
     forall w2 w3, kept (Session.AccessToken sess) w1 w2 -> Session.Unix (clock w3) <= Session.AccessExpireAt sess ->
       (forall c body, login_key body = Session.AccessToken sess ->
          run (Ws.handleLogin h c body) w2 = (tt, w3) ->
          told h c Text.OpLoginSuccess (Chat.on_client c (Chat.with_identity (User.UID u) (User.NickName u)
            (User.Icon u) false) (hub_of w2)) w2 w3 /\
          (is_Some (Chat.clients (hub_of w2) !! c) -> identity c w3 = (User.UID u, User.NickName u, false, true))) /\
       (forall inp2 o2, SessionId inp2 = Session.AccessToken sess ->
          run (handleUserDetail svc inp2) w2 = (o2, w3) -> code_of o2 <> CodeLoginRequired)).
Proof.
  destruct (login_entry inp w w1 o Hshared Hup (proj1 Hclock) (proj2 Hclock) Hrun Hok)
    as (req & u & sess & info & wa & wb & Hp & Hf & Hl & Hv & Hs & Ho & Hdoor).
  exists req, u, sess, info, wa, wb. do 6 (split; [assumption|]). intros Hu.
  destruct (Hdoor Hu) as ((Eu & En & Ei & Eg) & Hexp & Hne & Hutf & Hget). split; [exact Hexp|].
  split; [exact (token_message_key _ Hutf)|].
  destruct Hshared as [Hst Hhub]. intros w2 w3 Hkept Hle. split.
  - intros c body Hkey Hlogin. unfold Ws.handleLogin in Hlogin. fold (login_key body) in Hlogin.
    rewrite Hkey in Hlogin.
    destruct (run_bind_session h c _ _ w2 w3 Hlogin Hne) as (r & v & Hg & Hc & Htold). rewrite Hhub in Hg.
    rewrite (Hget w2 r v Hkept Hg) in Htold by (etrans; [by apply Session.Unix_mono|exact Hle]).
    rewrite Eu, En, Ei, Eg in Htold. split; [exact Htold|]. intros Hc2. exact (told_identity h _ _ _ _ _ _ _ _ _ Hc2 Htold).
  - intros inp2 o2 Hsid Hdet. apply detail_gate in Hdet; [|by rewrite Hsid].
    destruct (Degrade.CanServeLevel _ _); [|rewrite Hdet; discriminate].
    destruct Hdet as (v & (Hkv & Htv & Hhv) & Hdet). rewrite Hsid in Hdet.
    destruct (run (Session.Get (Svc.Sessions svc) (Session.AccessToken sess)) v) as [r v2] eqn:Eget.
    assert (clock v2 <= clock w3) as Hv2.
    { unfold user_detail in Hdet. apply run_bind_inv in Hdet as (r' & v' & Eget' & Hdet).
      rewrite Eget in Eget'. injection Eget' as <- <-. exact (run_clock_eq _ _ _ _ Hdet). }
    assert (kept (Session.AccessToken sess) w1 v) as Hkv1.
    { destruct Hkept as (Hh2 & Ht2 & Hk2). split_and!; [exact (Hhv Hh2)|lia|by rewrite Hkv]. }
    rewrite Hst in Eget. pose proof Eget as Eget2.
    apply (Hget v r v2 Hkv1) in Eget; [|etrans; [by apply Session.Unix_mono|exact Hle]]. subst r.
    rewrite <- Hst in Eget2. exact (detail_known _ _ _ _ _ _ Eg Eget2 Hdet).
Qed.

(** The logout of a session: whatever the rest, the token is revoked. *)
Lemma logout_inv (inp : CallReq) (w w1 : W) (o : outcome) : SessionId inp <> "" ->
  Degrade.CanServeLevel (mode_of w) Degrade.LevelAuth = true -> run (handleLogout svc inp) w = (o, w1) ->
  o = success empty_json /\
  exists v e, next_state w v (keys w) /\ hub_of v = hub_of w /\ 
    run (Session.Revoke (Svc.Sessions svc) (SessionId inp)) v = (e, w1).
Proof.
  intros Hs Hg Hrun. apply String.eqb_neq in Hs. unfold handleLogout, gated in Hrun.
  apply run_bind_inv in Hrun as (b & v & E & Hrun). pose proof E as E'. apply dgr_inv in E' as (Hb & _ & Hn & _).
  change (b = Degrade.CanServeLevel (mode_of w) Degrade.LevelAuth) in Hb. rewrite Hg in Hb. subst b.
  rewrite Hs in Hrun. apply run_bind_inv in Hrun as (e & v2 & Er & Hrun). rewrite run_ret in Hrun.
  injection Hrun as <- <-. split; [reflexivity|]. exists v, e. split; [exact Hn|]. split; [|exact Er].
  unfold dgr in E. rewrite run_vis in E. cbn [run] in E. injection E as _ <-. by apply hub_kept.
Qed.

(** Programs of the RPC service never reach the chat's hub. *)
Definition off_hub (X : Type) (e : ev X) : bool := negb (is_hub e).

Lemma run_off_hub {A} (p : prog A) w a w' : run p w = (a, w') -> all_ev off_hub p -> hub_of w' = hub_of w.
Proof.
  intros E Hp. assert (PreOrder (fun w w' : W => hub_of w' = hub_of w)) as HP by (split; repeat intro; congruence).
  pose proof (run_all_ev off_hub (fun w w' : W => hub_of w' = hub_of w)) as Hr.
  specialize (Hr ltac:(intros X e w0 He; apply hub_kept; by apply negb_true_iff) _ p w Hp). by rewrite E in Hr.
Qed.

Lemma Revoke_off_hub st tok : all_ev off_hub (Session.Revoke st tok).
Proof. unfold Session.Revoke, Session.Get, Session.revoke. walk_ev. Qed.

(** The token a resume message carries. *)
Definition resume_key (body : bytes) : string := Ws.decode Ws.key_field "" body.

(** What a refused resume is told: a connection that never logged in is sent
    back to the login, another one is told about the session. *)
Definition resume_refusal (c : nat) (s : Chat.Hub) : string :=
  match Chat.clients s !! c with
  | Some cl => if Chat.authenticated cl then "invalid session" else "login required"
  | None => "login required"
  end.

(** A resume reads the connection, then binds or refuses. *)
Lemma resume_refused c body tok w1 w2 w3 : resume_key body = tok -> kept tok w1 w2 ->
  (forall c op w2 w3, kept tok w1 w2 -> run (Ws.bind_session h c tok op) w2 = (tt, w3) ->
     Ws.erred h c Text.ErrCodeUnauthorized "invalid session" (hub_of w2) w2 w3) ->
  run (Ws.handleSessionResume h c body) w2 = (tt, w3) ->
  Ws.erred h c Text.ErrCodeUnauthorized (resume_refusal c (hub_of w2)) (hub_of w2) w2 w3.
Proof.
  intros Hkey (Hh2 & Ht2 & Hk2) Hbind Hl. unfold Ws.handleSessionResume in Hl. fold (resume_key body) in Hl.
  rewrite Hkey in Hl.
  match type of Hl with run (hub ?o ≫= ?k) _ = _ =>
    destruct (run_hub o k w2 eq_refl) as (v & Hr & (Hkv & Htv & Hhv) & Hhub & Hlog) end.
  rewrite Hr in Hl. cbn [Chat.hub_step fst snd] in Hl, Hhub.
  assert (resume_refusal c (hub_of w2) =
    if Chat.authenticated (default (Chat.new_client "") (Chat.clients (hub_of w2) !! c))
    then "invalid session" else "login required") as ->
    by (unfold resume_refusal; by destruct (Chat.clients (hub_of w2) !! c)).
  destruct (Chat.authenticated _); cbn [negb] in Hl; cycle 1.
  - destruct (Ws.run_sendError h c Text.ErrCodeUnauthorized "login required" v) as (w' & Hr' & He & Hst).
    rewrite Hr' in Hl. injection Hl as <-. rewrite Hhub in He.
    split; [exact He|]. destruct Hst as [Hst1 Hst2]. split; congruence.
  - destruct (Hbind c _ v w3 ltac:(split_and!; [exact (Hhv Hh2)|lia|by rewrite Hkv]) Hl) as (He & Hst1 & Hst2).
    rewrite Hhub in He. split; [exact He|]. split; congruence.
Qed.

(** C7. One logout, every door: once handleLogout has answered for a session
    (Redis up, the level open; it always answers 200), no later chat login, chat resume
    or user page accepts its token while nobody writes its entry again: a
    chat login is sent the error "invalid session"; a chat resume is sent
    "invalid session" too on a connection that had logged in, and
    "login required" on one that had not; neither changes the connection in
    any other way; the user page answers that a login is required (or that
    the level is closed).  The
    connections already bound to the session are not touched: the hub is as
    it was, and they go on speaking. *)
Theorem logout_closes_doors (inp : CallReq) (w w1 : W) (o : outcome)
    (Hshared : shared_store) (Hup : healthy w) (Hsid : SessionId inp <> "")
    (Hopen : Degrade.CanServeLevel (mode_of w) Degrade.LevelAuth = true)
    (Hrun : run (handleLogout svc inp) w = (o, w1)) :
  o = success empty_json /\ hub_of w1 = hub_of w /\
  forall w2 w3, kept (SessionId inp) w1 w2 ->
    (forall c body, login_key body = SessionId inp -> run (Ws.handleLogin h c body) w2 = (tt, w3) ->
       Ws.erred h c Text.ErrCodeUnauthorized "invalid session" (hub_of w2) w2 w3) /\
    (forall c body, resume_key body = SessionId inp -> run (Ws.handleSessionResume h c body) w2 = (tt, w3) ->
       Ws.erred h c Text.ErrCodeUnauthorized (resume_refusal c (hub_of w2)) (hub_of w2) w2 w3) /\
    (forall inp2 o2, SessionId inp2 = SessionId inp -> run (handleUserDetail svc inp2) w2 = (o2, w3) ->
       code_of o2 = if Degrade.CanServeLevel (mode_of w2) Degrade.LevelAuth
                    then CodeLoginRequired else CodeRateLimited).
Proof.
  destruct (logout_inv inp w w1 o Hsid Hopen Hrun) as (-> & v & e & (Hkv & Htv & Hhv) & Hhub1 & Hrev).
  split; [reflexivity|]. split.
  { rewrite <- Hhub1. exact (run_off_hub _ _ _ _ Hrev (Revoke_off_hub _ _)). }
  destruct Hshared as [Hst Hhub]. rewrite Hst in Hrev.
  assert (forall w2 r w3, kept (SessionId inp) w1 w2 ->
    run (Session.Get (Session.NewSessionStore true) (SessionId inp)) w2 = (r, w3) ->
    r = Err Session.ErrSessionNotFound) as Hgone.
  { intros w2 r w3 (Hh2 & Ht2 & Hk2) Hg.
    destruct (Session.Revoke_gone (Session.NewSessionStore true) _ _ _ _ w2 eq_refl (Hhv Hup) Hrev Hh2 Ht2 Hk2) as [_ Hno].
    by rewrite Hg in Hno. }
  assert (forall c op w2 w3, kept (SessionId inp) w1 w2 ->
    run (Ws.bind_session h c (SessionId inp) op) w2 = (tt, w3) ->
    Ws.erred h c Text.ErrCodeUnauthorized "invalid session" (hub_of w2) w2 w3) as Hbind.
  { intros c op w2 w3 Hkept Hb. destruct (run_bind_session h c _ _ w2 w3 Hb Hsid) as (r & u & Hg & _ & Hr).
    rewrite Hhub in Hg. by rewrite (Hgone w2 r u Hkept Hg) in Hr. }
  intros w2 w3 Hkept. split_and!.
  - intros c body Hkey Hl. unfold Ws.handleLogin in Hl. fold (login_key body) in Hl. rewrite Hkey in Hl.
    exact (Hbind c _ w2 w3 Hkept Hl).
  - intros c body Hkey Hl. exact (resume_refused c body _ w1 w2 w3 Hkey Hkept (fun c op => Hbind c op) Hl).
  - intros inp2 o2 Hs2 Hdet. apply detail_gate in Hdet; [|by rewrite Hs2].
    destruct (Degrade.CanServeLevel (mode_of w2) Degrade.LevelAuth); [|exact Hdet].
    destruct Hdet as (u & (Hku & Htu & Hhu) & Hdet). rewrite Hs2 in Hdet. unfold user_detail in Hdet.
    apply run_bind_inv in Hdet as (r & u2 & Hg & Hdet). rewrite Hst in Hg.
    apply Hgone in Hg; [|destruct Hkept as (Hh2 & Ht2 & Hk2); split_and!; [exact (Hhu Hh2)|lia|by rewrite Hku]].
    subst r. by run_inv.
Qed.
End doors.

(** ** From the registration to the login *)
Section newcomer.
Context `{Laws W} (svc : Svc.ServiceContext).
Let sch := Svc.schema svc.

Lemma any_ev {A} (p : prog A) : all_ev (fun _ _ => true) p.
Proof. induction p; cbn [all_ev]; auto. Qed.

Lemma log_grows {A} (p : prog A) w a w' : run p w = (a, w') -> sql_log w `prefix_of` sql_log w'.
Proof.
  intros E. assert (PreOrder (fun v v' : W => sql_log v `prefix_of` sql_log v')) as HP
    by (split; repeat intro; [reflexivity|by etrans]).
  pose proof (run_all_ev (fun _ _ => true) (fun v v' : W => sql_log v `prefix_of` sql_log v')) as Hr.
  specialize (Hr ltac:(intros X e v _; destruct (is_exec e) eqn:Ee;
    [destruct e; try discriminate Ee; rewrite exec_law; by eexists|by rewrite log_kept]) _ p w (any_ev p)).
  by rewrite E in Hr.
Qed.

(** A row the columns can hold. *)
Definition row_fits (u : User.User) : bool :=
  forallb (Sql.fits 64) [User.UID u; User.Score u; User.Grow u; User.CreatedAt u; User.UpdatedAt u] &&
  forallb (Sql.fits 32) [User.PwdType u; User.UserType u; User.Status u; User.Gender u; User.Plat u].

(** The row an INSERT binds is scanned back to the user it was bound from. *)
Lemma scan_inserted u : row_fits u = true ->
  Sql.scan_one User.scanUser (Ok (Sql.Answer [User.insert_args u] None None)) = Ok u.
Proof.
  unfold row_fits. cbn [forallb]. rewrite !andb_true_iff. intros Hu. decompose [and] Hu. clear Hu.
  destruct u as [uid ln nn ph cc pw salt pt ut sc gr st ic ge bd pl ca ua].
  cbn [User.UID User.Score User.Grow User.CreatedAt User.UpdatedAt User.PwdType User.UserType User.Status
    User.Gender User.Plat] in *.
  unfold Sql.scan_one, Sql.scan_row, User.scanUser, User.insert_args.
  cbv [mbind mret Sql.scan_bind Sql.scan_ret Sql.column Sql.int64_col Sql.int32_col Sql.str_col Sql.null_time_col
    Sql.to_int Sql.to_str Sql.nullable Sql.to_time res_bind res_ret].
  cbn [User.UID User.Score User.Grow User.CreatedAt User.UpdatedAt User.PwdType User.UserType User.Status
    User.Gender User.Plat User.LoginName User.NickName User.Phone User.CountryCode User.Password User.Salt
    User.Icon User.Birthday].
  destruct bd; repeat match goal with E : Sql.fits _ _ = true |- _ => rewrite E; cbn [andb] end; reflexivity.
Qed.

Lemma WithToken_inv {A} (f : prog (res A)) w r w' : run (WithToken f) w = (r, w') ->
  (exists e, (handle SemAcquire w).1 = Some e /\ r = Err e /\ w' = (handle SemAcquire w).2) \/
  (exists v', run f (handle SemAcquire w).2 = (r, v') /\ w' = (handle SemRelease v').2).
Proof.
  unfold WithToken. rewrite run_bind. unfold sem_acquire. rewrite run_vis. cbn [run fst snd].
  destruct (handle SemAcquire w) as [[e|] w1]; cbn [fst snd].
  - rewrite run_ret. intros [= <- <-]. left. by exists e.
  - rewrite run_bind. destruct (run f w1) as [r1 v']. cbn [fst snd]. rewrite run_bind. unfold sem_release.
    rewrite run_vis. cbn [run fst snd]. rewrite run_ret. intros [= <- <-]. right. by exists v'.
Qed.

(** What create_user has done when it gives a user. *)
Lemma create_user_ok req cc w u w' : run (create_user svc req cc) w = (Ok u, w') ->
  exists uid stored salt va vb now, run (Pwd.HashPassword (g_Password req)) va = (Ok (stored, salt), vb) /\
    u = User.with_times (now / Second) (now / Second) (new_user req cc uid stored salt) /\
    clock w <= now <= clock w' /\ (User.insert_sql sch, User.insert_args u) ∈ sql_log w'.
Proof.
  unfold create_user, User.Insert. intros Hrun. run_inv; try discriminate. chain_worlds.
  match goal with E : run now _ = (?t, _), Eh : run (Pwd.HashPassword _) ?va = (_, ?vb) |- _ =>
    destruct (Observe.now_run _ _ _ E) as [-> _];
    eexists _, _, _, va, vb, _; split; [exact Eh|split; [reflexivity|split; [lia|]]] end.
  match goal with E : run (sql_exec _ _) _ = _ |- _ =>
    unfold sql_exec in E; rewrite run_vis in E; injection E as _ <- end.
  rewrite exec_law. apply elem_of_app. right. left.
Qed.

(** What a registration that answers 200, and not from the memory of an
    earlier one, has done. *)
Lemma register_ok_inv (inp : CallReq) (req : registerReq) (w w1 : W) (o : outcome) :
  parse_body as_registerReq (ParamJson inp) = Some req -> healthy w ->
  keys w !! idemKey (normalizeCC (g_CountryCode req)) (g_Phone req) = None ->
  run (handleRegister svc inp) w = (o, w1) -> code_of o = CodeOK ->
  register_gate req = None /\
  exists u va vb, run (create_user svc req (normalizeCC (g_CountryCode req))) va = (Ok u, vb) /\
    clock w <= clock va /\ clock vb <= clock w1 /\ sql_log vb `prefix_of` sql_log w1.
Proof.
  intros Hreq Hh Hnew Hrun Hok. unfold handleRegister, gated in Hrun. rewrite Hreq in Hrun.
  destruct (register_gate req) as [o1|] eqn:Eg.
  { rewrite run_ret in Hrun. injection Hrun as -> _. revert Eg. unfold register_gate.
    repeat case_match; intros [= <-]; discriminate Hok. }
  split; [reflexivity|]. apply run_bind_inv in Hrun as (b & v & E & Hrun).
  pose proof (run_clock_eq _ _ _ _ E) as Hcv. apply dgr_inv in E as (_ & _ & (Hkv & _ & Hhv) & _).
  destruct b; [|run_inv; discriminate Hok]. unfold register_checks in Hrun.
  apply run_bind_inv in Hrun as (cached & v1 & E & Hrun). pose proof (run_clock_eq _ _ _ _ E) as Hcv1.
  apply redis_inv in E as (Hs & _ & _); [|exact (Hhv Hh)|reflexivity].
  cbn [redis_step] in Hs. unfold find in Hs. rewrite Hkv, Hnew in Hs. cbn [mbind option_bind] in Hs.
  injection Hs as <- _.
  apply run_bind_inv in Hrun as (ok & v2 & E2 & Hrun). destruct ok; cbn [negb] in Hrun; [|run_inv; discriminate Hok].
  apply run_bind_inv in Hrun as (ok & v3 & E3 & Hrun). destruct ok; cbn [negb] in Hrun; [|run_inv; discriminate Hok].
  unfold register_create in Hrun. apply run_bind_inv in Hrun as ([u|e] & v4 & E4 & Hrun).
  2:{ unfold db_failed in Hrun. run_inv; discriminate Hok. }
  pose proof (log_grows _ _ _ _ Hrun) as Hlog. pose proof (run_clock_eq _ _ _ _ Hrun) as Hc4.
  pose proof (run_clock_eq _ _ _ _ E2). pose proof (run_clock_eq _ _ _ _ E3).
  destruct (WithToken_inv _ _ _ _ E4) as [(e & _ & [=] & _)|(vb & Ec & ->)].
  exists u, (handle SemAcquire v3).2, vb. split; [exact Ec|].
  pose proof (run_clock (Vis SemAcquire Ret) v3) as Ha. pose proof (run_clock (Vis SemRelease Ret) vb) as Hr.
  rewrite run_vis in Ha. rewrite run_vis in Hr. cbn [run snd] in Ha, Hr. split_and!; [lia..|].
  etrans; [|exact Hlog]. rewrite log_kept by reflexivity. reflexivity.
Qed.

(** A login with a password, as the client composes it. *)
Definition password_login (req : loginReq) : bool :=
  negb (l_AccountType req =? 0) && (l_LoginMode req =? 1) && (l_LoginType req =? 1) &&
  (l_PwdType req =? Pwd.PwdTypeMD5).

(** The login went through, or was held up for a reason that has nothing to do
    with the account: the limit, the lock, a busy database, the session store. *)
Definition let_in (o : outcome) : Prop :=
  code_of o = CodeOK \/ code_of o = CodeRateLimited \/ code_of o = CodeLoginLocked \/
  o = fail CodeBusinessError busy \/ exists e, o = fail CodeBusinessError ("issue session: " +:+ Error e).

Definition phone_sql : string :=
  "SELECT " +:+ User.userCols +:+ " FROM " +:+ Tbl sch "user" +:+ " WHERE country_code=? AND phone=?".

(** A database that has the user's row, whatever else happens. *)
Record keeps_row (u : User.User) (Stored : W -> Prop) : Prop := {
  row_stays : forall X (e : ev X) v, Stored v -> Stored (handle e v).2;
  row_read : forall v, Stored v ->
    (handle (SqlQuery phone_sql [Sql.SText (User.CountryCode u); Sql.SText (User.Phone u)]) v).1
    = Ok (Sql.Answer [User.insert_args u] None None);
  row_token : forall v e, Stored v -> (handle SemAcquire v).1 = Some e -> ctx_done e = true;
}.

Lemma stored_run {A} u Stored (p : prog A) v a v' : keeps_row u Stored -> run p v = (a, v') -> Stored v -> Stored v'.
Proof. intros HS E. apply later_kept; [exact (row_stays _ _ HS)|exact (run_later _ _ _ _ E)]. Qed.

Lemma find_stored u Stored v r v' : keeps_row u Stored -> row_fits u = true -> Stored v ->
  run (User.FindByPhone sch (User.CountryCode u) (User.Phone u)) v = (r, v') -> r = Ok u.
Proof.
  intros HS Hfit Hv. unfold User.FindByPhone. fold phone_sql. unfold sql_query.
  match goal with |- run (Vis ?e Ret ≫= ?k) v = _ -> _ => change (Vis e Ret ≫= k) with (Vis e k) end.
  rewrite run_vis, (row_read _ _ HS v Hv), run_ret, scan_inserted by exact Hfit. by intros [= <- _].
Qed.

(** With the right password and a row in order, login_with lets in. *)
Lemma login_with_let_in cc req u w o w' : User.PwdType u = Pwd.PwdTypeMD5 -> User.Status u = 1 ->
  Pwd.VerifyPassword (l_Password req) (User.Password u) (User.Salt u) = true ->
  run (login_with svc cc req u) w = (o, w') -> let_in o.
Proof.
  intros Ht Hs Hp. unfold login_with. rewrite Ht, Hs, Hp. change (negb (Pwd.PwdTypeMD5 =? Pwd.PwdTypeMD5)) with false.
  change (negb (1 =? 1)) with false. cbn [orb negb]. intros Hrun. run_inv.
  - by left.
  - do 4 right. by eexists.
Qed.

Lemma login_let_in (inp : CallReq) (req : loginReq) u Stored w o w' :
  keeps_row u Stored -> row_fits u = true -> Stored w -> parse_body as_loginReq (ParamJson inp) = Some req ->
  login_gate req = None -> normalizeCC (l_CountryCode req) = User.CountryCode u -> l_Phone req = User.Phone u ->
  User.PwdType u = Pwd.PwdTypeMD5 -> User.Status u = 1 ->
  Pwd.VerifyPassword (l_Password req) (User.Password u) (User.Salt u) = true ->
  run (handleLogin svc inp) w = (o, w') -> let_in o.
Proof.
  intros HS Hfit Hw Hreq Hgate Hcc Hph Ht Hst Hpw. unfold handleLogin, gated, login_limits. rewrite Hreq, Hgate, Hcc.
  intros Hrun. apply run_bind_inv in Hrun as (b & v & E & Hrun). pose proof (stored_run _ _ _ _ _ _ HS E Hw) as Hv.
  destruct b; [|run_inv; right; by left].
  apply run_bind_inv in Hrun as (ok & v1 & E1 & Hrun). pose proof (stored_run _ _ _ _ _ _ HS E1 Hv) as Hv1.
  destruct ok; cbn [negb] in Hrun; [|run_inv; right; by left].
  apply run_bind_inv in Hrun as (locked & v2 & E2 & Hrun). pose proof (stored_run _ _ _ _ _ _ HS E2 Hv1) as Hv2.
  assert (run (login_lookup svc (User.CountryCode u) req) v2 = (o, w') -> let_in o) as Hgo.
  { unfold login_lookup, db_failed. intros Hl. apply run_bind_inv in Hl as (r & v3 & E3 & Hl). rewrite Hph in E3.
    destruct (WithToken_inv _ _ _ _ E3) as [(e & He & -> & _)|(v' & Ef & _)].
    - rewrite (row_token _ _ HS v2 e Hv2 He) in Hl. cbn [negb andb] in Hl. run_inv; do 3 right; by left.
    - apply (find_stored u Stored _ _ _ HS Hfit (row_stays _ _ HS _ _ _ Hv2)) in Ef. subst r.
      exact (login_with_let_in _ _ _ _ _ _ Ht Hst Hpw Hl). }
  destruct locked as [[|a s]|e]; [exact (Hgo Hrun)| |exact (Hgo Hrun)]. run_inv. do 2 right. by left.
Qed.

(** A new user's row fits the columns. *)
Lemma new_row_fits req cc uid stored salt now u :
  u = User.with_times (now / Second) (now / Second) (new_user req cc uid stored salt) ->
  int64_ok (User.UID u) = true -> 0 <= now < 2 ^ 63 -> row_fits u = true.
Proof.
  intros -> Huid Hnow. unfold row_fits.
  cbn [User.with_times new_user User.UID User.Score User.Grow User.CreatedAt User.UpdatedAt User.PwdType
    User.UserType User.Status User.Gender User.Plat forallb] in *.
  assert (Sql.fits 64 (now / Second) = true) as ->.
  { unfold Sql.fits, Second. pose proof (Z.div_pos now 1000000000 ltac:(lia) ltac:(lia)).
    pose proof (Z.div_lt_upper_bound now 1000000000 (2 ^ 63) ltac:(lia) ltac:(lia)).
    change (64 - 1) with 63. apply andb_true_iff. rewrite Z.leb_le, Z.ltb_lt. lia. }
  assert (Sql.fits 32 (wraps 32 (g_Plat req)) = true) as ->
    by (unfold Sql.fits; apply andb_true_iff; rewrite Z.leb_le, Z.ltb_lt; apply wraps_range; lia).
  change (Sql.fits 64 uid) with (int64_ok uid). by rewrite Huid.
Qed.

(** The login's gate passes the phone the registration's gate passed. *)
Lemma gates_agree (r : registerReq) (l : loginReq) : register_gate r = None -> password_login l = true ->
  normalizeCC (l_CountryCode l) = normalizeCC (g_CountryCode r) -> l_Phone l = g_Phone r -> login_gate l = None.
Proof.
  unfold register_gate, login_gate, password_login. intros Hr Hl Hcc Hph. rewrite Hcc, Hph.
  rewrite !andb_true_iff in Hl. destruct Hl as [[[Ha Hm] Ht] Hp]. apply negb_true_iff in Ha.
  rewrite Ha, Hm, Ht, Hp. cbn [negb orb].
  destruct (_ || _ || _ || _) eqn:E in Hr; [discriminate Hr|]. rewrite !orb_false_iff in E.
  destruct E as [[[_ Eph] _] _]. rewrite Eph. destruct (_ <? 2); [discriminate Hr|].
  by destruct (validatePhone _ _); cbn [negb] in *.
Qed.

(** C4. Whoever registers can log in: a registration that answers 200 (and not
    from the memory of an earlier one) has inserted a row with the phone, the
    nickname and the normalised country code of the request; and in a database
    that has that row, read through the very columns it was bound to, every
    password login with the phone, the code and the password of the
    registration is let in -- it is never told that the account is unknown, the
    password wrong, the user banned or the phone malformed. *)
Theorem registered_logs_in (inp : CallReq) (req : registerReq) (w w1 : W) (o : outcome)
    (Hreq : parse_body as_registerReq (ParamJson inp) = Some req) (Hup : healthy w)
    (Hclock : 0 <= clock w /\ clock w1 < 2 ^ 63)
    (Hnew : keys w !! idemKey (normalizeCC (g_CountryCode req)) (g_Phone req) = None)
    (Hrun : run (handleRegister svc inp) w = (o, w1)) (Hok : code_of o = CodeOK) :
  exists u, (User.insert_sql sch, User.insert_args u) ∈ sql_log w1 /\
    User.Phone u = g_Phone req /\ User.CountryCode u = normalizeCC (g_CountryCode req) /\
    User.NickName u = g_NickName req /\ User.Status u = 1 /\
    (int64_ok (User.UID u) = true ->
     forall (Stored : W -> Prop) inp2 lreq w2 o2 w3, keeps_row u Stored -> Stored w2 ->
       parse_body as_loginReq (ParamJson inp2) = Some lreq -> password_login lreq = true ->
       normalizeCC (l_CountryCode lreq) = normalizeCC (g_CountryCode req) ->
       l_Phone lreq = g_Phone req -> l_Password lreq = g_Password req ->
       run (handleLogin svc inp2) w2 = (o2, w3) -> let_in o2).
Proof.
  destruct (register_ok_inv inp req w w1 o Hreq Hup Hnew Hrun Hok) as (Hgate & u & va & vb & Hc & Hta & Htb & Hlog).
  destruct (create_user_ok _ _ _ _ _ Hc) as (uid & stored & salt & vc & vd & now & Hh & Hu & Hnow & Hin).
  exists u. split; [exact (elem_of_prefix _ _ _ Hin Hlog)|]. do 4 (split; [by subst u|]).
  intros Huid Stored inp2 lreq w2 o2 w3 HS Hw2 Hl Hpl Hcc Hph Hpw Hlogin.
  pose proof (Pwd.HashPassword_verifies (g_Password req) vc) as Hv. rewrite Hh in Hv. cbn [fst] in Hv.
  destruct Hv as (_ & _ & _ & Hv & _).
  refine (login_let_in inp2 lreq u Stored w2 o2 w3 HS _ Hw2 Hl (gates_agree _ _ Hgate Hpl Hcc Hph) _ _ _ _ _ Hlogin);
    try (by subst u).
  - apply new_row_fits with (1 := Hu); [exact Huid|lia].
  - rewrite Hpw. by subst u.
Qed.
End newcomer.

(** ** One number, many spellings

    The phone is validated, and the SMS code filed, without the white space
    around it; the limits and the database use it as it was sent. *)

Fixpoint pad (n : nat) (phone : string) : string :=
  match n with O => phone | S n => String " " (pad n phone) end.

Lemma chunks_space l : chunks (Byte.x20 :: l) = (32, [Byte.x20]) :: chunks l.
Proof. reflexivity. Qed.

Lemma TrimSpace_pad n phone : TrimSpace (pad n phone) = TrimSpace phone.
Proof.
  induction n as [|n IH]; [reflexivity|]. rewrite <- IH. unfold TrimSpace. cbn [pad].
  change (bytes_of (String " " (pad n phone))) with (Byte.x20 :: bytes_of (pad n phone)). rewrite chunks_space.
  reflexivity.
Qed.

Lemma length_pad n phone : String.length (pad n phone) = (n + String.length phone)%nat.
Proof. induction n as [|n IH]; [reflexivity|]. cbn [pad String.length]. by rewrite IH. Qed.

(** The cooldown and the hourly limit of SMS codes are per spelling: a phone
    with spaces before it is valid when the phone is, its codes are filed under
    the same key, and yet its two limits are counted under keys of its own. *)
Theorem many_spellings (cc phone : string) (n m : nat) (ty : Z) :
  validatePhone cc (pad n phone) = validatePhone cc phone /\
  Sms.key cc (pad n phone) ty = Sms.key cc phone ty /\
  (cooldownKey cc (pad n phone) = cooldownKey cc (pad m phone) <-> n = m) /\
  (hourKey cc (pad n phone) = hourKey cc (pad m phone) <-> n = m).
Proof.
  unfold validatePhone, Sms.key, cooldownKey, hourKey. rewrite !TrimSpace_pad. split_and!; [reflexivity..| |];
    (split; [|by intros ->]); intros E; apply (f_equal String.length) in E;
    rewrite !append_length in E; cbn [String.length] in E; rewrite ?append_length, !length_pad in E; lia.
Qed.

(** The gates take one kind of password only, MD5 of the plain one; README.md
    and docs/API.md name the other kind the default. *)
Theorem only_pwd_type_2 (l : loginReq) (r : registerReq) :
  (login_gate l = None -> l_PwdType l = Pwd.PwdTypeMD5) /\ (register_gate r = None -> g_PwdType r = Pwd.PwdTypeMD5).
Proof.
  unfold login_gate, register_gate. split; intros E.
  - destruct (_ || _ || _ || _) in E; [discriminate E|]. destruct (l_PwdType l =? Pwd.PwdTypeMD5) eqn:Ep; [lia|discriminate E].
  - destruct (g_PwdType r =? Pwd.PwdTypeMD5) eqn:Ep; [lia|]. cbn [negb] in E. rewrite orb_true_r in E. discriminate E.
Qed.

(** ** Concrete runs *)

(** The chat of [Ws.chat_conf] over the Redis of [Calls.demo_svc]. *)
Definition demo_chat : Ws.Conf := Ws.chat_conf.
Definition demo_start (m : kv) : MiniWorld := set_hub Ws.quiet_hub (Calls.demo_world m).

Lemma demo_shared : shared_store Calls.demo_svc demo_chat.
Proof. split; reflexivity. Qed.

(** Effects take no time, and the database answers the same throughout. *)
Definition frozen (t : Z) (db : string -> list Sql.sqlval -> res Sql.answer) (w : MiniWorld) : Prop :=
  m_lapse w = 0 /\ m_clock w = t /\ s_db (m_side w) = db.

Lemma mini_frozen t db X (e : ev X) w : frozen t db w -> frozen t db (handle e w).2.
Proof.
  unfold frozen. intros (Hl & <- & <-). unfold handle, mini_world, mini_handle, m_tick. rewrite Hl.
  destruct e; repeat case_match; (split_and!; [exact Hl|cbn; lia|reflexivity]).
Qed.

Lemma run_frozen {A} t db (p : prog A) w a w' : frozen t db w -> run p w = (a, w') -> frozen t db w'.
Proof. intros Hw E. exact (later_kept _ _ _ (mini_frozen t db) (run_later _ _ _ _ E) Hw). Qed.

Lemma mini_query q args (w : MiniWorld) : (handle (SqlQuery q args) w).1 = s_db (m_side w) q args.
Proof. reflexivity. Qed.

(** The row the demonstration database gives for the phone. *)
Lemma demo_found t wa wb u : frozen t Calls.demo_db wa ->
  run (WithToken (User.FindByPhone initial_schema "86" "13800138000")) wa = (Ok u, wb) ->
  storable u 3 = true /\ User.UID u = 7 /\ User.NickName u = "nick".
Proof.
  intros Hw Hrun. destruct (WithToken_inv _ _ _ _ Hrun) as [(e & _ & [=] & _)|(v & Hf & _)].
  destruct (mini_frozen t Calls.demo_db _ SemAcquire wa Hw) as (_ & _ & Hdb). revert Hf.
  unfold User.FindByPhone, sql_query. generalize dependent (handle SemAcquire wa).2. intros v0 Hdb.
  match goal with |- run (Vis ?e Ret ≫= ?k) v0 = _ -> _ => change (Vis e Ret ≫= k) with (Vis e k) end.
  rewrite run_vis, run_ret. intros E. apply (f_equal fst) in E. cbn [fst] in E.
  rewrite mini_query, Hdb in E. vm_compute in E. injection E as <-. vm_compute. done.
Qed.

Lemma login_opens_doors_witness :
  let r := run (handleLogin Calls.demo_svc Calls.demo_login) (demo_start ∅) in
  exists tok, login_key (token_message tok) = tok /\
    identity 0 (run (Ws.handleLogin demo_chat 0 (token_message tok)) r.2).2 = (7, "nick", false, true).
Proof.
  intros r.
  assert (frozen (1700000000 * Second) Calls.demo_db (demo_start ∅)) as Hz by (split_and!; reflexivity).
  pose proof (run_frozen _ _ _ _ _ _ Hz (surjective_pairing r)) as Hz1.
  destruct (login_opens_doors Calls.demo_svc demo_chat Calls.demo_login (demo_start ∅) r.2 r.1 demo_shared)
    as (req & u & sess & info & wa & wb & Hp & Hf & Hl & _ & _ & _ & Hdoor).
  - constructor.
  - destruct Hz1 as (_ & Ht & _). change (clock r.2) with (m_clock r.2). rewrite Ht. split; [discriminate|reflexivity].
  - apply surjective_pairing.
  - vm_compute. reflexivity.
  - pose proof (later_kept _ _ _ (mini_frozen _ _) Hl Hz) as Hza. vm_compute in Hp. injection Hp as <-.
    destruct (demo_found _ wa wb u Hza Hf) as (Hst & Hid & Hnick).
    destruct (Hdoor Hst) as (Hexp & Hkey & Hall). exists (Session.AccessToken sess). split; [exact Hkey|].
    set (w3 := run (Ws.handleLogin _ _ _) r.2).
    assert (w3 = (tt, w3.2)) as E by (by destruct w3 as [[] ?]).
    destruct (run_frozen _ _ _ _ _ _ Hz1 E) as (_ & Ht3 & _). destruct Hz1 as (_ & Ht1 & _).
    destruct (Hall r.2 w3.2) as [Hchat _].
    + split_and!; [vm_compute; constructor|reflexivity|reflexivity].
    + change (clock w3.2) with (m_clock w3.2). rewrite Ht3. etrans; [|exact Hexp]. vm_compute. discriminate.
    + destruct (Hchat 0%nat _ Hkey E) as [_ Hident]. rewrite <- Hid, <- Hnick. apply Hident. vm_compute. eexists. reflexivity.
Defined.

Definition demo_logout : CallReq := Calls.demo_req "logout" "ab" [].

Lemma logout_closes_doors_witness :
  let w := demo_start Calls.ghost_keys in
  let r := run (handleLogout Calls.demo_svc demo_logout) w in
  let w3 := (run (Ws.handleLogin demo_chat 0 (token_message "ab")) r.2).2 in
  identity 0 (run (Ws.handleLogin demo_chat 0 (token_message "ab")) w).2 = (9, "n", false, true) /\
  Ws.erred demo_chat 0 Text.ErrCodeUnauthorized "invalid session" (hub_of r.2) r.2 w3.
Proof.
  intros w r w3. split; [vm_compute; reflexivity|].
  destruct (logout_closes_doors Calls.demo_svc demo_chat demo_logout w r.2 r.1 demo_shared) as (_ & _ & Hall).
  - constructor.
  - discriminate.
  - reflexivity.
  - apply surjective_pairing.
  - refine (proj1 (Hall r.2 w3 _) 0%nat (token_message "ab") _ _).
    + split_and!; [vm_compute; constructor|reflexivity|reflexivity].
    + vm_compute. reflexivity.
    + unfold w3. by destruct (run _ r.2) as [[] ?].
Defined.

(** The database once the new user's row is in. *)
Definition newcomer_db (u : User.User) (q : string) (args : list Sql.sqlval) : res Sql.answer :=
  match args with
  | [Sql.SText _; Sql.SText _] => Ok (Sql.Answer [User.insert_args u] None None)
  | _ => Ok (Sql.Answer [] None None)
  end.
Definition demo_first_login : CallReq := Calls.demo_req "login" ""
  [("accountType", jint 1); ("countryCode", JStr "86"); ("phone", JStr "13900139000"); ("loginMode", jint 1);
   ("loginType", jint 1); ("password", JStr "p"); ("pwdType", jint 2); ("plat", jint 3)].

Lemma mini_token w e : (handle SemAcquire (w : MiniWorld)).1 = Some e -> ctx_done e = true.
Proof.
  unfold handle, mini_world, mini_handle. cbn [m_side m_tick set_clock].
  unfold Semaphore.Acquire, get, put, mini_ctx. cbv [mbind St_bind mret St_ret runSt]. cbn [Semaphore.ctx_err Semaphore.take_token].
  destruct (s_sem (m_side w)); [|discriminate]. destruct (_ && _); [discriminate|]. cbn. by intros [= <-].
Qed.

Lemma newcomer_keeps u : keeps_row Calls.demo_svc u (fun w : MiniWorld => s_db (m_side w) = newcomer_db u).
Proof.
  split.
  - intros X e v Hv. unfold handle, mini_world, mini_handle. destruct e; repeat case_match; exact Hv.
  - intros v Hv. rewrite mini_query, Hv. reflexivity.
  - intros v e _. apply mini_token.
Qed.

Lemma registered_logs_in_witness :
  let r := run (handleRegister Calls.demo_svc Calls.demo_register) (Calls.demo_world Calls.demo_codes) in
  exists u, (User.insert_sql initial_schema, User.insert_args u) ∈ sql_log r.2 /\
    let w2 := set_db (newcomer_db u) (fun _ _ => Ok tt) (Calls.demo_world ∅) in
    let_in (run (handleLogin Calls.demo_svc demo_first_login) w2).1.
Proof.
  intros r. destruct (parse_body as_registerReq (ParamJson Calls.demo_register)) as [req|] eqn:Hreq;
    [|vm_compute in Hreq; discriminate Hreq].
  pose proof Hreq as Er. vm_compute in Er. injection Er as <-.
  destruct (registered_logs_in Calls.demo_svc Calls.demo_register _ (Calls.demo_world Calls.demo_codes) r.2 r.1 Hreq)
    as (u & Hin & _ & _ & _ & _ & Hlogin).
  - constructor.
  - split; [discriminate|vm_compute; reflexivity].
  - vm_compute. reflexivity.
  - apply surjective_pairing.
  - vm_compute. reflexivity.
  - exists u. split; [exact Hin|]. intros w2.
    destruct (parse_body as_loginReq (ParamJson demo_first_login)) as [lreq|] eqn:Hl;
      [|vm_compute in Hl; discriminate Hl].
    pose proof Hl as El. vm_compute in El. injection El as <-.
    refine (Hlogin _ (fun w : MiniWorld => s_db (m_side w) = newcomer_db u) demo_first_login _ w2 _ _
      (newcomer_keeps u) eq_refl Hl _ _ _ _ (surjective_pairing _)); [|vm_compute; reflexivity..].
    vm_compute in Hin. apply list_elem_of_singleton in Hin. injection Hin as Hu. clear -Hu. destruct u. vm_compute in Hu. cbn [User.UID]. rewrite Hu. reflexivity.
Defined.

(** Within the same minute: the number once more is refused, the number after
    one space and after two is sent a code. *)
Definition demo_spelling (n : nat) : CallReq := Calls.demo_req "sms_getCode" ""
  [("countryCode", JStr "86"); ("phone", JStr (pad n "13900139000")); ("type", jint 1)].

Example spelling_limits :
  let get n w := run (handleSmsGetCode Calls.demo_svc (demo_spelling n)) w in
  let r := get O (Calls.demo_world ∅) in
  code_of r.1 = CodeOK /\ code_of (get O r.2).1 = CodeRateLimited /\
  code_of (get 1%nat r.2).1 = CodeOK /\ code_of (get 2%nat (get 1%nat r.2).2).1 = CodeOK.
Proof. vm_compute. split_and!; reflexivity. Qed.
End System.
