(* ===== verification/Main.v ===== *)
(** * The two processes (src/cmd/api/apipro.go, src/cmd/rpc/apipro.go)

    The bodies of the two [main] functions as statements, some deferred; what
    the gateway makes of them when a request comes in, the framework's router
    being a parameter; and what the RPC service's order of start and stop means
    for its refresh scheduler. *)

From S2P Require Import Prelude GoStr Codec Json Hub Env RateLimit Cache Scheduler WsChat.
From S2P Require Import Logic Calls Transport Gateway Front.

Module Main.
Import Transport Logic Gateway.

(** ** Function bodies with deferred calls *)
Section body.
Context {A : Type}.

Inductive stmt : Type := Do (a : A) | Defer (a : A).

(** The statements in order, then the deferred calls, the last one first. *)
Fixpoint exec (deferred : list A) (body : list stmt) : list A :=
  match body with
  | [] => deferred
  | Do a :: body => a :: exec deferred body
  | Defer a :: body => exec (a :: deferred) body
  end.

Definition done_by (body : list stmt) : list A := omap (fun s => match s with Do a => Some a | Defer _ => None end) body.
Definition deferred_by (body : list stmt) : list A := omap (fun s => match s with Defer a => Some a | Do _ => None end) body.

(** Nothing deferred runs before the body is over, and then in reverse. *)
Lemma exec_split body : forall deferred, exec deferred body = done_by body ++ rev (deferred_by body) ++ deferred.
Proof.
  induction body as [|[a|a] body IH]; intros deferred; cbn; [reflexivity|by rewrite IH|].
  rewrite IH, <- app_assoc. reflexivity.
Qed.
End body.
Arguments stmt : clear implicits.

(** ** The RPC service's main *)
Inductive rpc_action : Type :=
| RParse | RLoad | RNewContext
| SchedulerStart | SchedulerStop
| RNewServer (reflection : bool)      (* the service registered, with reflection or not *)
| RServerStop | RNewRoot | RCancel | RAnnounce
| RServe.                             (* s.Start(), which returns when the server is told to stop *)

(** The framework's names of the two modes are its own. *)
Definition reflected (DevMode TestMode mode : string) : bool := String.eqb mode DevMode || String.eqb mode TestMode.

Definition rpc_main (reflection : bool) : list (stmt rpc_action) :=
  [Do RParse; Do RLoad; Do RNewContext; Do SchedulerStart; Defer SchedulerStop;
   Do (RNewServer reflection); Defer RServerStop; Do RNewRoot; Defer RCancel; Do RAnnounce; Do RServe].

(** What an action does to the scheduler; while any other lasts, its
    goroutines and the clock go on. *)
Definition runs_on : relation Scheduler.sys :=
  rtc (fun s s' => exists l, l <> Scheduler.Stop /\ Scheduler.act l s = Some s').
#[export] Instance runs_on_preorder : PreOrder runs_on.
Proof. unfold runs_on. apply _. Qed.

Inductive effect (t : Z) (jobs : list Cache.Legacy.RefreshJob) :
    rpc_action -> option Scheduler.sys -> option Scheduler.sys -> Prop :=
| EStart o : effect t jobs SchedulerStart o (Some (Scheduler.Start t jobs))
| EStop s s' : Scheduler.act Scheduler.Stop s = Some s' -> effect t jobs SchedulerStop (Some s) (Some s')
| EIdle a : a <> SchedulerStart -> a <> SchedulerStop -> effect t jobs a None None
| EOther a s s' : a <> SchedulerStart -> a <> SchedulerStop -> runs_on s s' -> effect t jobs a (Some s) (Some s').

Inductive effects (t : Z) (jobs : list Cache.Legacy.RefreshJob) :
    list rpc_action -> option Scheduler.sys -> option Scheduler.sys -> Prop :=
| ENil o : effects t jobs [] o o
| ECons a l o o1 o2 : effect t jobs a o o1 -> effects t jobs l o1 o2 -> effects t jobs (a :: l) o o2.

Lemma runs_on_alive s s' : runs_on s s' -> Scheduler.stopped s' = Scheduler.stopped s.
Proof.
  induction 1 as [|s s1 s' (l & Hl & Ha) _ IH]; [reflexivity|]. rewrite IH.
  destruct l; cbn [Scheduler.act] in Ha; try (by destruct Hl);
    try (unfold Scheduler.on_worker in Ha; destruct (Scheduler.workers s !! i) as [w|]; [|discriminate Ha];
         cbn [mbind option_bind] in Ha; destruct (Scheduler.worker_act _ _ _ _); [|discriminate Ha]; by injection Ha as <-).
  destruct (0 <=? d); [by injection Ha as <-|discriminate Ha].
Qed.

Lemma stop_stops s s' : Scheduler.act Scheduler.Stop s = Some s' -> Scheduler.stopped s' = true.
Proof. cbn. destruct (Scheduler.stopped s); [discriminate|]. by intros [= <-]. Qed.

(** The scheduler is up as long as the service answers: main starts it before
    the server exists, the server is stopped first, and the scheduler's Stop is
    the last thing main does.  It is called once, on a scheduler that was not
    stopped, so the channel is not closed twice; and after it every goroutine
    of the scheduler can return. *)
Theorem scheduler_outlives_server (reflection : bool) (t : Z) (jobs : list Cache.Legacy.RefreshJob) o
    (Hrun : effects t jobs (exec [] (rpc_main reflection)) None o) :
  exists s s', runs_on (Scheduler.Start t jobs) s /\ Scheduler.stopped s = false /\
    Scheduler.act Scheduler.Stop s = Some s' /\ o = Some s' /\
    exists s2, rtc Scheduler.step s' s2 /\
      Forall (fun w => Scheduler.at_ w = Scheduler.Returned) (Scheduler.workers s2).
Proof.
  cbn [exec rpc_main] in Hrun.
  repeat match goal with
  | H : effects _ _ (_ :: _) _ _ |- _ => inversion H; subst; clear H
  | H : effects _ _ [] _ _ |- _ => inversion H; subst; clear H
  | H : effect _ _ _ None _ |- _ => inversion H; subst; clear H; try congruence
  | H : effect _ _ _ (Some _) _ |- _ => inversion H; subst; clear H; try congruence
  end.
  match goal with E : Scheduler.act Scheduler.Stop ?s = Some ?s' |- _ =>
    assert (runs_on (Scheduler.Start t jobs) s) as Hup by follow;
    destruct (Scheduler.stop_returns s' (stop_stops _ _ E)) as (s2 & Hs2 & Hret & _); exists s, s' end.
  split_and!; [exact Hup|exact (runs_on_alive _ _ Hup)|assumption|reflexivity|]. by exists s2.
Qed.

(** ** The gateway's main *)
Inductive gateway_action : Type :=
| GParse | GLoad | GNewServer (not_allowed : HttpResp) | GNewContext
| GUse (m : Handler -> Handler)                                 (* server.Use *)
| GRegister (routes : list (string * string * endpoint))
| GNewRoot | GHubRun                                            (* go ctx.ChatHub.Run(rootCtx) *)
| GAnnounce | GServe | GCancel | GServerStop.

Section gateway.
Context (rpc : CallReq -> prog (res CallResp)) (svcCtx : ServiceContext) (float_lit : string -> option string).
Context (readStaticFile : string -> res bytes) (ErrorCtx : string -> HttpResp).

Definition routes : list (string * string * endpoint) := RegisterHandlers rpc svcCtx float_lit readStaticFile ErrorCtx.

Definition gateway_main : list (stmt gateway_action) :=
  [Do GParse; Do GLoad; Do (GNewServer methodNotAllowed); Defer GServerStop; Do GNewContext;
   Do (GUse (corsMiddleware (CorsOrigin (conf svcCtx)))); Do (GUse (limited ErrorCtx (RateLimiter svcCtx)));
   Do (GRegister routes); Do GNewRoot; Defer GCancel; Do GHubRun; Do GAnnounce; Do GServe].

(** ** A request *)

(** Where the framework's router sends a request. *)
Inductive found : Type := Route (rt : string * string * endpoint) | WrongMethod | NoPath.
Context (router : list (string * string * endpoint) -> HttpReq -> found).

(** What the client gets: a response, or the socket of a chat connection. *)
Inductive reply : Type := Wrote (resp : HttpResp) | Upgraded (c : nat).

(** The middlewares of [Use] stand in front of the handlers of the routes, the
    first one outermost; a request without a route meets none of them. *)
Definition middlewares (l : list gateway_action) : list (Handler -> Handler) :=
  omap (fun a => match a with GUse m => Some m | _ => None end) l.
Definition chain (ms : list (Handler -> Handler)) (h : Handler) : Handler := foldr (fun m h => m h) h ms.

(** The chat's route behind the same middlewares; its answer is the socket. *)
Definition serve_chat (hub : Ws.Conf) (incoming : list (bool * bytes)) (wakes : list (Ws.wake * bool)) (r : HttpReq)
    : prog reply :=
  let cors := cors_headers (CorsOrigin (conf svcCtx)) in
  if String.eqb (http_method r) "OPTIONS" then mret (Wrote (MkHttpResp 204 cors [] [])) else
  x ← HTTPMiddleware (Some (RateLimiter svcCtx)) (fun q => Ws.ServeWS hub q incoming wakes) (origin r);
  match x with
  | Served c => mret (Upgraded c)
  | Refused retry err => mret (Wrote (under_headers cors (under_headers [("Retry-After", retry)] (ErrorCtx err))))
  end.

Definition handle_request (incoming : list (bool * bytes)) (wakes : list (Ws.wake * bool)) (r : HttpReq) : prog reply :=
  match router routes r with
  | Route (_, _, HTTP h) => resp ← chain (middlewares (done_by gateway_main)) h no_param r; mret (Wrote resp)
  | Route (_, _, ServeWS hub) => serve_chat hub incoming wakes r
  | WrongMethod => mret (Wrote methodNotAllowed)
  | NoPath => mret (Wrote NotFound)
  end.

(** main's middlewares are those of [serve], in that order. *)
Lemma chain_serve h r : chain (middlewares (done_by gateway_main)) h no_param r = serve svcCtx ErrorCtx h r.
Proof. reflexivity. Qed.

Lemma routes_methods rt : rt ∈ routes -> rt.1.1 = "GET" \/ rt.1.1 = "POST".
Proof.
  assert (forallb (fun rt : string * string * endpoint => String.eqb rt.1.1 "GET" || String.eqb rt.1.1 "POST") routes = true)
    as Hall by reflexivity.
  rewrite forallb_forall in Hall. intros Hin. apply list_elem_of_In in Hin. specialize (Hall rt Hin).
  by rewrite orb_true_iff, !String.eqb_eq in Hall.
Qed.

(** The methods and paths of the table at the end of docs/API.md, without the
    three that exist. *)
Definition documented : list (string * string) :=
  [("POST", "/api/v1/auth/register"); ("POST", "/api/v1/auth/login"); ("POST", "/api/v1/auth/guest");
   ("POST", "/api/v1/auth/refresh"); ("GET", "/api/v1/user/profile"); ("GET", "/api/v1/match/list");
   ("GET", "/api/v1/match/recommend"); ("GET", "/api/v1/match/detail"); ("GET", "/api/v1/match/cates");
   ("GET", "/api/v1/match/cate"); ("GET", "/api/v1/room/detail"); ("GET", "/api/v1/room/schedule");
   ("GET", "/api/v1/room/rank"); ("GET", "/api/v1/commentator/list"); ("GET", "/api/v1/commentator/detail");
   ("GET", "/api/v1/live/list"); ("GET", "/api/v1/live/types"); ("GET", "/api/v1/live/hot");
   ("GET", "/api/v1/admin/cache/stats"); ("POST", "/api/v1/admin/cache/refresh")].

(** The API document is of another program: of the 23 endpoints it lists, the
    gateway has the health page, the chat page and the chat, and no route at
    all under the prefix the document gives to every other one. *)
Theorem documented_routes_absent :
  (forall d, d ∈ documented -> d ∉ routes.*1) /\
  Forall (fun rt => HasPrefix rt.1.2 "/api/v1" = false) routes /\
  forall d, d ∈ [("GET", "/health"); ("GET", "/chat.html"); ("GET", "/ws/chat")] -> d ∈ routes.*1.
Proof.
  assert (forallb (fun rt : string * string * endpoint => negb (HasPrefix rt.1.2 "/api/v1")) routes = true) as Hno by reflexivity.
  rewrite forallb_forall in Hno.
  assert (Forall (fun rt => HasPrefix rt.1.2 "/api/v1" = false) routes) as Hall.
  { apply Forall_forall. intros rt Hin. apply negb_true_iff, Hno. by apply list_elem_of_In. }
  split_and!; [|exact Hall|].
  - intros d Hd Hr. apply list_elem_of_fmap in Hr as (rt & -> & Hrt). rewrite Forall_forall in Hall.
    pose proof (Hall rt Hrt) as Hp. assert (forallb (fun d => HasPrefix d.2 "/api/v1") documented = true) as Hdoc by reflexivity.
    rewrite forallb_forall in Hdoc. specialize (Hdoc rt.1 ltac:(by apply list_elem_of_In)). congruence.
  - assert (forallb (fun d : string * string => existsb (fun rt : string * string * endpoint =>
      String.eqb rt.1.1 d.1 && String.eqb rt.1.2 d.2) routes)
      [("GET", "/health"); ("GET", "/chat.html"); ("GET", "/ws/chat")] = true) as Hyes by reflexivity.
    rewrite forallb_forall in Hyes. intros d Hd. apply list_elem_of_In, Hyes, existsb_exists in Hd as (rt & Hin & E).
    apply andb_true_iff in E as [E1 E2]. apply String.eqb_eq in E1, E2. apply list_elem_of_fmap. exists rt.
    split; [by destruct d, rt as [[m p] e]; cbn in *; subst|by apply list_elem_of_In].
Qed.

(** The framework's router hands a request to a route registered for its
    method, as its documentation says of a route's Method. *)
Definition router_sound : Prop :=
  forall r rt, router routes r = Route rt -> rt ∈ routes /\ rt.1.1 = http_method r.

Context `{Laws W}.

Lemma limited_run l h r w out w' : run (limited ErrorCtx l h no_param r) w = (out, w') ->
  exists ok w1, run (Allow (Some l) (RateLimit.clientIP (origin r))) w = (ok, w1) /\
    if ok : bool then run (h no_param r) w1 = (out, w')
    else w' = w1 /\ out = under_headers [("Retry-After", "60")]
           (ErrorCtx ("rate limit exceeded for " +:+ RateLimit.clientIP (origin r))).
Proof.
  unfold limited, HTTPMiddleware. intros Hrun. apply run_bind_inv in Hrun as (x & v & Hx & Hrun).
  apply run_bind_inv in Hx as (ok & w1 & Ha & Hx). exists ok, w1. split; [exact Ha|].
  destruct ok; cbn [negb] in Hx.
  - apply run_bind_inv in Hx as (y & v2 & Hy & Hx). rewrite run_ret in Hx. injection Hx as <- <-.
    rewrite run_ret in Hrun. by injection Hrun as <- <-.
  - rewrite run_ret in Hx. injection Hx as <- <-. rewrite run_ret in Hrun. by injection Hrun as <- <-.
Qed.

Let cors := cors_headers (CorsOrigin (conf svcCtx)).
Definition refusal (r : HttpReq) : HttpResp :=
  under_headers cors (under_headers [("Retry-After", "60")]
    (ErrorCtx ("rate limit exceeded for " +:+ RateLimit.clientIP (origin r)))).

(** C16. What each request comes to.  Without a route it changes nothing.  With
    one, the global limiter decides first: refused, the handler does not run
    and the answer carries the CORS headers and Retry-After; let through, the
    handler (or the chat) runs in the world the limiter left, and what it
    wrote is sent under the CORS headers. *)
Theorem gateway_answers incoming wakes (r : HttpReq) (w w' : W) (out : reply) (Hrouter : router_sound)
    (Hrun : run (handle_request incoming wakes r) w = (out, w')) :
  match router routes r with
  | WrongMethod => out = Wrote methodNotAllowed /\ w' = w
  | NoPath => out = Wrote NotFound /\ w' = w
  | Route (_, _, e) =>
    exists ok w1, run (Allow (Some (RateLimiter svcCtx)) (RateLimit.clientIP (origin r))) w = (ok, w1) /\
      if ok : bool then
        match e with
        | HTTP h => exists resp, run (h no_param r) w1 = (resp, w') /\ out = Wrote (under_headers cors resp)
        | ServeWS hub => exists c, run (Ws.ServeWS hub (origin r) incoming wakes) w1 = (c, w') /\ out = Upgraded c
        end
      else w' = w1 /\ out = Wrote (refusal r)
  end.
Proof.
  unfold handle_request in Hrun. destruct (router routes r) as [[[m p] e]| |] eqn:Er;
    [|rewrite run_ret in Hrun; by injection Hrun as <- <-..].
  destruct (Hrouter r _ Er) as [Hin Hm]. cbn [fst] in Hm.
  assert (String.eqb (http_method r) "OPTIONS" = false) as Hno.
  { rewrite <- Hm. by destruct (routes_methods _ Hin) as [E|E]; cbn [fst] in E; rewrite E. }
  destruct e as [h|hub].
  - apply run_bind_inv in Hrun as (resp & v & Hs & Hrun). rewrite run_ret in Hrun. injection Hrun as <- <-.
    rewrite chain_serve in Hs. unfold serve, corsMiddleware in Hs. rewrite Hno in Hs.
    apply run_bind_inv in Hs as (resp1 & v1 & Hs & Hr). rewrite run_ret in Hr. injection Hr as <- <-.
    destruct (limited_run _ _ _ _ _ _ Hs) as (ok & w1 & Ha & Hl). exists ok, w1. split; [exact Ha|].
    destruct ok; [by exists resp1|]. destruct Hl as [-> ->]. by split.
  - unfold serve_chat, HTTPMiddleware in Hrun. rewrite Hno in Hrun.
    apply run_bind_inv in Hrun as (x & v & Hx & Hrun). apply run_bind_inv in Hx as (ok & w1 & Ha & Hx).
    exists ok, w1. split; [exact Ha|]. destruct ok; cbn [negb] in Hx.
    + apply run_bind_inv in Hx as (c & v2 & Hc & Hx). rewrite run_ret in Hx. injection Hx as <- <-.
      rewrite run_ret in Hrun. injection Hrun as <- <-. by exists c.
    + rewrite run_ret in Hx. injection Hx as <- <-. rewrite run_ret in Hrun. by injection Hrun as <- <-.
Qed.

(** The CORS preflight is never answered: every route is for GET or POST, so
    an OPTIONS request finds none, and what it gets has no
    Access-Control-Allow-Origin; the branch of corsMiddleware that would answer
    204 with the headers is out of reach. *)
Theorem preflight_refused incoming wakes (r : HttpReq) (w : W) (Hrouter : router_sound)
    (Hmethod : http_method r = "OPTIONS") :
  exists resp, run (handle_request incoming wakes r) w = (Wrote resp, w) /\ (Status resp = 405 \/ Status resp = 404) /\
    Forall (fun kv => kv.1 <> "Access-Control-Allow-Origin") (Headers resp) /\
    Status (run (corsMiddleware (CorsOrigin (conf svcCtx)) (fun _ _ => mret NotFound) no_param r) w).1 = 204.
Proof.
  unfold handle_request. destruct (router routes r) as [rt| |] eqn:Er.
  - destruct (Hrouter r _ Er) as [Hin Hm]. rewrite Hmethod in Hm.
    destruct (routes_methods _ Hin) as [E|E]; rewrite E in Hm; discriminate Hm.
  - exists methodNotAllowed. split; [reflexivity|]. split; [by left|]. split; [by repeat constructor|].
    unfold corsMiddleware. by rewrite Hmethod.
  - exists NotFound. split; [reflexivity|]. split; [by right|]. split; [by repeat constructor|].
    unfold corsMiddleware. by rewrite Hmethod.
Qed.
End gateway.

(** ** Concrete requests *)

(** A router that knows exact paths only. *)
Definition exact_router (rts : list (string * string * endpoint)) (r : HttpReq) : found :=
  let here (rt : string * string * endpoint) := String.eqb rt.1.2 (Path (origin r)) in
  match List.find (fun rt => String.eqb rt.1.1 (http_method r) && here rt) rts with
  | Some rt => Route rt
  | None => if existsb here rts then WrongMethod else NoPath
  end.

Lemma exact_router_sound rpc svcCtx float_lit readStaticFile ErrorCtx :
  router_sound rpc svcCtx float_lit readStaticFile ErrorCtx exact_router.
Proof.
  intros r rt. unfold exact_router. destruct (List.find _ _) as [rt1|] eqn:Ef; [|by destruct (existsb _ _)].
  intros [= <-]. apply find_some in Ef as [Hin Hm]. apply andb_true_iff in Hm as [Hm _]. apply String.eqb_eq in Hm.
  split; [by apply list_elem_of_In|exact Hm].
Qed.

Definition too_many (err : string) : HttpResp := http_error 429 err.
Definition demo_handle : HttpReq -> prog reply :=
  handle_request Front.demo_service Front.demo_gateway Some (fun _ => Err ErrCanceled) too_many exact_router [] [].
Definition demo_health : HttpReq :=
  MkHttpReq (MkRequest "" "" "1.2.3.4:5" "/health") "GET" "" "" "" ([], None) [] (fun _ => "").
Definition demo_preflight : HttpReq :=
  MkHttpReq (MkRequest "" "" "1.2.3.4:5" "/login/login") "OPTIONS" "" "" "" ([], None) [] (fun _ => "").

(** The health page is served under the limit of 120 a minute; the preflight of
    the login gets 405. *)
Lemma gateway_answers_witness :
  let out := run (demo_handle demo_health) (Calls.demo_world ∅) in
  exists w1 resp, run (Allow (Some (RateLimiter Front.demo_gateway)) "1.2.3.4") (Calls.demo_world ∅) = (true, w1) /\
    out.1 = Wrote (under_headers (cors_headers "") resp).
Proof.
  intros out.
  pose proof (gateway_answers Front.demo_service Front.demo_gateway Some (fun _ => Err ErrCanceled) too_many exact_router
    [] [] demo_health (Calls.demo_world ∅) out.2 out.1 (exact_router_sound _ _ _ _ _) (surjective_pairing _)) as Hall.
  cbn [exact_router] in Hall. destruct Hall as (ok & w1 & Ha & Hh).
  destruct ok.
  - destruct Hh as (resp & _ & Ho). exists w1, resp. split; [exact Ha|exact Ho].
  - apply (f_equal fst) in Ha. vm_compute in Ha. discriminate Ha.
Defined.

Lemma preflight_refused_witness : exists resp,
  run (demo_handle demo_preflight) (Calls.demo_world ∅) = (Wrote resp, Calls.demo_world ∅) /\ Status resp = 405.
Proof.
  destruct (preflight_refused Front.demo_service Front.demo_gateway Some (fun _ => Err ErrCanceled) too_many exact_router
    [] [] demo_preflight (Calls.demo_world ∅) (exact_router_sound _ _ _ _ _) eq_refl) as (resp & Hrun & [Hs|Hs] & _ & _).
  - exists resp. split; [exact Hrun|exact Hs].
  - exfalso. change (run _ (Calls.demo_world ∅)) with (Wrote methodNotAllowed, Calls.demo_world ∅) in Hrun.
    injection Hrun as <-. discriminate Hs.
Defined.
End Main.
